(* ===== verification/_CoqProject ===== *)
-Q . S2P
Prelude.v
Dram.v
Cache.v
L2Facts.v
CacheFacts.v
CacheSpec.v
WorkingSet.v
Tlb.v
Cpu.v
I8259.v
Mmio.v
Vga.v
WpPool.v
WpSpec.v
Machine.v
Memory.v
MemFacts.v
DemoMachine.v
PageSpec.v
SegMem.v
Devices.v
Decode.v
Arith.v
Logic.v
DataMov.v
ConTran.v
StringOps.v
SysIO.v
Exec.v
RepSpec.v
Expr.v
ExprSpec.v
ElfTables.v
ElfSpec.v
CpuExec.v
Ui.v
StackSpec.v
IntrSpec.v
ArithSpec.v
BranchSpec.v
DecodeSpec.v
Isa.v
IsaSpec.v
IsaIntr.v
RunSpec.v
IntrRunSpec.v
FloatPatch.v
FloatPatchSpec.v
UiSpec.v
ExecType.v
KernelIO.v
IdeSpec.v
KernelDisk.v
KernelDiskSpec.v
Kvm.v
KvmSpec.v
KernelSys.v
KernelSysSpec.v
KernelMain.v
KernelMainSpec.v
Float.v
FloatSpec.v
GameScreen.v
ScreenSpec.v
Typing.v
TypingLists.v
TypingSpec.v
RedrawSpec.v
GameSpec.v
Palette.v
PaletteSpec.v
