(* ===== verification/Prelude.v ===== *)
(** A model of NEMU, an emulator of a 32-bit x86 machine ([src/nemu]), of the kernel that
    runs on it ([src/kernel]), of the game the build selects for it ([src/game/src/typing])
    and of the fixed-point library of its guests ([src/lib-common/FLOAT]), with the theorems
    that say what they do.

    * The program and its parts

    [main] ([nemu/src/main.c]) loads the tables of an executable, tests the register file,
    sets the machine up and reads commands.  A command runs instructions ([cpu_exec]): each
    round fetches and executes one at EIP through the segmented, paged and cached memory,
    evaluates the watchpoints, lets the devices move on and takes an interrupt.  The
    machine is one record ([Machine.Machine]) of the components' states; every operation of
    the source is a function of the same name in a state monad ([Prelude.M]) whose outcomes
    are a value, a [longjmp], or a failure: an [assert], an operation C leaves undefined,
    [exit], or a loop out of fuel.

    * Files

    - [Prelude]: words with their wrap-around, the monad and its invariants ([keeps]), runs
      that never want fuel ([no_fuel]) and weakest preconditions ([wp]), C arrays, little-endian bytes, lemmas and tactics.
    - [Dram] ([memory/dram.c]), [Cache] ([memory/cache.c]), [Tlb] ([memory/TLB.c]),
      [Memory] ([memory/memory.c], the segment and page translation of it).  Facts:
      [L2Facts], [CacheFacts], [CacheSpec], [WorkingSet], [MemFacts], [PageSpec].
    - [Cpu] (registers, EFLAGS, descriptors, [reg_test]); [I8259], [Vga], [Mmio] (both I/O
      buses), [Devices] (serial, timer, keyboard, disk, start-up of devices).
    - [Machine] (the whole state and the decoder's operands), [DemoMachine] (concrete
      machines), [SegMem] (the interface [DataMem] of segmented memory, its flat instance,
      and the rules to run instructions against it).
    - [Decode] ([cpu/decode]), [Arith], [Logic], [DataMov], [ConTran], [StringOps], [SysIO]
      (the templates of [cpu/exec], one definition per template and helper, at the three
      operand widths), [Exec] (opcode tables, groups, prefixes).  Facts: [ArithSpec],
      [DecodeSpec], [BranchSpec], [StackSpec], [IntrSpec], [RepSpec]; [Isa], an abstract
      processor, and [IsaSpec], that [exec] implements each of its instructions.
    - [WpPool] ([debug/watchpoint.c]), [Expr] ([debug/expr.c]), [ElfTables]
      ([debug/elf.c]), [Ui] ([debug/ui.c], [main.c]).  Facts: [WpSpec], [ExprSpec],
      [ElfSpec], [UiSpec].
    - [CpuExec] ([monitor/cpu-exec.c], [monitor/monitor.c], [device/sdl.c]); [RunSpec]: the
      main loop implements the abstract processor; [IsaIntr], that processor with the timer's
      interrupt and the instructions about interrupts, and [IntrRunSpec]: the main loop
      implements it too; [ExecType]: the invariant of the whole emulator, of the machine's
      types, the interrupt controllers and the watchpoint pool.
    - [KernelIO], [KernelDisk], [Kvm], [KernelSys]: the guest kernel ([kernel/src]: port
      and disk drivers, sector buffers, page tables, segments and gates, interrupt
      dispatch, system calls, ELF loader), each over an interface that says what it needs
      of the machine; [KernelMain] ([start.S], [main.c]): the kernel's whole state and its
      start.  Facts: [IdeSpec] (the driver run on the emulated controller),
      [KernelDiskSpec], [KvmSpec], [KernelSysSpec], [KernelMainSpec].
    - [Float] ([lib-common/FLOAT]), [FloatPatch] (the patches of the C library's machine code
      in [FLOAT_vfprintf.c], and that code); [FloatSpec], [FloatPatchSpec] (the patched code
      on the emulator, through [IsaSpec] and [RunSpec]).
    - [GameScreen] ([game/src/common/device/video.c], [font.c]), [Typing] ([game/src/typing],
      [linklist.h], [timer.c], [common/main.c]), [Palette] ([palette.c]).  Facts:
      [ScreenSpec] (text in the buffer), [TypingLists] (the linked lists), [TypingSpec] (the
      operations on the list of letters), [RedrawSpec] (the picture), [GameSpec] (the main
      loop), [PaletteSpec] (the palette driver run on the emulated VGA).

    * Interfaces

    [FlatMemory] (hardware memory as one array of bytes) is what [PageSpec] needs; the
    caches implement it on a working set ([cached_memory]).  [DataMem] is what instructions
    need; [flat_data] derives it from [FlatMemory].  [DiskDevice] is what the sector buffers
    need; [emulated_device] derives it from the disk controller of [Devices].  The page
    tables [Kvm] builds are read with the very [translate] of [PageSpec].

    * Theorems

    - Programs: [cpu_exec] runs the machine code of any program of an abstract processor (moves,
      loads and stores with every addressing mode, arithmetic and logic, stack, calls and
      jumps on all sixteen conditions: [Isa]) as that processor runs it, whatever the timer
      and the keyboard do while interrupts are masked ([cpu_exec_runs]).  With interrupts
      enabled it runs the program and its handlers as the processor with interrupts does,
      for every schedule of the timer ([cpu_exec_takes_interrupts]): an interrupt is taken
      between instructions, a handler that keeps its frame returns to where it interrupted
      ([leave_enter]), but it can be interrupted itself ([reentry_loses_ticks]).
    - Memory: both cache levels and DRAM are one flat memory ([cache_refines_flat_memory],
      [dram_is_flat]) as long as no dirty line is replaced, which the code does wrongly:
      what memory then holds is stated byte by byte ([dirty_replacement_loses_store]); from [init_cache] on a working set of 4 MB never
      gets there ([window_runs_flat]).  [page_translate] with its TLB is the page walk;
      linear accesses, also across pages, read and write the bytes they name.
    - Interrupts: the controllers never fail and offer the pending line of highest priority;
      [raise_intr] and [iret] are inverse.
    - Instructions: every encoding of a memory operand is read back
      ([modrm_memory_operand]); results and flags of the arithmetic, exact quotients,
      compare and branch, call and return, pusha and popa; [rep movs], from its prefix byte
      through the opcode table, is a block copy ([rep_movs_copies]).
    - The whole emulator: from its start, through every instruction, command and host input,
      the controllers are driven only by the timer, the keyboard and the disk and by
      acknowledges while INTR is up, so that INTR is up exactly when a line is pending; the
      watchpoint pool is in a state of the abstract one, and testing the watchpoints ends;
      registers, descriptor registers, operands and ports keep their ranges
      ([session_invariant]).
    - The debugger: the watchpoint pool gives each of its 32 nodes out once, and leaves a dead
      object on its free list ([pool_refines]); a printed expression is read back and evaluated to its value
      ([expr_value]); evaluating any text ends ([eval_terminates]); symbol tables are
      read back ([elf_round_trip]); [bt] prints the chain of frames.
    - The kernel: the disk driver on the emulated controller reads and writes sectors;
      the buffers are a flat disk, and dirty ones reach the disk; the page tables and
      descriptor tables map what they should; interrupt handlers run in order; the write
      system call reaches the host.  All of it together: from the first instruction of
      [start.S] the kernel sets itself up, loads the executable on the disk and calls its
      entry, with memory exactly the image of its segments ([boot_runs_program]).
    - FLOAT: division, conversion and square root against their mathematical definition;
      [init_FLOAT_vfprintf] makes the library's [printf] call [format_FLOAT] with the right
      arguments and take them from the argument list, without a floating-point instruction
      ([vfprintf_calls_format_FLOAT], [ppfs_setargs_takes_double]).
    - The typing game: its doubly linked lists in a static pool are lists of letters
      ([letters_refine_list]); the screen shows the letters and the counts and nothing else
      ([redraw_screen_shows]); a game of any length never fails ([typing_never_fails]): a
      letter lives at most 453 ticks and one is born every 33, so there are at most 14, far
      from the pool's 1000.  Its palette driver loads the emulated VGA's palette, but cannot
      read it back ([palette_write_read]).

    * Bounds and fuel

    Recursion that the code bounds only by its data has fuel.  Cache accesses that cross
    lines nest at most twice and then end ([cache_nesting_enough]); [eval] recurses on fewer
    tokens, of which there are 32, and ends ([eval_terminates]); both theorems say that the
    result is never the failure that stands for missing fuel ([EFuel]), as well as that more
    fuel changes nothing.  The watchpoint lists have 32 nodes ([WpPool.walk_fuel] is 64;
    [session_invariant] says that testing them ends), the letters' pool 1001 ([Typing.list_fuel]); [sqrt] needs 29 rounds ([sqrt_correct]).  [exec] takes fuel
    for prefixes and [rep], and [cpu_exec] for its rounds: any instruction can be prefixed
    and any program can loop, so these are inputs, and theorems hold for all of them.

    * Parameters

    [LibcRand] is the C library's generator; [StackJunk] the indeterminate bytes of a local
    buffer; the palette's colours, the contents of the files, SDL's events and the number of
    timer signals between two instructions are inputs, as is what the host grants at the
    start ([CpuExec.HostStart]).  [mm_malloc] of the kernel is a binary object file, and the
    linker's addresses are arguments.  The two stretches of the C library that
    [init_FLOAT_vfprintf] patches are the bytes of [uclibc/lib/libc.a].

    * Not modelled

    The text printed on the terminal (the emulator's log, the disassembly, the messages);
    what a command of the debugger prints is a value ([Ui.Out]).  The formatting of
    [printk]'s text by the C library's [vsnprintf], the DMA path of the kernel's driver (it
    panics), the interruption of its start and its drivers by interrupts, and paging under
    the kernel's own accesses ([KernelMain.k_mem] is the memory it addresses; [KvmSpec] says
    what the tables map).  The port of SDLPAL ([src/game/src/nemu-pal]), which is
    third-party, the test cases ([src/testcase]) and the C library the guests are linked
    with.  Interleavings of the timer signal with the middle of an instruction: the signal
    is taken between instructions.  The typing game's interrupts are delivered where it
    halts for them ([wait_intr]), not between its other statements.

    * Next

    The flags of the shifts, the widening moves, [lods], [stos], [scas] and [cmps] under
    [rep]; more of the instructions in [Isa], and the keyboard's and the disk's interrupts in
    [IsaIntr]. *)
From Stdlib Require Export ZArith Lia ZifyBool.
From stdpp Require Export base tactics list gmap numbers.

#[global] Open Scope Z_scope.

(** * Machine words

    A w-bit unsigned integer of the C code is a [Z] in [0, 2^w); the wrap-around
    of an assignment to a [uintW_t] is [wrap w], the value read through an
    [intW_t] is [sgn w]. *)
Definition wrap (w x : Z) : Z := x mod 2 ^ w.

Definition sgn (w x : Z) : Z :=
  let y := x mod 2 ^ w in if y <? 2 ^ (w - 1) then y else y - 2 ^ w.

Abbreviation u8 := (wrap 8).
Abbreviation u16 := (wrap 16).
Abbreviation u32 := (wrap 32).
Abbreviation u64 := (wrap 64).
Abbreviation s8 := (sgn 8).
Abbreviation s16 := (sgn 16).
Abbreviation s32 := (sgn 32).
Abbreviation s64 := (sgn 64).

(** [~0u >> ((4 - len) << 3)], the length mask the memory code uses throughout. *)
Definition len_mask (len : Z) : Z := Z.shiftr (2 ^ 32 - 1) (Z.shiftl (4 - len) 3).


(** * The error monad

    What can end a handler besides returning: a failed [assert]/[Assert]/[panic],
    an operation C leaves undefined, the host's [exit], and (for the loops the
    model bounds) running out of fuel.  [Jump] is the [longjmp] of [raise_intr]. *)
Inductive err := EAssert | EUndefined | EExit | EFuel.

#[export] Instance err_eq_dec : EqDecision err.
Proof. solve_decision. Defined.

Inductive result (S A : Type) :=
| Ok (a : A) (s : S)
| Jump (s : S)
| Fail_ (e : err).
Arguments Ok {S A} a s.
Arguments Jump {S A} s.
Arguments Fail_ {S A} e.

Definition M (S A : Type) : Type := S → result S A.

#[export] Instance M_ret S : MRet (M S) := λ A a s, Ok a s.
#[export] Instance M_bind S : MBind (M S) := λ A B k m s,
  match m s with
  | Ok a s' => k a s'
  | Jump s' => Jump s'
  | Fail_ e => Fail_ e
  end.

(** The outcome of a run without its final state. *)
Definition outcome {S A} (r : result S A) : option A + err :=
  match r with Ok a _ => inl (Some a) | Jump _ => inl None | Fail_ e => inr e end.

Lemma outcome_Ok {S A} (m : M S A) s a : outcome (m s) = inl (Some a) → ∃ s', m s = Ok a s'.
Proof. destruct (m s) as [a' s'|s'|e]; cbn; [|discriminate..]. intros [= ->]. now exists s'. Qed.

Definition getS {S} : M S S := λ s, Ok s s.
Definition gets {S A} (f : S → A) : M S A := λ s, Ok (f s) s.
Definition modify {S} (f : S → S) : M S unit := λ s, Ok tt (f s).
Definition fail {S A} (e : err) : M S A := λ _, Fail_ e.
Definition longjmp {S A} : M S A := λ s, Jump s.

(** [assert(b)] *)
Definition cassert {S} (b : bool) : M S unit := if b then mret tt else fail EAssert.

(** Run an operation of a component on the field of a larger state. *)
Definition zoom {S T A} (get : S → T) (put : T → S → S) (m : M T A) : M S A := λ s,
  match m (get s) with
  | Ok a t => Ok a (put t s)
  | Jump t => Jump (put t s)
  | Fail_ e => Fail_ e
  end.

(** [for (i = lo; i < lo + n; i ++) body(i)] *)
Fixpoint for_ {S} (n : nat) (lo : Z) (body : Z → M S unit) : M S unit :=
  match n with
  | O => mret tt
  | S n => _ ← body lo; for_ n (lo + 1) body
  end.

(** [for (i = lo; i < lo + n; i ++) if (p(i)) break;] : the index where it breaks. *)
Fixpoint find_idx (n : nat) (lo : Z) (p : Z → bool) : option Z :=
  match n with
  | O => None
  | S n => if p lo then Some lo else find_idx n (lo + 1) p
  end.

(** * C arrays

    A zero-initialised C array (or one whose every element starts equal): the
    default element and the elements written since.  An index is in range by its
    bit width wherever the model uses [aget]/[aset] directly; where the code can
    index out of range, the model tests the bound. *)
Record arr (A : Type) := Arr { a_dflt : A; a_map : gmap Z A }.
Arguments Arr {A} _ _.
Arguments a_dflt {A} _.
Arguments a_map {A} _.

Definition anew {A} (d : A) : arr A := Arr d ∅.
Definition aget {A} (a : arr A) (i : Z) : A := default (a_dflt a) (a_map a !! i).
Definition aset {A} (i : Z) (x : A) (a : arr A) : arr A := Arr (a_dflt a) (<[i := x]> (a_map a)).

(** * Bytes in memory, little-endian

    [le_load n f i] is the value an [n]-byte access at byte [i] reads, when byte
    [j] of the memory is [f j]; [le_store n i v] writes [n] bytes of [v]. *)
Fixpoint le_load (n : nat) (f : Z → Z) (i : Z) : Z :=
  match n with
  | O => 0
  | S n => f i + 256 * le_load n f (i + 1)
  end.

Fixpoint le_store (n : nat) (i v : Z) (a : arr Z) : arr Z :=
  match n with
  | O => a
  | S n => le_store n (i + 1) (v / 256) (aset i (v mod 256) a)
  end.

(** Byte [k] of [v]. *)
Definition byte_of (v k : Z) : Z := v / 256 ^ k mod 256.

(** [f] with the [len] bytes at [a] replaced by those of [v]: what a store does
    to a flat memory. *)
Definition flat_store (f : Z → Z) (a len v : Z) : Z → Z :=
  λ x, if (a <=? x) && (x <? a + len) then byte_of v (x - a) else f x.

(** [memcpy(dst + d, src + s, n)] on byte arrays. *)
Fixpoint memcpy (n : nat) (d s : Z) (src dst : arr Z) : arr Z :=
  match n with
  | O => dst
  | S n => memcpy n (d + 1) (s + 1) src (aset d (aget src s) dst)
  end.

(** [memset(dst + d, v, n)] *)
Fixpoint memset (n : nat) (d v : Z) (dst : arr Z) : arr Z :=
  match n with
  | O => dst
  | S n => memset n (d + 1) v (aset d v dst)
  end.

(** A C bit field: [n] bits of [x] from bit [lo]. *)
Definition bitfield (x lo n : Z) : Z := Z.land (Z.shiftr x lo) (2 ^ n - 1).

(** Assignment to such a bit field. *)
Definition set_bitfield (x lo n v : Z) : Z :=
  Z.lor (Z.ldiff x (Z.shiftl (2 ^ n - 1) lo)) (Z.shiftl (Z.land v (2 ^ n - 1)) lo).

(** * The C library's rand

    [rand]/[srand] belong to the C library, which leaves the sequence open: the
    model takes any generator. *)
Class LibcRand := {
  rand_state : Type;
  libc_srand : Z → rand_state;
  libc_rand : rand_state → Z * rand_state;
  libc_rand_range : ∀ r, 0 <= fst (libc_rand r) < 2 ^ 31
}.

(** The example generator of ISO C (7.22.2.2), as a concrete instance. *)
Definition iso_srand (seed : Z) : Z := seed.
Definition iso_rand (next : Z) : Z * Z :=
  let next := (next * 1103515245 + 12345) mod 2 ^ 32 in
  ((next / 65536) mod 32768, next).

Lemma iso_rand_range r : 0 <= fst (iso_rand r) < 2 ^ 31.
Proof.
  unfold iso_rand; cbn [fst].
  match goal with |- context [?x mod 32768] => pose proof (Z.mod_pos_bound x 32768) end. lia.
Qed.

Definition IsoRand : LibcRand :=
  {| rand_state := Z; libc_srand := iso_srand; libc_rand := iso_rand;
     libc_rand_range := iso_rand_range |}.

(** The contents of a stack buffer the code reads before writing all of it are
    unspecified: byte [i] of such a buffer is [stack_junk i], any byte. *)
Class StackJunk := {
  stack_junk : Z → Z;
  stack_junk_range : ∀ i, 0 <= stack_junk i < 256
}.

Definition junk0 (_ : Z) : Z := 0.

Lemma junk0_range i : 0 <= junk0 i < 256.
Proof. unfold junk0; lia. Qed.

Definition ZeroJunk : StackJunk := {| stack_junk := junk0; stack_junk_range := junk0_range |}.

(** * Automation *)
#[global] Arguments Z.testbit : simpl never.
#[global] Arguments Z.lor : simpl never.
#[global] Arguments Z.land : simpl never.
#[global] Arguments Z.lxor : simpl never.
#[global] Arguments Z.shiftl : simpl never.
#[global] Arguments Z.shiftr : simpl never.
#[global] Arguments Z.pow : simpl never.
#[global] Arguments Z.modulo : simpl never.
#[global] Arguments Z.div : simpl never.
#[global] Arguments wrap : simpl never.
#[global] Arguments sgn : simpl never.
#[global] Arguments byte_of : simpl never.
#[global] Arguments bitfield : simpl never.
#[global] Arguments set_bitfield : simpl never.
Create HintDb nemu discriminated.
Create Rewrite HintDb arr.

Ltac Zify.zify_post_hook ::= Z.to_euclidean_division_equations.

(** Split the boolean comparisons of the goal and the context. *)
Ltac bsplit :=
  repeat match goal with
  | H : _ && _ = true |- _ => apply andb_prop in H as [? ?]
  | H : (_ <? _) = true |- _ => apply Z.ltb_lt in H
  | H : (_ <? _) = false |- _ => apply Z.ltb_ge in H
  | H : (_ <=? _) = true |- _ => apply Z.leb_le in H
  | H : (_ <=? _) = false |- _ => apply Z.leb_gt in H
  | H : (_ =? _) = true |- _ => apply Z.eqb_eq in H
  | H : (_ =? _) = false |- _ => apply Z.eqb_neq in H
  | |- context [?a <? ?b] => destruct (Z.ltb_spec a b)
  | |- context [?a <=? ?b] => destruct (Z.leb_spec a b)
  | |- context [?a =? ?b] => destruct (Z.eqb_spec a b)
  end.

(** Step a monadic run whose first operation is known. *)
Ltac mstep :=
  unfold cassert, getS, gets, modify, fail, mbind, M_bind, mret, M_ret; cbn beta iota zeta.

Lemma bind_Ok {S A B} (m : M S A) (k : A → M S B) s a s' :
  m s = Ok a s' → mbind k m s = k a s'.
Proof. intros H. unfold mbind, M_bind. now rewrite H. Qed.

Lemma bind_cassert {S B} (b : bool) (k : unit → M S B) s : b = true → (cassert b ≫= k) s = k tt s.
Proof. intros ->. reflexivity. Qed.

Lemma bind_getS {S B} (k : S → M S B) s : (getS ≫= k) s = k s s.
Proof. reflexivity. Qed.

Lemma bind_gets {S A B} (f : S → A) (k : A → M S B) s : (gets f ≫= k) s = k (f s) s.
Proof. reflexivity. Qed.

Lemma bind_modify {S B} (f : S → S) (k : unit → M S B) s : (modify f ≫= k) s = k tt (f s).
Proof. reflexivity. Qed.

Lemma bind_ret {S A B} (a : A) (k : A → M S B) s : (mret a ≫= k) s = k a s.
Proof. reflexivity. Qed.

Lemma bind_bind {S A B C} (m : M S A) (k : A → M S B) (l : B → M S C) s :
  ((m ≫= k) ≫= l) s = (m ≫= λ a, k a ≫= l) s.
Proof. unfold mbind, M_bind. now destruct (m s). Qed.

(** * Words *)
Lemma wrap_range w x : 0 <= w → 0 <= wrap w x < 2 ^ w.
Proof. intros. unfold wrap. apply Z.mod_pos_bound. lia. Qed.

Lemma wrap_small w x : 0 <= x < 2 ^ w → wrap w x = x.
Proof. intros. unfold wrap. now apply Z.mod_small. Qed.

Lemma wrap_add_l w x y : wrap w (wrap w x + y) = wrap w (x + y).
Proof. unfold wrap. now rewrite Zplus_mod_idemp_l. Qed.

Lemma wrap_add_r w x y : wrap w (x + wrap w y) = wrap w (x + y).
Proof. unfold wrap. now rewrite Zplus_mod_idemp_r. Qed.

Lemma wrap_sub_l w x y : wrap w (wrap w x - y) = wrap w (x - y).
Proof. unfold wrap. now rewrite Zminus_mod_idemp_l. Qed.

Lemma wrap_sub_r w x y : wrap w (x - wrap w y) = wrap w (x - y).
Proof. unfold wrap. now rewrite Zminus_mod_idemp_r. Qed.

Lemma wrap_wrap w w' x : 0 <= w <= w' → wrap w (wrap w' x) = wrap w x.
Proof.
  intros. unfold wrap. replace w' with (w + (w' - w)) by lia.
  rewrite Z.pow_add_r by lia. rewrite Z.rem_mul_r by lia.
  rewrite Z.add_mod, Z.mul_comm, Z.mod_mul, Z.add_0_r, !Z.mod_mod; lia.
Qed.

Lemma sgn_range w x : 0 < w → - 2 ^ (w - 1) <= sgn w x < 2 ^ (w - 1).
Proof.
  intros. unfold sgn. pose proof (wrap_range w x ltac:(lia)) as Hr. unfold wrap in Hr.
  assert (2 ^ w = 2 * 2 ^ (w - 1)) by (rewrite <- Z.pow_succ_r by lia; f_equal; lia).
  bsplit; lia.
Qed.

Lemma wrap_sgn w w' x : 0 <= w <= w' → wrap w (sgn w' x) = wrap w x.
Proof.
  intros. rewrite <- (wrap_wrap w w' x) by done. unfold sgn. fold (wrap w' x).
  case_match; [done|]. unfold wrap at 1 3.
  replace (2 ^ w') with (2 ^ (w' - w) * 2 ^ w) by (rewrite <- Z.pow_add_r by lia; f_equal; lia).
  rewrite <- Zminus_mod_idemp_r, Z.mod_mul, Z.sub_0_r by lia. done.
Qed.

Lemma sgn_wrap w x : 0 <= w → sgn w (wrap w x) = sgn w x.
Proof. intros. unfold sgn. fold (wrap w (wrap w x)) (wrap w x). now rewrite wrap_wrap by lia. Qed.

Lemma sgn_plus_mult w x k : sgn w (x + k * 2 ^ w) = sgn w x.
Proof. unfold sgn. now rewrite Z_mod_plus_full. Qed.

Lemma sgn_witness w x : 0 <= w → ∃ k, sgn w x = x + k * 2 ^ w.
Proof.
  intros. unfold sgn. pose proof (Z.div_mod x (2 ^ w) ltac:(lia)) as E. case_match.
  - exists (- (x / 2 ^ w)). lia.
  - exists (- (x / 2 ^ w) - 1). lia.
Qed.

Lemma sgn_small w x : 0 < w → - 2 ^ (w - 1) <= x < 2 ^ (w - 1) → sgn w x = x.
Proof.
  intros Hw Hx. assert (2 ^ w = 2 * 2 ^ (w - 1)) as E by (rewrite <- Z.pow_succ_r by lia; f_equal; lia).
  unfold sgn. rewrite E. destruct (Z.ltb_spec x 0).
  - rewrite <- (Z.mod_unique x (2 * 2 ^ (w - 1)) (-1) (x + 2 * 2 ^ (w - 1))) by lia. bsplit; lia.
  - rewrite Z.mod_small by lia. bsplit; lia.
Qed.

Lemma land_ones_mod x w : 0 <= w → Z.land x (2 ^ w - 1) = x mod 2 ^ w.
Proof. intros. rewrite <- Z.land_ones by done. f_equal. now rewrite Z.ones_equiv, Z.sub_1_r. Qed.

Lemma land_len_mask x len : 1 <= len <= 4 → Z.land x (len_mask len) = x mod 256 ^ len.
Proof.
  intros. unfold len_mask.
  assert (len = 1 ∨ len = 2 ∨ len = 3 ∨ len = 4) as [-> | [-> | [-> | ->]]] by lia;
    [apply (land_ones_mod x 8) | apply (land_ones_mod x 16) | apply (land_ones_mod x 24)
    | apply (land_ones_mod x 32)]; lia.
Qed.

(** A disjoint [lor] is an addition. *)
Lemma lor_shiftl_add a b n : 0 <= n → 0 <= a < 2 ^ n → Z.lor (Z.shiftl b n) a = b * 2 ^ n + a.
Proof.
  intros Hn Ha. rewrite <- Z.shiftl_mul_pow2 by done.
  assert (Z.land (Z.shiftl b n) a = 0) as Hd.
  { apply Z.bits_inj'. intros k Hk. rewrite Z.land_spec, Z.bits_0, Z.shiftl_spec by lia.
    destruct (Z.ltb_spec k n); [rewrite Z.testbit_neg_r by lia; done|].
    rewrite <- (Z.mod_small a (2 ^ n)), Z.mod_pow2_bits_high, andb_false_r by lia. done. }
  rewrite <- Z.lxor_lor, <- Z.add_nocarry_lxor by done. done.
Qed.

(** * Arrays *)
Lemma aget_anew {A} (d : A) i : aget (anew d) i = d.
Proof. unfold aget, anew; cbn. now rewrite lookup_empty. Qed.

Lemma aget_aset {A} (a : arr A) i j x : aget (aset i x a) j = if i =? j then x else aget a j.
Proof.
  unfold aget, aset; cbn. destruct (Z.eqb_spec i j) as [->|].
  - now rewrite lookup_insert_eq.
  - now rewrite lookup_insert_ne.
Qed.

Lemma aget_aset_eq {A} (a : arr A) i x : aget (aset i x a) i = x.
Proof. now rewrite aget_aset, Z.eqb_refl. Qed.

Lemma aget_aset_ne {A} (a : arr A) i j x : i ≠ j → aget (aset i x a) j = aget a j.
Proof. intros. rewrite aget_aset. now apply Z.eqb_neq in H as ->. Qed.

#[export] Hint Rewrite @aget_anew @aget_aset_eq : arr.
#[export] Hint Rewrite @aget_aset_ne using lia : arr.

(** * Little-endian access *)
Definition is_bytes (f : Z → Z) : Prop := ∀ i, 0 <= f i < 256.

Lemma le_load_ext n f g i :
  (∀ k, i <= k < i + Z.of_nat n → f k = g k) → le_load n f i = le_load n g i.
Proof.
  revert i; induction n as [|n IH]; intros i H; cbn; [done|].
  rewrite (H i), (IH (i + 1)) by (lia || (intros; apply H; lia)). done.
Qed.

(** The bytes are read one after the other, wherever they are. *)
Lemma le_load_shift n f g i j :
  (∀ k, 0 <= k < Z.of_nat n → f (i + k) = g (j + k)) → le_load n f i = le_load n g j.
Proof.
  revert i j; induction n as [|n IH]; intros i j H; cbn; [done|].
  rewrite <- (Z.add_0_r i) at 1. rewrite (H 0), Z.add_0_r by lia.
  rewrite (IH (i + 1) (j + 1)); [done|]. intros k Hk.
  rewrite <- !Z.add_assoc. apply (H (1 + k)). lia.
Qed.

Lemma le_load_range n f i : is_bytes f → 0 <= le_load n f i < 256 ^ Z.of_nat n.
Proof.
  intros Hf. revert i; induction n as [|n IH]; intros i; [cbn; lia|].
  rewrite Nat2Z.inj_succ, Z.pow_succ_r by lia. cbn [le_load].
  specialize (IH (i + 1)). specialize (Hf i). lia.
Qed.

Lemma le_load_range_in n f i : (∀ k, i <= k < i + Z.of_nat n → 0 <= f k < 256) →
  0 <= le_load n f i < 256 ^ Z.of_nat n.
Proof.
  revert i; induction n as [|n IH]; intros i Hf; [cbn; lia|].
  rewrite Nat2Z.inj_succ, Z.pow_succ_r by lia. cbn [le_load].
  specialize (IH (i + 1) ltac:(intros; apply Hf; lia)). specialize (Hf i ltac:(lia)). lia.
Qed.

Lemma le_load_app m n f i :
  le_load (m + n) f i = le_load m f i + 256 ^ Z.of_nat m * le_load n f (i + Z.of_nat m).
Proof.
  revert i; induction m as [|m IH]; intros i; [cbn; rewrite Z.add_0_r; lia|].
  rewrite Nat2Z.inj_succ, Z.pow_succ_r by lia. cbn [le_load Nat.add].
  replace (i + Z.succ (Z.of_nat m)) with (i + 1 + Z.of_nat m) by lia. rewrite IH. ring.
Qed.

Lemma le_load_mod m n f i :
  is_bytes f → (m <= n)%nat → le_load n f i mod 256 ^ Z.of_nat m = le_load m f i.
Proof.
  intros Hf Hle. replace n with (m + (n - m))%nat by lia. rewrite le_load_app.
  rewrite (Z.mul_comm (256 ^ _)), Z_mod_plus_full. apply Z.mod_small. now apply le_load_range.
Qed.

Lemma byte_of_range v k : 0 <= byte_of v k < 256.
Proof. unfold byte_of. apply Z.mod_pos_bound. lia. Qed.

Lemma byte_of_0 v : byte_of v 0 = v mod 256.
Proof. unfold byte_of. now rewrite Z.div_1_r. Qed.

Lemma byte_of_succ v k : 0 <= k → byte_of v (k + 1) = byte_of (v / 256) k.
Proof.
  intros. unfold byte_of. rewrite Z.pow_add_r, Z.div_div by lia.
  do 2 f_equal. lia.
Qed.

Lemma byte_of_div v m k : 0 <= m → 0 <= k → byte_of (v / 256 ^ m) k = byte_of v (m + k).
Proof. intros. unfold byte_of. rewrite Z.pow_add_r, Z.div_div by lia. done. Qed.

Lemma byte_of_mod v m k : 0 <= k < m → byte_of (v mod 256 ^ m) k = byte_of v k.
Proof.
  intros. unfold byte_of.
  assert (256 ^ m = 256 ^ k * (256 * 256 ^ (m - k - 1))) as ->.
  { rewrite <- Z.pow_succ_r, <- Z.pow_add_r by lia. f_equal. lia. }
  assert (0 < 256 ^ k) by lia. assert (0 < 256 ^ (m - k - 1)) by lia.
  set (p := 256 ^ k) in *. set (q := 256 ^ (m - k - 1)) in *.
  rewrite Z.rem_mul_r by lia. rewrite (Z.mul_comm p), Z.div_add by lia.
  rewrite (Z.div_small (v mod p)) by (apply Z.mod_pos_bound; lia).
  rewrite Z.add_0_l, Z.rem_mul_r by lia.
  rewrite (Z.mul_comm 256), Z_mod_plus_full, Z.mod_mod by lia. done.
Qed.

Lemma aget_le_store n i v a j :
  aget (le_store n i v a) j =
    if (i <=? j) && (j <? i + Z.of_nat n) then byte_of v (j - i) else aget a j.
Proof.
  revert i v a; induction n as [|n IH]; intros i v a.
  { cbn. bsplit; cbn; done || lia. }
  cbn [le_store]. rewrite IH, aget_aset.
  destruct (Z.eqb_spec i j) as [->|].
  { rewrite Z.sub_diag, byte_of_0. bsplit; cbn; done || lia. }
  bsplit; cbn; try (done || lia).
  rewrite <- byte_of_succ by lia. f_equal. lia.
Qed.

(** What is read when the bytes are those of a number. *)
Lemma le_load_bytes n g a v : (∀ k, 0 <= k < Z.of_nat n → g (a + k) = byte_of v k) →
  le_load n g a = v mod 256 ^ Z.of_nat n.
Proof.
  revert a v; induction n as [|n IH]; intros a v H; [cbn; now rewrite Z.mod_1_r|].
  rewrite Nat2Z.inj_succ, Z.pow_succ_r by lia. cbn [le_load].
  rewrite <- (Z.add_0_r a) at 1. rewrite (H 0), byte_of_0 by lia.
  rewrite (IH (a + 1) (v / 256)); [rewrite Z.rem_mul_r by lia; done|].
  intros k Hk. rewrite <- byte_of_succ by lia. rewrite <- Z.add_assoc, (Z.add_comm 1).
  apply H. lia.
Qed.

(** Reading back what was stored. *)
Lemma le_load_flat_store n f a v :
  le_load n (flat_store f a (Z.of_nat n) v) a = v mod 256 ^ Z.of_nat n.
Proof.
  apply le_load_bytes. intros k Hk. unfold flat_store.
  replace (a + k - a) with k by lia. bsplit; cbn; done || lia.
Qed.

(** Byte [k] of what an access reads. *)
Lemma byte_of_le_load n f i k : is_bytes f → 0 <= k < Z.of_nat n → byte_of (le_load n f i) k = f (i + k).
Proof.
  intros Hf. revert i k; induction n as [|n IH]; intros i k Hk; [lia|]. cbn [le_load].
  pose proof (Hf i). destruct (Z.eqb_spec k 0) as [->|].
  - rewrite byte_of_0, Z.add_0_r, Z.mul_comm, Z_mod_plus_full. now apply Z.mod_small.
  - replace k with (k - 1 + 1) at 1 by lia. rewrite byte_of_succ by lia.
    replace ((f i + 256 * le_load n f (i + 1)) / 256) with (le_load n f (i + 1)) by lia.
    rewrite IH by lia. f_equal. lia.
Qed.

Lemma le_store_bytes n i v a : is_bytes (aget a) → is_bytes (aget (le_store n i v a)).
Proof. intros Ha j. rewrite aget_le_store. destruct (_ && _); [apply byte_of_range|apply Ha]. Qed.

(** A store cut in two, as the code does at a block or page boundary. *)
Lemma flat_store_split f a m n v x :
  0 <= m → 0 <= n →
  flat_store (flat_store f a m (v mod 256 ^ m)) (a + m) n (v / 256 ^ m) x =
  flat_store f a (m + n) v x.
Proof.
  intros. unfold flat_store. bsplit; cbn; try (done || lia).
  all: first [ rewrite byte_of_div by lia; f_equal; lia | now rewrite byte_of_mod by lia ].
Qed.

Lemma flat_store_bytes f a n v : is_bytes f → is_bytes (flat_store f a n v).
Proof. intros Hf i. unfold flat_store. case_match; [apply byte_of_range|done]. Qed.

Lemma flat_store_ext f g a n v x : f x = g x → flat_store f a n v x = flat_store g a n v x.
Proof. intros H. unfold flat_store. now rewrite H. Qed.

(** * Loops *)
Lemma for_app {S} m n lo (body : Z → M S unit) s :
  for_ (m + n) lo body s = (for_ m lo body ≫= λ _, for_ n (lo + Z.of_nat m) body) s.
Proof.
  revert lo s; induction m as [|m IH]; intros lo s; cbn [for_ Nat.add]; [now rewrite bind_ret, Z.add_0_r|].
  rewrite bind_bind. unfold mbind at 1 2, M_bind at 1 2. destruct (body lo s) as [[] s'| |]; [|done..].
  rewrite IH. now replace (lo + Z.of_nat (Datatypes.S m)) with (lo + 1 + Z.of_nat m) by lia.
Qed.

Lemma for_ok {S} (P : Z → S → Prop) n lo (body : Z → M S unit) s :
  P lo s →
  (∀ i s, lo <= i < lo + Z.of_nat n → P i s → ∃ s', body i s = Ok tt s' ∧ P (i + 1) s') →
  ∃ s', for_ n lo body s = Ok tt s' ∧ P (lo + Z.of_nat n) s'.
Proof.
  revert lo s; induction n as [|n IH]; intros lo s H0 Hstep.
  { exists s. cbn. rewrite Z.add_0_r. done. }
  destruct (Hstep lo s) as (s1 & Hb & H1); [lia|done|].
  destruct (IH (lo + 1) s1 H1) as (s2 & Hf & H2).
  { intros i s' Hi. apply Hstep. lia. }
  exists s2. cbn. mstep. rewrite Hb. split; [done|].
  now replace (lo + Z.of_nat (Datatypes.S n)) with (lo + 1 + Z.of_nat n) by lia.
Qed.

Lemma find_idx_Some n lo p i :
  find_idx n lo p = Some i →
  lo <= i < lo + Z.of_nat n ∧ p i = true ∧ ∀ j, lo <= j < i → p j = false.
Proof.
  revert lo; induction n as [|n IH]; intros lo; cbn; [done|].
  destruct (p lo) eqn:Hp; [intros [= <-]; split_and!; [lia|lia|done|lia]|].
  intros (Hr & Hi & Hj)%IH. split_and!; [lia|lia|done|].
  intros j Hj'. destruct (Z.eqb_spec j lo) as [->|]; [done|]. apply Hj. lia.
Qed.

Lemma find_idx_None n lo p :
  find_idx n lo p = None ↔ ∀ j, lo <= j < lo + Z.of_nat n → p j = false.
Proof.
  revert lo; induction n as [|n IH]; intros lo; cbn.
  { split; [intros _ j; lia|done]. }
  destruct (p lo) eqn:Hp.
  { split; [done|]. intros H. rewrite (H lo) in Hp; [done|lia]. }
  rewrite IH. split; intros H j Hj.
  - destruct (Z.eqb_spec j lo) as [->|]; [done|]. apply H. lia.
  - apply H. lia.
Qed.

(** The element found is the only one. *)
Lemma find_idx_unique n lo p i :
  lo <= i < lo + Z.of_nat n → p i = true →
  (∀ j, lo <= j < lo + Z.of_nat n → p j = true → j = i) →
  find_idx n lo p = Some i.
Proof.
  intros Hi Hp Hu. destruct (find_idx n lo p) as [j|] eqn:E.
  - apply find_idx_Some in E as (Hj & Hpj & _). now rewrite (Hu j).
  - rewrite find_idx_None in E. rewrite E in Hp by done. done.
Qed.

Lemma aget_memcpy n d s src dst j :
  aget (memcpy n d s src dst) j =
    if (d <=? j) && (j <? d + Z.of_nat n) then aget src (s + (j - d)) else aget dst j.
Proof.
  revert d s dst; induction n as [|n IH]; intros d s dst; cbn [memcpy].
  { bsplit; cbn; done || lia. }
  rewrite IH, aget_aset. bsplit; cbn; subst; try (done || lia); f_equal; lia.
Qed.

Lemma aget_memset n d v dst j :
  aget (memset n d v dst) j =
    if (d <=? j) && (j <? d + Z.of_nat n) then v else aget dst j.
Proof.
  revert d dst; induction n as [|n IH]; intros d dst; cbn [memset].
  { bsplit; cbn; done || lia. }
  rewrite IH, aget_aset. bsplit; cbn; subst; done || lia.
Qed.

(** * Ranges and bits *)
Lemma range_of_bits w x : 0 <= w → 0 <= x → (∀ i, w <= i → Z.testbit x i = false) → 0 <= x < 2 ^ w.
Proof.
  intros Hw Hx H. replace x with (x mod 2 ^ w); [apply Z.mod_pos_bound; lia|].
  apply Z.bits_inj'. intros i Hi. destruct (Z.ltb_spec i w).
  - now rewrite Z.mod_pow2_bits_low by lia.
  - rewrite Z.mod_pow2_bits_high by lia. symmetry. now apply H.
Qed.

Lemma testbit_above w x i : 0 <= x < 2 ^ w → w <= i → Z.testbit x i = false.
Proof.
  intros Hx Hi. assert (0 <= w) by (destruct (Z.ltb_spec w 0); [rewrite Z.pow_neg_r in Hx by lia; lia|lia]).
  rewrite <- (Z.mod_small x (2 ^ w)) by done. apply Z.mod_pow2_bits_high. lia.
Qed.

Lemma lor_range w a b : 0 <= w → 0 <= a < 2 ^ w → 0 <= b < 2 ^ w → 0 <= Z.lor a b < 2 ^ w.
Proof.
  intros Hw Ha Hb. apply range_of_bits; [done|apply Z.lor_nonneg; lia|].
  intros i Hi. rewrite Z.lor_spec, (testbit_above w a), (testbit_above w b) by done. done.
Qed.

Lemma land_range w a b : 0 <= w → 0 <= a < 2 ^ w → 0 <= Z.land a b < 2 ^ w.
Proof.
  intros Hw Ha. apply range_of_bits; [done|apply Z.land_nonneg; lia|].
  intros i Hi. rewrite Z.land_spec, (testbit_above w a) by done. done.
Qed.

Lemma lxor_range w a b : 0 <= w → 0 <= a < 2 ^ w → 0 <= b < 2 ^ w → 0 <= Z.lxor a b < 2 ^ w.
Proof.
  intros Hw Ha Hb. apply range_of_bits; [done|apply Z.lxor_nonneg; lia|].
  intros i Hi. rewrite Z.lxor_spec, (testbit_above w a), (testbit_above w b) by done. done.
Qed.

Lemma testbit_pow2 n i : 0 <= n → 0 <= i → Z.testbit (Z.shiftl 1 n) i = (i =? n).
Proof.
  intros. rewrite Z.shiftl_1_l, Z.pow2_bits_eqb by done. apply Z.eqb_sym.
Qed.

(** * Bit fields as quotients and remainders *)
Lemma bitfield_eq x lo n : 0 <= lo → 0 <= n → bitfield x lo n = x / 2 ^ lo mod 2 ^ n.
Proof. intros. unfold bitfield. now rewrite land_ones_mod, Z.shiftr_div_pow2. Qed.

Lemma bitfield_range x lo n : 0 <= lo → 0 <= n → 0 <= bitfield x lo n < 2 ^ n.
Proof. intros. rewrite bitfield_eq by done. apply Z.mod_pos_bound. lia. Qed.

Lemma testbit_bitfield x lo n i : 0 <= lo → 0 <= n → 0 <= i →
  Z.testbit (bitfield x lo n) i = (i <? n) && Z.testbit x (i + lo).
Proof.
  intros. unfold bitfield. replace (2 ^ n - 1) with (Z.ones n) by (rewrite Z.ones_equiv; lia).
  rewrite Z.land_spec, Z.shiftr_spec, Z.testbit_ones, andb_comm by lia. f_equal. lia.
Qed.

Lemma testbit_set_bitfield x lo n v i : 0 <= lo → 0 <= n → 0 <= i →
  Z.testbit (set_bitfield x lo n v) i =
    if (lo <=? i) && (i <? lo + n) then Z.testbit v (i - lo) else Z.testbit x i.
Proof.
  intros. unfold set_bitfield.
  replace (2 ^ n - 1) with (Z.ones n) by (rewrite Z.ones_equiv; lia).
  rewrite Z.lor_spec, Z.ldiff_spec, !Z.shiftl_spec, Z.land_spec by lia.
  destruct (Z.ltb_spec i lo).
  { rewrite !(Z.testbit_neg_r _ (i - lo)) by lia. bsplit; cbn; try lia.
    now rewrite orb_false_r, andb_true_r. }
  rewrite !Z.testbit_ones by lia.
  bsplit; cbn; try lia; rewrite ?andb_false_r, ?andb_true_r, ?orb_false_r; done.
Qed.

(** Reading a field of a bit-field assignment. *)
Lemma bitfield_set_same x lo n v : 0 <= lo → 0 <= n →
  bitfield (set_bitfield x lo n v) lo n = v mod 2 ^ n.
Proof.
  intros. apply Z.bits_inj'. intros i Hi.
  rewrite testbit_bitfield, testbit_set_bitfield by lia.
  destruct (Z.ltb_spec i n); cbn; [|now rewrite Z.mod_pow2_bits_high by lia].
  rewrite Z.mod_pow2_bits_low by lia. bsplit; cbn; try lia. f_equal. lia.
Qed.

Lemma bitfield_set_other x lo n v lo' n' : 0 <= lo → 0 <= n → 0 <= lo' → 0 <= n' →
  lo + n <= lo' ∨ lo' + n' <= lo →
  bitfield (set_bitfield x lo n v) lo' n' = bitfield x lo' n'.
Proof.
  intros. apply Z.bits_inj'. intros i Hi.
  rewrite !testbit_bitfield, testbit_set_bitfield by lia.
  destruct (Z.ltb_spec i n'); cbn; [|done]. bsplit; cbn; done || lia.
Qed.

(** * Invariance

    [keeps P m]: a run of [m] from a state with [P] that returns or jumps ends in a state
    with [P]. *)
Definition keeps {S A} (P : S → Prop) (m : M S A) : Prop :=
  ∀ s, P s → match m s with Ok _ s' => P s' | Jump s' => P s' | Fail_ _ => True end.

Lemma keeps_Ok {S A} (P : S → Prop) (m : M S A) s a s' : keeps P m → m s = Ok a s' → P s → P s'.
Proof. intros Hm E Hs. specialize (Hm s Hs). now rewrite E in Hm. Qed.

Lemma keeps_ret {S A} (P : S → Prop) (a : A) : keeps P (mret a).
Proof. intros s Hs. exact Hs. Qed.

Lemma keeps_fail {S A} (P : S → Prop) e : keeps P (@fail S A e).
Proof. intros s Hs. exact I. Qed.

Lemma keeps_longjmp {S A} (P : S → Prop) : keeps P (@longjmp S A).
Proof. intros s Hs. exact Hs. Qed.

Lemma keeps_getS {S} (P : S → Prop) : keeps P getS.
Proof. intros s Hs. exact Hs. Qed.

Lemma keeps_gets {S A} (P : S → Prop) (f : S → A) : keeps P (gets f).
Proof. intros s Hs. exact Hs. Qed.

Lemma keeps_cassert {S} (P : S → Prop) b : keeps P (@cassert S b).
Proof. destruct b; [apply keeps_ret|apply keeps_fail]. Qed.

Lemma keeps_modify {S} (P : S → Prop) f : (∀ s, P s → P (f s)) → keeps P (modify f).
Proof. intros H s. apply H. Qed.

Lemma keeps_bind {S A B} (P : S → Prop) (m : M S A) (k : A → M S B) :
  keeps P m → (∀ a, keeps P (k a)) → keeps P (m ≫= k).
Proof.
  intros Hm Hk s Hs. specialize (Hm s Hs). unfold mbind, M_bind.
  destruct (m s); [|done..]. now apply Hk.
Qed.

(** The same, when the continuation needs what [m] returns to have [Q]. *)
Lemma keeps_bind_with {S A B} (P : S → Prop) (Q : A → Prop) (m : M S A) (k : A → M S B) :
  keeps P m → (∀ s a s', m s = Ok a s' → Q a) → (∀ a, Q a → keeps P (k a)) → keeps P (m ≫= k).
Proof.
  intros Hm HQ Hk s Hs. specialize (Hm s Hs). unfold mbind, M_bind.
  destruct (m s) eqn:E; [|done..]. apply Hk; [now apply (HQ s a s0)|done].
Qed.

Lemma keeps_for {S} (P : S → Prop) n lo (body : Z → M S unit) :
  (∀ i, lo <= i < lo + Z.of_nat n → keeps P (body i)) → keeps P (for_ n lo body).
Proof.
  revert lo; induction n as [|n IH]; intros lo H; cbn [for_]; [apply keeps_ret|].
  apply keeps_bind; [apply H; lia|]. intros _. apply IH. intros i Hi. apply H. lia.
Qed.

Lemma keeps_zoom {S T A} (P : S → Prop) (get : S → T) put (m : M T A) :
  (∀ s, P s → match m (get s) with Ok _ t | Jump t => P (put t s) | Fail_ _ => True end) →
  keeps P (zoom get put m).
Proof. intros H s Hs. unfold zoom. specialize (H s Hs). now destruct (m (get s)). Qed.

Lemma keeps_if {S A} (P : S → Prop) (b : bool) (m1 m2 : M S A) :
  (b = true → keeps P m1) → (b = false → keeps P m2) → keeps P (if b then m1 else m2).
Proof. intros H1 H2. destruct b; [now apply H1|now apply H2]. Qed.

#[export] Hint Resolve keeps_ret keeps_fail keeps_longjmp keeps_getS keeps_gets keeps_cassert : nemu.
#[export] Hint Resolve keeps_modify keeps_bind keeps_for keeps_if : nemu.

(** Take a run apart down to the operations that need a proof of their own. *)
Ltac keeps_step :=
  match goal with
  | |- keeps _ (mret _) => apply keeps_ret
  | |- keeps _ (fail _) => apply keeps_fail
  | |- keeps _ longjmp => apply keeps_longjmp
  | |- keeps _ getS => apply keeps_getS
  | |- keeps _ (gets _) => apply keeps_gets
  | |- keeps _ (cassert _) => apply keeps_cassert
  | |- keeps _ (if _ then _ else _) => apply keeps_if; intros ?
  | |- keeps _ (match ?x with _ => _ end) => destruct x
  | |- keeps _ (let '(_, _) := ?x in _) => destruct x
  | |- keeps _ (_ ≫= _) => apply keeps_bind; [|intros ?]
  | |- keeps _ (for_ _ _ _) => apply keeps_for; intros ? ?
  | |- keeps _ (λ s, ?m s) => change (keeps _ m)
  end.

(** * Fuel

    [no_fuel m]: no run of [m], from any state, ends because a recursion of the model ran
    out of fuel; it returns, jumps or fails as the code does. *)
Definition no_fuel {S A} (m : M S A) : Prop := ∀ s, m s ≠ Fail_ EFuel.

Lemma no_fuel_ret {S A} (a : A) : no_fuel (S := S) (mret a).
Proof. intros s. discriminate. Qed.

Lemma no_fuel_fail {S A} e : e ≠ EFuel → no_fuel (@fail S A e).
Proof. intros He s [= ->]. now apply He. Qed.

Lemma no_fuel_getS {S} : no_fuel (@getS S).
Proof. intros s. discriminate. Qed.

Lemma no_fuel_gets {S A} (f : S → A) : no_fuel (gets f).
Proof. intros s. discriminate. Qed.

Lemma no_fuel_modify {S} (f : S → S) : no_fuel (modify f).
Proof. intros s. discriminate. Qed.

Lemma no_fuel_cassert {S} b : no_fuel (@cassert S b).
Proof. destruct b; [apply no_fuel_ret|now apply no_fuel_fail]. Qed.

Lemma no_fuel_bind {S A B} (m : M S A) (k : A → M S B) :
  no_fuel m → (∀ a, no_fuel (k a)) → no_fuel (m ≫= k).
Proof.
  intros Hm Hk s. specialize (Hm s). unfold mbind, M_bind.
  destruct (m s); [apply Hk|discriminate|congruence].
Qed.

Lemma no_fuel_for {S} n lo (body : Z → M S unit) : (∀ i, no_fuel (body i)) → no_fuel (for_ n lo body).
Proof.
  intros H. revert lo; induction n as [|n IH]; intros lo; cbn [for_]; [apply no_fuel_ret|].
  apply no_fuel_bind; [apply H|intros _; apply IH].
Qed.

Lemma no_fuel_zoom {S T A} (get : S → T) put (m : M T A) : no_fuel m → no_fuel (zoom get put m).
Proof. intros Hm s. specialize (Hm (get s)). unfold zoom. destruct (m (get s)); congruence. Qed.

(** Take a run apart as [keeps_step] does. *)
Ltac no_fuel_step :=
  match goal with
  | |- no_fuel (mret _) => apply no_fuel_ret
  | |- no_fuel (fail _) => apply no_fuel_fail; discriminate
  | |- no_fuel getS => apply no_fuel_getS
  | |- no_fuel (gets _) => apply no_fuel_gets
  | |- no_fuel (modify _) => apply no_fuel_modify
  | |- no_fuel (cassert _) => apply no_fuel_cassert
  | |- no_fuel (zoom _ _ _) => apply no_fuel_zoom
  | |- no_fuel (if ?b then _ else _) => let E := fresh "E" in destruct b eqn:E
  | |- no_fuel (match ?x with _ => _ end) => destruct x
  | |- no_fuel (let '(_, _) := ?x in _) => destruct x
  | |- no_fuel (_ ≫= _) => apply no_fuel_bind; [|intros ?]
  | |- no_fuel (for_ _ _ _) => apply no_fuel_for; intros ?
  end.
#[export] Hint Resolve no_fuel_ret no_fuel_getS no_fuel_gets no_fuel_modify no_fuel_cassert : nemu.
#[export] Hint Resolve no_fuel_bind no_fuel_for no_fuel_zoom : nemu.

(** * Weakest preconditions

    [wp J m Q s]: the run of [m] from [s] returns with [Q] or jumps with [J]; it does not
    fail. *)
Definition wp {S A} (J : S → Prop) (m : M S A) (Q : A → S → Prop) (s : S) : Prop :=
  match m s with Ok a s' => Q a s' | Jump s' => J s' | Fail_ _ => False end.

Section Wp.
Context {S : Type} (J : S → Prop).

Lemma wp_bind {A B} (m : M S A) (k : A → M S B) Q s :
  wp J m (λ a, wp J (k a) Q) s → wp J (m ≫= k) Q s.
Proof. unfold wp, mbind, M_bind. now destruct (m s). Qed.

Lemma wp_ret {A} (a : A) Q s : Q a s → wp J (mret a) Q s.
Proof. done. Qed.

Lemma wp_getS Q s : Q s s → wp J getS Q s.
Proof. done. Qed.

Lemma wp_gets {A} (f : S → A) Q s : Q (f s) s → wp J (gets f) Q s.
Proof. done. Qed.

Lemma wp_modify (f : S → S) (Q : unit → S → Prop) s : Q tt (f s) → wp J (modify f) Q s.
Proof. done. Qed.

Lemma wp_cassert b (Q : unit → S → Prop) s : b = true → Q tt s → wp J (cassert b) Q s.
Proof. intros ->. done. Qed.

Lemma wp_longjmp {A} (Q : A → S → Prop) s : J s → wp J longjmp Q s.
Proof. done. Qed.

Lemma wp_mono {A} (m : M S A) (Q Q' : A → S → Prop) s :
  (∀ a s, Q a s → Q' a s) → wp J m Q s → wp J m Q' s.
Proof. unfold wp. intros H. destruct (m s); auto. Qed.

Lemma wp_Ok {A} (m : M S A) (Q : A → S → Prop) s a s' : m s = Ok a s' → Q a s' → wp J m Q s.
Proof. unfold wp. now intros ->. Qed.
End Wp.

Lemma wp_elim {S A} (m : M S A) (Q : A → S → Prop) s :
  wp (λ _, False) m Q s → ∃ a s', m s = Ok a s' ∧ Q a s'.
Proof. unfold wp. destruct (m s) as [a s'| |]; [|done..]. intros H. now exists a, s'. Qed.

Lemma wp_elim_val {S A} (m : M S A) v (P : S → Prop) s :
  wp (λ _, False) m (λ a s', a = v ∧ P s') s → ∃ s', m s = Ok v s' ∧ P s'.
Proof. intros (a & s' & H & -> & HP)%wp_elim. now exists s'. Qed.

Lemma wp_elim_jump {S A} (J : S → Prop) (m : M S A) s :
  wp J m (λ _ _, False) s → ∃ s', m s = Jump s' ∧ J s'.
Proof. unfold wp. destruct (m s) as [|s'|]; [done| |done]. intros H. now exists s'. Qed.
