(* ===== verification/Dram.v ===== *)
(** The DRAM of [nemu/src/memory/dram.c]: ranks of banks of rows of columns, a row
    buffer per bank, bursts of eight bytes; and the proof that it is a flat
    byte-addressed memory. *)
From S2P Require Import Prelude.

(** * Geometry: [dram_addr] *)
Definition BURST_LEN : Z := 8.
Definition BURST_MASK : Z := BURST_LEN - 1.
Definition COL_WIDTH : Z := 10.
Definition ROW_WIDTH : Z := 10.
Definition BANK_WIDTH : Z := 3.
Definition RANK_WIDTH : Z := 27 - COL_WIDTH - ROW_WIDTH - BANK_WIDTH.
Definition NR_COL : Z := Z.shiftl 1 COL_WIDTH.
Definition NR_ROW : Z := Z.shiftl 1 ROW_WIDTH.
Definition NR_BANK : Z := Z.shiftl 1 BANK_WIDTH.
Definition NR_RANK : Z := Z.shiftl 1 RANK_WIDTH.
Definition HW_MEM_SIZE : Z := Z.shiftl 1 (COL_WIDTH + ROW_WIDTH + BANK_WIDTH + RANK_WIDTH).

Definition addr_col (addr : Z) : Z := bitfield addr 0 COL_WIDTH.
Definition addr_row (addr : Z) : Z := bitfield addr COL_WIDTH ROW_WIDTH.
Definition addr_bank (addr : Z) : Z := bitfield addr (COL_WIDTH + ROW_WIDTH) BANK_WIDTH.
Definition addr_rank (addr : Z) : Z :=
  bitfield addr (COL_WIDTH + ROW_WIDTH + BANK_WIDTH) RANK_WIDTH.

(** * State *)
Record RB := mkRB { rb_buf : arr Z; row_idx : Z; rb_valid : bool }.

(** [dram\[rank\]\[bank\]\[row\]] is element [row_index rank bank row] of [dram] and
    [rowbufs\[rank\]\[bank\]] element [bank_index rank bank] of [rowbufs]: the
    row-major layout of a C array. *)
Record Dram := mkDram { dram : arr (arr Z); rowbufs : arr RB }.

Definition bank_index (rank bank : Z) : Z := rank * NR_BANK + bank.
Definition row_index (rank bank row : Z) : Z := bank_index rank bank * NR_ROW + row.

Definition dram0 : Dram :=
  mkDram (anew (anew 0)) (anew (mkRB (anew 0) 0 false)).

Definition set_rowbuf (k : Z) (b : RB) (d : Dram) : Dram :=
  mkDram (dram d) (aset k b (rowbufs d)).
Definition set_row (k : Z) (r : arr Z) (d : Dram) : Dram :=
  mkDram (aset k r (dram d)) (rowbufs d).

(** * Operations *)
Definition init_ddr3 : M Dram unit :=
  for_ (Z.to_nat NR_RANK) 0 (λ i,
    for_ (Z.to_nat NR_BANK) 0 (λ j,
      modify (λ d, let b := aget (rowbufs d) (bank_index i j) in
                   set_rowbuf (bank_index i j) (mkRB (rb_buf b) (row_idx b) false) d))).

Fixpoint memcpy_with_mask (n : nat) (d s : Z) (src mask dst : arr Z) : arr Z :=
  match n with
  | O => dst
  | S n => memcpy_with_mask n (d + 1) (s + 1) src mask
             (if aget mask s =? 0 then dst else aset d (aget src s) dst)
  end.

(** "read a row into row buffer" unless it is there *)
Definition open_row (rank bank row : Z) : M Dram unit := λ d,
  let b := aget (rowbufs d) (bank_index rank bank) in
  if negb (rb_valid b && (row_idx b =? row))
  then Ok tt (set_rowbuf (bank_index rank bank)
                (mkRB (aget (dram d) (row_index rank bank row)) row true) d)
  else Ok tt d.

(** [ddr3_read(addr, temp + dst)] *)
Definition ddr3_read (addr : Z) (dst : Z) (temp : arr Z) : M Dram (arr Z) :=
  _ ← cassert (addr <? HW_MEM_SIZE);
  let t := Z.land addr (Z.lnot BURST_MASK) in
  let rank := addr_rank t in let bank := addr_bank t in
  let row := addr_row t in let col := addr_col t in
  _ ← open_row rank bank row;
  d ← getS;
  mret (memcpy (Z.to_nat BURST_LEN) dst col (rb_buf (aget (rowbufs d) (bank_index rank bank))) temp).

(** [ddr3_write(addr, temp + src, mask + src)] *)
Definition ddr3_write (addr : Z) (src : Z) (temp mask : arr Z) : M Dram unit :=
  _ ← cassert (addr <? HW_MEM_SIZE);
  let t := Z.land addr (Z.lnot BURST_MASK) in
  let rank := addr_rank t in let bank := addr_bank t in
  let row := addr_row t in let col := addr_col t in
  _ ← open_row rank bank row;
  d ← getS;
  let b := aget (rowbufs d) (bank_index rank bank) in
  let buf := memcpy_with_mask (Z.to_nat BURST_LEN) col src temp mask (rb_buf b) in
  _ ← modify (set_rowbuf (bank_index rank bank) (mkRB buf (row_idx b) (rb_valid b)));
  modify (set_row (row_index rank bank row) buf).

Section Access.
Context `{HJunk : !StackJunk}.

(** The uninitialised [uint8_t temp\[2 * BURST_LEN\]]. *)
Definition burst_temp : arr Z :=
  foldr (λ i a, aset (Z.of_nat i) (stack_junk (Z.of_nat i)) a) (anew 0) (seq 0 16).

Definition dram_read (addr len : Z) : M Dram Z :=
  let offset := Z.land addr BURST_MASK in
  temp ← ddr3_read addr 0 burst_temp;
  temp ← (if BURST_LEN <? offset + len
          then ddr3_read (u32 (addr + BURST_LEN)) BURST_LEN temp
          else mret temp);
  mret (le_load 4 (aget temp) offset).

Definition dram_write (addr len data : Z) : M Dram unit :=
  let offset := Z.land addr BURST_MASK in
  let mask := memset (Z.to_nat len) offset 1 (anew 0) in
  let temp := le_store 4 offset data burst_temp in
  _ ← ddr3_write addr 0 temp mask;
  if BURST_LEN <? offset + len
  then ddr3_write (u32 (addr + BURST_LEN)) BURST_LEN temp mask
  else mret tt.
End Access.

(** [hw_mem\[addr\]], the array seen as bytes ([hwa_to_va]). *)
Definition hw_get (d : Dram) (addr : Z) : Z :=
  aget (aget (dram d) (addr / NR_COL)) (addr mod NR_COL).
Definition hw_set (addr v : Z) (d : Dram) : Dram :=
  set_row (addr / NR_COL) (aset (addr mod NR_COL) v (aget (dram d) (addr / NR_COL))) d.

(** * The flat memory it implements *)
Record dram_ok (d : Dram) : Prop := {
  rb_coherent : ∀ k, let b := aget (rowbufs d) k in
    rb_valid b = true → 0 <= row_idx b < NR_ROW ∧ ∀ c, 0 <= c < NR_COL →
    aget (rb_buf b) c = aget (aget (dram d) (k * NR_ROW + row_idx b)) c;
  hw_bytes : is_bytes (hw_get d)
}.

Lemma dram0_ok : dram_ok dram0.
Proof.
  split; cbn; [intros k; now rewrite aget_anew|].
  intros i. unfold hw_get. cbn. rewrite !aget_anew. lia.
Qed.

(** ** The address decomposition *)
Lemma land_burst_mask a : Z.land a BURST_MASK = a mod 8.
Proof. apply (land_ones_mod a 3). lia. Qed.

Lemma land_not_burst_mask a : Z.land a (Z.lnot BURST_MASK) = a - a mod 8.
Proof.
  rewrite <- Z.ldiff_land. change BURST_MASK with (Z.ones 3).
  rewrite Z.ldiff_ones_r, Z.shiftr_div_pow2, Z.shiftl_mul_pow2 by lia. change (2 ^ 3) with 8. lia.
Qed.

Lemma row_index_addr t : 0 <= t < HW_MEM_SIZE →
  row_index (addr_rank t) (addr_bank t) (addr_row t) = t / 1024.
Proof.
  change HW_MEM_SIZE with 134217728. intros.
  unfold row_index, bank_index, addr_rank, addr_bank, addr_row.
  rewrite !bitfield_eq by (cbv; done).
  change (2 ^ COL_WIDTH) with 1024. change (2 ^ ROW_WIDTH) with 1024.
  change (2 ^ (COL_WIDTH + ROW_WIDTH)) with 1048576. change (2 ^ BANK_WIDTH) with 8.
  change (2 ^ (COL_WIDTH + ROW_WIDTH + BANK_WIDTH)) with 8388608.
  change (2 ^ RANK_WIDTH) with 16. change NR_BANK with 8. change NR_ROW with 1024.
  rewrite (Z.mod_small (t / 8388608)) by lia.
  change 1048576 with (1024 * 1024). change 8388608 with (1024 * 1024 * 8).
  rewrite <- !Z.div_div by lia. lia.
Qed.

Lemma addr_col_mod t : addr_col t = t mod 1024.
Proof. unfold addr_col. rewrite bitfield_eq by (cbv; done). now rewrite Z.div_1_r. Qed.

Lemma addr_row_range t : 0 <= addr_row t < 1024.
Proof. apply bitfield_range; cbv; done. Qed.

(** The byte of the row of [t] at the column of [t] is [hw_mem\[t\]]. *)
Lemma hw_get_row d t c : 0 <= t < HW_MEM_SIZE → 0 <= t mod 1024 + c < 1024 →
  hw_get d (t + c) = aget (aget (dram d) (row_index (addr_rank t) (addr_bank t) (addr_row t)))
                          (addr_col t + c).
Proof.
  intros Ht Hc. rewrite row_index_addr, addr_col_mod by done. unfold hw_get.
  change NR_COL with 1024. f_equal; [f_equal|]; lia.
Qed.

(** ** Row buffers *)
Lemma open_row_ok d rank bank row :
  dram_ok d → 0 <= row < 1024 →
  ∃ d', open_row rank bank row d = Ok tt d' ∧ dram_ok d' ∧ dram d' = dram d ∧
    let b := aget (rowbufs d') (bank_index rank bank) in
    rb_valid b = true ∧ row_idx b = row ∧
    ∀ c, 0 <= c < NR_COL → aget (rb_buf b) c = aget (aget (dram d) (row_index rank bank row)) c.
Proof.
  intros [Hrb Hhw] Hrow. unfold open_row.
  set (b := aget (rowbufs d) (bank_index rank bank)).
  destruct (rb_valid b && (row_idx b =? row)) eqn:E; cbn [negb].
  - bsplit. exists d. split_and!; try done.
    intros c Hc. unfold row_index. subst row. now apply Hrb.
  - eexists. split; [done|]. cbn. rewrite aget_aset_eq. cbn. split_and!; try done.
    split; [|done]. cbn. intros k. rewrite aget_aset. case_match; [|apply Hrb].
    bsplit. subst k. cbn. done.
Qed.

(** ** Bursts *)
Lemma ddr3_read_ok d addr dst temp :
  dram_ok d → 0 <= addr < HW_MEM_SIZE →
  ∃ temp' d', ddr3_read addr dst temp d = Ok temp' d' ∧ dram_ok d' ∧
    (∀ a, hw_get d' a = hw_get d a) ∧
    ∀ j, aget temp' j = if (dst <=? j) && (j <? dst + 8)
                        then hw_get d (addr - addr mod 8 + (j - dst)) else aget temp j.
Proof.
  intros Hd Ha. unfold ddr3_read. mstep. rewrite (proj2 (Z.ltb_lt _ _)) by lia.
  rewrite land_not_burst_mask. set (t := addr - addr mod 8).
  assert (0 <= t < HW_MEM_SIZE) as Ht by (change HW_MEM_SIZE with 134217728 in *; lia).
  destruct (open_row_ok d (addr_rank t) (addr_bank t) (addr_row t) Hd (addr_row_range t))
    as (d' & -> & Hd' & Hdram & _ & _ & Hbuf).
  eexists _, d'. split; [reflexivity|]. split_and!; [done| |].
  - intros a. unfold hw_get. now rewrite Hdram.
  - intros j. rewrite aget_memcpy. change (Z.of_nat (Z.to_nat BURST_LEN)) with 8.
    destruct ((dst <=? j) && (j <? dst + 8)) eqn:E; [|done]. bsplit.
    assert (0 <= t mod 1024 + (j - dst) < 1024) by lia.
    rewrite Hbuf by (rewrite addr_col_mod; done). now rewrite <- hw_get_row.
Qed.

Lemma aget_memcpy_with_mask n d s src mask dst j :
  aget (memcpy_with_mask n d s src mask dst) j =
    if (d <=? j) && (j <? d + Z.of_nat n) && negb (aget mask (s + (j - d)) =? 0)
    then aget src (s + (j - d)) else aget dst j.
Proof.
  revert d s dst; induction n as [|n IH]; intros d s dst; cbn [memcpy_with_mask].
  { bsplit; cbn; done || lia. }
  rewrite IH.
  destruct (Z.eqb_spec j d) as [->|].
  - replace (s + 1 + (d - (d + 1))) with s by lia. replace (s + (d - d)) with s by lia.
    replace (d + 1 <=? d) with false by lia. rewrite Z.leb_refl.
    replace (d <? d + Z.of_nat (S n)) with true by lia. cbn.
    case_match; cbn; [done|]. apply aget_aset_eq.
  - replace (s + 1 + (j - (d + 1))) with (s + (j - d)) by lia.
    replace (aget (if aget mask s =? 0 then dst else aset d (aget src s) dst) j) with (aget dst j)
      by (case_match; [done|]; rewrite aget_aset_ne; done).
    replace (d + 1 <=? j) with (d <=? j) by lia.
    replace (d + 1 + Z.of_nat n) with (d + Z.of_nat (S n)) by lia. done.
Qed.

Lemma ddr3_write_ok d addr src temp mask :
  dram_ok d → 0 <= addr < HW_MEM_SIZE → (∀ j, aget mask j ≠ 0 → 0 <= aget temp j < 256) →
  ∃ d', ddr3_write addr src temp mask d = Ok tt d' ∧ dram_ok d' ∧
    ∀ a, hw_get d' a =
      let j := a - (addr - addr mod 8) in
      if (0 <=? j) && (j <? 8) && negb (aget mask (src + j) =? 0)
      then aget temp (src + j) else hw_get d a.
Proof.
  intros Hd Ha Htemp. unfold ddr3_write. mstep.
  rewrite (proj2 (Z.ltb_lt _ _)) by lia.
  rewrite land_not_burst_mask. set (t := addr - addr mod 8).
  assert (0 <= t < HW_MEM_SIZE) as Ht by (change HW_MEM_SIZE with 134217728 in *; lia).
  destruct (open_row_ok d (addr_rank t) (addr_bank t) (addr_row t) Hd (addr_row_range t))
    as (d' & -> & [Hrb _] & Hdram & Hvalid & Hrow & Hbuf).
  eexists. split; [reflexivity|].
  set (k := bank_index (addr_rank t) (addr_bank t)) in *. cbv zeta.
  set (buf := memcpy_with_mask _ _ _ _ _ _).
  assert (∀ c, 0 <= c < 1024 → aget buf c =
    let j := t / 1024 * 1024 + c - t in
    if (0 <=? j) && (j <? 8) && negb (aget mask (src + j) =? 0)
    then aget temp (src + j) else hw_get d (t / 1024 * 1024 + c)) as Hget.
  { intros c Hc. cbv zeta. unfold buf. rewrite aget_memcpy_with_mask, addr_col_mod.
    change (Z.of_nat (Z.to_nat BURST_LEN)) with 8.
    replace (t / 1024 * 1024 + c - t) with (c - t mod 1024) by lia.
    replace (0 <=? c - t mod 1024) with (t mod 1024 <=? c) by lia.
    replace (c - t mod 1024 <? 8) with (c <? t mod 1024 + 8) by lia.
    case_match; [done|].
    rewrite Hbuf by done.
    replace (t / 1024 * 1024 + c) with (t + (c - t mod 1024)) by lia.
    rewrite hw_get_row by lia. rewrite addr_col_mod. do 2 f_equal. lia. }
  assert (∀ a, hw_get (set_row (row_index (addr_rank t) (addr_bank t) (addr_row t)) buf
                (set_rowbuf k (mkRB buf (row_idx (aget (rowbufs d') k))
                  (rb_valid (aget (rowbufs d') k))) d')) a =
      let j := a - t in
      if (0 <=? j) && (j <? 8) && negb (aget mask (src + j) =? 0)
      then aget temp (src + j) else hw_get d a) as Hhw.
  { intros a. cbv zeta. unfold hw_get at 1. cbn [dram set_row set_rowbuf].
    rewrite row_index_addr by done. rewrite aget_aset. change NR_COL with 1024.
    destruct (Z.eqb_spec (t / 1024) (a / 1024)) as [He|Hne].
    - rewrite Hget by lia. rewrite He. cbv zeta.
      replace (a / 1024 * 1024 + a mod 1024) with a by lia. done.
    - rewrite Hdram. fold (hw_get d a).
      replace ((0 <=? a - t) && (a - t <? 8)) with false; [done|].
      assert (t mod 8 = 0) by lia. bsplit; cbn; try done. lia. }
  split; [|exact Hhw]. split.
  - intros k'. cbn [rowbufs dram set_row set_rowbuf]. cbv zeta.
    destruct (Z.eqb_spec k' k) as [->|Hk].
    + rewrite aget_aset_eq. cbn. intros _. rewrite Hrow.
      split; [apply addr_row_range|]. intros c _. unfold row_index. now rewrite aget_aset_eq.
    + rewrite aget_aset_ne by done. intros Hv. destruct (Hrb k' Hv) as [Hr Hc].
      split; [done|]. intros c Hc'. rewrite Hc, aget_aset_ne; [done| |done].
      pose proof (addr_row_range t). unfold row_index. fold k.
      change NR_ROW with 1024 in *. lia.
  - intros a. rewrite Hhw. cbv zeta. destruct (_ && negb _) eqn:E; [|apply Hd].
    apply Htemp. apply andb_prop in E as [_ E]. now destruct (Z.eqb_spec (aget mask (src + (a - t))) 0).
Qed.

(** ** Reads and writes *)
Section AccessFacts.
Context `{HJunk : !StackJunk}.

Lemma burst_temp_bytes : is_bytes (aget burst_temp).
Proof.
  unfold burst_temp. induction (seq 0 16) as [|k l IH]; intros i; cbn [foldr].
  - rewrite aget_anew. lia.
  - rewrite aget_aset. case_match; [apply stack_junk_range|apply IH].
Qed.

Lemma dram_read_ok d addr len :
  dram_ok d → 0 <= addr → 1 <= len <= 4 → addr + len <= HW_MEM_SIZE →
  ∃ v d', dram_read addr len d = Ok v d' ∧ dram_ok d' ∧ (∀ a, hw_get d' a = hw_get d a) ∧
    v mod 256 ^ len = le_load (Z.to_nat len) (hw_get d) addr.
Proof.
  intros Hd Ha Hlen Hsz. change HW_MEM_SIZE with 134217728 in *.
  unfold dram_read. mstep. rewrite land_burst_mask.
  destruct (ddr3_read_ok d addr 0 burst_temp Hd) as (t1 & d1 & -> & Hd1 & Hg1 & Ht1).
  { change HW_MEM_SIZE with 134217728. lia. }
  assert (is_bytes (aget t1)) as Hb1.
  { intros j. rewrite Ht1. case_match; [apply Hd|apply burst_temp_bytes]. }
  assert (∀ t, is_bytes (aget t) →
    (∀ k, 0 <= k < len → aget t (addr mod 8 + k) = hw_get d (addr + k)) →
    le_load 4 (aget t) (addr mod 8) mod 256 ^ len = le_load (Z.to_nat len) (hw_get d) addr) as Hfin.
  { intros t Hb Hk. rewrite <- (Z2Nat.id len) at 1 by lia. rewrite le_load_mod by (done || lia).
    apply le_load_shift. intros k Hk'. apply Hk. lia. }
  change BURST_LEN with 8. destruct (Z.ltb_spec 8 (addr mod 8 + len)).
  - rewrite wrap_small by lia.
    destruct (ddr3_read_ok d1 (addr + 8) 8 t1 Hd1) as (t2 & d2 & -> & Hd2 & Hg2 & Ht2).
    { change HW_MEM_SIZE with 134217728. lia. }
    eexists _, d2. split_and!; [done|done|intros a; now rewrite Hg2, Hg1|].
    apply Hfin.
    + intros j. rewrite Ht2. case_match; [apply Hd1|apply Hb1].
    + intros k Hk. rewrite Ht2, Ht1.
      destruct (Z.ltb_spec (addr mod 8 + k) 8).
      * replace ((8 <=? _) && _) with false by lia. replace (_ && _) with true by lia.
        f_equal. lia.
      * replace (_ && _) with true by lia. rewrite Hg1. f_equal. lia.
  - eexists _, d1. split_and!; [done|done|done|]. apply Hfin; [done|].
    intros k Hk. rewrite Ht1. replace (_ && _) with true by lia. f_equal. lia.
Qed.

Lemma dram_write_ok d addr len data :
  dram_ok d → 0 <= addr → 1 <= len <= 4 → addr + len <= HW_MEM_SIZE →
  ∃ d', dram_write addr len data d = Ok tt d' ∧ dram_ok d' ∧
    ∀ a, hw_get d' a = flat_store (hw_get d) addr len data a.
Proof.
  intros Hd Ha Hlen Hsz. change HW_MEM_SIZE with 134217728 in *.
  unfold dram_write. mstep. rewrite land_burst_mask.
  set (temp := le_store _ _ _ _). set (mask := memset _ _ _ _).
  assert (∀ j, aget mask j = if (addr mod 8 <=? j) && (j <? addr mod 8 + len) then 1 else 0) as Hmask.
  { intros j. unfold mask. rewrite aget_memset, aget_anew, Z2Nat.id by lia. done. }
  assert (∀ j, aget mask j ≠ 0 → aget temp j = byte_of data (j - addr mod 8)) as Htemp.
  { intros j. rewrite Hmask. case_match eqn:E; [|done]. intros _. unfold temp.
    rewrite aget_le_store. now replace (_ && _) with true by lia. }
  assert (∀ j, aget mask j ≠ 0 → 0 <= aget temp j < 256) as Hrange.
  { intros j Hj. rewrite Htemp by done. apply byte_of_range. }
  destruct (ddr3_write_ok d addr 0 temp mask Hd) as (d1 & -> & Hd1 & Hg1); [|done|].
  { change HW_MEM_SIZE with 134217728. lia. }
  change BURST_LEN with 8. destruct (Z.ltb_spec 8 (addr mod 8 + len)).
  - rewrite wrap_small by lia.
    destruct (ddr3_write_ok d1 (addr + 8) 8 temp mask Hd1) as (d2 & -> & Hd2 & Hg2); [|done|].
    { change HW_MEM_SIZE with 134217728. lia. }
    exists d2. split_and!; [done|done|]. intros a. rewrite Hg2, Hg1. cbv zeta.
    unfold flat_store. rewrite !Hmask.
    destruct ((addr <=? a) && (a <? addr + len)) eqn:E.
    + destruct (Z.ltb_spec a (addr - addr mod 8 + 8)).
      * replace (0 <=? a - (addr + 8 - (addr + 8) mod 8)) with false by lia. cbn [andb].
        replace ((addr mod 8 <=? _) && _) with true by lia. replace (_ && _) with true by lia.
        rewrite Htemp by (rewrite Hmask; replace (_ && _) with true by lia; done).
        f_equal. lia.
      * replace ((addr mod 8 <=? _) && _) with true by lia. cbn [Z.eqb negb].
        replace (_ && _) with true by lia.
        rewrite Htemp by (rewrite Hmask; replace (_ && _) with true by lia; done).
        f_equal. lia.
    + repeat case_match; try done; exfalso; lia.
  - exists d1. split_and!; [done|done|]. intros a. rewrite Hg1. cbv zeta.
    unfold flat_store. rewrite Hmask.
    destruct ((addr <=? a) && (a <? addr + len)) eqn:E.
    + replace ((addr mod 8 <=? _) && _) with true by lia. cbn [Z.eqb negb].
      replace (_ && _) with true by lia.
      rewrite Htemp by (rewrite Hmask; replace (_ && _) with true by lia; done).
      f_equal. lia.
    + repeat case_match; try done; exfalso; lia.
Qed.
End AccessFacts.
