(* ===== verification/Cache.v ===== *)
(** The two-level cache of [nemu/src/memory/cache.c]: L1 of 128 groups of 8 ways,
    write-through, no write-allocate; L2 of 4096 groups of 16 ways, write-back,
    write-allocate; random replacement.  The definitions only; [CacheFacts] proves
    that the hierarchy is the flat memory below it. *)
From S2P Require Import Prelude Dram.

Definition BLOCK_BIT : Z := 6.
Definition BLOCK_SIZE : Z := 64.
Definition GROUP_BIT : Z := 7.
Definition GROUP_NUM : Z := 128.
Definition WAY_NUM : Z := 8.
Definition TAG_BIT : Z := 32 - BLOCK_BIT - GROUP_BIT.
Definition BLOCK_BIT_2 : Z := 6.
Definition BLOCK_SIZE_2 : Z := 64.
Definition GROUP_BIT_2 : Z := 12.
Definition GROUP_NUM_2 : Z := 4096.
Definition WAY_NUM_2 : Z := 16.
Definition TAG_BIT_2 : Z := 32 - BLOCK_BIT_2 - GROUP_BIT_2.

(** * State

    A line keeps its whole [addr] word, of which [offset], [group] and [tag] are
    bit fields.  [L1\[g\].cache\[w\]] is element [g * WAY_NUM + w] of [L1]. *)
Record Cache_1 := mkCache_1 { c1_valid : bool; c1_addr : Z; c1_data : arr Z }.
Record Cache_2 := mkCache_2 { c2_valid : bool; c2_dirty : bool; c2_addr : Z; c2_data : arr Z }.

Definition offset1 (addr : Z) : Z := bitfield addr 0 BLOCK_BIT.
Definition group1 (addr : Z) : Z := bitfield addr BLOCK_BIT GROUP_BIT.
Definition tag1 (addr : Z) : Z := bitfield addr (BLOCK_BIT + GROUP_BIT) TAG_BIT.
Definition offset2 (addr : Z) : Z := bitfield addr 0 BLOCK_BIT_2.
Definition group2 (addr : Z) : Z := bitfield addr BLOCK_BIT_2 GROUP_BIT_2.
Definition tag2 (addr : Z) : Z := bitfield addr (BLOCK_BIT_2 + GROUP_BIT_2) TAG_BIT_2.

(** [addr & (~0u << BLOCK_BIT)] (both levels use 6 bits) *)
Definition block_addr (addr : Z) : Z := Z.land addr (u32 (Z.shiftl (2 ^ 32 - 1) BLOCK_BIT)).

Section Cache.
Context `{HRand : !LibcRand, HJunk : !StackJunk}.

Record Caches := mkCaches {
  L1 : arr Cache_1;
  L2 : arr Cache_2;
  cdram : Dram;
  crand : rand_state
}.

Definition line1 (s : Caches) (g w : Z) : Cache_1 := aget (L1 s) (g * WAY_NUM + w).
Definition line2 (s : Caches) (g w : Z) : Cache_2 := aget (L2 s) (g * WAY_NUM_2 + w).

Definition set_line1 (g w : Z) (f : Cache_1 → Cache_1) (s : Caches) : Caches :=
  mkCaches (aset (g * WAY_NUM + w) (f (line1 s g w)) (L1 s)) (L2 s) (cdram s) (crand s).
Definition set_line2 (g w : Z) (f : Cache_2 → Cache_2) (s : Caches) : Caches :=
  mkCaches (L1 s) (aset (g * WAY_NUM_2 + w) (f (line2 s g w)) (L2 s)) (cdram s) (crand s).
Definition set_cdram (d : Dram) (s : Caches) : Caches := mkCaches (L1 s) (L2 s) d (crand s).

Definition in_dram {A} (m : M Dram A) : M Caches A := zoom cdram set_cdram m.

(** Field assignments on a line. *)
Definition set1_valid (v : bool) (l : Cache_1) := mkCache_1 v (c1_addr l) (c1_data l).
Definition set1_group (g : Z) (l : Cache_1) :=
  mkCache_1 (c1_valid l) (set_bitfield (c1_addr l) BLOCK_BIT GROUP_BIT g) (c1_data l).
Definition set1_tag (t : Z) (l : Cache_1) :=
  mkCache_1 (c1_valid l) (set_bitfield (c1_addr l) (BLOCK_BIT + GROUP_BIT) TAG_BIT t) (c1_data l).
Definition set1_data (i v : Z) (l : Cache_1) :=
  mkCache_1 (c1_valid l) (c1_addr l) (aset i v (c1_data l)).
Definition set2_valid (v : bool) (l : Cache_2) :=
  mkCache_2 v (c2_dirty l) (c2_addr l) (c2_data l).
Definition set2_dirty (v : bool) (l : Cache_2) :=
  mkCache_2 (c2_valid l) v (c2_addr l) (c2_data l).
Definition set2_group (g : Z) (l : Cache_2) :=
  mkCache_2 (c2_valid l) (c2_dirty l)
    (set_bitfield (c2_addr l) BLOCK_BIT_2 GROUP_BIT_2 g) (c2_data l).
Definition set2_tag (t : Z) (l : Cache_2) :=
  mkCache_2 (c2_valid l) (c2_dirty l)
    (set_bitfield (c2_addr l) (BLOCK_BIT_2 + GROUP_BIT_2) TAG_BIT_2 t) (c2_data l).
Definition set2_data (i v : Z) (l : Cache_2) :=
  mkCache_2 (c2_valid l) (c2_dirty l) (c2_addr l) (aset i v (c2_data l)).

(** * Initialisation *)
Definition init_cache1 : M Caches unit :=
  _ ← modify (λ s, mkCaches (anew (mkCache_1 false 0 (anew 0))) (L2 s) (cdram s) (crand s));
  for_ (Z.to_nat GROUP_NUM) 0 (λ i,
    for_ (Z.to_nat WAY_NUM) 0 (λ j, modify (set_line1 i j (set1_group j)))).

Definition init_cache2 : M Caches unit :=
  _ ← modify (λ s, mkCaches (L1 s) (anew (mkCache_2 false false 0 (anew 0))) (cdram s) (crand s));
  for_ (Z.to_nat GROUP_NUM_2) 0 (λ i,
    for_ (Z.to_nat WAY_NUM_2) 0 (λ j, modify (set_line2 i j (set2_group j)))).

Definition init_cache : M Caches unit := _ ← init_cache1; init_cache2.

(** * Lookup and replacement *)
Definition hit1 (s : Caches) (group tag : Z) : option Z :=
  find_idx (Z.to_nat WAY_NUM) 0 (λ i,
    let l := line1 s group i in c1_valid l && (tag1 (c1_addr l) =? tag)).
Definition hit2 (s : Caches) (group tag : Z) : option Z :=
  find_idx (Z.to_nat WAY_NUM_2) 0 (λ i,
    let l := line2 s group i in c2_valid l && (tag2 (c2_addr l) =? tag)).

Definition rand_mod (n : Z) : M Caches Z := λ s,
  let '(r, st) := libc_rand (crand s) in
  Ok (r mod n) (mkCaches (L1 s) (L2 s) (cdram s) st).

(** The way to fill: the first invalid one, or a random one. *)
Definition victim1 (group : Z) : M Caches Z := λ s,
  match find_idx (Z.to_nat WAY_NUM) 0 (λ i, negb (c1_valid (line1 s group i))) with
  | Some x => Ok x s
  | None => rand_mod WAY_NUM s
  end.
Definition victim2 (group : Z) : M Caches Z := λ s,
  match find_idx (Z.to_nat WAY_NUM_2) 0 (λ i, negb (c2_valid (line2 s group i))) with
  | Some x => Ok x s
  | None => rand_mod WAY_NUM_2 s
  end.

(** [L1\[group\].cache\[x\].data\[i\]] with the L2 [group] and [x]: out of L1's
    bounds this is undefined. *)
Definition l1_byte_oob (group x i : Z) : M Caches Z := λ s,
  if (group <? GROUP_NUM) && (x <? WAY_NUM)
  then Ok (aget (c1_data (line1 s group x)) i) s else Fail_ EUndefined.

(** "If the substituted cache is dirty, then we should update the memory one byte
    by one", then load the block into way [x] of L2. *)
Definition evict2 (group x addr_block : Z) : M Caches unit :=
  s ← getS;
  if c2_dirty (line2 s group x) then
    for_ (Z.to_nat BLOCK_SIZE_2) 0 (λ i,
      b ← l1_byte_oob group x i;
      in_dram (dram_write (u32 (addr_block + i)) 1 b))
  else mret tt.

Definition fill2 (group tag x addr_block : Z) : M Caches unit :=
  _ ← modify (set_line2 group x (set2_valid true));
  _ ← modify (set_line2 group x (set2_tag tag));
  _ ← modify (set_line2 group x (set2_dirty false));
  for_ (Z.to_nat BLOCK_SIZE_2) 0 (λ i,
    v ← in_dram (dram_read (u32 (addr_block + i)) 1);
    modify (set_line2 group x (set2_data i (Z.land v (len_mask 1))))).

Definition alloc2 (group tag addr_block : Z) : M Caches Z :=
  x ← victim2 group;
  _ ← evict2 group x addr_block;
  _ ← fill2 group tag x addr_block;
  mret x.

(** The uninitialised [uint8_t temp\[2 * BLOCK_SIZE\]]. *)
Definition block_temp : arr Z :=
  foldr (λ i a, aset (Z.of_nat i) (stack_junk (Z.of_nat i)) a) (anew 0) (seq 0 128).

(** * L2

    The functions call themselves when an access crosses a block: the nested call
    starts at a block and does not cross, so a nesting of 2 is enough
    ([CacheSpec.cache_nesting_enough]). *)
Fixpoint Cache_2_read_n (depth : nat) (addr len : Z) : M Caches Z :=
  match depth with
  | O => fail EFuel
  | S depth =>
    let offset := offset2 addr in let group := group2 addr in let tag := tag2 addr in
    let addr_block := block_addr addr in
    s ← getS;
    x ← (match hit2 s group tag with
         | Some x => mret x
         | None => alloc2 group tag addr_block
         end);
    s ← getS;
    let temp := memcpy (Z.to_nat BLOCK_SIZE_2) 0 0 (c2_data (line2 s group x)) block_temp in
    temp ← (if BLOCK_SIZE_2 <? offset + len
            then v ← Cache_2_read_n depth (u32 (addr_block + BLOCK_SIZE_2)) len;
                 mret (le_store 4 BLOCK_SIZE_2 v temp)
            else mret temp);
    mret (le_load 4 (aget temp) offset)
  end.
Definition Cache_2_read : Z → Z → M Caches Z := Cache_2_read_n 2.

Fixpoint Cache_2_write_n (depth : nat) (addr len data : Z) : M Caches unit :=
  match depth with
  | O => fail EFuel
  | S depth =>
    let offset := offset2 addr in let group := group2 addr in let tag := tag2 addr in
    let addr_block := block_addr addr in
    if 63 <? offset + len - 1 then
      let front := 63 - offset + 1 in
      let back := len - front in
      let high := Z.shiftr data (8 * front) in
      let low := Z.land data (Z.shiftl 1 (front * 8) - 1) in
      _ ← Cache_2_write_n depth addr front low;
      Cache_2_write_n depth (u32 (addr + front)) back high
    else
      s ← getS;
      match hit2 s group tag with
      | Some x =>
        _ ← for_ (Z.to_nat len) 0 (λ i,
              modify (set_line2 group x (set2_data (offset + i) (byte_of data i))));
        modify (set_line2 group x (set2_dirty true))
      | None =>
        _ ← in_dram (dram_write addr len data);
        _ ← alloc2 group tag addr_block;
        mret tt
      end
  end.
Definition Cache_2_write : Z → Z → Z → M Caches unit := Cache_2_write_n 2.

(** * L1 *)

(** "read into cache one byte by one" *)
Definition load1 (group x addr_block : Z) : M Caches unit :=
  for_ (Z.to_nat BLOCK_SIZE) 0 (λ i,
    v ← Cache_2_read (u32 (addr_block + i)) 1;
    modify (set_line1 group x (set1_data i (Z.land v (len_mask 1))))).

Definition alloc1 (group tag addr_block : Z) : M Caches Z :=
  x ← victim1 group;
  _ ← modify (set_line1 group x (set1_valid true));
  _ ← modify (set_line1 group x (set1_tag tag));
  _ ← load1 group x addr_block;
  mret x.

Fixpoint Cache_1_read_n (depth : nat) (addr len : Z) : M Caches Z :=
  match depth with
  | O => fail EFuel
  | S depth =>
    let offset := offset1 addr in let group := group1 addr in let tag := tag1 addr in
    let addr_block := block_addr addr in
    s ← getS;
    x ← (match hit1 s group tag with
         | Some x => mret x
         | None => alloc1 group tag addr_block
         end);
    s ← getS;
    let temp := memcpy (Z.to_nat BLOCK_SIZE) 0 0 (c1_data (line1 s group x)) block_temp in
    temp ← (if BLOCK_SIZE <? offset + len
            then v ← Cache_1_read_n depth (u32 (addr_block + BLOCK_SIZE)) len;
                 mret (le_store 4 BLOCK_SIZE v temp)
            else mret temp);
    mret (le_load 4 (aget temp) offset)
  end.
Definition Cache_1_read : Z → Z → M Caches Z := Cache_1_read_n 2.

Fixpoint Cache_1_write_n (depth : nat) (addr len data : Z) : M Caches unit :=
  match depth with
  | O => fail EFuel
  | S depth =>
    let offset := offset1 addr in let group := group1 addr in let tag := tag1 addr in
    let addr_block := block_addr addr in
    if 63 <? offset + len - 1 then
      let front := 63 - offset + 1 in
      let back := len - front in
      let high := Z.shiftr data (8 * front) in
      let low := Z.land data (Z.shiftl 1 (front * 8) - 1) in
      _ ← Cache_1_write_n depth addr front low;
      Cache_1_write_n depth (u32 (addr + front)) back high
    else
      s ← getS;
      let Hit := hit1 s group tag in
      _ ← Cache_2_write addr len data;
      match Hit with
      | Some x => load1 group x addr_block
      | None => mret tt
      end
  end.
Definition Cache_1_write : Z → Z → Z → M Caches unit := Cache_1_write_n 2.

Definition caches0 (seed : Z) : Caches :=
  mkCaches (anew (mkCache_1 false 0 (anew 0))) (anew (mkCache_2 false false 0 (anew 0)))
    dram0 (libc_srand seed).
End Cache.
