(* ===== verification/L2Facts.v ===== *)
(** L2 of [Cache] over the DRAM: the memory the program sees through it, its
    invariant, the behaviour of its reads and writes as long as no dirty line has to be
    replaced, and what replacing one does. *)
From S2P Require Import Prelude Dram Cache.

(** * Block arithmetic *)
Definition block_of (a : Z) : Z := a - a mod 64.

Lemma block_addr_eq a : 0 <= a < 2 ^ 32 → block_addr a = block_of a.
Proof.
  intros Ha. unfold block_addr, block_of.
  change (u32 (Z.shiftl (2 ^ 32 - 1) BLOCK_BIT)) with (Z.ldiff (Z.ones 32) (Z.ones 6)).
  rewrite !Z.ldiff_land, Z.land_assoc, Z.land_ones, Z.mod_small by lia.
  rewrite <- Z.ldiff_land, Z.ldiff_ones_r, Z.shiftr_div_pow2, Z.shiftl_mul_pow2 by lia.
  change (2 ^ 6) with 64. lia.
Qed.

Lemma offset1_eq a : offset1 a = a mod 64.
Proof. unfold offset1. rewrite bitfield_eq by (cbv; done). now rewrite Z.div_1_r. Qed.
Lemma group1_eq a : group1 a = a / 64 mod 128.
Proof. unfold group1. now rewrite bitfield_eq by (cbv; done). Qed.
Lemma tag1_eq a : 0 <= a < 2 ^ 32 → tag1 a = a / 8192.
Proof.
  intros. unfold tag1. rewrite bitfield_eq by (cbv; done).
  change (2 ^ (BLOCK_BIT + GROUP_BIT)) with 8192. apply Z.mod_small.
  change (2 ^ TAG_BIT) with 524288. lia.
Qed.
Lemma offset2_eq a : offset2 a = a mod 64.
Proof. apply offset1_eq. Qed.
Lemma group2_eq a : group2 a = a / 64 mod 4096.
Proof. unfold group2. now rewrite bitfield_eq by (cbv; done). Qed.
Lemma tag2_eq a : 0 <= a < 2 ^ 32 → tag2 a = a / 262144.
Proof.
  intros. unfold tag2. rewrite bitfield_eq by (cbv; done).
  change (2 ^ (BLOCK_BIT_2 + GROUP_BIT_2)) with 262144. apply Z.mod_small.
  change (2 ^ TAG_BIT_2) with 16384. lia.
Qed.

Lemma group1_range a : 0 <= group1 a < 128.
Proof. apply bitfield_range; cbv; done. Qed.
Lemma group2_range a : 0 <= group2 a < 4096.
Proof. apply bitfield_range; cbv; done. Qed.
Lemma tag1_range a : 0 <= tag1 a < 524288.
Proof. apply (bitfield_range a 13 19); lia. Qed.
Lemma tag2_range a : 0 <= tag2 a < 16384.
Proof. apply (bitfield_range a 18 14); lia. Qed.

Lemma tag1_set x t : 0 <= t < 524288 → tag1 (set_bitfield x 13 19 t) = t.
Proof. intros. unfold tag1. 
  change (BLOCK_BIT + GROUP_BIT) with 13. change TAG_BIT with 19.
  rewrite bitfield_set_same by lia. apply Z.mod_small. lia.
Qed.
Lemma tag2_set x t : 0 <= t < 16384 → tag2 (set_bitfield x 18 14 t) = t.
Proof.
  intros. unfold tag2. change (BLOCK_BIT_2 + GROUP_BIT_2) with 18. change TAG_BIT_2 with 14.
  rewrite bitfield_set_same by lia. apply Z.mod_small. lia.
Qed.

(** The block of group [g] with tag [t] in L2, in L1. *)
Definition base2 (g t : Z) : Z := t * 262144 + g * 64.
Definition base1 (g t : Z) : Z := t * 8192 + g * 64.

Section L2Facts.
Context `{HRand : !LibcRand, HJunk : !StackJunk}.

(** * The memory below and through L2 *)

(** Way [w] of group [g] holds the block with tag [t]. *)
Definition holds2 (s : Caches) (g t w : Z) : Prop :=
  0 <= w < 16 ∧ c2_valid (line2 s g w) = true ∧ tag2 (c2_addr (line2 s g w)) = t.
Definition holds1 (s : Caches) (g t w : Z) : Prop :=
  0 <= w < 8 ∧ c1_valid (line1 s g w) = true ∧ tag1 (c1_addr (line1 s g w)) = t.

(** The memory the program sees: L2 where it holds the block, DRAM elsewhere. *)
Definition cmem (s : Caches) (a : Z) : Z :=
  match hit2 s (group2 a) (tag2 a) with
  | Some w => aget (c2_data (line2 s (group2 a) w)) (a mod 64)
  | None => hw_get (cdram s) a
  end.

(** ** The invariant *)
Record l2_ok (s : Caches) : Prop := {
  l2_dram : dram_ok (cdram s);
  l2_unique : ∀ g t w w', 0 <= g < 4096 → holds2 s g t w → holds2 s g t w' → w = w';
  l2_clean : ∀ g t w, 0 <= g < 4096 → holds2 s g t w → c2_dirty (line2 s g w) = false →
    ∀ i, 0 <= i < 64 → aget (c2_data (line2 s g w)) i = hw_get (cdram s) (base2 g t + i);
  l2_invalid : ∀ g w, 0 <= g < 4096 → 0 <= w < 16 →
    c2_valid (line2 s g w) = false → c2_dirty (line2 s g w) = false;
  l2_bytes : ∀ g w, is_bytes (aget (c2_data (line2 s g w)))
}.

Record caches_ok (s : Caches) : Prop := {
  ok_l2 : l2_ok s;
  l1_unique : ∀ g t w w', 0 <= g < 128 → holds1 s g t w → holds1 s g t w' → w = w';
  l1_coherent : ∀ g t w, 0 <= g < 128 → holds1 s g t w →
    ∀ i, 0 <= i < 64 → aget (c1_data (line1 s g w)) i = cmem s (base1 g t + i);
  l1_bytes : ∀ g w, is_bytes (aget (c1_data (line1 s g w)))
}.

(** L2 can take the block of [a] without replacing a dirty line: it has it, or it
    has an invalid way in the group, or every way of the group is clean. *)
Definition room2 (s : Caches) (a : Z) : bool :=
  let g := group2 a in
  match hit2 s g (tag2 a) with
  | Some _ => true
  | None =>
    match find_idx 16 0 (λ w, negb (c2_valid (line2 s g w))) with
    | Some _ => true
    | None => match find_idx 16 0 (λ w, c2_dirty (line2 s g w)) with
              | Some _ => false | None => true end
    end
  end.

(** ** Lookup *)
Lemma hit2_Some s g t w : hit2 s g t = Some w → holds2 s g t w.
Proof. unfold hit2. intros ((? & ?) & ? & _)%find_idx_Some. unfold holds2. bsplit. done. Qed.

Lemma hit2_None s g t : hit2 s g t = None → ∀ w, ¬ holds2 s g t w.
Proof.
  unfold hit2. rewrite find_idx_None. intros H w (Hw & Hv & Ht).
  specialize (H w Hw). rewrite Hv, Ht, Z.eqb_refl in H. done.
Qed.

Lemma hit2_holds s g t w : l2_ok s → 0 <= g < 4096 → holds2 s g t w → hit2 s g t = Some w.
Proof.
  intros Hs Hg Hw. destruct (hit2 s g t) as [w'|] eqn:E.
  - apply hit2_Some in E. now rewrite (l2_unique _ Hs g t w' w).
  - now apply hit2_None with (w := w) in E.
Qed.

Lemma hit1_Some s g t w : hit1 s g t = Some w → holds1 s g t w.
Proof. unfold hit1. intros ((? & ?) & ? & _)%find_idx_Some. unfold holds1. bsplit. done. Qed.

Lemma hit1_None s g t : hit1 s g t = None → ∀ w, ¬ holds1 s g t w.
Proof.
  unfold hit1. rewrite find_idx_None. intros H w (Hw & Hv & Ht).
  specialize (H w Hw). rewrite Hv, Ht, Z.eqb_refl in H. done.
Qed.

(** ** Line updates *)
Lemma line2_set_same s g w f : line2 (set_line2 g w f s) g w = f (line2 s g w).
Proof. unfold line2, set_line2; cbn. apply aget_aset_eq. Qed.

Lemma line2_set_other s g w f g' w' : 0 <= w < 16 → 0 <= w' < 16 → (g, w) ≠ (g', w') →
  line2 (set_line2 g w f s) g' w' = line2 s g' w'.
Proof.
  intros Hw Hw' Hne. unfold line2, set_line2; cbn. apply aget_aset_ne.
  change WAY_NUM_2 with 16. intros ?. apply Hne. f_equal; lia.
Qed.

Lemma line1_set_same s g w f : line1 (set_line1 g w f s) g w = f (line1 s g w).
Proof. unfold line1, set_line1; cbn. apply aget_aset_eq. Qed.

Lemma line1_set_other s g w f g' w' : 0 <= w < 8 → 0 <= w' < 8 → (g, w) ≠ (g', w') →
  line1 (set_line1 g w f s) g' w' = line1 s g' w'.
Proof.
  intros Hw Hw' Hne. unfold line1, set_line1; cbn. apply aget_aset_ne.
  change WAY_NUM with 8. intros ?. apply Hne. f_equal; lia.
Qed.

Lemma in_dram_Ok {A} (m : M Dram A) s a d :
  m (cdram s) = Ok a d → in_dram m s = Ok a (set_cdram d s).
Proof. intros H. unfold in_dram, zoom. now rewrite H. Qed.

Lemma addr_split2 a : 0 <= a < 2 ^ 32 → a = base2 (group2 a) (tag2 a) + a mod 64.
Proof. intros. unfold base2. rewrite group2_eq, tag2_eq by done. lia. Qed.

Lemma block_split2 a : 0 <= a < 2 ^ 32 → block_of a = base2 (group2 a) (tag2 a).
Proof. intros Ha. unfold block_of. pose proof (addr_split2 a Ha). lia. Qed.

Lemma group2_base g t i : 0 <= g < 4096 → 0 <= t < 16384 → 0 <= i < 64 →
  group2 (base2 g t + i) = g.
Proof. intros. rewrite group2_eq. unfold base2. lia. Qed.

Lemma tag2_base g t i : 0 <= g < 4096 → 0 <= t < 16384 → 0 <= i < 64 →
  tag2 (base2 g t + i) = t.
Proof. intros. rewrite tag2_eq by (unfold base2; lia). unfold base2. lia. Qed.

Lemma cmem_hit s a w : l2_ok s → holds2 s (group2 a) (tag2 a) w →
  cmem s a = aget (c2_data (line2 s (group2 a) w)) (a mod 64).
Proof. intros Hs Hw. unfold cmem. now rewrite (hit2_holds _ _ _ w Hs (group2_range a) Hw). Qed.

Lemma cmem_miss s a : (∀ w, ¬ holds2 s (group2 a) (tag2 a) w) → cmem s a = hw_get (cdram s) a.
Proof.
  intros Hm. unfold cmem. destruct (hit2 _ _ _) as [w|] eqn:E; [|done].
  apply hit2_Some in E. now apply Hm in E.
Qed.

Lemma cmem_bytes s : l2_ok s → is_bytes (cmem s).
Proof. intros Hs a. unfold cmem. case_match; apply Hs. Qed.

(** [l2_ok] and [cmem] ignore L1 and the generator. *)
Lemma l2_ok_ext s s' : L2 s' = L2 s → cdram s' = cdram s → l2_ok s → l2_ok s'.
Proof.
  intros HL Hd [H1 H2 H3 H4 H5].
  assert (∀ g w, line2 s' g w = line2 s g w) as Hl by (intros; unfold line2; now rewrite HL).
  split; rewrite ?Hd; unfold holds2 in *; try setoid_rewrite Hl; done.
Qed.

Lemma cmem_ext s s' a : L2 s' = L2 s → cdram s' = cdram s → cmem s' a = cmem s a.
Proof. intros HL Hd. unfold cmem, hit2, line2. now rewrite HL, Hd. Qed.

Lemma hit2_ext s s' g t : (∀ w, 0 <= w < 16 → line2 s' g w = line2 s g w) →
  hit2 s' g t = hit2 s g t.
Proof.
  intros H. unfold hit2. change (Z.to_nat WAY_NUM_2) with 16%nat.
  cbn [find_idx]. now rewrite !H by lia.
Qed.

Lemma room2_ext s s' a : (∀ w, 0 <= w < 16 → line2 s' (group2 a) w = line2 s (group2 a) w) →
  room2 s' a = room2 s a.
Proof. intros H. unfold room2. rewrite (hit2_ext s s') by done. cbn [find_idx]. now rewrite !H by lia. Qed.

Lemma room2_hit s a w : hit2 s (group2 a) (tag2 a) = Some w → room2 s a = true.
Proof. intros H. unfold room2. now rewrite H. Qed.

(** ** Filling a way of L2 *)
Lemma victim2_ok s a :
  l2_ok s → room2 s a = true → hit2 s (group2 a) (tag2 a) = None →
  ∃ x s', victim2 (group2 a) s = Ok x s' ∧ L1 s' = L1 s ∧ L2 s' = L2 s ∧ cdram s' = cdram s ∧
    0 <= x < 16 ∧ c2_dirty (line2 s (group2 a) x) = false.
Proof.
  intros Hs Hr Hm. unfold room2 in Hr. rewrite Hm in Hr. unfold victim2.
  change (Z.to_nat WAY_NUM_2) with 16%nat.
  destruct (find_idx 16 0 (λ i, negb _)) as [x|] eqn:E.
  - apply find_idx_Some in E as (Hx & Hv & _). exists x, s. split_and!; try done || lia.
    apply Hs; [apply group2_range|lia|]. now destruct (c2_valid _).
  - unfold rand_mod. destruct (libc_rand (crand s)) as [r st]. eexists _, _. split; [done|]. cbn.
    assert (0 <= r mod WAY_NUM_2 < 16) as Hx by (apply Z.mod_pos_bound; done).
    split_and!; try done || lia.
    destruct (find_idx 16 0 (λ w, c2_dirty _)) eqn:E2; [done|].
    rewrite find_idx_None in E2. now apply E2.
Qed.

(** [s'] is [s] with the block of group [g] and tag [t] loaded into way [x]. *)
Record filled2 (s s' : Caches) (g t x : Z) : Prop := {
  f2_dram : dram_ok (cdram s');
  f2_hw : ∀ a, hw_get (cdram s') a = hw_get (cdram s) a;
  f2_other : ∀ g' w, 0 <= w < 16 → (g, x) ≠ (g', w) → line2 s' g' w = line2 s g' w;
  f2_valid : c2_valid (line2 s' g x) = true;
  f2_dirty : c2_dirty (line2 s' g x) = false;
  f2_tag : tag2 (c2_addr (line2 s' g x)) = t;
  f2_data : ∀ i, 0 <= i < 64 → aget (c2_data (line2 s' g x)) i = hw_get (cdram s) (base2 g t + i);
  f2_bytes : ∀ g w, is_bytes (aget (c2_data (line2 s' g w)))
}.

Lemma line2_bytes_upd s g x f : (∀ g w, is_bytes (aget (c2_data (line2 s g w)))) →
  is_bytes (aget (c2_data (f (line2 s g x)))) →
  ∀ g' w, is_bytes (aget (c2_data (line2 (set_line2 g x f s) g' w))).
Proof.
  intros H Hf g' w. unfold line2 at 1, set_line2; cbn. rewrite aget_aset. case_match; [done|].
  apply H.
Qed.

Lemma fill2_ok s g t x :
  l2_ok s → 0 <= g < 4096 → 0 <= t < 16384 → 0 <= x < 16 →
  base2 g t + 64 <= HW_MEM_SIZE →
  ∃ s', fill2 g t x (base2 g t) s = Ok tt s' ∧ L1 s' = L1 s ∧ filled2 s s' g t x.
Proof.
  intros Hs Hg Ht Hx Hsz. unfold fill2. mstep.
  set (s1 := set_line2 g x (set2_dirty false) _).
  assert (line2 s1 g x = mkCache_2 true false (set_bitfield (c2_addr (line2 s g x)) 18 14 t)
            (c2_data (line2 s g x))) as Hl1.
  { unfold s1. now rewrite !line2_set_same. }
  assert (∀ g' w, 0 <= w < 16 → (g, x) ≠ (g', w) → line2 s1 g' w = line2 s g' w) as Ho1.
  { intros. unfold s1. now rewrite !line2_set_other. }
  pose (P := λ (i : Z) (s' : Caches),
    L1 s' = L1 s ∧ dram_ok (cdram s') ∧ (∀ a, hw_get (cdram s') a = hw_get (cdram s) a) ∧
    (∀ g' w, 0 <= w < 16 → (g, x) ≠ (g', w) → line2 s' g' w = line2 s g' w) ∧
    c2_valid (line2 s' g x) = true ∧ c2_dirty (line2 s' g x) = false ∧
    tag2 (c2_addr (line2 s' g x)) = t ∧
    (∀ j, 0 <= j < i → aget (c2_data (line2 s' g x)) j = hw_get (cdram s) (base2 g t + j)) ∧
    (∀ g w, is_bytes (aget (c2_data (line2 s' g w))))).
  destruct (for_ok P (Z.to_nat BLOCK_SIZE_2) 0 (λ i,
      v ← in_dram (dram_read (u32 (base2 g t + i)) 1);
      modify (set_line2 g x (set2_data i (Z.land v (len_mask 1))))) s1)
    as (s' & Hrun & HP).
  { unfold P. rewrite Hl1. cbn. split_and!; try done.
    - apply Hs.
    - now apply tag2_set.
    - lia.
    - unfold s1. repeat apply line2_bytes_upd; rewrite ?line2_set_same; apply Hs. }
  { intros i s2 Hi (HL & Hd & Hhw & Ho & Hv & Hdi & Htg & Hdata & Hby).
    change (0 + Z.of_nat (Z.to_nat BLOCK_SIZE_2)) with 64 in Hi.
    change HW_MEM_SIZE with 134217728 in *.
    assert (0 <= base2 g t) by (unfold base2; lia).
    destruct (dram_read_ok (cdram s2) (base2 g t + i) 1) as (v & d & Hr & Hd' & Hhw' & Hval);
      [done|lia|lia|change HW_MEM_SIZE with 134217728; lia|].
    rewrite wrap_small by lia. mstep. rewrite (in_dram_Ok _ _ _ _ Hr).
    eexists. split; [reflexivity|]. rewrite land_len_mask by lia.
    change (Z.to_nat 1) with 1%nat in Hval. cbn [le_load] in Hval. rewrite Z.mul_0_r, Z.add_0_r in Hval.
    rewrite Hval, Hhw.
    unfold P. rewrite !line2_set_same. cbn. split_and!; try done.
    - intros a. now rewrite Hhw'.
    - intros. rewrite line2_set_other by done. now apply Ho.
    - intros j Hj. rewrite aget_aset. case_match; bsplit; subst; [done|].
      apply Hdata. lia.
    - apply line2_bytes_upd; [done|]. cbn. intros j. rewrite aget_aset.
      case_match; [apply Hs|apply Hby]. }
  exists s'. split; [exact Hrun|]. change (0 + Z.of_nat (Z.to_nat BLOCK_SIZE_2)) with 64 in HP.
  destruct HP as (HL & Hd & Hhw & Ho & Hv & Hdi & Htg & Hdata & Hby).
  split; [done|]. split; done.
Qed.

Section Filled.
Context (s s' : Caches) (g t x : Z).
Context (Hs : l2_ok s) (Hg : 0 <= g < 4096) (Ht : 0 <= t < 16384) (Hx : 0 <= x < 16).
Context (Hmiss : ∀ w, ¬ holds2 s g t w).
Context (HF : filled2 s s' g t x).

Lemma filled2_holds : holds2 s' g t x.
Proof using All. destruct HF. done. Qed.

(** What a group holds after the fill. *)
Lemma filled2_holds_inv g' t' w :
  holds2 s' g' t' w → (g' = g ∧ t' = t ∧ w = x) ∨ ((g, x) ≠ (g', w) ∧ holds2 s g' t' w).
Proof using All.
  intros (Hw & Hv & Ht'). destruct (decide ((g, x) = (g', w))) as [[= <- <-]|Hne].
  - left. now rewrite (f2_tag _ _ _ _ _ HF) in Ht'.
  - right. split; [done|]. unfold holds2. now rewrite (f2_other _ _ _ _ _ HF) in Hv, Ht' by done.
Qed.

Lemma filled2_keeps g' t' w :
  (g, x) ≠ (g', w) → holds2 s g' t' w → holds2 s' g' t' w.
Proof using All.
  intros Hne (Hw & Hv & Htw). unfold holds2. now rewrite !(f2_other _ _ _ _ _ HF) by done.
Qed.

Lemma filled2_ok : l2_ok s'.
Proof using All.
  split.
  - apply HF.
  - intros g' t' w w' Hg' [(-> & -> & ->)|[? H1]]%filled2_holds_inv
      [(? & ? & ->)|[? H2]]%filled2_holds_inv; subst; try done.
    + destruct (Hmiss _ H2).
    + destruct (Hmiss _ H1).
    + now apply (l2_unique _ Hs g' t').
  - intros g' t' w Hg' [(-> & -> & ->)|[? H1]]%filled2_holds_inv Hd i Hi; rewrite (f2_hw _ _ _ _ _ HF).
    + now apply HF.
    + assert (0 <= w < 16) by apply H1. rewrite (f2_other _ _ _ _ _ HF) in * by done.
      now apply (l2_clean _ Hs g' t').
  - intros g' w Hg' Hw Hv. destruct (decide ((g, x) = (g', w))) as [[= <- <-]|Hne]; [apply HF|].
    rewrite (f2_other _ _ _ _ _ HF) in * by done. now apply Hs.
  - apply HF.
Qed.

End Filled.

(** A clean fill does not change the memory the program sees. *)
Lemma filled2_cmem s s' g t x a :
  l2_ok s → 0 <= g < 4096 → 0 <= t < 16384 → 0 <= x < 16 →
  c2_dirty (line2 s g x) = false → (∀ w, ¬ holds2 s g t w) → filled2 s s' g t x →
  0 <= a < 2 ^ 32 → cmem s' a = cmem s a.
Proof.
  intros Hs Hg Ht Hx Hclean Hmiss HF Ha.
  assert (l2_ok s') as Hs' by (now apply (filled2_ok s s' g t x)).
  assert (holds2 s' g t x) as Hx' by (now apply (filled2_holds s s' g t x)).
  assert (∀ g' t' w, holds2 s' g' t' w →
    (g' = g ∧ t' = t ∧ w = x) ∨ ((g, x) ≠ (g', w) ∧ holds2 s g' t' w)) as Hinv
    by (intros; now apply (filled2_holds_inv s s' g t x)).
  pose proof (group2_range a) as Hga. pose proof (addr_split2 a Ha) as Hsp.
  destruct (hit2 s (group2 a) (tag2 a)) as [w|] eqn:E.
  - apply hit2_Some in E as Hw. rewrite (cmem_hit s a w) by done.
    destruct (decide ((g, x) = (group2 a, w))) as [[= -> ->]|Hne].
    + rewrite cmem_miss.
      * rewrite (f2_hw _ _ _ _ _ HF), (l2_clean _ Hs _ _ _ Hga Hw Hclean (a mod 64)) by lia.
        f_equal. lia.
      * intros w' [(_ & <- & _)|[Hne Hw']]%Hinv; [now destruct (Hmiss w)|].
        apply Hne. f_equal. now apply (l2_unique _ Hs _ _ _ _ Hga Hw).
    + assert (0 <= w < 16) by apply Hw.
      rewrite (cmem_hit s' a w), (f2_other _ _ _ _ _ HF) by
        (done || now apply (filled2_keeps s s' g t x)). done.
  - rewrite (cmem_miss s a) by (intros w Hw; now apply hit2_None with (w := w) in E).
    destruct (decide (group2 a = g ∧ tag2 a = t)) as [[<- <-]|Hne].
    + rewrite (cmem_hit s' a x), (f2_data _ _ _ _ _ HF) by (done || lia). f_equal. lia.
    + rewrite cmem_miss; [apply HF|].
      intros w [(? & ? & ?)|[_ Hw]]%Hinv; [now apply Hne|].
      now apply hit2_None with (w := w) in E.
Qed.

(** ** Getting a block into L2 *)
Lemma get2_ok s a :
  l2_ok s → room2 s a = true → 0 <= a < HW_MEM_SIZE →
  ∃ x s', (match hit2 s (group2 a) (tag2 a) with
           | Some x => mret x
           | None => alloc2 (group2 a) (tag2 a) (block_addr a)
           end) s = Ok x s' ∧
    L1 s' = L1 s ∧ l2_ok s' ∧ (∀ b, 0 <= b < 2 ^ 32 → cmem s' b = cmem s b) ∧
    holds2 s' (group2 a) (tag2 a) x ∧
    (∀ g' w, 0 <= w < 16 → g' ≠ group2 a → line2 s' g' w = line2 s g' w).
Proof.
  intros Hs Hr Ha. change HW_MEM_SIZE with 134217728 in Ha.
  destruct (hit2 s (group2 a) (tag2 a)) as [x|] eqn:E.
  { exists x, s. split_and!; try done. all: now apply hit2_Some in E. }
  destruct (victim2_ok s a Hs Hr E) as (x & s1 & Hv & HL1 & HL2 & Hd & Hx & Hcl).
  assert (l2_ok s1) as Hs1 by (now apply (l2_ok_ext s)).
  assert (∀ g w, line2 s1 g w = line2 s g w) as Hl by (intros; unfold line2; now rewrite HL2).
  rewrite block_addr_eq, block_split2 by lia.
  pose proof (group2_range a). pose proof (tag2_range a). pose proof (addr_split2 a).
  destruct (fill2_ok s1 (group2 a) (tag2 a) x) as (s2 & Hf & HL1' & HF); try done.
  { change HW_MEM_SIZE with 134217728. unfold base2. rewrite group2_eq, tag2_eq by lia. lia. }
  exists x, s2. unfold alloc2. mstep. rewrite Hv. unfold evict2. mstep.
  rewrite Hl, Hcl, Hf.
  assert (∀ w, ¬ holds2 s1 (group2 a) (tag2 a) w) as Hm.
  { intros w Hw. unfold holds2 in Hw. rewrite Hl in Hw. now apply hit2_None with (w := w) in E. }
  assert (c2_dirty (line2 s1 (group2 a) x) = false) as Hcl1 by (now rewrite Hl).
  split_and!; try done.
  - congruence.
  - now apply (filled2_ok s1 s2 (group2 a) (tag2 a) x).
  - intros b Hb. rewrite (filled2_cmem s1 s2 (group2 a) (tag2 a) x); try done.
    now apply cmem_ext.
  - now apply (filled2_holds s1 s2 (group2 a) (tag2 a) x).
  - intros g' w Hw Hne. rewrite (f2_other _ _ _ _ _ HF) by (done || congruence). apply Hl.
Qed.

Lemma block_temp_bytes : is_bytes (aget block_temp).
Proof.
  unfold block_temp. induction (seq 0 128) as [|k l IH]; intros i; cbn [foldr].
  - rewrite aget_anew. lia.
  - rewrite aget_aset. case_match; [apply stack_junk_range|apply IH].
Qed.

(** ** L2 accesses within a block *)

(** What a read takes from the line that holds its bytes. *)
Lemma line2_load s a len x :
  l2_ok s → holds2 s (group2 a) (tag2 a) x → 0 <= a < HW_MEM_SIZE → 1 <= len <= 4 → a mod 64 + len <= 64 →
  le_load 4 (aget (memcpy (Z.to_nat BLOCK_SIZE_2) 0 0 (c2_data (line2 s (group2 a) x)) block_temp)) (a mod 64)
    mod 256 ^ len = le_load (Z.to_nat len) (cmem s) a.
Proof.
  intros Hs Hx Ha Hlen Hblk. change (Z.to_nat BLOCK_SIZE_2) with 64%nat. set (temp := memcpy _ _ _ _ _).
  assert (∀ j, 0 <= j < 64 → aget temp j = aget (c2_data (line2 s (group2 a) x)) j) as Ht.
  { intros j Hj. unfold temp. rewrite aget_memcpy.
    replace (_ && _) with true by lia. f_equal. lia. }
  assert (is_bytes (aget temp)) as Hb.
  { intros j. unfold temp. rewrite aget_memcpy.
    destruct (_ && _); [apply Hs|apply block_temp_bytes]. }
  rewrite <- (Z2Nat.id len) at 1 by lia. rewrite le_load_mod by (done || lia).
  apply le_load_shift. intros k Hk. change HW_MEM_SIZE with 134217728 in Ha. rewrite Ht by lia.
  assert (group2 (a + k) = group2 a) as Hg by (rewrite !group2_eq; lia).
  assert (tag2 (a + k) = tag2 a) as Htg by (rewrite !tag2_eq by lia; lia).
  rewrite (cmem_hit s (a + k) x) by (rewrite ?Hg, ?Htg; done). rewrite Hg. f_equal. lia.
Qed.

Lemma Cache_2_read_ok s a len :
  l2_ok s → room2 s a = true → 0 <= a < HW_MEM_SIZE → 1 <= len <= 4 → a mod 64 + len <= 64 →
  ∃ v s', Cache_2_read a len s = Ok v s' ∧
    L1 s' = L1 s ∧ l2_ok s' ∧ (∀ b, 0 <= b < 2 ^ 32 → cmem s' b = cmem s b) ∧
    hit2 s' (group2 a) (tag2 a) ≠ None ∧
    (∀ g' w, 0 <= w < 16 → g' ≠ group2 a → line2 s' g' w = line2 s g' w) ∧
    v mod 256 ^ len = le_load (Z.to_nat len) (cmem s) a.
Proof.
  intros Hs Hr Ha Hlen Hblk. unfold Cache_2_read. cbn [Cache_2_read_n]. mstep.
  destruct (get2_ok s a Hs Hr Ha) as (x & s' & Hget & HL1 & Hs' & Hcm & Hx & Hfr).
  unfold mret, M_ret in Hget. rewrite Hget.
  change BLOCK_SIZE_2 with 64. rewrite offset2_eq. replace (64 <? a mod 64 + len) with false by lia.
  eexists _, s'. split; [reflexivity|]. split_and!; try done.
  { now rewrite (hit2_holds s' _ _ x) by (done || apply group2_range). }
  etransitivity; [exact (line2_load s' a len x Hs' Hx Ha Hlen Hblk)|].
  apply le_load_ext. intros k Hk. apply Hcm. change HW_MEM_SIZE with 134217728 in Ha. lia.
Qed.

Lemma same_block2 a k : 0 <= a < 2 ^ 32 → 0 <= a + k < 2 ^ 32 →
  0 <= a mod 64 + k < 64 → group2 (a + k) = group2 a ∧ tag2 (a + k) = tag2 a.
Proof. intros. rewrite !group2_eq, !tag2_eq by lia. lia. Qed.

(** The bytes of a block are those at the addresses with its group and tag. *)
Lemma same_block2_inv a b : 0 <= a < 2 ^ 32 → 0 <= b < 2 ^ 32 →
  group2 b = group2 a → tag2 b = tag2 a → b - b mod 64 = a - a mod 64.
Proof. intros ??. rewrite !group2_eq, !tag2_eq by lia. lia. Qed.

(** [s'] is [s] with [len] bytes of [data] written in way [x] of the group of [a]. *)
Record written2 (s s' : Caches) (a len data x : Z) : Prop := {
  w2_dram : cdram s' = cdram s;
  w2_other : ∀ g' w, 0 <= w < 16 → (group2 a, x) ≠ (g', w) → line2 s' g' w = line2 s g' w;
  w2_valid : c2_valid (line2 s' (group2 a) x) = c2_valid (line2 s (group2 a) x);
  w2_dirty : c2_dirty (line2 s' (group2 a) x) = true;
  w2_addr : c2_addr (line2 s' (group2 a) x) = c2_addr (line2 s (group2 a) x);
  w2_data : ∀ j, aget (c2_data (line2 s' (group2 a) x)) j =
    flat_store (aget (c2_data (line2 s (group2 a) x))) (a mod 64) len data j;
  w2_bytes : ∀ g w, is_bytes (aget (c2_data (line2 s' g w)))
}.

Lemma write_hit2_ok s a len data x :
  l2_ok s → 0 <= x < 16 → 0 <= len →
  ∃ s', (_ ← for_ (Z.to_nat len) 0 (λ i, modify (set_line2 (group2 a) x
           (set2_data (a mod 64 + i) (byte_of data i))));
         modify (set_line2 (group2 a) x (set2_dirty true))) s = Ok tt s' ∧
    L1 s' = L1 s ∧ written2 s s' a len data x.
Proof.
  intros Hs Hx Hlen. set (g := group2 a).
  pose (P := λ (i : Z) (s' : Caches), L1 s' = L1 s ∧ cdram s' = cdram s ∧
    (∀ g' w, 0 <= w < 16 → (g, x) ≠ (g', w) → line2 s' g' w = line2 s g' w) ∧
    c2_valid (line2 s' g x) = c2_valid (line2 s g x) ∧
    c2_addr (line2 s' g x) = c2_addr (line2 s g x) ∧
    (∀ j, aget (c2_data (line2 s' g x)) j =
       flat_store (aget (c2_data (line2 s g x))) (a mod 64) i data j) ∧
    (∀ g w, is_bytes (aget (c2_data (line2 s' g w))))).
  destruct (for_ok P (Z.to_nat len) 0 (λ i, modify (set_line2 g x
      (set2_data (a mod 64 + i) (byte_of data i)))) s) as (s1 & Hrun & HP).
  { unfold P. split_and!; try done; [|apply Hs]. intros j. unfold flat_store.
    now replace (_ && _) with false by lia. }
  { intros i s1 Hi (HL & Hd & Ho & Hv & Ha & Hdata & Hb). eexists. split; [done|].
    unfold P. rewrite !line2_set_same. cbn. split_and!; try done.
    - intros. rewrite line2_set_other by done. now apply Ho.
    - intros j. rewrite aget_aset, Hdata. unfold flat_store.
      destruct (Z.eqb_spec (a mod 64 + i) j) as [<-|].
      + replace (_ && _) with true by lia. f_equal. lia.
      + replace (j <? a mod 64 + (i + 1)) with (j <? a mod 64 + i) by lia. done.
    - apply line2_bytes_upd; [done|]. cbn. intros j. rewrite aget_aset.
      destruct (_ =? _); [apply byte_of_range|apply Hb]. }
  rewrite Z2Nat.id in HP by lia. destruct HP as (HL & Hd & Ho & Hv & Ha & Hdata & Hb).
  rewrite (bind_Ok _ _ _ _ _ Hrun). eexists. split; [reflexivity|]. split; [done|].
  split; fold g; rewrite ?line2_set_same; cbn; try done.
  - intros. rewrite line2_set_other by done. now apply Ho.
  - apply line2_bytes_upd; [done|]. cbn. apply Hb.
Qed.

Lemma written2_holds s s' a len data x g t w :
  written2 s s' a len data x → 0 <= x < 16 → holds2 s' g t w ↔ holds2 s g t w.
Proof.
  intros HW Hx. unfold holds2. destruct (decide ((group2 a, x) = (g, w))) as [[= <- <-]|Hne].
  - now rewrite (w2_valid _ _ _ _ _ _ HW), (w2_addr _ _ _ _ _ _ HW).
  - split; intros (Hw & H); (split; [done|]); now rewrite (w2_other _ _ _ _ _ _ HW) in *.
Qed.

Lemma written2_ok s s' a len data x :
  l2_ok s → holds2 s (group2 a) (tag2 a) x → written2 s s' a len data x → l2_ok s'.
Proof.
  intros Hs (Hx & Hvx & _) HW. split.
  - rewrite (w2_dram _ _ _ _ _ _ HW). apply Hs.
  - intros g t w w' Hg. rewrite !(written2_holds s s' a len data x) by done. now apply Hs.
  - intros g t w Hg. rewrite (written2_holds s s' a len data x) by done. intros Hw Hd.
    destruct (decide ((group2 a, x) = (g, w))) as [[= <- <-]|Hne].
    { now rewrite (w2_dirty _ _ _ _ _ _ HW) in Hd. }
    assert (0 <= w < 16) by apply Hw.
    rewrite (w2_dram _ _ _ _ _ _ HW), (w2_other _ _ _ _ _ _ HW) in * by done.
    now apply (l2_clean _ Hs).
  - intros g w Hg Hw. destruct (decide ((group2 a, x) = (g, w))) as [[= <- <-]|Hne].
    + rewrite (w2_valid _ _ _ _ _ _ HW). congruence.
    + rewrite (w2_other _ _ _ _ _ _ HW) by done. now apply Hs.
  - apply HW.
Qed.

Lemma written2_cmem s s' a len data x b :
  l2_ok s → holds2 s (group2 a) (tag2 a) x → written2 s s' a len data x →
  0 <= a < 2 ^ 32 → 1 <= len → a mod 64 + len <= 64 → 0 <= b < 2 ^ 32 →
  cmem s' b = flat_store (cmem s) a len data b.
Proof.
  intros Hs Hx HW Ha Hlen Hblk Hb.
  assert (l2_ok s') as Hs' by (now apply (written2_ok s s' a len data x)).
  assert (0 <= x < 16) as Hxr by apply Hx.
  assert (∀ g t w, holds2 s' g t w ↔ holds2 s g t w) as Hh
    by (intros; now apply (written2_holds s s' a len data x)).
  destruct (decide (group2 b = group2 a ∧ tag2 b = tag2 a)) as [[Hg Ht]|Hne].
  - pose proof (same_block2_inv a b Ha Hb Hg Ht).
    rewrite (cmem_hit s' b x) by (rewrite ?Hg, ?Ht; first [done | now apply Hh]).
    rewrite Hg, (w2_data _ _ _ _ _ _ HW). unfold flat_store.
    rewrite (cmem_hit s b x) by (rewrite ?Hg, ?Ht; done). rewrite Hg.
    replace (a mod 64 <=? b mod 64) with (a <=? b) by lia.
    replace (b mod 64 <? a mod 64 + len) with (b <? a + len) by lia.
    destruct (_ && _); [|done]. f_equal. lia.
  - unfold flat_store. destruct ((a <=? b) && (b <? a + len)) eqn:E.
    { exfalso. apply Hne. replace b with (a + (b - a)) by lia. apply same_block2; lia. }
    pose proof (group2_range b).
    destruct (hit2 s (group2 b) (tag2 b)) as [w|] eqn:Eh.
    + apply hit2_Some in Eh.
      rewrite (cmem_hit s' b w), (cmem_hit s b w) by (done || now apply Hh).
      assert (0 <= w < 16) by apply Eh. rewrite (w2_other _ _ _ _ _ _ HW); [done|done|].
      intros [= Hg ->]. apply Hne. split; [done|].
      destruct Eh as (_ & _ & <-), Hx as (_ & _ & <-). now rewrite Hg.
    + rewrite !cmem_miss; [now rewrite (w2_dram _ _ _ _ _ _ HW)| |].
      all: intros w Hw; rewrite ?Hh in Hw; now apply hit2_None with (w := w) in Eh.
Qed.

(** On an L2 miss the DRAM is written first: the lines L2 holds do not move. *)
Lemma write_miss2_ok s a len data :
  l2_ok s → (∀ w, ¬ holds2 s (group2 a) (tag2 a) w) →
  0 <= a → 1 <= len <= 4 → a + len <= HW_MEM_SIZE → a mod 64 + len <= 64 →
  ∃ s', in_dram (dram_write a len data) s = Ok tt s' ∧
    L1 s' = L1 s ∧ L2 s' = L2 s ∧ l2_ok s' ∧
    ∀ b, 0 <= b < 2 ^ 32 → cmem s' b = flat_store (cmem s) a len data b.
Proof.
  intros Hs Hm Ha Hlen Hsz Hblk.
  destruct (dram_write_ok (cdram s) a len data) as (d & Hw & Hd & Hhw); try done; [apply Hs|].
  change HW_MEM_SIZE with 134217728 in Hsz.
  exists (set_cdram d s). rewrite (in_dram_Ok _ _ _ _ Hw).
  assert (∀ g w, line2 (set_cdram d s) g w = line2 s g w) as Hl by done.
  assert (∀ b, 0 <= b < 2 ^ 32 → (group2 b ≠ group2 a ∨ tag2 b ≠ tag2 a) →
    hw_get d b = hw_get (cdram s) b) as Hother.
  { intros b Hb Hne. rewrite Hhw. unfold flat_store.
    destruct (_ && _) eqn:E; [|done]. exfalso.
    destruct (same_block2 a (b - a)) as [H1 H2]; try lia.
    replace (a + (b - a)) with b in H1, H2 by lia. tauto. }
  split_and!; try done.
  - split; cbn; try done; [apply Hs| |apply Hs|apply Hs].
    intros g t w Hg Hh Hdi i Hi. rewrite (l2_clean _ Hs g t w) by done.
    symmetry. assert (0 <= t < 16384) by (destruct Hh as (_ & _ & <-); apply tag2_range).
    apply Hother; [unfold base2; lia|]. rewrite group2_base, tag2_base by done.
    destruct (decide (g = group2 a)) as [->|]; [right|by left].
    intros ->. now apply Hm in Hh.
  - intros b Hb. unfold cmem at 1. change (hit2 (set_cdram d s)) with (hit2 s).
    destruct (hit2 s (group2 b) (tag2 b)) as [w|] eqn:E.
    + unfold flat_store, cmem. rewrite E. destruct (_ && _) eqn:Er; [|done].
      exfalso. apply hit2_Some in E.
      destruct (same_block2 a (b - a)) as [H1 H2]; try lia.
      replace (a + (b - a)) with b in * by lia. rewrite H1, H2 in E. now apply Hm in E.
    + cbn. rewrite Hhw. apply flat_store_ext. unfold cmem. now rewrite E.
Qed.

Lemma Cache_2_write_ok s a len data :
  l2_ok s → room2 s a = true → 0 <= a → a + len <= HW_MEM_SIZE → 1 <= len <= 4 →
  a mod 64 + len <= 64 →
  ∃ s', Cache_2_write a len data s = Ok tt s' ∧
    L1 s' = L1 s ∧ l2_ok s' ∧
    (∀ b, 0 <= b < 2 ^ 32 → cmem s' b = flat_store (cmem s) a len data b) ∧
    hit2 s' (group2 a) (tag2 a) ≠ None ∧
    (∀ g' w, 0 <= w < 16 → g' ≠ group2 a → line2 s' g' w = line2 s g' w).
Proof.
  intros Hs Hr Ha Hsz Hlen Hblk. unfold Cache_2_write. cbn [Cache_2_write_n].
  cbv zeta. rewrite offset2_eq. replace (63 <? a mod 64 + len - 1) with false by lia.
  assert (0 <= a < 2 ^ 32) as Ha32 by (change HW_MEM_SIZE with 134217728 in *; lia).
  rewrite (bind_Ok getS _ s s s eq_refl).
  destruct (hit2 s (group2 a) (tag2 a)) as [x|] eqn:E.
  - apply hit2_Some in E as Hx. assert (0 <= x < 16) as Hxr by apply Hx.
    destruct (write_hit2_ok s a len data x Hs Hxr) as (s' & -> & HL & HW); [lia|].
    assert (l2_ok s') as Hs' by (now apply (written2_ok s s' a len data x)).
    exists s'. split_and!; try done.
    + intros b Hb. apply (written2_cmem s s' a len data x); done || lia.
    + rewrite (hit2_holds s' _ _ x); [done|done|apply group2_range|].
      now apply (written2_holds s s' a len data x).
    + intros g' w Hw Hne. apply HW; [done|congruence].
  - destruct (write_miss2_ok s a len data) as (s1 & Hw & HL1 & HL2 & Hs1 & Hcm); try done || lia.
    { intros w Hw. now apply hit2_None with (w := w) in E. }
    rewrite (bind_Ok _ _ _ _ _ Hw).
    assert (hit2 s1 (group2 a) (tag2 a) = None) as E1 by (unfold hit2, line2 in *; now rewrite HL2).
    assert (room2 s1 a = true) as Hr1.
    { rewrite (room2_ext s); [done|]. intros w _. unfold line2. now rewrite HL2. }
    destruct (get2_ok s1 a Hs1 Hr1) as (x & s2 & Hget & HL1' & Hs2 & Hcm2 & Hx & Hfr).
    { change HW_MEM_SIZE with 134217728 in *. lia. }
    rewrite E1 in Hget. rewrite (bind_Ok _ _ _ _ _ Hget).
    exists s2. split_and!; try done.
    + congruence.
    + intros b Hb. now rewrite Hcm2, Hcm.
    + now rewrite (hit2_holds s2 _ _ x) by (done || apply group2_range).
    + intros g' w Hw' Hne. rewrite Hfr by done. unfold line2. now rewrite HL2.
Qed.

(** * Replacing a dirty line *)
Lemma victim2_frame g s x s0 : victim2 g s = Ok x s0 →
  L1 s0 = L1 s ∧ L2 s0 = L2 s ∧ cdram s0 = cdram s ∧ 0 <= x < 16.
Proof.
  unfold victim2. change (Z.to_nat WAY_NUM_2) with 16%nat. destruct (find_idx 16 0 _) as [y|] eqn:E.
  - apply find_idx_Some in E as (Hy & _). intros [= <- <-]. split_and!; done || lia.
  - unfold rand_mod. destruct (libc_rand (crand s)) as [r st]. intros [= <- <-].
    split_and!; try done; apply Z.mod_pos_bound; done.
Qed.

(** The way and the generator do not depend on the DRAM. *)
Lemma victim2_dram g s x s0 d : victim2 g s = Ok x s0 → victim2 g (set_cdram d s) = Ok x (set_cdram d s0).
Proof.
  unfold victim2. change (line2 (set_cdram d s)) with (line2 s). destruct (find_idx _ 0 _).
  - now intros [= <- <-].
  - unfold rand_mod. cbn. destruct (libc_rand (crand s)) as [r st]. now intros [= <- <-].
Qed.

(** L1's line goes to the incoming block in the DRAM; L2 itself does not move. *)
Lemma evict2_ok s g t x :
  l2_ok s → is_bytes (aget (c1_data (line1 s g x))) → 0 <= g < 128 → 0 <= x < 8 → 0 <= t < 16384 →
  base2 g t + 64 <= HW_MEM_SIZE → (∀ w, ¬ holds2 s g t w) → c2_dirty (line2 s g x) = true →
  ∃ s', evict2 g x (base2 g t) s = Ok tt s' ∧ L1 s' = L1 s ∧ L2 s' = L2 s ∧ l2_ok s' ∧
    ∀ b, hw_get (cdram s') b = if (base2 g t <=? b) && (b <? base2 g t + 64)
                               then aget (c1_data (line1 s g x)) (b - base2 g t) else hw_get (cdram s) b.
Proof.
  intros Hs Hby Hg Hx Ht Hsz Hm Hd. change HW_MEM_SIZE with 134217728 in Hsz.
  assert (0 <= base2 g t) by (unfold base2; lia).
  unfold evict2. rewrite (bind_Ok getS _ s s s eq_refl), Hd.
  set (P := λ (i : Z) s', L1 s' = L1 s ∧ L2 s' = L2 s ∧ dram_ok (cdram s') ∧
    ∀ b, hw_get (cdram s') b = if (base2 g t <=? b) && (b <? base2 g t + i)
                               then aget (c1_data (line1 s g x)) (b - base2 g t) else hw_get (cdram s) b).
  destruct (for_ok P (Z.to_nat BLOCK_SIZE_2) 0 (λ i, b ← l1_byte_oob g x i;
      in_dram (dram_write (u32 (base2 g t + i)) 1 b)) s) as (s' & Hrun & HL1 & HL2 & Hdr & Hhw).
  { unfold P. split_and!; try done; [apply Hs|]. intros b. now replace (_ && _) with false by lia. }
  { intros i s1 Hi (HL1 & HL2 & Hd1 & Hhw). change (0 + Z.of_nat (Z.to_nat BLOCK_SIZE_2)) with 64 in Hi.
    assert (l1_byte_oob g x i s1 = Ok (aget (c1_data (line1 s g x)) i) s1) as E.
    { unfold l1_byte_oob. change GROUP_NUM with 128. change WAY_NUM with 8. unfold line1.
      rewrite HL1. now replace (_ && _) with true by lia. }
    rewrite (bind_Ok _ _ _ _ _ E), wrap_small by lia.
    destruct (dram_write_ok (cdram s1) (base2 g t + i) 1 (aget (c1_data (line1 s g x)) i)) as (d & Hw & Hok & Hb);
      [done|lia|lia|change HW_MEM_SIZE with 134217728; lia|].
    eexists. split; [exact (in_dram_Ok _ _ _ _ Hw)|]. unfold P. split_and!; try done.
    intros b. cbn [cdram set_cdram]. rewrite Hb. unfold flat_store. rewrite Hhw.
    destruct (Z.eqb_spec b (base2 g t + i)) as [->|Hne].
    - do 2 replace (_ && _) with true by lia. rewrite Z.sub_diag, byte_of_0.
      replace (base2 g t + i - base2 g t) with i by lia. apply Z.mod_small, Hby.
    - replace ((base2 g t + i <=? b) && _) with false by lia.
      now replace (b <? base2 g t + (i + 1)) with (b <? base2 g t + i) by lia. }
  exists s'. split; [exact Hrun|]. do 2 (split; [done|]). change (0 + _) with 64 in Hhw. split; [|exact Hhw].
  assert (∀ g w, line2 s' g w = line2 s g w) as Hl by (intros; unfold line2; now rewrite HL2).
  split; try done; unfold holds2; setoid_rewrite Hl; try apply Hs.
  intros g' t' w Hg' Hh Hc i Hi. rewrite (l2_clean _ Hs g' t' w Hg' Hh Hc i Hi), Hhw.
  assert (0 <= t' < 16384) by (destruct Hh as (_ & _ & <-); apply tag2_range).
  destruct (_ && _) eqn:E; [|done]. exfalso.
  assert (g' = g ∧ t' = t) as [-> ->] by (unfold base2 in E; lia). exact (Hm w Hh).
Qed.

(** There is no such line of L1: undefined. *)
Lemma evict2_oob s g x b : c2_dirty (line2 s g x) = true → (g <? 128) && (x <? 8) = false →
  evict2 g x b s = Fail_ EUndefined.
Proof.
  intros Hd Ho. unfold evict2. rewrite (bind_Ok getS _ s s s eq_refl), Hd.
  change (Z.to_nat BLOCK_SIZE_2) with (S 63). cbn [for_]. unfold mbind, M_bind, l1_byte_oob.
  change GROUP_NUM with 128. change WAY_NUM with 8. now rewrite Ho.
Qed.

(** What a fill over any line leaves to see: the DRAM under the block loaded and under the
    line replaced. *)
Lemma filled2_cmem_over s s' g t x b :
  l2_ok s → 0 <= g < 4096 → 0 <= t < 16384 → 0 <= x < 16 → (∀ w, ¬ holds2 s g t w) →
  c2_valid (line2 s g x) = true → filled2 s s' g t x → 0 <= b < 2 ^ 32 →
  cmem s' b =
    if (group2 b =? g) && ((tag2 b =? t) || (tag2 b =? tag2 (c2_addr (line2 s g x))))
    then hw_get (cdram s) b else cmem s b.
Proof.
  intros Hs Hg Ht Hx Hm Hv HF Hb.
  pose proof (filled2_ok s s' g t x Hs Hg Ht Hx Hm HF) as Hs'.
  pose proof (filled2_holds s s' g t x Hs Hg Ht Hx Hm HF) as Hx'.
  pose proof (filled2_holds_inv s s' g t x Hs Hg Ht Hx Hm HF) as Hinv.
  assert (holds2 s g (tag2 (c2_addr (line2 s g x))) x) as Hold by done.
  pose proof (group2_range b) as Hgb. pose proof (addr_split2 b Hb) as Hsp.
  destruct (Z.eqb_spec (group2 b) g) as [Eg|Hne]; [destruct (Z.eqb_spec (tag2 b) t) as [Et|Hnt]|]; cbn [andb orb].
  - rewrite (cmem_hit s' b x), Eg, (f2_data _ _ _ _ _ HF) by (rewrite ?Eg, ?Et; done || lia).
    f_equal. rewrite Eg, Et in Hsp. lia.
  - destruct (Z.eqb_spec (tag2 b) (tag2 (c2_addr (line2 s g x)))) as [Eo|Hno].
    + rewrite cmem_miss; [apply HF|]. rewrite Eg, Eo.
      intros w [(_ & E & _)|[Hw Hh]]%Hinv; [congruence|]. apply Hw. f_equal.
      exact (l2_unique _ Hs _ _ _ _ Hg Hold Hh).
    + unfold cmem at 2. destruct (hit2 s (group2 b) (tag2 b)) as [w|] eqn:E.
      * apply hit2_Some in E. rewrite Eg in E |- *. assert (w ≠ x) as Hwx by (intros ->; destruct E as (_ & _ & E); congruence).
        assert (0 <= w < 16) by apply E. assert ((g, x) ≠ (g, w)) as Hp by congruence.
        rewrite (cmem_hit s' b w), Eg, (f2_other _ _ _ _ _ HF) by
          (rewrite ?Eg; first [done | now apply (filled2_keeps s s' g t x)]). done.
      * rewrite cmem_miss; [apply HF|]. intros w [(_ & E' & _)|[_ Hw]]%Hinv; [congruence|].
        now apply hit2_None with (w := w) in E.
  - unfold cmem at 2. destruct (hit2 s (group2 b) (tag2 b)) as [w|] eqn:E.
    + apply hit2_Some in E. assert (0 <= w < 16) by apply E. assert ((g, x) ≠ (group2 b, w)) as Hp by congruence.
      rewrite (cmem_hit s' b w), (f2_other _ _ _ _ _ HF) by first [done | now apply (filled2_keeps s s' g t x)]. done.
    + rewrite cmem_miss; [apply HF|]. intros w [(E' & _)|[_ Hw]]%Hinv; [congruence|].
      now apply hit2_None with (w := w) in E.
Qed.

(** The memory after the line in way [x] was replaced for the access at [a]: where the
    incoming block should be, the line of L1 with the same numbers; where the replaced line
    was, what the DRAM held all along. *)
Definition after_replacement (s : Caches) (a x b : Z) : Z :=
  let g := group2 a in
  if group2 b =? g then
    if tag2 b =? tag2 a then aget (c1_data (line1 s g x)) (b mod 64)
    else if tag2 b =? tag2 (c2_addr (line2 s g x)) then hw_get (cdram s) b
    else cmem s b
  else cmem s b.

Lemma alloc2_dirty s a x s0 :
  l2_ok s → (∀ g w, is_bytes (aget (c1_data (line1 s g w)))) → 0 <= a < HW_MEM_SIZE →
  hit2 s (group2 a) (tag2 a) = None → victim2 (group2 a) s = Ok x s0 →
  c2_dirty (line2 s (group2 a) x) = true →
  if (group2 a <? GROUP_NUM) && (x <? WAY_NUM) then
    ∃ s', alloc2 (group2 a) (tag2 a) (block_addr a) s = Ok x s' ∧ L1 s' = L1 s ∧ l2_ok s' ∧
      holds2 s' (group2 a) (tag2 a) x ∧ ∀ b, 0 <= b < 2 ^ 32 → cmem s' b = after_replacement s a x b
  else alloc2 (group2 a) (tag2 a) (block_addr a) s = Fail_ EUndefined.
Proof.
  intros Hs Hby Ha Hmiss Hv Hd. change HW_MEM_SIZE with 134217728 in Ha.
  destruct (victim2_frame _ _ _ _ Hv) as (HL1 & HL2 & Hdr & Hx).
  pose proof (group2_range a) as Hg. pose proof (tag2_range a) as Ht. pose proof (addr_split2 a ltac:(lia)) as Hsp.
  assert (∀ g w, line2 s0 g w = line2 s g w) as Hl by (intros; unfold line2; now rewrite HL2).
  assert (∀ g w, line1 s0 g w = line1 s g w) as Hl1 by (intros; unfold line1; now rewrite HL1).
  assert (l2_ok s0) as Hs0 by (now apply (l2_ok_ext s)).
  unfold alloc2. rewrite (bind_Ok _ _ _ _ _ Hv), block_addr_eq, block_split2 by lia.
  set (g := group2 a) in *. set (t := tag2 a) in *. change GROUP_NUM with 128. change WAY_NUM with 8.
  destruct ((g <? 128) && (x <? 8)) eqn:Hin; [|unfold mbind, M_bind; rewrite evict2_oob; [done|now rewrite Hl|exact Hin]].
  assert (base2 g t + 64 <= HW_MEM_SIZE) as Hsz.
  { change HW_MEM_SIZE with 134217728. unfold base2, g, t. rewrite group2_eq, tag2_eq by lia. lia. }
  assert (∀ w, ¬ holds2 s0 g t w) as Hm.
  { intros w Hw. unfold holds2 in Hw. rewrite Hl in Hw. now apply hit2_None with (w := w) in Hmiss. }
  destruct (evict2_ok s0 g t x) as (s1 & He & HL1' & HL2' & Hs1 & Hhw); try done || lia.
  { rewrite Hl1. apply Hby. } { now rewrite Hl. }
  assert (∀ g w, line2 s1 g w = line2 s g w) as Hl2 by (intros; rewrite <- Hl; unfold line2; now rewrite HL2').
  assert (∀ w, ¬ holds2 s1 g t w) as Hm1.
  { intros w Hw. apply (Hm w). unfold holds2 in *. now rewrite Hl, <- Hl2. }
  destruct (fill2_ok s1 g t x Hs1 Hg Ht Hx Hsz) as (s2 & Hf & HL1'' & HF).
  exists s2. rewrite (bind_Ok _ _ _ _ _ He), (bind_Ok _ _ _ _ _ Hf).
  split; [done|]. split; [congruence|]. split; [exact (filled2_ok s1 s2 g t x Hs1 Hg Ht Hx Hm1 HF)|].
  split; [exact (filled2_holds s1 s2 g t x Hs1 Hg Ht Hx Hm1 HF)|]. intros b Hb.
  assert (c2_valid (line2 s g x) = true) as Hval.
  { destruct (c2_valid (line2 s g x)) eqn:E; [done|]. now rewrite (l2_invalid _ Hs g x Hg Hx E) in Hd. }
  rewrite (filled2_cmem_over s1 s2 g t x b) by (rewrite ?Hl2; done).
  rewrite Hhw, Hl2, Hl1, Hdr. unfold after_replacement. fold g. fold t.
  pose proof (addr_split2 b Hb) as Hspb. pose proof (tag2_range b). pose proof (group2_range b).
  assert (cmem s1 b = if (group2 b =? g) && (tag2 b =? t) then cmem s1 b else cmem s b) as Hcm.
  { destruct ((group2 b =? g) && (tag2 b =? t)) eqn:E; [reflexivity|]. unfold cmem.
    rewrite (hit2_ext s s1) by (intros; apply Hl2). destruct (hit2 s (group2 b) (tag2 b)); [now rewrite Hl2|]. rewrite Hhw, Hdr.
    replace ((base2 g t <=? b) && _) with false; [done|]. symmetry. unfold base2 in *. lia. }
  rewrite Hcm. clear Hcm. destruct (Z.eqb_spec (group2 b) g) as [Eg|]; cbn [andb]; [|done].
  destruct (Z.eqb_spec (tag2 b) t) as [Et|]; cbn [orb].
  - rewrite Eg, Et in Hspb. replace (_ && _) with true by lia. f_equal. lia.
  - replace (_ && _) with false by (unfold base2 in *; lia). now destruct (_ =? _).
Qed.
End L2Facts.
