(* ===== verification/CacheFacts.v ===== *)
(** The cache hierarchy of [Cache] is the flat memory of the DRAM below it: the
    invariant of both levels, and the functional behaviour of reads and writes as
    long as no dirty L2 line has to be replaced. *)
From S2P Require Import Prelude Dram Cache L2Facts.

Section CacheFacts.
Context `{HRand : !LibcRand, HJunk : !StackJunk}.

(** * L1 *)
Lemma base1_split a : 0 <= a < 2 ^ 32 → a = base1 (group1 a) (tag1 a) + a mod 64.
Proof. intros. unfold base1. rewrite group1_eq, tag1_eq by done. lia. Qed.

Lemma block_split1 a : 0 <= a < 2 ^ 32 → block_of a = base1 (group1 a) (tag1 a).
Proof. intros Ha. unfold block_of. pose proof (base1_split a Ha). lia. Qed.

Lemma room2_same a b s : group2 b = group2 a → tag2 b = tag2 a → room2 s b = room2 s a.
Proof. intros Hg Ht. unfold room2. now rewrite Hg, Ht. Qed.

Lemma room2_not_None s a : hit2 s (group2 a) (tag2 a) ≠ None → room2 s a = true.
Proof. intros H. destruct (hit2 _ _ _) as [w|] eqn:E; [|done]. now apply (room2_hit s a w). Qed.

Lemma line1_bytes_upd s g x f : (∀ g w, is_bytes (aget (c1_data (line1 s g w)))) →
  is_bytes (aget (c1_data (f (line1 s g x)))) →
  ∀ g' w, is_bytes (aget (c1_data (line1 (set_line1 g x f s) g' w))).
Proof.
  intros H Hf g' w. unfold line1 at 1, set_line1; cbn. rewrite aget_aset.
  destruct (_ =? _); [done|]. apply H.
Qed.

(** [s'] is [s] with the block at [b] loaded into way [x] of group [g] of L1. *)
Record loaded1 (s s' : Caches) (g x b : Z) : Prop := {
  ld_l2 : l2_ok s';
  ld_cmem : ∀ a, 0 <= a < 2 ^ 32 → cmem s' a = cmem s a;
  ld_room : room2 s' b = true;
  ld_frame : ∀ g' w, 0 <= w < 16 → g' ≠ group2 b → line2 s' g' w = line2 s g' w;
  ld_other : ∀ g' w, 0 <= w < 8 → (g, x) ≠ (g', w) → line1 s' g' w = line1 s g' w;
  ld_valid : c1_valid (line1 s' g x) = c1_valid (line1 s g x);
  ld_addr : c1_addr (line1 s' g x) = c1_addr (line1 s g x);
  ld_data : ∀ i, 0 <= i < 64 → aget (c1_data (line1 s' g x)) i = cmem s (b + i);
  ld_bytes : ∀ g w, is_bytes (aget (c1_data (line1 s' g w)))
}.

Lemma load1_ok s g x b :
  l2_ok s → (∀ g w, is_bytes (aget (c1_data (line1 s g w)))) →
  0 <= x < 8 → 0 <= b → b mod 64 = 0 → b + 64 <= HW_MEM_SIZE → room2 s b = true →
  ∃ s', load1 g x b s = Ok tt s' ∧ loaded1 s s' g x b.
Proof.
  intros Hs Hb1 Hx Hb Hb64 Hsz Hroom. change HW_MEM_SIZE with 134217728 in Hsz.
  pose (P := λ (i : Z) (s' : Caches), l2_ok s' ∧
    (∀ a, 0 <= a < 2 ^ 32 → cmem s' a = cmem s a) ∧ room2 s' b = true ∧
    (∀ g' w, 0 <= w < 16 → g' ≠ group2 b → line2 s' g' w = line2 s g' w) ∧
    (∀ g' w, 0 <= w < 8 → (g, x) ≠ (g', w) → line1 s' g' w = line1 s g' w) ∧
    c1_valid (line1 s' g x) = c1_valid (line1 s g x) ∧
    c1_addr (line1 s' g x) = c1_addr (line1 s g x) ∧
    (∀ j, 0 <= j < i → aget (c1_data (line1 s' g x)) j = cmem s (b + j)) ∧
    (∀ g w, is_bytes (aget (c1_data (line1 s' g w))))).
  destruct (for_ok P (Z.to_nat BLOCK_SIZE) 0 (λ i,
      v ← Cache_2_read (u32 (b + i)) 1;
      modify (set_line1 g x (set1_data i (Z.land v (len_mask 1))))) s)
    as (s' & Hrun & (H1 & H2 & H3 & H4 & H5 & H6 & H7 & H8 & H9)).
  { unfold P. split_and!; try done. lia. }
  { intros i s1 Hi (Hs1 & Hcm & Hr & Hfr & Ho & Hv & Had & Hdata & Hby).
    change (0 + Z.of_nat (Z.to_nat BLOCK_SIZE)) with 64 in Hi.
    rewrite wrap_small by lia.
    destruct (same_block2 b i) as [Hg Ht]; [lia..|].
    destruct (Cache_2_read_ok s1 (b + i) 1) as (v & s2 & Hrd & HL1 & Hs2 & Hcm2 & Hh & Hfr2 & Hval);
      [done|now rewrite (room2_same b)|change HW_MEM_SIZE with 134217728; lia|lia|lia|].
    rewrite Hg, Ht in Hh. rewrite Hg in Hfr2.
    rewrite (bind_Ok _ _ _ _ _ Hrd). eexists. split; [reflexivity|].
    rewrite land_len_mask by lia. change (Z.to_nat 1) with 1%nat in Hval.
    cbn [le_load] in Hval. rewrite Z.mul_0_r, Z.add_0_r in Hval. rewrite Hval, Hcm by lia.
    assert (∀ g w, line1 s2 g w = line1 s1 g w) as Hl1 by (intros; unfold line1; now rewrite HL1).
    unfold P. rewrite !line1_set_same, !Hl1. cbn. split_and!; try done.
    - now apply (l2_ok_ext s2).
    - intros a Ha. rewrite (cmem_ext s2) by done. rewrite Hcm2 by done. now apply Hcm.
    - rewrite (room2_ext s2) by done. now apply room2_not_None.
    - intros g' w Hw Hne. change (line2 (set_line1 _ _ _ s2) g' w) with (line2 s2 g' w).
      rewrite Hfr2 by done. now apply Hfr.
    - intros. rewrite line1_set_other by done. rewrite Hl1. now apply Ho.
    - intros j Hj. rewrite aget_aset. destruct (Z.eqb_spec i j) as [->|]; [done|].
      apply Hdata. lia.
    - apply line1_bytes_upd; [intros; rewrite Hl1; apply Hby|]. cbn. intros j.
      rewrite aget_aset, Hl1. destruct (_ =? _); [now apply cmem_bytes|apply Hby]. }
  exists s'. split; [exact Hrun|]. split; done.
Qed.

Lemma holds1_range s g t w : holds1 s g t w → 0 <= t < 524288.
Proof. intros (_ & _ & <-). apply tag1_range. Qed.

Lemma base1_in g t i : 0 <= g < 128 → 0 <= t < 524288 → 0 <= i < 64 →
  0 <= base1 g t + i < 2 ^ 32.
Proof. unfold base1. lia. Qed.

Lemma victim1_ok s g :
  ∃ x s', victim1 g s = Ok x s' ∧ L1 s' = L1 s ∧ L2 s' = L2 s ∧ cdram s' = cdram s ∧ 0 <= x < 8.
Proof.
  unfold victim1. change (Z.to_nat WAY_NUM) with 8%nat.
  destruct (find_idx 8 0 _) as [x|] eqn:E.
  - apply find_idx_Some in E as (Hx & _). exists x, s. split_and!; try done || lia.
  - unfold rand_mod. destruct (libc_rand (crand s)) as [r st]. eexists _, _. split; [done|]. cbn.
    split_and!; try done; apply Z.mod_pos_bound; done.
Qed.

(** Reloading or loading a line of L1 keeps the hierarchy coherent, when the other
    lines of L1 are. *)
Lemma loaded1_ok s0 s s' g t x :
  caches_ok s0 → 0 <= g < 128 → 0 <= t < 524288 → 0 <= x < 8 →
  loaded1 s s' g x (base1 g t) →
  c1_valid (line1 s g x) = true → tag1 (c1_addr (line1 s g x)) = t →
  (∀ g' w, 0 <= w < 8 → (g, x) ≠ (g', w) → line1 s g' w = line1 s0 g' w) →
  (∀ w, holds1 s0 g t w → w = x) →
  (∀ g' t' w i, 0 <= g' < 128 → holds1 s0 g' t' w → (g', t') ≠ (g, t) → 0 <= i < 64 →
     cmem s (base1 g' t' + i) = cmem s0 (base1 g' t' + i)) →
  caches_ok s'.
Proof.
  intros Hs0 Hg Ht Hx HL Hv Htag Ho Hu Hcm.
  assert (∀ g' t' w, holds1 s' g' t' w →
    (g' = g ∧ t' = t ∧ w = x) ∨ ((g, x) ≠ (g', w) ∧ holds1 s0 g' t' w)) as Hinv.
  { intros g' t' w (Hw & Hv' & Ht'). destruct (decide ((g, x) = (g', w))) as [[= <- <-]|Hne].
    - left. rewrite (ld_addr _ _ _ _ _ HL) in Ht'. now rewrite Htag in Ht'.
    - right. split; [done|]. rewrite (ld_other _ _ _ _ _ HL), Ho in Hv', Ht' by done. done. }
  split; [apply HL| | |apply HL].
  - intros g' t' w w' Hg' H1 H2.
    apply Hinv in H1 as [(-> & -> & ->)|[Hn1 H1]]; apply Hinv in H2 as [(Hg2 & Ht2 & ->)|[Hn2 H2]]; subst.
    + done.
    + now rewrite (Hu w').
    + now apply Hu.
    + now apply (l1_unique _ Hs0 g' t').
  - intros g' t' w Hg' Hh i Hi. pose proof (holds1_range _ _ _ _ Hh) as Ht'.
    rewrite (ld_cmem _ _ _ _ _ HL) by (now apply base1_in).
    apply Hinv in Hh as [(-> & -> & ->)|[Hn Hh]]; [now apply HL|].
    assert (0 <= w < 8) by apply Hh.
    rewrite (ld_other _ _ _ _ _ HL), Ho by done.
    rewrite (l1_coherent _ Hs0 g' t' w) by done. symmetry. apply (Hcm g' t' w); try done.
    intros [= -> ->]. apply Hn. f_equal. symmetry. now apply Hu.
Qed.

Lemma get1_ok s a :
  caches_ok s → room2 s a = true → 0 <= a < HW_MEM_SIZE →
  ∃ x s', (match hit1 s (group1 a) (tag1 a) with
           | Some x => mret x
           | None => alloc1 (group1 a) (tag1 a) (block_addr a)
           end) s = Ok x s' ∧
    caches_ok s' ∧ (∀ b, 0 <= b < 2 ^ 32 → cmem s' b = cmem s b) ∧
    holds1 s' (group1 a) (tag1 a) x ∧
    (∀ g' w, 0 <= w < 16 → g' ≠ group2 a → line2 s' g' w = line2 s g' w).
Proof.
  intros Hs Hr Ha. change HW_MEM_SIZE with 134217728 in Ha.
  pose proof (group1_range a) as Hg. pose proof (tag1_range a) as Ht.
  destruct (hit1 s (group1 a) (tag1 a)) as [x|] eqn:E.
  { exists x, s. apply hit1_Some in E. done. }
  unfold alloc1. rewrite block_addr_eq, block_split1 by lia.
  destruct (victim1_ok s (group1 a)) as (x & s1 & Hv & HL1 & HL2 & Hd & Hx).
  rewrite (bind_Ok _ _ _ _ _ Hv).
  set (g := group1 a) in *. set (t := tag1 a) in *.
  set (s2 := set_line1 g x (set1_tag t) (set_line1 g x (set1_valid true) s1)).
  assert (line1 s2 g x = mkCache_1 true (set_bitfield (c1_addr (line1 s g x)) 13 19 t)
            (c1_data (line1 s g x))) as Hlx.
  { unfold s2. rewrite !line1_set_same. unfold line1. now rewrite HL1. }
  assert (∀ g' w, 0 <= w < 8 → (g, x) ≠ (g', w) → line1 s2 g' w = line1 s g' w) as Hlo.
  { intros. unfold s2. rewrite !line1_set_other by done. unfold line1. now rewrite HL1. }
  assert (l2_ok s2) as Hs2 by (now apply (l2_ok_ext s); [..|apply Hs]).
  assert (∀ b, cmem s2 b = cmem s b) as Hcm2 by (intros; now apply cmem_ext).
  assert (block_of a = base1 g t) as Hblk by (apply block_split1; lia).
  unfold block_of in Hblk.
  destruct (same_block2 (base1 g t) (a mod 64)) as [Hg2 Ht2]; [lia..|].
  replace (base1 g t + a mod 64) with a in Hg2, Ht2 by lia.
  assert (∀ g' w, line2 s2 g' w = line2 s g' w) as Hl2.
  { intros. unfold line2, s2; cbn. now rewrite HL2. }
  destruct (load1_ok s2 g x (base1 g t)) as (s3 & Hload & HLD); try done || lia.
  { assert (∀ g w, is_bytes (aget (c1_data (line1 s1 g w)))) as Hb1.
    { intros. unfold line1. rewrite HL1. apply Hs. }
    unfold s2. apply line1_bytes_upd; [apply line1_bytes_upd; [done|cbn; done]|].
    rewrite line1_set_same. cbn. done. }
  { change HW_MEM_SIZE with 134217728. lia. }
  { rewrite (room2_ext s) by (intros; apply Hl2). now rewrite <- (room2_same (base1 g t) a). }
  exists x, s3. split_and!.
  - mstep. fold s2. rewrite Hload. done.
  - apply (loaded1_ok s s2 s3 g t x); try done.
    + now rewrite Hlx.
    + rewrite Hlx. now apply tag1_set.
    + intros w Hw. now apply hit1_None with (w := w) in E.
  - intros b Hb. rewrite (ld_cmem _ _ _ _ _ HLD) by done. apply Hcm2.
  - split; [done|]. rewrite (ld_valid _ _ _ _ _ HLD), (ld_addr _ _ _ _ _ HLD), Hlx.
    split; [done|now apply tag1_set].
  - intros g' w Hw Hne. rewrite (ld_frame _ _ _ _ _ HLD) by (done || congruence). apply Hl2.
Qed.

(** ** Reads and writes through the hierarchy *)

(** L2 has room for the [len] bytes at [a]. *)
Definition room (s : Caches) (a len : Z) : bool := room2 s a && room2 s (a + len - 1).

(** The part of a read inside the first block. *)
Lemma l1_line_bytes s a x k :
  caches_ok s → holds1 s (group1 a) (tag1 a) x → 0 <= a < 2 ^ 32 → 0 <= k → a mod 64 + k < 64 →
  aget (c1_data (line1 s (group1 a) x)) (a mod 64 + k) = cmem s (a + k).
Proof.
  intros Hs Hx Ha Hk Hk'. rewrite (l1_coherent _ Hs _ (tag1 a)) by (done || apply group1_range || lia).
  f_equal. pose proof (base1_split a Ha). lia.
Qed.

Lemma Cache_1_read_block s a len :
  caches_ok s → room2 s a = true → 0 <= a < HW_MEM_SIZE → 1 <= len <= 4 → a mod 64 + len <= 64 →
  ∀ d, ∃ v s', Cache_1_read_n (S d) a len s = Ok v s' ∧ caches_ok s' ∧
    (∀ b, 0 <= b < 2 ^ 32 → cmem s' b = cmem s b) ∧
    (∀ g' w, 0 <= w < 16 → g' ≠ group2 a → line2 s' g' w = line2 s g' w) ∧
    v mod 256 ^ len = le_load (Z.to_nat len) (cmem s) a.
Proof.
  intros Hs Hr Ha Hlen Hblk d. cbn [Cache_1_read_n]. rewrite (bind_Ok getS _ s s s eq_refl).
  destruct (get1_ok s a Hs Hr Ha) as (x & s' & Hget & Hs' & Hcm & Hx & Hfr).
  rewrite (bind_Ok _ _ _ _ _ Hget), (bind_Ok getS _ s' s' s' eq_refl). clear Hget.
  rewrite offset1_eq. change BLOCK_SIZE with 64. replace (64 <? a mod 64 + len) with false by lia.
  mstep. eexists _, s'. split; [reflexivity|]. split_and!; try done.
  set (temp := memcpy _ _ _ _ _). change HW_MEM_SIZE with 134217728 in Ha.
  assert (is_bytes (aget temp)) as Hb.
  { intros j. unfold temp. rewrite aget_memcpy. destruct (_ && _); [apply Hs'|apply block_temp_bytes]. }
  rewrite <- (Z2Nat.id len) at 1 by lia. rewrite le_load_mod by (done || lia).
  apply le_load_shift. intros k Hk. unfold temp. rewrite aget_memcpy.
  replace (_ && _) with true by lia. replace (0 + (a mod 64 + k - 0)) with (a mod 64 + k) by lia.
  rewrite l1_line_bytes by (done || lia). apply Hcm. lia.
Qed.

Lemma room2_frame s s' a : (∀ g' w, 0 <= w < 16 → g' ≠ group2 a → line2 s' g' w = line2 s g' w) →
  ∀ b, group2 b ≠ group2 a → room2 s' b = room2 s b.
Proof. intros Hfr b Hne. apply room2_ext. intros w Hw. now apply Hfr. Qed.

(** The next block is in another group. *)
Lemma next_block_group a : 0 <= a → group2 (a - a mod 64 + 64) ≠ group2 a.
Proof. intros. rewrite !group2_eq. lia. Qed.

Lemma room_split s a len : 0 <= a → a + len < 2 ^ 32 → 1 <= len <= 4 → 64 < a mod 64 + len →
  room s a len = room2 s a && room2 s (a - a mod 64 + 64).
Proof.
  intros. destruct (same_block2 (a - a mod 64 + 64) (a mod 64 + len - 65)) as [Hg Ht]; [lia..|].
  replace (a - a mod 64 + 64 + (a mod 64 + len - 65)) with (a + len - 1) in Hg, Ht by lia.
  unfold room. now rewrite (room2_same _ _ s Hg Ht).
Qed.

Lemma Cache_1_read_ok s a len :
  caches_ok s → room s a len = true → 0 <= a → 1 <= len <= 4 → a + len <= HW_MEM_SIZE →
  ∃ v s', Cache_1_read a len s = Ok v s' ∧ caches_ok s' ∧
    (∀ b, 0 <= b < 2 ^ 32 → cmem s' b = cmem s b) ∧
    v mod 256 ^ len = le_load (Z.to_nat len) (cmem s) a.
Proof.
  intros Hs Hr Ha Hlen Hsz. change HW_MEM_SIZE with 134217728 in Hsz.
  destruct (Z.leb_spec (a mod 64 + len) 64) as [Hblk|Hblk].
  { unfold room in Hr. bsplit.
    destruct (Cache_1_read_block s a len Hs) with (d := 1%nat)
      as (v & s' & Hrun & Hs' & Hcm & _ & Hv); [done|change HW_MEM_SIZE with 134217728; lia|done..|].
    exists v, s'. split; [exact Hrun|done]. }
  rewrite room_split in Hr by lia. apply andb_prop in Hr as [Hr1 Hr2].
  unfold Cache_1_read. remember 1%nat as d eqn:Hd. cbn [Cache_1_read_n].
  rewrite (bind_Ok getS _ s s s eq_refl).
  destruct (get1_ok s a Hs Hr1) as (x & s1 & Hget & Hs1 & Hcm & Hx & Hfr).
  { change HW_MEM_SIZE with 134217728. lia. }
  rewrite (bind_Ok _ _ _ _ _ Hget), (bind_Ok getS _ s1 s1 s1 eq_refl). clear Hget.
  rewrite offset1_eq, block_addr_eq by lia. change BLOCK_SIZE with 64.
  replace (64 <? a mod 64 + len) with true by lia.
  unfold block_of. rewrite wrap_small by lia.
  destruct (Cache_1_read_block s1 (a - a mod 64 + 64) len Hs1) with (d := 0%nat)
    as (v & s2 & Hrun & Hs2 & Hcm2 & _ & Hv); try done; try lia.
  { rewrite (room2_frame s s1 a); [done..|]. now apply next_block_group. }
  { change HW_MEM_SIZE with 134217728. lia. }
  rewrite <- Hd in Hrun. mstep. rewrite Hrun.
  eexists _, s2. split; [reflexivity|].
  split; [done|]. split; [intros b Hb; now rewrite Hcm2, Hcm|].
  set (temp := memcpy _ _ _ _ _).
  assert (is_bytes (aget (le_store 4 64 v temp))) as Hb.
  { apply le_store_bytes. intros j. unfold temp. rewrite aget_memcpy.
    destruct (_ && _); [apply Hs1|apply block_temp_bytes]. }
  assert (is_bytes (cmem s1)) as Hb1 by (apply cmem_bytes, Hs1).
  rewrite <- (Z2Nat.id len) at 1 by lia. rewrite le_load_mod by (done || lia).
  apply le_load_shift. intros k Hk. rewrite aget_le_store, <- Hcm by lia.
  destruct (Z.ltb_spec (a mod 64 + k) 64).
  - replace (_ && _) with false by lia. unfold temp. rewrite aget_memcpy.
    replace (_ && _) with true by lia. replace (0 + (a mod 64 + k - 0)) with (a mod 64 + k) by lia.
    now rewrite l1_line_bytes by (done || lia).
  - replace (_ && _) with true by lia.
    rewrite <- (byte_of_mod v len), Hv, byte_of_le_load by (done || lia). f_equal. lia.
Qed.

(** The other lines of L1 do not see a write: their bytes are elsewhere. *)
Lemma other_block_store f a len v g t i : 0 <= a → a + len < 2 ^ 32 → 1 <= len →
  a mod 64 + len <= 64 → 0 <= g < 128 → 0 <= t < 524288 → 0 <= i < 64 →
  (g, t) ≠ (group1 a, tag1 a) → flat_store f a len v (base1 g t + i) = f (base1 g t + i).
Proof.
  intros Ha Hsz Hlen Hblk Hg Ht Hi Hne. unfold flat_store. destruct (_ && _) eqn:E; [|done].
  exfalso. apply Hne. rewrite group1_eq, tag1_eq by lia. unfold base1 in E. f_equal; lia.
Qed.

Lemma line1_ext s s' g w : L1 s' = L1 s → line1 s' g w = line1 s g w.
Proof. intros H. unfold line1. now rewrite H. Qed.

Lemma Cache_1_write_block s a len data :
  caches_ok s → room2 s a = true → 0 <= a → 1 <= len <= 4 → a + len <= HW_MEM_SIZE →
  a mod 64 + len <= 64 →
  ∀ d, ∃ s', Cache_1_write_n (S d) a len data s = Ok tt s' ∧ caches_ok s' ∧
    (∀ b, 0 <= b < 2 ^ 32 → cmem s' b = flat_store (cmem s) a len data b) ∧
    (∀ g' w, 0 <= w < 16 → g' ≠ group2 a → line2 s' g' w = line2 s g' w).
Proof.
  intros Hs Hr Ha Hlen Hsz Hblk d. cbn [Cache_1_write_n]. cbv zeta. rewrite offset1_eq.
  replace (63 <? a mod 64 + len - 1) with false by lia.
  rewrite (bind_Ok getS _ s s s eq_refl).
  destruct (Cache_2_write_ok s a len data (ok_l2 _ Hs) Hr Ha Hsz Hlen Hblk)
    as (s1 & Hw & HL1 & Hs1 & Hcm & Hh & Hfr).
  rewrite (bind_Ok _ _ _ _ _ Hw). clear Hw. change HW_MEM_SIZE with 134217728 in Hsz.
  pose proof (group1_range a) as Hg. pose proof (tag1_range a) as Ht.
  assert (∀ g' t' w i, 0 <= g' < 128 → holds1 s g' t' w → (g', t') ≠ (group1 a, tag1 a) →
    0 <= i < 64 → cmem s1 (base1 g' t' + i) = cmem s (base1 g' t' + i)) as Hother.
  { intros g' t' w i Hg' Hw Hne Hi. pose proof (holds1_range _ _ _ _ Hw).
    rewrite Hcm by (now apply base1_in). apply other_block_store; (done || lia). }
  destruct (hit1 s (group1 a) (tag1 a)) as [x|] eqn:E.
  - apply hit1_Some in E. assert (0 <= x < 8) by apply E.
    rewrite block_addr_eq, block_split1 by lia.
    assert (block_of a = base1 (group1 a) (tag1 a)) as Hb by (apply block_split1; lia).
    unfold block_of in Hb.
    destruct (same_block2 (base1 (group1 a) (tag1 a)) (a mod 64)) as [Hg2 Ht2]; [lia..|].
    replace (base1 (group1 a) (tag1 a) + a mod 64) with a in Hg2, Ht2 by lia.
    destruct (load1_ok s1 (group1 a) x (base1 (group1 a) (tag1 a))) as (s2 & Hld & HLD); [done| |done|lia|lia| | |].
    { intros g w. rewrite (line1_ext s s1) by done. apply Hs. }
    { change HW_MEM_SIZE with 134217728. lia. }
    { rewrite <- (room2_same _ a s1 Hg2 Ht2). now apply room2_not_None. }
    exists s2. split; [exact Hld|]. split_and!.
    + apply (loaded1_ok s s1 s2 (group1 a) (tag1 a) x); try done.
      * rewrite (line1_ext s s1) by done. apply E.
      * rewrite (line1_ext s s1) by done. apply E.
      * intros. now apply line1_ext.
      * intros w Hw. now apply (l1_unique _ Hs (group1 a) (tag1 a)).
    + intros b' Hb'. rewrite (ld_cmem _ _ _ _ _ HLD) by done. now apply Hcm.
    + intros g' w Hw Hne. rewrite (ld_frame _ _ _ _ _ HLD) by (done || congruence). now apply Hfr.
  - exists s1. split; [done|]. split_and!; try done.
    assert (∀ g t w, holds1 s1 g t w ↔ holds1 s g t w) as Hh1.
    { intros. unfold holds1. now rewrite (line1_ext s s1). }
    split; [done| | |].
    + intros g t w w' Hg'. rewrite !Hh1. now apply Hs.
    + intros g t w Hg' Hw i Hi. apply Hh1 in Hw. rewrite (line1_ext s s1) by done.
      rewrite (l1_coherent _ Hs g t w) by done. symmetry. apply (Hother g t w); try done.
      intros [= -> ->]. now apply hit1_None with (w := w) in E.
    + intros g w. rewrite (line1_ext s s1) by done. apply Hs.
Qed.

Lemma Cache_1_write_ok s a len data :
  caches_ok s → room s a len = true → 0 <= a → 1 <= len <= 4 → a + len <= HW_MEM_SIZE →
  ∃ s', Cache_1_write a len data s = Ok tt s' ∧ caches_ok s' ∧
    ∀ b, 0 <= b < 2 ^ 32 → cmem s' b = flat_store (cmem s) a len data b.
Proof.
  intros Hs Hr Ha Hlen Hsz. unfold Cache_1_write.
  destruct (Z.leb_spec (a mod 64 + len) 64) as [Hblk|Hblk].
  { unfold room in Hr. bsplit.
    destruct (Cache_1_write_block s a len data Hs) with (d := 1%nat)
      as (s' & Hrun & Hs' & Hcm & _); [done..|].
    exists s'. split; [exact Hrun|done]. }
  change HW_MEM_SIZE with 134217728 in Hsz.
  rewrite room_split in Hr by lia. apply andb_prop in Hr as [Hr1 Hr2].
  remember 1%nat as d eqn:Hd. cbn [Cache_1_write_n]. cbv zeta.
  rewrite offset1_eq. replace (63 <? a mod 64 + len - 1) with true by lia.
  set (front := 63 - a mod 64 + 1). set (back := len - front).
  assert (1 <= front <= 3 ∧ 1 <= back <= 3) as [Hf Hbk] by (unfold back, front; lia).
  assert (Z.land data (Z.shiftl 1 (front * 8) - 1) = data mod 256 ^ front) as ->.
  { rewrite Z.shiftl_1_l, land_ones_mod, Z.mul_comm, Z.pow_mul_r by lia. done. }
  assert (Z.shiftr data (8 * front) = data / 256 ^ front) as ->.
  { rewrite Z.shiftr_div_pow2, Z.pow_mul_r by lia. done. }
  destruct (Cache_1_write_block s a front (data mod 256 ^ front) Hs) with (d := 0%nat)
    as (s1 & Hrun1 & Hs1 & Hcm1 & Hfr1); [done|lia|lia|change HW_MEM_SIZE with 134217728; lia|unfold front; lia|].
  rewrite <- Hd in Hrun1. rewrite (bind_Ok _ _ _ _ _ Hrun1).
  rewrite wrap_small by lia.
  replace (a + front) with (a - a mod 64 + 64) in * by (unfold front; lia).
  destruct (Cache_1_write_block s1 (a - a mod 64 + 64) back (data / 256 ^ front) Hs1) with (d := 0%nat)
    as (s2 & Hrun2 & Hs2 & Hcm2 & _); [|lia|lia|change HW_MEM_SIZE with 134217728; unfold back, front; lia|lia|].
  { rewrite (room2_frame s s1 a); [done..|]. now apply next_block_group. }
  rewrite <- Hd in Hrun2. exists s2. split; [exact Hrun2|]. split; [done|].
  intros b Hb. rewrite Hcm2 by done.
  rewrite (flat_store_ext _ _ _ _ _ _ (Hcm1 b Hb)).
  replace (a - a mod 64 + 64) with (a + front) by (unfold front; lia).
  rewrite flat_store_split by lia. f_equal. unfold back. lia.
Qed.
End CacheFacts.
