(* ===== verification/CacheSpec.v ===== *)
(** What the memory hierarchy of [Cache] promises the code above it: any sequence of
    accesses that finds room in L2 behaves as on a flat byte memory; the nesting
    bound is enough; initialisation; and the loss of a dirty L2 line. *)
From S2P Require Import Prelude Dram Cache L2Facts CacheFacts.

Section CacheSpec.
Context `{HRand : !LibcRand, HJunk : !StackJunk}.

(** ** Initialisation *)

(** A hierarchy with no valid line. *)
Definition all_invalid (s : Caches) : Prop :=
  dram_ok (cdram s) ∧
  (∀ g w, c1_valid (line1 s g w) = false ∧ is_bytes (aget (c1_data (line1 s g w)))) ∧
  ∀ g w, c2_valid (line2 s g w) = false ∧ c2_dirty (line2 s g w) = false ∧
    is_bytes (aget (c2_data (line2 s g w))).

Lemma all_invalid_ok s : all_invalid s → caches_ok s ∧ ∀ a, cmem s a = hw_get (cdram s) a.
Proof.
  intros (Hd & H1 & H2).
  assert (∀ g t w, ¬ holds1 s g t w) as Hn1.
  { intros g t w (_ & Hv & _). now rewrite (proj1 (H1 g w)) in Hv. }
  assert (∀ g t w, ¬ holds2 s g t w) as Hn2.
  { intros g t w (_ & Hv & _). now rewrite (proj1 (H2 g w)) in Hv. }
  split; [|intros a; apply cmem_miss; apply Hn2].
  split; [split| | |]; try (now apply H1).
  - done.
  - intros g t w w' _ Hw. now apply Hn2 in Hw.
  - intros g t w _ Hw. now apply Hn2 in Hw.
  - intros. apply H2.
  - intros g w. apply H2.
  - intros g t w w' _ Hw. now apply Hn1 in Hw.
  - intros g t w _ Hw. now apply Hn1 in Hw.
Qed.

Lemma all_invalid_set1 s g w j : all_invalid s → all_invalid (set_line1 g w (set1_group j) s).
Proof.
  intros (Hd & H1 & H2). split_and!; try done.
  intros g' w'. unfold line1 at 1 2, set_line1; cbn. rewrite aget_aset.
  destruct (_ =? _); [cbn; apply H1|apply (H1 g' w')].
Qed.

Lemma all_invalid_set2 s g w j : all_invalid s → all_invalid (set_line2 g w (set2_group j) s).
Proof.
  intros (Hd & H1 & H2). split_and!; try done.
  intros g' w'. unfold line2 at 1 2 3, set_line2; cbn. rewrite aget_aset.
  destruct (_ =? _); [cbn; apply H2|apply (H2 g' w')].
Qed.

(** A loop whose body keeps an invariant. *)
Lemma for_inv {S} (P : S → Prop) n lo (body : Z → M S unit) s :
  P s → (∀ i s, P s → ∃ s', body i s = Ok tt s' ∧ P s') →
  ∃ s', for_ n lo body s = Ok tt s' ∧ P s'.
Proof.
  intros H0 Hb. apply (for_ok (λ _, P) n lo body s H0). intros i s' _ Hs'. now apply Hb.
Qed.

Lemma init_cache1_run s : dram_ok (cdram s) →
  ∃ s', init_cache1 s = Ok tt s' ∧ cdram s' = cdram s ∧
    ∀ g w, c1_valid (line1 s' g w) = false ∧ is_bytes (aget (c1_data (line1 s' g w))).
Proof.
  intros Hd. unfold init_cache1. rewrite (bind_Ok (modify _) _ _ tt _ eq_refl).
  apply for_inv.
  { split; [done|]. intros g w. unfold line1; cbn. rewrite aget_anew. cbn.
    split; [done|intros j; rewrite aget_anew; lia]. }
  intros i s' Hs'. apply for_inv; [done|]. intros j s'' [Hd'' H'']. eexists. split; [done|].
  split; [done|]. intros g' w'. unfold line1, set_line1; cbn. rewrite aget_aset.
  destruct (_ =? _); [cbn; apply H''|apply (H'' g' w')].
Qed.

Lemma init_cache_run s : dram_ok (cdram s) →
  ∃ s', init_cache s = Ok tt s' ∧ all_invalid s' ∧ cdram s' = cdram s.
Proof.
  intros Hd. unfold init_cache, init_cache2.
  destruct (init_cache1_run s Hd) as (s2 & Hrun & Hd2 & H2). rewrite (bind_Ok _ _ _ _ _ Hrun).
  rewrite (bind_Ok (modify _) _ _ tt _ eq_refl).
  apply for_inv.
  { split; [|done]. split_and!; [now rewrite <- Hd2 in Hd|apply H2|].
    intros g w. unfold line2; cbn. rewrite aget_anew. cbn.
    split_and!; [done|done|intros j; rewrite aget_anew; lia]. }
  intros i s' Hs'. apply for_inv; [done|]. intros j s'' [Hi'' Hd'']. eexists. split; [done|].
  split; [now apply all_invalid_set2|done].
Qed.

(** ** Depth of the nested calls *)
Lemma next_block_offset a : offset2 (u32 (a - a mod 64 + 64)) = 0.
Proof. rewrite offset2_eq. unfold wrap. lia. Qed.

Lemma bind_ext {S A B} (m : M S A) (k k' : A → M S B) s :
  (∀ a s, k a s = k' a s) → mbind k m s = mbind k' m s.
Proof. intros H. unfold mbind, M_bind. destruct (m s); [apply H|done|done]. Qed.

Lemma bind_ext_l {S A B} (m m' : M S A) (k : A → M S B) s :
  m s = m' s → mbind k m s = mbind k m' s.
Proof. intros H. unfold mbind, M_bind. now rewrite H. Qed.

(** A nested access, which stays in its block, needs no further nesting. *)
Lemma read1_nested k b len s : offset1 b + len <= 64 →
  Cache_1_read_n (S k) b len s = Cache_1_read_n 1 b len s.
Proof.
  intros H. cbn [Cache_1_read_n]. change BLOCK_SIZE with 64.
  now replace (64 <? offset1 b + len) with false by lia.
Qed.

Lemma read2_nested k b len s : offset2 b + len <= 64 →
  Cache_2_read_n (S k) b len s = Cache_2_read_n 1 b len s.
Proof.
  intros H. cbn [Cache_2_read_n]. change BLOCK_SIZE_2 with 64.
  now replace (64 <? offset2 b + len) with false by lia.
Qed.

Lemma write1_nested k b len data s : offset1 b + len <= 64 →
  Cache_1_write_n (S k) b len data s = Cache_1_write_n 1 b len data s.
Proof. intros H. cbn [Cache_1_write_n]. cbv zeta. now replace (63 <? _) with false by lia. Qed.

Lemma write2_nested k b len data s : offset2 b + len <= 64 →
  Cache_2_write_n (S k) b len data s = Cache_2_write_n 1 b len data s.
Proof. intros H. cbn [Cache_2_write_n]. cbv zeta. now replace (63 <? _) with false by lia. Qed.

(** Both pieces of a split access stay in their blocks. *)
Lemma front_offset a : offset2 a + (63 - offset2 a + 1) <= 64.
Proof. lia. Qed.

Lemma back_offset a len : len <= 4 → 63 < offset2 a + len - 1 →
  offset2 (u32 (a + (63 - offset2 a + 1))) + (len - (63 - offset2 a + 1)) <= 64.
Proof. intros Hl. rewrite !offset2_eq. unfold wrap. lia. Qed.

Lemma block_addr_mod a : block_addr a mod 64 = 0.
Proof.
  unfold block_addr. change 64 with (2 ^ 6). rewrite <- (Z.land_ones _ 6), <- Z.land_assoc by lia.
  change (Z.land _ (Z.ones 6)) with 0. apply Z.land_0_r.
Qed.

Lemma next_offset a len : len <= 4 → offset2 (u32 (block_addr a + 64)) + len <= 64.
Proof. intros. rewrite offset2_eq. pose proof (block_addr_mod a). unfold wrap. lia. Qed.

(** ** More nesting changes nothing *)
Lemma read1_depth k a len s : len <= 4 → Cache_1_read_n (2 + k) a len s = Cache_1_read a len s.
Proof.
  intros Hl. unfold Cache_1_read. change (2 + k)%nat with (S (S k)). remember 1%nat as one. remember (S k) as m.
  cbn [Cache_1_read_n]. cbv zeta. subst one m. do 3 (apply bind_ext; intros ? ?; cbv beta).
  destruct (BLOCK_SIZE <? _); [|reflexivity]. apply bind_ext_l, bind_ext_l, read1_nested. now apply next_offset.
Qed.

Lemma read2_depth k a len s : len <= 4 → Cache_2_read_n (2 + k) a len s = Cache_2_read a len s.
Proof.
  intros Hl. unfold Cache_2_read. change (2 + k)%nat with (S (S k)). remember 1%nat as one. remember (S k) as m.
  cbn [Cache_2_read_n]. cbv zeta. subst one m. do 3 (apply bind_ext; intros ? ?; cbv beta).
  destruct (BLOCK_SIZE_2 <? _); [|reflexivity]. apply bind_ext_l, bind_ext_l, read2_nested. now apply next_offset.
Qed.

Lemma write1_depth k a len data s : len <= 4 →
  Cache_1_write_n (2 + k) a len data s = Cache_1_write a len data s.
Proof.
  intros Hl. unfold Cache_1_write. change (2 + k)%nat with (S (S k)). remember 1%nat as one. remember (S k) as m.
  cbn [Cache_1_write_n]. cbv zeta. subst one m. change (offset1 a) with (offset2 a).
  destruct (Z.ltb_spec 63 (offset2 a + len - 1)); [|done].
  unfold mbind, M_bind. rewrite (write1_nested k) by apply front_offset.
  destruct (Cache_1_write_n 1 _ _ _ s); [|done..]. apply write1_nested. now apply back_offset.
Qed.

Lemma write2_depth k a len data s : len <= 4 →
  Cache_2_write_n (2 + k) a len data s = Cache_2_write a len data s.
Proof.
  intros Hl. unfold Cache_2_write. change (2 + k)%nat with (S (S k)). remember 1%nat as one. remember (S k) as m.
  cbn [Cache_2_write_n]. cbv zeta. subst one m.
  destruct (Z.ltb_spec 63 (offset2 a + len - 1)); [|done].
  unfold mbind, M_bind. rewrite (write2_nested k) by apply front_offset.
  destruct (Cache_2_write_n 1 _ _ _ s); [|done..]. apply write2_nested. now apply back_offset.
Qed.

(** ** No access runs out of nesting *)
Lemma no_fuel_open_row rank bank row : no_fuel (open_row rank bank row).
Proof. intros d. unfold open_row. case_match; discriminate. Qed.

Lemma no_fuel_dram_read a len : no_fuel (dram_read a len).
Proof. unfold dram_read, ddr3_read. repeat (cbv zeta; first [apply no_fuel_open_row | no_fuel_step]). Qed.

Lemma no_fuel_dram_write a len v : no_fuel (dram_write a len v).
Proof. unfold dram_write, ddr3_write. repeat (cbv zeta; first [apply no_fuel_open_row | no_fuel_step]). Qed.

Lemma no_fuel_victim2 g : no_fuel (victim2 g).
Proof. intros s. unfold victim2, rand_mod. repeat case_match; discriminate. Qed.

Lemma no_fuel_victim1 g : no_fuel (victim1 g).
Proof. intros s. unfold victim1, rand_mod. repeat case_match; discriminate. Qed.

Lemma no_fuel_l1_byte g x i : no_fuel (l1_byte_oob g x i).
Proof. intros s. unfold l1_byte_oob. case_match; discriminate. Qed.

Lemma no_fuel_alloc2 g t b : no_fuel (alloc2 g t b).
Proof.
  unfold alloc2, evict2, fill2, in_dram.
  repeat first [no_fuel_step | apply no_fuel_victim2 | apply no_fuel_l1_byte
    | apply no_fuel_dram_read | apply no_fuel_dram_write].
Qed.

(** An access takes the nested call only when it leaves its block. *)
Lemma no_fuel_read2 k a len : offset2 a + len <= 64 ∨ len <= 4 ∧ (1 <= k)%nat →
  no_fuel (Cache_2_read_n (S k) a len).
Proof.
  revert a; induction k as [|k IH]; intros a H; [|remember (S k) as m eqn:Hm]; cbn [Cache_2_read_n]; cbv zeta;
    change BLOCK_SIZE_2 with 64;
    repeat first [apply no_fuel_alloc2 | no_fuel_step]; subst; try lia.
  apply IH. left. apply next_offset. lia.
Qed.

Lemma no_fuel_write2 k a len v : offset2 a + len <= 64 ∨ len <= 4 ∧ (1 <= k)%nat →
  no_fuel (Cache_2_write_n (S k) a len v).
Proof.
  revert a len v; induction k as [|k IH]; intros a len v H; [|remember (S k) as m eqn:Hm]; cbn [Cache_2_write_n]; cbv zeta;
    unfold in_dram; repeat first [apply no_fuel_alloc2 | apply no_fuel_dram_write | no_fuel_step]; subst; try lia;
    apply IH; left; [apply front_offset|apply back_offset; lia].
Qed.

Lemma no_fuel_load1 g x b : no_fuel (load1 g x b).
Proof. unfold load1. repeat first [apply (no_fuel_read2 1); lia | no_fuel_step]. Qed.

Lemma no_fuel_read1 k a len : offset1 a + len <= 64 ∨ len <= 4 ∧ (1 <= k)%nat →
  no_fuel (Cache_1_read_n (S k) a len).
Proof.
  revert a; induction k as [|k IH]; intros a H; [|remember (S k) as m eqn:Hm]; cbn [Cache_1_read_n]; cbv zeta;
    change BLOCK_SIZE with 64; unfold alloc1;
    repeat first [apply no_fuel_victim1 | apply no_fuel_load1 | no_fuel_step]; subst; try lia.
  apply IH. left. apply next_offset. lia.
Qed.

Lemma no_fuel_write1 k a len v : offset1 a + len <= 64 ∨ len <= 4 ∧ (1 <= k)%nat → len <= 4 →
  no_fuel (Cache_1_write_n (S k) a len v).
Proof.
  revert a len v; induction k as [|k IH]; intros a len v H Hl; [|remember (S k) as m eqn:Hm]; cbn [Cache_1_write_n]; cbv zeta;
    repeat first [apply (no_fuel_write2 1); lia | apply no_fuel_load1 | no_fuel_step]; subst; try lia;
    apply IH; try left; try apply front_offset; try apply back_offset; rewrite ?offset1_eq in *; lia.
Qed.

End CacheSpec.

(** * Accesses as the code above makes them *)
Inductive access := Rd (a len : Z) | Wr (a len v : Z).

Definition acc_addr (x : access) : Z := match x with Rd a _ | Wr a _ _ => a end.
Definition acc_len (x : access) : Z := match x with Rd _ l | Wr _ l _ => l end.

(** Inside the physical memory and one to four bytes long. *)
Definition acc_ok (x : access) : bool :=
  (0 <=? acc_addr x) && (1 <=? acc_len x) && (acc_len x <=? 4) &&
  (acc_addr x + acc_len x <=? HW_MEM_SIZE).

(** The specification: a flat byte memory. *)
Fixpoint flat_run (l : list access) (f : Z → Z) : list Z :=
  match l with
  | [] => []
  | Rd a len :: l => le_load (Z.to_nat len) f a :: flat_run l f
  | Wr a len v :: l => flat_run l (flat_store f a len v)
  end.

Section Run.
Context `{HRand : !LibcRand, HJunk : !StackJunk}.

(** What the hierarchy answers; the bytes of a read above [len] are masked, as the
    callers do. *)
Fixpoint cache_run (l : list access) : M Caches (list Z) :=
  match l with
  | [] => mret []
  | Rd a len :: l =>
    v ← Cache_1_read a len; vs ← cache_run l; mret (Z.land v (len_mask len) :: vs)
  | Wr a len v :: l => _ ← Cache_1_write a len v; cache_run l
  end.

(** Every access of the run finds room in L2: none replaces a dirty line. *)
Fixpoint roomy (l : list access) (s : Caches) : bool :=
  match l with
  | [] => true
  | x :: l =>
    acc_ok x && room s (acc_addr x) (acc_len x) &&
    match cache_run [x] s with Ok _ s' => roomy l s' | _ => false end
  end.

Lemma flat_run_ext l f g : forallb acc_ok l = true →
  (∀ b, 0 <= b < 2 ^ 32 → f b = g b) → flat_run l f = flat_run l g.
Proof.
  revert f g; induction l as [|[a len|a len v] l IH]; intros f g Hl H; cbn [forallb flat_run] in *; [done|..];
    apply andb_prop in Hl as [Hx Hl]; unfold acc_ok in Hx;
    change HW_MEM_SIZE with 134217728 in Hx; cbn [acc_addr acc_len] in Hx.
  - f_equal; [apply le_load_ext; intros; apply H; lia|]. now apply IH.
  - apply IH; [done|]. intros b Hb. apply flat_store_ext. now apply H.
Qed.

Lemma roomy_acc_ok l s : roomy l s = true → forallb acc_ok l = true.
Proof.
  revert s; induction l as [|x l IH]; intros s H; [done|].
  cbn [roomy forallb] in *. apply andb_prop in H as [[H1 _]%andb_prop H2].
  rewrite H1. destruct (cache_run [x] s); [|done..]. now apply (IH s0).
Qed.

Lemma cache_run_ok l s : caches_ok s → roomy l s = true →
  ∃ s', cache_run l s = Ok (flat_run l (cmem s)) s' ∧ caches_ok s'.
Proof.
  revert s; induction l as [|x l IH]; intros s Hs Hr; [now exists s|].
  pose proof (roomy_acc_ok _ _ Hr) as Hall. cbn [roomy forallb] in Hr, Hall.
  apply andb_prop in Hr as [[Ha Hroom]%andb_prop Hr]. apply andb_prop in Hall as [_ Hall].
  unfold acc_ok in Ha. bsplit.
  destruct x as [a len|a len v]; cbn [acc_addr acc_len cache_run flat_run] in *.
  - destruct (Cache_1_read_ok s a len) as (v & s1 & Hrun & Hs1 & Hcm & Hv); try done.
    rewrite (bind_Ok _ _ _ _ _ Hrun) in Hr. rewrite (bind_Ok _ _ _ _ _ Hrun). mstep.
    destruct (IH s1 Hs1 Hr) as (s2 & Hrun2 & Hs2). rewrite Hrun2.
    exists s2. split; [|done]. rewrite land_len_mask, Hv by done.
    now rewrite (flat_run_ext l (cmem s1) (cmem s)).
  - destruct (Cache_1_write_ok s a len v) as (s1 & Hrun & Hs1 & Hcm); try done.
    rewrite (bind_Ok _ _ _ _ _ Hrun) in Hr. rewrite (bind_Ok _ _ _ _ _ Hrun).
    destruct (IH s1 Hs1 Hr) as (s2 & Hrun2 & Hs2). exists s2. split; [|done].
    rewrite Hrun2. now rewrite (flat_run_ext l (cmem s1) (flat_store (cmem s) a len v)).
Qed.

End Run.

(** * Examples: a cold hierarchy over an empty memory *)
#[local] Existing Instance IsoRand.
#[local] Existing Instance ZeroJunk.

Lemma caches0_ok seed : caches_ok (caches0 seed) ∧ ∀ a, cmem (caches0 seed) a = hw_get dram0 a.
Proof.
  apply all_invalid_ok. split; [apply dram0_ok|].
  split; intros g w; unfold line1, line2; cbn; rewrite aget_anew; cbn; split_and!; try done;
    intros i; rewrite aget_anew; lia.
Qed.

(** A store across a block boundary, a load of it, a partial overwrite, a load. *)
Definition demo_run : list access :=
  [Wr 4158 4 287454020; Rd 4158 4; Rd 4160 2; Wr 4159 1 170; Rd 4157 4; Wr 266304 4 7; Rd 266304 4].

(** Sixteen blocks of one group of L2, each stored to twice: a store miss allocates the
    line clean, a second store makes it dirty.  Then a seventeenth block, and the sixteen
    again. *)
Definition thrash_stores : list access :=
  flat_map (λ i, let a := Z.of_nat i * 262144 + 64 in [Wr a 4 1; Wr a 4 (Z.of_nat i + 16)]) (seq 0 16).
Definition thrash_run : list access :=
  thrash_stores ++ [Rd (16 * 262144 + 64) 4] ++ map (λ i, Rd (Z.of_nat i * 262144 + 64) 4) (seq 0 16).

(** The hierarchy after the stores. *)
Definition dirty_caches (seed : Z) : Caches :=
  match cache_run thrash_stores (caches0 seed) with Ok _ s => s | _ => caches0 seed end.

Lemma dirty_caches_ok : caches_ok (dirty_caches 3).
Proof.
  destruct (cache_run_ok thrash_stores (caches0 3)) as (s & E & Hs); [apply caches0_ok|vm_compute; reflexivity|].
  unfold dirty_caches. rewrite E. exact Hs.
Qed.

(** On the run a store is lost, the flat memory loads 19 where the hierarchy loads 1; or,
    for another state of the generator, it is undefined. *)
Example thrash_loses_store :
  outcome (cache_run thrash_run (caches0 3)) =
    inl (Some [0; 16; 17; 18; 1; 20; 21; 22; 23; 24; 25; 26; 27; 28; 29; 30; 31]) ∧
  flat_run thrash_run (hw_get dram0) =
    [0; 16; 17; 18; 19; 20; 21; 22; 23; 24; 25; 26; 27; 28; 29; 30; 31] ∧
  outcome (cache_run thrash_run (caches0 1)) = inr EUndefined.
Proof. split; [|split]; vm_compute; reflexivity. Qed.

(** * An access that replaces a dirty line *)
Section Replacement.
Context `{HRand : !LibcRand, HJunk : !StackJunk}.

Lemma block_fits a len : 0 <= a < HW_MEM_SIZE → a mod 64 + len <= 64 → a + len <= HW_MEM_SIZE.
Proof. change HW_MEM_SIZE with 134217728. lia. Qed.

Lemma read2_miss s a len : hit2 s (group2 a) (tag2 a) = None → a mod 64 + len <= 64 →
  Cache_2_read a len s = (x ← alloc2 (group2 a) (tag2 a) (block_addr a); s ← getS;
    mret (le_load 4 (aget (memcpy (Z.to_nat BLOCK_SIZE_2) 0 0 (c2_data (line2 s (group2 a) x)) block_temp)) (a mod 64))) s.
Proof.
  intros Hm Hblk. unfold Cache_2_read. remember 1%nat as d. cbn [Cache_2_read_n]. cbv zeta.
  rewrite bind_getS, Hm, offset2_eq. change BLOCK_SIZE_2 with 64.
  apply bind_ext. intros y s'. rewrite !bind_getS. replace (64 <? a mod 64 + len) with false by lia.
  rewrite bind_ret. now subst d.
Qed.

Lemma write2_miss s s1 a len data : hit2 s (group2 a) (tag2 a) = None → in_dram (dram_write a len data) s = Ok tt s1 →
  a mod 64 + len <= 64 →
  Cache_2_write a len data s = (_ ← alloc2 (group2 a) (tag2 a) (block_addr a); mret tt) s1.
Proof.
  intros Hm Hw Hblk. unfold Cache_2_write. remember 1%nat as d. cbn [Cache_2_write_n]. cbv zeta.
  rewrite offset2_eq. replace (63 <? _) with false by lia. now rewrite bind_getS, Hm, (bind_Ok _ _ _ _ _ Hw).
Qed.

(** The store to the DRAM before the replacement moves neither the way nor what is seen
    after it. *)
Lemma write_miss_frame s a len data :
  l2_ok s → 0 <= a < HW_MEM_SIZE → 1 <= len <= 4 → a mod 64 + len <= 64 →
  hit2 s (group2 a) (tag2 a) = None →
  ∃ s1, in_dram (dram_write a len data) s = Ok tt s1 ∧ L1 s1 = L1 s ∧ L2 s1 = L2 s ∧ l2_ok s1 ∧
    (∀ x s0, victim2 (group2 a) s = Ok x s0 → ∃ s0', victim2 (group2 a) s1 = Ok x s0') ∧
    ∀ x b, 0 <= b < 2 ^ 32 → after_replacement s1 a x b = after_replacement s a x b.
Proof.
  intros Hs Ha Hlen Hblk Hmiss. pose proof (block_fits a len Ha Hblk) as Hsz.
  destruct (write_miss2_ok s a len data Hs) as (s1 & Hw & HL1 & HL2 & Hs1 & Hcm); try done || lia.
  { now apply hit2_None. }
  destruct (dram_write_ok (cdram s) a len data (l2_dram _ Hs)) as (d & Hd & _ & Hhw); try done || lia.
  pose proof (in_dram_Ok _ s _ _ Hd) as E. rewrite Hw in E. injection E as ->.
  exists (set_cdram d s). do 4 (split; [done|]). split.
  { intros x s0 Hv. eexists. apply victim2_dram; done. }
  intros x b Hb. unfold after_replacement. rewrite Hcm by done. cbn [cdram set_cdram]. rewrite Hhw.
  change (line1 (set_cdram d s)) with (line1 s). change (line2 (set_cdram d s)) with (line2 s).
  change HW_MEM_SIZE with 134217728 in Ha. unfold flat_store. destruct ((a <=? b) && (b <? a + len)) eqn:E; [|done].
  destruct (same_block2 a (b - a)) as [Hg Ht]; try lia. replace (a + (b - a)) with b in Hg, Ht by lia.
  now rewrite Hg, Ht, !Z.eqb_refl.
Qed.
End Replacement.

(** * Properties *)
Section Properties.
Context `{HRand : !LibcRand, HJunk : !StackJunk}.

(** C4: the two-level cache implements the flat memory: for every coherent hierarchy and
    every sequence of 1- to 4-byte loads and stores inside the physical memory
    (crossing a block or not) of which none has to replace a dirty L2 line, the run
    ends without an error, the loads return exactly what a flat byte memory holding
    the hierarchy's contents returns, and the hierarchy is coherent again. *)
Theorem cache_refines_flat_memory l s :
  caches_ok s → roomy l s = true →
  ∃ s', cache_run l s = Ok (flat_run l (cmem s)) s' ∧ caches_ok s'.
Proof. apply cache_run_ok. Qed.

(** [init_cache] ends, whatever L1 and L2 held, with a coherent hierarchy through
    which the program sees the bytes of the DRAM, which it does not change. *)
Theorem init_cache_establishes s :
  dram_ok (cdram s) →
  ∃ s', init_cache s = Ok tt s' ∧ caches_ok s' ∧ cdram s' = cdram s ∧
    ∀ a, cmem s' a = hw_get (cdram s) a.
Proof.
  intros Hd. destruct (init_cache_run s Hd) as (s' & Hrun & Hi & Hd').
  exists s'. destruct (all_invalid_ok s' Hi) as [Hok Hcm]. rewrite Hd' in Hcm.
  exact (conj Hrun (conj Hok (conj Hd' Hcm))).
Qed.


(** The DRAM with its row buffers and eight-byte bursts is a flat memory: a 1- to
    4-byte store followed by any 1- to 4-byte load, both inside the physical memory,
    ends without an error and loads the bytes of the stored memory, whatever rows are
    open and whatever the burst buffers held; the store changes nothing else. *)
Theorem dram_is_flat d a len data b blen :
  dram_ok d → 0 <= a → 1 <= len <= 4 → a + len <= HW_MEM_SIZE →
  0 <= b → 1 <= blen <= 4 → b + blen <= HW_MEM_SIZE →
  ∃ d1 v d2, dram_write a len data d = Ok tt d1 ∧ dram_read b blen d1 = Ok v d2 ∧
    dram_ok d1 ∧ dram_ok d2 ∧
    (∀ x, hw_get d2 x = flat_store (hw_get d) a len data x) ∧
    Z.land v (len_mask blen) = le_load (Z.to_nat blen) (flat_store (hw_get d) a len data) b.
Proof.
  intros Hd Ha Hl Hsz Hb Hbl Hbsz.
  destruct (dram_write_ok d a len data) as (d1 & Hw & Hd1 & Hg1); [done..|].
  destruct (dram_read_ok d1 b blen) as (v & d2 & Hr & Hd2 & Hg2 & Hv); [done..|].
  exists d1, v, d2. split_and!; try done; [intros x; now rewrite Hg2|].
  rewrite land_len_mask, Hv by done. now apply le_load_ext.
Qed.

(** C6: what replacing a dirty L2 line does.  On every coherent hierarchy, for every access
    that stays in its block, misses L2 and gets a dirty way: the replaced line's bytes are
    written nowhere, so that the program sees there what the DRAM held before; the bytes of
    the line of L1 with L2's group and way numbers are written, at the address of the
    incoming block, and become its contents, also over the bytes a store has just put there;
    no other byte changes.  Where L1 has no such group or way, both accesses are undefined. *)
Theorem dirty_replacement_loses_store s a len data x s0 :
  caches_ok s → 0 <= a < HW_MEM_SIZE → 1 <= len <= 4 → a mod 64 + len <= 64 →
  hit2 s (group2 a) (tag2 a) = None → victim2 (group2 a) s = Ok x s0 →
  c2_dirty (line2 s (group2 a) x) = true →
  if (group2 a <? GROUP_NUM) && (x <? WAY_NUM) then
    (∃ v s', Cache_2_read a len s = Ok v s' ∧
       v mod 256 ^ len = le_load (Z.to_nat len) (after_replacement s a x) a ∧
       ∀ b, 0 <= b < 2 ^ 32 → cmem s' b = after_replacement s a x b) ∧
    (∃ s', Cache_2_write a len data s = Ok tt s' ∧
       ∀ b, 0 <= b < 2 ^ 32 → cmem s' b = after_replacement s a x b)
  else Cache_2_read a len s = Fail_ EUndefined ∧ Cache_2_write a len data s = Fail_ EUndefined.
Proof.
  intros Hs Ha Hlen Hblk Hmiss Hv Hd. pose proof (ok_l2 _ Hs) as Hs2.
  destruct (write_miss_frame s a len data Hs2 Ha Hlen Hblk Hmiss) as (s1 & Hw & HL1 & HL2 & Hs1 & Hv1 & Haft).
  destruct (Hv1 x s0 Hv) as (s0' & Hv1'). clear Hv1.
  assert (∀ g w, line2 s1 g w = line2 s g w) as Hl by (intros; unfold line2; now rewrite HL2).
  assert (hit2 s1 (group2 a) (tag2 a) = None) as Hmiss1 by now rewrite (hit2_ext s).
  pose proof (alloc2_dirty s a x s0 Hs2 (l1_bytes _ Hs) Ha Hmiss Hv Hd) as Hr.
  assert (∀ g w, line1 s1 g w = line1 s g w) as Hl1 by (intros; unfold line1; now rewrite HL1).
  pose proof (alloc2_dirty s1 a x s0' Hs1 ltac:(intros g w; rewrite Hl1; apply Hs) Ha Hmiss1 Hv1' ltac:(now rewrite Hl)) as Hwr.
  rewrite (read2_miss s a len Hmiss Hblk), (write2_miss s s1 a len data Hmiss Hw Hblk).
  destruct (_ && _); [|unfold mbind, M_bind; rewrite Hr, Hwr; done]. split.
  - destruct Hr as (s' & Hr & _ & Hs' & Hh & Hcm'). rewrite (bind_Ok _ _ _ _ _ Hr). eexists _, s'. split; [reflexivity|].
    split; [|exact Hcm']. etransitivity; [exact (line2_load s' a len x Hs' Hh Ha Hlen Hblk)|].
    apply le_load_ext. intros k Hk. apply Hcm'. change HW_MEM_SIZE with 134217728 in Ha. lia.
  - destruct Hwr as (s' & Hwr & _ & _ & _ & Hcm'). rewrite (bind_Ok _ _ _ _ _ Hwr). exists s'. split; [reflexivity|].
    intros b Hb. rewrite Hcm' by done. now apply Haft.
Qed.
End Properties.

Lemma cache_refines_flat_memory_witness :
  ∃ s', cache_run demo_run (caches0 1) = Ok [287454020; 4386; 581583872; 7] s' ∧ caches_ok s'.
Proof.
  destruct (cache_refines_flat_memory demo_run (caches0 1)) as (s' & H & Hs').
  - apply caches0_ok.
  - vm_compute; reflexivity.
  - assert (flat_run demo_run (cmem (caches0 1)) = [287454020; 4386; 581583872; 7]) as Hf
      by (vm_compute; reflexivity).
    rewrite Hf in H. exact (ex_intro _ s' (conj H Hs')).
Defined.

Lemma init_cache_establishes_witness :
  ∃ s', init_cache (caches0 7) = Ok tt s' ∧ caches_ok s'.
Proof.
  destruct (init_cache_establishes (caches0 7)) as (s' & H & Hs' & _); [apply dram0_ok|].
  exact (ex_intro _ s' (conj H Hs')).
Defined.


Lemma dirty_replacement_loses_store_witness :
  cmem (dirty_caches 3) (3 * 262144 + 64) = 19 ∧
  ∃ v s', Cache_2_read (16 * 262144 + 64) 4 (dirty_caches 3) = Ok v s' ∧ cmem s' (3 * 262144 + 64) = 1.
Proof.
  split; [vm_compute; reflexivity|].
  destruct (outcome_Ok (victim2 (group2 (16 * 262144 + 64))) (dirty_caches 3) 3) as (s0 & E); [vm_compute; reflexivity|].
  destruct (dirty_replacement_loses_store (dirty_caches 3) (16 * 262144 + 64) 4 0 3 s0)
    as ((v & s' & Hr & _ & Hcm) & _);
    [apply dirty_caches_ok|split; [lia|apply Z.ltb_lt; reflexivity]|lia|vm_compute; discriminate|vm_compute; reflexivity|exact E
    |vm_compute; reflexivity|].
  exists v, s'. split; [exact Hr|]. rewrite Hcm by lia. vm_compute. reflexivity.
Defined.

Lemma dram_is_flat_witness :
  ∃ d1 v d2, dram_write 1021 4 287454020 dram0 = Ok tt d1 ∧ dram_read 1022 2 d1 = Ok v d2 ∧
    Z.land v (len_mask 2) = 8755.
Proof.
  destruct (dram_is_flat dram0 1021 4 287454020 1022 2) as (d1 & v & d2 & H1 & H2 & _ & _ & _ & Hv);
    [apply dram0_ok|lia|lia|apply Z.leb_le; reflexivity|lia|lia|apply Z.leb_le; reflexivity|].
  exists d1, v, d2. split; [assumption|]. split; [assumption|]. rewrite Hv. vm_compute. reflexivity.
Defined.
