(* ===== verification/WorkingSet.v ===== *)
(** Working sets that fit in L2.  A dirty L2 line is replaced only when its group is
    full; when the blocks a program touches leave at most sixteen tags to a group, no
    group fills up beyond them and the hierarchy is the flat memory for good, with no
    condition on the state of its lines along the way. *)
From S2P Require Import Prelude Dram Cache L2Facts CacheFacts CacheSpec.

(** The tags a working set may put in each group of L2. *)
Record working_set := mkWorkingSet {
  ws_tags : Z → list Z;
  ws_small : ∀ g, (length (ws_tags g) <= 16)%nat
}.

(** The block of [a] is in the working set. *)
Definition ws_has (W : working_set) (a : Z) : Prop := tag2 a ∈ ws_tags W (group2 a).

Section WorkingSet.
Context `{HRand : !LibcRand, HJunk : !StackJunk}.
Context (W : working_set).

(** Every valid line of L2 is of the working set. *)
Definition within (s : Caches) : Prop :=
  ∀ g t w, 0 <= g < 4096 → holds2 s g t w → t ∈ ws_tags W g.

Lemma within_ext s s' : L2 s' = L2 s → within s → within s'.
Proof. intros HL H g t w Hg Hh. apply (H g t w Hg). unfold holds2, line2 in *. now rewrite <- HL. Qed.

(** An update of a line that keeps its tag and its valid bit, or gives it a tag of the
    working set. *)
Lemma within_line2 s g x f : 0 <= x < 16 →
  (tag2 (c2_addr (f (line2 s g x))) = tag2 (c2_addr (line2 s g x)) ∧
     c2_valid (f (line2 s g x)) = c2_valid (line2 s g x) ∨
   tag2 (c2_addr (f (line2 s g x))) ∈ ws_tags W g) →
  within s → within (set_line2 g x f s).
Proof.
  intros Hx Hf H g' t w Hg' Hh. assert (0 <= w < 16) as Hw by apply Hh.
  destruct (decide ((g, x) = (g', w))) as [[= <- <-]|Hne].
  - unfold holds2 in Hh. rewrite line2_set_same in Hh. destruct Hh as (_ & Hv & Ht).
    destruct Hf as [[Ht' Hv']|Hf]; [|now rewrite <- Ht].
    apply (H g t x Hg'). unfold holds2. rewrite <- Hv', <- Ht'. done.
  - apply (H g' t w Hg'). unfold holds2 in *. now rewrite line2_set_other in Hh by done.
Qed.

Lemma keeps_in_dram {A} (m : M Dram A) : keeps within (in_dram m).
Proof. apply keeps_zoom. intros s Hs. destruct (m (cdram s)); try done; now apply (within_ext s). Qed.

Lemma victim2_range g s x s' : victim2 g s = Ok x s' → 0 <= x < 16.
Proof.
  unfold victim2. destruct (find_idx _ _ _) as [y|] eqn:E.
  - intros [= <- _]. apply find_idx_Some in E as [Hy _]. exact Hy.
  - unfold rand_mod. destruct (libc_rand _) as [r st]. intros [= <- _].
    apply Z.mod_pos_bound. done.
Qed.

Lemma keeps_rand_mod n : keeps within (rand_mod n).
Proof. intros s Hs. unfold rand_mod. destruct (libc_rand _). now apply (within_ext s). Qed.

Lemma keeps_victim2 g : keeps within (victim2 g).
Proof.
  intros s Hs. unfold victim2. destruct (find_idx _ _ _); [done|]. now apply keeps_rand_mod.
Qed.

Lemma keeps_fill2 g t x b : 0 <= x < 16 → 0 <= t < 16384 → t ∈ ws_tags W g →
  keeps within (fill2 g t x b).
Proof.
  intros Hx Ht Hin. unfold fill2.
  enough (keeps within (_ ← modify (λ s, set_line2 g x (set2_dirty false)
      (set_line2 g x (set2_tag t) (set_line2 g x (set2_valid true) s)));
    for_ (Z.to_nat BLOCK_SIZE_2) 0 (λ i,
      v ← in_dram (dram_read (u32 (b + i)) 1);
      modify (set_line2 g x (set2_data i (Z.land v (len_mask 1))))))) as H.
  { intros s Hs. apply (H s Hs). }
  repeat keeps_step.
  - apply keeps_modify. intros s Hs.
    assert (set_line2 g x (set2_dirty false) (set_line2 g x (set2_tag t) (set_line2 g x (set2_valid true) s)) =
      mkCaches (L1 s) (aset (g * WAY_NUM_2 + x) (set2_dirty false (set2_tag t (set2_valid true (line2 s g x))))
        (aset (g * WAY_NUM_2 + x) (set2_tag t (set2_valid true (line2 s g x)))
          (aset (g * WAY_NUM_2 + x) (set2_valid true (line2 s g x)) (L2 s)))) (cdram s) (crand s)) as Heq.
    { unfold set_line2, line2; cbn. now rewrite !aget_aset_eq. }
    rewrite Heq. intros g' t' w Hg' Hh. assert (0 <= w < 16) as Hw by apply Hh.
    unfold holds2, line2 in Hh. cbn in Hh. rewrite !aget_aset in Hh. change WAY_NUM_2 with 16 in *.
    destruct (Z.eqb_spec (g * 16 + x) (g' * 16 + w)).
    + destruct Hh as (_ & _ & <-). cbn. rewrite tag2_set by done. now replace g' with g by lia.
    + now apply (Hs g' t' w Hg').
  - apply keeps_in_dram.
  - apply keeps_modify. intros s Hs. apply within_line2; [done| |done]. now left.
Qed.

Lemma keeps_evict2 g x b : keeps within (evict2 g x b).
Proof.
  unfold evict2. repeat keeps_step; [|apply keeps_in_dram].
  intros s Hs. unfold l1_byte_oob. now destruct (_ && _).
Qed.

Lemma keeps_alloc2 g t b : 0 <= t < 16384 → t ∈ ws_tags W g → keeps within (alloc2 g t b).
Proof.
  intros Ht Hin. unfold alloc2. apply (keeps_bind_with _ (λ x, 0 <= x < 16)).
  - apply keeps_victim2.
  - apply victim2_range.
  - intros x Hx. repeat keeps_step; [apply keeps_evict2|now apply keeps_fill2].
Qed.

(** A read of one byte of L2, the only reads L1 makes. *)
Lemma keeps_Cache_2_read1 a : ws_has W a → keeps within (Cache_2_read a 1).
Proof.
  intros Ha. unfold Cache_2_read. remember 1%nat as d eqn:Hd. cbn [Cache_2_read_n].
  rewrite offset2_eq. change BLOCK_SIZE_2 with 64. replace (64 <? a mod 64 + 1) with false by lia.
  repeat keeps_step. apply keeps_alloc2; [apply tag2_range|exact Ha].
Qed.

Lemma keeps_set_line1 g x f : keeps within (modify (set_line1 g x f)).
Proof. apply keeps_modify. intros s Hs. now apply (within_ext s). Qed.

Lemma keeps_load1 g x b : 0 <= b → b mod 64 = 0 → b < 2 ^ 32 → ws_has W b → keeps within (load1 g x b).
Proof.
  intros Hb Hb64 Hb32 HW. unfold load1. repeat keeps_step; [|apply keeps_set_line1].
  match goal with H : 0 <= ?i < _ |- _ => change (0 + Z.of_nat (Z.to_nat BLOCK_SIZE)) with 64 in H;
    rewrite wrap_small by lia; destruct (same_block2 b i) as [Hg Ht]; [lia..|] end.
  apply keeps_Cache_2_read1. unfold ws_has. now rewrite Hg, Ht.
Qed.

Lemma keeps_victim1 g : keeps within (victim1 g).
Proof.
  intros s Hs. unfold victim1. destruct (find_idx _ _ _); [done|]. now apply keeps_rand_mod.
Qed.

(** The block of an address, and its first byte. *)
Lemma ws_has_block a : 0 <= a < 2 ^ 32 → ws_has W a →
  0 <= block_addr a < 2 ^ 32 ∧ block_addr a mod 64 = 0 ∧ ws_has W (block_addr a).
Proof.
  intros Ha HW. rewrite block_addr_eq by done. unfold block_of.
  destruct (same_block2 (a - a mod 64) (a mod 64)) as [Hg Ht]; [lia..|].
  replace (a - a mod 64 + a mod 64) with a in * by lia.
  unfold ws_has in *. rewrite <- Hg, <- Ht. split_and!; [lia|lia|lia|done].
Qed.

Lemma keeps_alloc1 g t a : 0 <= a < 2 ^ 32 → ws_has W a → keeps within (alloc1 g t (block_addr a)).
Proof.
  intros Ha HW. destruct (ws_has_block a Ha HW) as (? & ? & ?). unfold alloc1.
  repeat keeps_step; [apply keeps_victim1|apply keeps_set_line1|apply keeps_set_line1|].
  apply keeps_load1; (done || lia).
Qed.

(** The blocks of [len] bytes at [a]. *)
Definition ws_acc (a len : Z) : Prop :=
  0 <= a ∧ 1 <= len <= 4 ∧ a + len <= HW_MEM_SIZE ∧ ws_has W a ∧ ws_has W (a + len - 1).

Lemma ws_next a len : ws_acc a len → 64 < a mod 64 + len → ws_has W (a - a mod 64 + 64).
Proof.
  intros (Ha & Hl & Hsz & _ & HW) Hx. change HW_MEM_SIZE with 134217728 in Hsz.
  destruct (same_block2 (a - a mod 64 + 64) (a mod 64 + len - 65)) as [Hg Ht]; [lia..|].
  unfold ws_has in *. rewrite <- Hg, <- Ht. now replace (_ + _) with (a + len - 1) by lia.
Qed.

(** Within a block, and then across two. *)
Lemma keeps_read_block d a len : 0 <= a < 2 ^ 32 → ws_has W a →
  (63 < a mod 64 + len - 1 → keeps within (Cache_1_read_n d (u32 (a - a mod 64 + 64)) len)) →
  keeps within (Cache_1_read_n (S d) a len).
Proof.
  intros Ha HW Hn. cbn [Cache_1_read_n]. rewrite offset1_eq, block_addr_eq by done.
  change BLOCK_SIZE with 64. repeat keeps_step; [|apply Hn; lia].
  rewrite <- block_addr_eq by done. now apply keeps_alloc1.
Qed.

Lemma keeps_Cache_1_read a len : ws_acc a len → keeps within (Cache_1_read a len).
Proof.
  intros HA. pose proof HA as (Ha & Hl & Hsz & HW & _). change HW_MEM_SIZE with 134217728 in Hsz.
  unfold Cache_1_read. apply keeps_read_block; [lia|done|]. intros Hx.
  rewrite wrap_small by lia. apply keeps_read_block; [lia| |lia].
  apply (ws_next a len HA). lia.
Qed.

Lemma keeps_Cache_2_write d a len data : 0 <= a < 2 ^ 32 → ws_has W a → a mod 64 + len <= 64 →
  keeps within (Cache_2_write_n (S d) a len data).
Proof.
  intros Ha HW Hblk. cbn [Cache_2_write_n]. cbv zeta. rewrite offset2_eq.
  replace (63 <? a mod 64 + len - 1) with false by lia.
  apply keeps_bind; [apply keeps_getS|intros s]. destruct (hit2 s (group2 a) (tag2 a)) as [x|] eqn:E.
  - apply hit2_Some in E as [Hx _].
    repeat keeps_step; apply keeps_modify; intros s' Hs'; (apply within_line2; [done|now left|done]).
  - repeat keeps_step; [apply keeps_in_dram|]. apply keeps_alloc2; [apply tag2_range|exact HW].
Qed.

Lemma keeps_write_block d a len data : 0 <= a < 2 ^ 32 → ws_has W a → a mod 64 + len <= 64 →
  keeps within (Cache_1_write_n (S d) a len data).
Proof.
  intros Ha HW Hblk. cbn [Cache_1_write_n]. cbv zeta. rewrite offset1_eq.
  replace (63 <? a mod 64 + len - 1) with false by lia.
  destruct (ws_has_block a Ha HW) as (? & ? & ?).
  repeat keeps_step; [now apply keeps_Cache_2_write|]. apply keeps_load1; (done || lia).
Qed.

Lemma keeps_Cache_1_write a len data : ws_acc a len → keeps within (Cache_1_write a len data).
Proof.
  intros HA. pose proof HA as (Ha & Hl & Hsz & HW & _). change HW_MEM_SIZE with 134217728 in Hsz.
  unfold Cache_1_write. destruct (Z.leb_spec (a mod 64 + len) 64).
  { apply keeps_write_block; (done || lia). }
  remember 1%nat as d eqn:Hd. cbn [Cache_1_write_n]. cbv zeta. rewrite offset1_eq.
  replace (63 <? a mod 64 + len - 1) with true by lia. subst d.
  rewrite wrap_small by lia. repeat keeps_step; apply keeps_write_block; (done || lia || idtac).
  replace (a + (63 - a mod 64 + 1)) with (a - a mod 64 + 64) by lia. apply (ws_next a len HA). lia.
Qed.

(** ** There is always room *)
Lemma within_room s a : l2_ok s → within s → ws_has W a → room2 s a = true.
Proof.
  intros Hs Hw HW. unfold room2. destruct (hit2 s (group2 a) (tag2 a)) eqn:E; [done|].
  destruct (find_idx 16 0 _) as [x|] eqn:Ei; [done|]. exfalso.
  rewrite find_idx_None in Ei. set (g := group2 a) in *.
  pose proof (group2_range a : 0 <= g < 4096) as Hg.
  set (tg := λ i : nat, tag2 (c2_addr (line2 s g (Z.of_nat i)))).
  assert (∀ i, (i < 16)%nat → holds2 s g (tg i) (Z.of_nat i)) as Hh.
  { intros i Hi. split; [lia|]. split; [|done]. specialize (Ei (Z.of_nat i) ltac:(lia)).
    now destruct (c2_valid _). }
  assert (NoDup (tag2 a :: map tg (seq 0 16))) as Hnd.
  { constructor.
    - intros (i & Hi & Hin)%list_elem_of_fmap. apply elem_of_seq in Hin.
      apply (hit2_None _ _ _ E (Z.of_nat i)). rewrite Hi. apply Hh. lia.
    - apply NoDup_fmap_2_strong; [|apply NoDup_seq].
      intros i j Hi%elem_of_seq Hj%elem_of_seq Hij. apply Nat2Z.inj.
      apply (l2_unique _ Hs g (tg i)); [done|apply Hh; lia|]. rewrite Hij. apply Hh. lia. }
  assert (tag2 a :: map tg (seq 0 16) ⊆ ws_tags W g) as Hsub.
  { intros t [->|(i & -> & Hin)%list_elem_of_fmap]%elem_of_cons; [exact HW|].
    apply elem_of_seq in Hin. apply (Hw g _ (Z.of_nat i) Hg). apply Hh. lia. }
  apply (NoDup_submseteq _ _ Hnd) in Hsub. apply submseteq_length in Hsub.
  pose proof (ws_small W g). cbn [length] in Hsub. rewrite length_map, length_seq in Hsub. lia.
Qed.

(** A coherent hierarchy that holds blocks of the working set only. *)
Definition ws_ok (s : Caches) : Prop := caches_ok s ∧ within s.

Lemma ws_room s a len : ws_ok s → ws_acc a len → room s a len = true.
Proof.
  intros [Hs Hw] (_ & _ & _ & H1 & H2). unfold room.
  now rewrite !within_room by (done || apply Hs).
Qed.

Lemma ws_read s a len : ws_ok s → ws_acc a len →
  ∃ v s', Cache_1_read a len s = Ok v s' ∧ ws_ok s' ∧
    (∀ b, 0 <= b < 2 ^ 32 → cmem s' b = cmem s b) ∧
    Z.land v (len_mask len) = le_load (Z.to_nat len) (cmem s) a.
Proof.
  intros Hs HA. pose proof (ws_room s a len Hs HA) as Hr. pose proof HA as (Ha & Hl & Hsz & _).
  destruct (Cache_1_read_ok s a len) as (v & s' & Hrun & Hs' & Hcm & Hv); try done; [apply Hs|].
  exists v, s'. split_and!; [done| |done|now rewrite land_len_mask].
  split; [done|]. eapply keeps_Ok; [now apply (keeps_Cache_1_read a len)|exact Hrun|apply Hs].
Qed.

Lemma ws_write s a len data : ws_ok s → ws_acc a len →
  ∃ s', Cache_1_write a len data s = Ok tt s' ∧ ws_ok s' ∧
    ∀ b, 0 <= b < 2 ^ 32 → cmem s' b = flat_store (cmem s) a len data b.
Proof.
  intros Hs HA. pose proof (ws_room s a len Hs HA) as Hr. pose proof HA as (Ha & Hl & Hsz & _).
  destruct (Cache_1_write_ok s a len data) as (s' & Hrun & Hs' & Hcm); try done; [apply Hs|].
  exists s'. split_and!; [done| |done].
  split; [done|]. eapply keeps_Ok; [now apply (keeps_Cache_1_write a len data)|exact Hrun|apply Hs].
Qed.

Lemma all_invalid_within s : all_invalid s → within s.
Proof. intros (_ & _ & H) g t w _ (_ & Hv & _). now rewrite (proj1 (H g w)) in Hv. Qed.
End WorkingSet.

(** * A window of 4 MiB *)

(** The sixteen tags that the window of 2^22 bytes from [lo] puts in group [g]. *)
Definition window_tags (lo g : Z) : list Z :=
  map (λ i, (lo - g * 64 + 262143) / 262144 + Z.of_nat i) (seq 0 16).

Lemma window_small lo g : (length (window_tags lo g) <= 16)%nat.
Proof. unfold window_tags. rewrite length_map, length_seq. lia. Qed.

Definition window (lo : Z) : working_set := mkWorkingSet (window_tags lo) (window_small lo).

Lemma window_has lo a : lo mod 64 = 0 → 0 <= a < 2 ^ 32 → lo <= a < lo + 2 ^ 22 →
  ws_has (window lo) a.
Proof.
  intros Hlo Ha Hw. unfold ws_has, window, window_tags; cbn [ws_tags].
  rewrite group2_eq, tag2_eq by done.
  set (t0 := (lo - a / 64 mod 4096 * 64 + 262143) / 262144).
  apply list_elem_of_fmap. exists (Z.to_nat (a / 262144 - t0)).
  assert (0 <= a / 262144 - t0 < 16) by (unfold t0; lia).
  split; [lia|]. apply elem_of_seq. lia.
Qed.

(** The access is inside the window and the physical memory. *)
Definition acc_in (lo : Z) (x : access) : bool :=
  acc_ok x && (lo <=? acc_addr x) && (acc_addr x + acc_len x <=? lo + 2 ^ 22).

Lemma acc_in_ws lo x : lo mod 64 = 0 → acc_in lo x = true → ws_acc (window lo) (acc_addr x) (acc_len x).
Proof.
  intros Hlo H. unfold acc_in, acc_ok in H. bsplit. unfold ws_acc.
  change HW_MEM_SIZE with 134217728 in *.
  split_and!; try lia; apply window_has; lia.
Qed.

Section WindowRun.
Context `{HRand : !LibcRand, HJunk : !StackJunk}.

Lemma ws_run W l s : ws_ok W s → Forall (λ x, ws_acc W (acc_addr x) (acc_len x)) l →
  ∃ s', cache_run l s = Ok (flat_run l (cmem s)) s' ∧ ws_ok W s'.
Proof.
  revert s; induction l as [|x l IH]; intros s Hs Hl; [now exists s|].
  apply Forall_cons_iff in Hl as [Hx Hl].
  assert (forallb acc_ok l = true) as Hall.
  { apply forallb_forall. intros y Hy. rewrite Forall_forall in Hl.
    destruct (Hl y Hy) as (? & ? & ? & _). unfold acc_ok. lia. }
  destruct x as [a len|a len v]; cbn [acc_addr acc_len cache_run flat_run] in *.
  - destruct (ws_read W s a len Hs Hx) as (v & s1 & Hrun & Hs1 & Hcm & Hv).
    rewrite (bind_Ok _ _ _ _ _ Hrun). mstep.
    destruct (IH s1 Hs1 Hl) as (s2 & Hrun2 & Hs2). rewrite Hrun2, Hv.
    exists s2. split; [|done]. now rewrite (flat_run_ext l (cmem s1) (cmem s)).
  - destruct (ws_write W s a len v Hs Hx) as (s1 & Hrun & Hs1 & Hcm).
    rewrite (bind_Ok _ _ _ _ _ Hrun). destruct (IH s1 Hs1 Hl) as (s2 & Hrun2 & Hs2).
    exists s2. split; [|done]. rewrite Hrun2.
    now rewrite (flat_run_ext l (cmem s1) (flat_store (cmem s) a len v)).
Qed.

(** C11: programs that stay in a window of 4 MiB never meet the faulty replacement: from
    [init_cache] on, whatever the caches held, every sequence of loads and stores inside
    the window (crossing blocks or not, any length of run) returns what the flat memory
    with the DRAM's bytes returns; no hypothesis on the state of any line. *)
Theorem window_runs_flat lo l s :
  dram_ok (cdram s) → lo mod 64 = 0 → forallb (acc_in lo) l = true →
  ∃ s', (_ ← init_cache; cache_run l) s = Ok (flat_run l (hw_get (cdram s))) s' ∧ caches_ok s'.
Proof.
  intros Hd Hlo Hl. destruct (init_cache_run s Hd) as (s1 & Hrun & Hi & Hd1).
  rewrite (bind_Ok _ _ _ _ _ Hrun). clear Hrun. destruct (all_invalid_ok s1 Hi) as [Hok Hcm].
  assert (ws_ok (window lo) s1) as Hs1 by (split; [done|now apply all_invalid_within]).
  rewrite forallb_forall in Hl.
  destruct (ws_run (window lo) l s1 Hs1) as (s2 & Hrun & Hs2).
  { apply Forall_forall. intros x Hx. now apply acc_in_ws, Hl. }
  exists s2. split; [|apply Hs2]. refine (eq_trans Hrun _). f_equal.
  apply flat_run_ext; [|intros; now rewrite Hcm, Hd1].
  apply forallb_forall. intros x Hx%Hl. unfold acc_in in Hx. now bsplit.
Qed.
End WindowRun.

(** Two passes of stores, 256 KiB apart, over the sixteen blocks of one group. *)
Definition window_demo : list access :=
  flat_map (λ i, let a := 4096 + Z.of_nat i * 262144 + 62 in [Wr a 4 1; Wr a 4 (Z.of_nat i + 16)]) (seq 0 15)
  ++ map (λ i, Rd (4096 + Z.of_nat i * 262144 + 62) 4) (seq 0 15).

Lemma window_runs_flat_witness :
  ∃ s', (_ ← @init_cache IsoRand; @cache_run IsoRand ZeroJunk window_demo) (@caches0 IsoRand 3)
    = Ok [16; 17; 18; 19; 20; 21; 22; 23; 24; 25; 26; 27; 28; 29; 30] s'.
Proof.
  destruct (@window_runs_flat IsoRand ZeroJunk 4096 window_demo (@caches0 IsoRand 3))
    as (s' & H & _); [apply dram0_ok|reflexivity|vm_compute; reflexivity|].
  exists s'. refine (eq_trans H _). apply (f_equal (λ v, Ok v s')). vm_compute. reflexivity.
Defined.
