(* ===== verification/Tlb.v ===== *)
(** The translation look-aside buffer of [nemu/src/memory/TLB.c]: 64 fully associative
    items, the first invalid one (or the one [rand] picks after [srand(0)]) replaced. *)
From S2P Require Import Prelude.

Definition PAGE_BIT : Z := 12.
Definition TLB_TAG_BIT : Z := 20.
Definition COUNT_ITEM : Z := 64.

(** An item; [offset] and [tag] are bit fields of [addr]. *)
Record TlbItem := mkTlbItem { t_valid : bool; t_addr : Z; t_result : Z }.

Definition tlb_tag (addr : Z) : Z := bitfield addr PAGE_BIT TLB_TAG_BIT.

Definition tlb_item0 : TlbItem := mkTlbItem false 0 0.

(** [tlb\[COUNT_ITEM\]] *)
Definition TLB : Type := arr TlbItem.

Definition init_TLB (t : TLB) : TLB :=
  foldl (λ t i, aset (Z.of_nat i) tlb_item0 t) t (seq 0 (Z.to_nat COUNT_ITEM)).

Definition tlb_hit (t : TLB) (tag : Z) : option Z :=
  find_idx (Z.to_nat COUNT_ITEM) 0 (λ i, let e := aget t i in t_valid e && (tlb_tag (t_addr e) =? tag)).

Definition TLB_translate (t : TLB) (addr : Z) : Z :=
  let tag := Z.shiftr addr 12 in
  match tlb_hit t tag with
  | Some i => t_result (aget t i)
  | None => 2 ^ 32 - 1
  end.

Section Update.
Context `{HRand : !LibcRand}.

(** [srand(0)] resets the generator the caches use too. *)
Definition TLB_update (addr hwaddr : Z) (t : TLB) : TLB * rand_state :=
  let st := libc_srand 0 in
  let '(i, st) :=
    match find_idx 64 0 (λ i, negb (t_valid (aget t i))) with
    | Some i => (i, st)
    | None => let '(r, st) := libc_rand st in (r mod 64, st)
    end in
  (aset i (mkTlbItem true addr hwaddr) t, st).
End Update.

(** * What the buffer answers *)
Lemma tlb_tag_eq a : 0 <= a < 2 ^ 32 → tlb_tag a = a / 4096.
Proof.
  intros. unfold tlb_tag. rewrite bitfield_eq by (cbv; done). change (2 ^ PAGE_BIT) with 4096.
  change (2 ^ TLB_TAG_BIT) with 1048576. apply Z.mod_small. lia.
Qed.

Lemma shiftr_12 a : Z.shiftr a 12 = a / 4096.
Proof. now rewrite Z.shiftr_div_pow2. Qed.

Lemma init_TLB_miss t a : TLB_translate (init_TLB t) a = 2 ^ 32 - 1.
Proof.
  unfold TLB_translate. replace (tlb_hit (init_TLB t) _) with (@None Z); [done|]. symmetry.
  unfold tlb_hit. apply find_idx_None. intros j Hj.
  replace (aget (init_TLB t) j) with tlb_item0; [done|]. symmetry.
  unfold init_TLB. change (Z.to_nat COUNT_ITEM) with 64%nat in *.
  enough (∀ n t, (n <= 64)%nat → aget (foldl (λ t i, aset (Z.of_nat i) tlb_item0 t) t (seq 0 n)) j =
    if (0 <=? j) && (j <? Z.of_nat n) then tlb_item0 else aget t j) as H.
  { rewrite H by lia. now replace (_ && _) with true by lia. }
  clear t. induction n as [|n IH]; intros t Hn; [cbn; now replace (_ && _) with false by lia|].
  rewrite seq_S, foldl_app. cbn [foldl]. rewrite aget_aset, IH by lia. cbn [Nat.add].
  destruct (Z.eqb_spec (Z.of_nat n) j); [now replace (_ && _) with true by lia|].
  now replace (j <? Z.of_nat (S n)) with (j <? Z.of_nat n) by lia.
Qed.

(** Every valid item is an answer the walk would give: [ok page frame]. *)
Definition tlb_sound (ok : Z → Z → Prop) (t : TLB) : Prop :=
  ∀ i, 0 <= i < 64 → t_valid (aget t i) = true →
    0 <= t_addr (aget t i) < 2 ^ 32 ∧ ok (t_addr (aget t i) / 4096) (t_result (aget t i)).

Lemma tlb_hit_sound ok t a : tlb_sound ok t → 0 <= a < 2 ^ 32 →
  TLB_translate t a = 2 ^ 32 - 1 ∨ ok (a / 4096) (TLB_translate t a).
Proof.
  intros Ht Ha. unfold TLB_translate. rewrite shiftr_12.
  destruct (tlb_hit t (a / 4096)) as [i|] eqn:E; [right|now left].
  unfold tlb_hit in E. apply find_idx_Some in E as (Hi & Hv & _).
  apply andb_prop in Hv as [Hv Htag].
  destruct (Ht i) as [Hr Hok]; [exact Hi|done|]. rewrite tlb_tag_eq in Htag by done.
  bsplit. now rewrite <- Htag.
Qed.

Section UpdateFacts.
Context `{HRand : !LibcRand}.

Lemma TLB_update_sound ok t a h : tlb_sound ok t → 0 <= a < 2 ^ 32 → ok (a / 4096) h →
  tlb_sound ok (fst (TLB_update a h t)).
Proof.
  intros Ht Ha Hok. unfold TLB_update.
  destruct (match find_idx 64 0 _ with Some _ => _ | None => _ end) as [x st]. cbn [fst].
  intros i Hi. rewrite aget_aset. destruct (Z.eqb_spec x i); [done|now apply Ht].
Qed.

(** The new item answers for its page when no other item did. *)
Lemma TLB_update_hit t a h : 0 <= a < 2 ^ 32 → tlb_hit t (Z.shiftr a 12) = None →
  ∀ b, 0 <= b < 2 ^ 32 → b / 4096 = a / 4096 →
  TLB_translate (fst (TLB_update a h t)) b = h.
Proof.
  intros Ha Hm b Hb Hpage. unfold TLB_update, TLB_translate. rewrite shiftr_12 in *. rewrite Hpage.
  destruct (match find_idx 64 0 _ with Some _ => _ | None => _ end) as [x st] eqn:E. cbn [fst].
  assert (0 <= x < 64) as Hx.
  { destruct (find_idx 64 0 _) as [i|] eqn:E2 in E.
    - apply find_idx_Some in E2. injection E as <- _. lia.
    - destruct (libc_rand _) as [r st']. injection E as <- _. apply Z.mod_pos_bound. lia. }
  replace (tlb_hit (aset x _ t) (a / 4096)) with (Some x); [now rewrite aget_aset_eq|]. symmetry.
  unfold tlb_hit in *. rewrite find_idx_None in Hm. apply find_idx_unique; [exact Hx| |].
  - rewrite aget_aset_eq. cbn. rewrite tlb_tag_eq by done. apply Z.eqb_refl.
  - intros j Hj. rewrite aget_aset. destruct (Z.eqb_spec x j); [done|].
    rewrite (Hm j Hj). done.
Qed.
End UpdateFacts.
