(* ===== verification/Cpu.v ===== *)
(** The CPU state of [nemu/include/cpu/reg.h] and [nemu/src/cpu/reg.c]: the register
    file and its overlapping views, EFLAGS and its conditions
    ([nemu/include/cpu/eflags.h], [nemu/src/cpu/eflags.c]), descriptor-table and
    segment registers, CR0 and CR3. *)
From S2P Require Import Prelude.
From stdpp Require Import strings.
#[local] Open Scope Z_scope.

(** * Register numbers *)
Definition R_EAX : Z := 0.
Definition R_ECX : Z := 1.
Definition R_EDX : Z := 2.
Definition R_EBX : Z := 3.
Definition R_ESP : Z := 4.
Definition R_EBP : Z := 5.
Definition R_ESI : Z := 6.
Definition R_EDI : Z := 7.
Definition R_AX : Z := 0.
Definition R_CX : Z := 1.
Definition R_DX : Z := 2.
Definition R_BX : Z := 3.
Definition R_SP : Z := 4.
Definition R_BP : Z := 5.
Definition R_SI : Z := 6.
Definition R_DI : Z := 7.
Definition R_AL : Z := 0.
Definition R_CL : Z := 1.
Definition R_DL : Z := 2.
Definition R_BL : Z := 3.
Definition R_AH : Z := 4.
Definition R_CH : Z := 5.
Definition R_DH : Z := 6.
Definition R_BH : Z := 7.
Definition SR_es : Z := 0.
Definition SR_cs : Z := 1.
Definition SR_ss : Z := 2.
Definition SR_ds : Z := 3.
Definition SR_fs : Z := 4.
Definition SR_gs : Z := 5.

(** * Descriptors, as the 64-bit words they are *)
Definition SegDesc_limit_15_0 (d : Z) : Z := bitfield d 0 16.
Definition SegDesc_base_15_0 (d : Z) : Z := bitfield d 16 16.
Definition SegDesc_base_23_16 (d : Z) : Z := bitfield d 32 8.
Definition SegDesc_present (d : Z) : Z := bitfield d 47 1.
Definition SegDesc_base_31_24 (d : Z) : Z := bitfield d 56 8.
Definition GateDesc_offset_15_0 (d : Z) : Z := bitfield d 0 16.
Definition GateDesc_segment (d : Z) : Z := bitfield d 16 16.
Definition GateDesc_present (d : Z) : Z := bitfield d 47 1.
Definition GateDesc_offset_31_16 (d : Z) : Z := bitfield d 48 16.

Definition PDE_present (v : Z) : Z := bitfield v 0 1.
Definition PDE_page_frame (v : Z) : Z := bitfield v 12 20.
Definition PTE_present (v : Z) : Z := bitfield v 0 1.
Definition PTE_page_frame (v : Z) : Z := bitfield v 12 20.

(** * The state *)
Record SegReg := mkSegReg { selector : Z; seg_cache : Z }.

Definition RPL (s : SegReg) : Z := bitfield (selector s) 0 2.
Definition TI (s : SegReg) : Z := bitfield (selector s) 2 1.
Definition INDEX (s : SegReg) : Z := bitfield (selector s) 3 13.

(** [gpr\[i\]] is its 32-bit word; [CF] ... [OF] are bit fields of [eflags]. *)
Record CPU_state := mkCPU {
  gpr : arr Z;
  eflags : Z;
  eip : Z;
  gdtr_limit : Z; gdtr_base : Z;
  idtr_limit : Z; idtr_base : Z;
  sreg : arr SegReg;
  cr0 : Z;
  cr3 : Z
}.

Definition set_gpr g c := mkCPU g (eflags c) (eip c) (gdtr_limit c) (gdtr_base c)
  (idtr_limit c) (idtr_base c) (sreg c) (cr0 c) (cr3 c).
Definition set_eflags f c := mkCPU (gpr c) f (eip c) (gdtr_limit c) (gdtr_base c)
  (idtr_limit c) (idtr_base c) (sreg c) (cr0 c) (cr3 c).
Definition set_eip e c := mkCPU (gpr c) (eflags c) e (gdtr_limit c) (gdtr_base c)
  (idtr_limit c) (idtr_base c) (sreg c) (cr0 c) (cr3 c).
Definition set_gdtr l b c := mkCPU (gpr c) (eflags c) (eip c) l b
  (idtr_limit c) (idtr_base c) (sreg c) (cr0 c) (cr3 c).
Definition set_idtr l b c := mkCPU (gpr c) (eflags c) (eip c) (gdtr_limit c) (gdtr_base c)
  l b (sreg c) (cr0 c) (cr3 c).
Definition set_sreg i r c := mkCPU (gpr c) (eflags c) (eip c) (gdtr_limit c) (gdtr_base c)
  (idtr_limit c) (idtr_base c) (aset i r (sreg c)) (cr0 c) (cr3 c).
Definition set_cr0 v c := mkCPU (gpr c) (eflags c) (eip c) (gdtr_limit c) (gdtr_base c)
  (idtr_limit c) (idtr_base c) (sreg c) v (cr3 c).
Definition set_cr3 v c := mkCPU (gpr c) (eflags c) (eip c) (gdtr_limit c) (gdtr_base c)
  (idtr_limit c) (idtr_base c) (sreg c) (cr0 c) v.

Definition cpu0 : CPU_state := mkCPU (anew 0) 0 0 0 0 0 0 (anew (mkSegReg 0 0)) 0 0.

Definition protect_enable (c : CPU_state) : Z := bitfield (cr0 c) 0 1.
Definition paging (c : CPU_state) : Z := bitfield (cr0 c) 31 1.
Definition page_directory_base (c : CPU_state) : Z := bitfield (cr3 c) 12 20.

(** * Registers: [reg_l], [reg_w], [reg_b] read and assigned *)
Definition gpr_l (i : Z) (c : CPU_state) : Z := aget (gpr c) i.
Definition gpr_w (i : Z) (c : CPU_state) : Z := bitfield (gpr_l i c) 0 16.
Definition gpr_b (i : Z) (c : CPU_state) : Z :=
  bitfield (gpr_l (Z.land i 3) c) (8 * Z.shiftr i 2) 8.
Definition set_gpr_l (i v : Z) (c : CPU_state) : CPU_state := set_gpr (aset i (u32 v) (gpr c)) c.
Definition set_gpr_w (i v : Z) (c : CPU_state) : CPU_state :=
  set_gpr (aset i (set_bitfield (gpr_l i c) 0 16 v) (gpr c)) c.
Definition set_gpr_b (i v : Z) (c : CPU_state) : CPU_state :=
  let j := Z.land i 3 in
  set_gpr (aset j (set_bitfield (gpr_l j c) (8 * Z.shiftr i 2) 8 v) (gpr c)) c.

Definition check_reg_index {S} (index : Z) : M S Z :=
  _ ← cassert ((0 <=? index) && (index <? 8)); mret index.

(** * EFLAGS *)
Definition flag (n : Z) (c : CPU_state) : Z := bitfield (eflags c) n 1.
Definition set_flag (n v : Z) (c : CPU_state) : CPU_state :=
  set_eflags (set_bitfield (eflags c) n 1 v) c.

Abbreviation CF := (flag 0).
Abbreviation PF := (flag 2).
Abbreviation AF := (flag 4).
Abbreviation ZF := (flag 6).
Abbreviation SF := (flag 7).
Abbreviation TF := (flag 8).
Abbreviation IF_ := (flag 9).
Abbreviation DF := (flag 10).
Abbreviation OF := (flag 11).
Abbreviation set_CF := (set_flag 0).
Abbreviation set_PF := (set_flag 2).
Abbreviation set_AF := (set_flag 4).
Abbreviation set_ZF := (set_flag 6).
Abbreviation set_SF := (set_flag 7).
Abbreviation set_IF := (set_flag 9).
Abbreviation set_DF := (set_flag 10).
Abbreviation set_OF := (set_flag 11).

(** A C condition used as a number. *)
Definition b2z (b : bool) : Z := if b then 1 else 0.
Definition nz (x : Z) : bool := negb (x =? 0).

Definition check_cc_b (c : CPU_state) : bool := nz (CF c).
Definition check_cc_e (c : CPU_state) : bool := nz (ZF c).
Definition check_cc_ne (c : CPU_state) : bool := negb (nz (ZF c)).
Definition check_cc_be (c : CPU_state) : bool := nz (Z.lor (CF c) (ZF c)).
Definition check_cc_a (c : CPU_state) : bool := negb (nz (Z.lor (CF c) (ZF c))).
Definition check_cc_s (c : CPU_state) : bool := nz (SF c).
Definition check_cc_ns (c : CPU_state) : bool := negb (nz (SF c)).
Definition check_cc_l (c : CPU_state) : bool := nz (Z.lxor (SF c) (OF c)).
Definition check_cc_ge (c : CPU_state) : bool := negb (nz (Z.lxor (SF c) (OF c))).
Definition check_cc_le (c : CPU_state) : bool := nz (Z.lor (Z.lxor (SF c) (OF c)) (ZF c)).
Definition check_cc_g (c : CPU_state) : bool := negb (nz (Z.lor (Z.lxor (SF c) (OF c)) (ZF c))).

Definition parity_table : list Z := [0; 1; 0; 1; 1; 0; 1; 0; 0; 1; 0; 1; 1; 0; 1; 0].
Definition parity_at (i : Z) : Z := nth (Z.to_nat i) parity_table 0.

Definition update_eflags_pf_zf_sf (result : Z) (c : CPU_state) : CPU_state :=
  let temp := Z.land result 255 in
  let c := set_PF (Z.lxor (parity_at (Z.land temp 15)) (parity_at (Z.shiftr temp 4))) c in
  let c := set_ZF (b2z (result =? 0)) c in
  set_SF (Z.shiftr result 31) c.

(** * Register names: [get_reg_val] *)
Definition regsl : list string := ["eax"; "ecx"; "edx"; "ebx"; "esp"; "ebp"; "esi"; "edi"]%string.
Definition regsw : list string := ["ax"; "cx"; "dx"; "bx"; "sp"; "bp"; "si"; "di"]%string.
Definition regsb : list string := ["al"; "cl"; "dl"; "bl"; "ah"; "ch"; "dh"; "bh"]%string.

Fixpoint name_idx (l : list string) (s : string) (i : Z) : option Z :=
  match l with
  | [] => None
  | x :: l => if decide (x = s) then Some i else name_idx l s (i + 1)
  end.

(** [None] is [*success = false]. *)
Definition get_reg_val (s : string) (c : CPU_state) : option Z :=
  match name_idx regsl s 0 with
  | Some i => Some (gpr_l i c)
  | None =>
    match name_idx regsw s 0 with
    | Some i => Some (gpr_w i c)
    | None =>
      match name_idx regsb s 0 with
      | Some i => Some (gpr_b i c)
      | None => if decide ("eip"%string = s) then Some (eip c) else None
      end
    end
  end.

(** * [reg_test], the self-test run at start-up *)
Section RegTest.
Context `{HRand : !LibcRand}.

(** The run carries the CPU, the samples and the generator. *)
Record RegTest := mkRegTest { rt_cpu : CPU_state; rt_sample : arr Z; rt_rand : rand_state }.

Definition rt_rnd : M RegTest Z := λ s,
  let '(r, st) := libc_rand (rt_rand s) in Ok r (mkRegTest (rt_cpu s) (rt_sample s) st).

Definition rt_set_cpu (f : CPU_state → CPU_state) : M RegTest unit :=
  modify (λ s, mkRegTest (f (rt_cpu s)) (rt_sample s) (rt_rand s)).

(** [assert(reg(cpu) == f(sample))] *)
Definition rt_assert (reg : CPU_state → Z) (f : arr Z → Z) : M RegTest unit :=
  s ← getS; cassert (reg (rt_cpu s) =? f (rt_sample s)).

Definition reg_test : M RegTest unit :=
  eip_sample ← rt_rnd;
  _ ← rt_set_cpu (set_eip eip_sample);
  _ ← for_ 8 R_EAX (λ i,
    v ← rt_rnd;
    _ ← modify (λ s, mkRegTest (rt_cpu s) (aset i v (rt_sample s)) (rt_rand s));
    _ ← rt_set_cpu (set_gpr_l i v);
    rt_assert (gpr_w i) (λ a, Z.land (aget a i) 65535));
  _ ← rt_assert (gpr_b R_AL) (λ a, Z.land (aget a R_EAX) 255);
  _ ← rt_assert (gpr_b R_AH) (λ a, Z.land (Z.shiftr (aget a R_EAX) 8) 255);
  _ ← rt_assert (gpr_b R_BL) (λ a, Z.land (aget a R_EBX) 255);
  _ ← rt_assert (gpr_b R_BH) (λ a, Z.land (Z.shiftr (aget a R_EBX) 8) 255);
  _ ← rt_assert (gpr_b R_CL) (λ a, Z.land (aget a R_ECX) 255);
  _ ← rt_assert (gpr_b R_CH) (λ a, Z.land (Z.shiftr (aget a R_ECX) 8) 255);
  _ ← rt_assert (gpr_b R_DL) (λ a, Z.land (aget a R_EDX) 255);
  _ ← rt_assert (gpr_b R_DH) (λ a, Z.land (Z.shiftr (aget a R_EDX) 8) 255);
  _ ← for_ 8 R_EAX (λ i, rt_assert (gpr_l i) (λ a, aget a i));
  rt_assert eip (λ _, eip_sample).
End RegTest.

(** * Register views *)
Lemma gpr_l_set_l i j v c : gpr_l j (set_gpr_l i v c) = if i =? j then u32 v else gpr_l j c.
Proof. unfold gpr_l, set_gpr_l. cbn. apply aget_aset. Qed.

Lemma gpr_l_set_l_eq i v c : gpr_l i (set_gpr_l i v c) = u32 v.
Proof. now rewrite gpr_l_set_l, Z.eqb_refl. Qed.

Lemma gpr_l_set_l_ne i j v c : i ≠ j → gpr_l j (set_gpr_l i v c) = gpr_l j c.
Proof. intros H. rewrite gpr_l_set_l. now apply Z.eqb_neq in H as ->. Qed.

Lemma gpr_l_set_w i j v c :
  gpr_l j (set_gpr_w i v c) = if i =? j then set_bitfield (gpr_l i c) 0 16 v else gpr_l j c.
Proof. unfold gpr_l, set_gpr_w. cbn. apply aget_aset. Qed.

(** Assigning a 16-bit register keeps the upper half of the 32-bit one. *)
Lemma gpr_set_w_same i v c : gpr_w i (set_gpr_w i v c) = u16 v ∧
  bitfield (gpr_l i (set_gpr_w i v c)) 16 16 = bitfield (gpr_l i c) 16 16.
Proof.
  unfold gpr_w. rewrite gpr_l_set_w, Z.eqb_refl. split.
  - now rewrite bitfield_set_same by lia.
  - now rewrite bitfield_set_other by lia.
Qed.

Lemma gpr_b_set_b i v c : 0 <= i < 8 → gpr_b i (set_gpr_b i v c) = u8 v.
Proof.
  intros Hi. unfold gpr_b, set_gpr_b, gpr_l. cbn. rewrite aget_aset_eq, bitfield_set_same; [done|..|lia].
  apply Z.mul_nonneg_nonneg; [lia|]. apply Z.shiftr_nonneg. lia.
Qed.

Lemma flag_set_flag n m v c : 0 <= n → 0 <= m →
  flag n (set_flag m v c) = if m =? n then v mod 2 else flag n c.
Proof.
  intros. unfold flag, set_flag; cbn. destruct (Z.eqb_spec m n) as [->|].
  - now rewrite bitfield_set_same by lia.
  - apply bitfield_set_other; lia.
Qed.

Lemma flag_set_flag_eq n v c : 0 <= n → flag n (set_flag n v c) = v mod 2.
Proof. intros. now rewrite flag_set_flag, Z.eqb_refl by lia. Qed.

Lemma flag_set_flag_ne n m v c : 0 <= n → 0 <= m → m ≠ n → flag n (set_flag m v c) = flag n c.
Proof. intros ?? H. rewrite flag_set_flag by done. now apply Z.eqb_neq in H as ->. Qed.

Lemma flag_range n c : 0 <= n → 0 <= flag n c < 2.
Proof. intros. now apply (bitfield_range _ n 1). Qed.

Lemma b2z_mod2 b : b2z b mod 2 = b2z b.
Proof. now destruct b. Qed.

Lemma nz_b2z b : nz (b2z b) = b.
Proof. now destruct b. Qed.

Lemma flag_cases n c : 0 <= n → flag n c = 0 ∨ flag n c = 1.
Proof. intros H. pose proof (flag_range n c H). lia. Qed.

Create Rewrite HintDb cpu.
#[export] Hint Rewrite flag_set_flag_eq gpr_l_set_l_eq using lia : cpu.
#[export] Hint Rewrite flag_set_flag_ne gpr_l_set_l_ne using lia : cpu.
#[export] Hint Rewrite b2z_mod2 nz_b2z : cpu.

(** [cpu_flags_eq c c' l]: the flags of [c'] outside the bit positions [l] are those of [c]. *)
Definition flags_but (l : list Z) (c c' : CPU_state) : Prop :=
  ∀ n, 0 <= n → n ∉ l → flag n c' = flag n c.

Lemma bitfield_u32 v lo n : 0 <= lo → 0 <= n → lo + n <= 32 → bitfield (u32 v) lo n = bitfield v lo n.
Proof.
  intros. apply Z.bits_inj'. intros i Hi. rewrite !testbit_bitfield by lia.
  destruct (Z.ltb_spec i n); [|done]. cbn [andb]. unfold wrap. now rewrite Z.mod_pow2_bits_low by lia.
Qed.

Section RegTestFacts.
Context `{HRand : !LibcRand}.

Lemma rt_assert_ok reg f s : reg (rt_cpu s) = f (rt_sample s) → rt_assert reg f s = Ok tt s.
Proof. intros H. unfold rt_assert. mstep. rewrite H, Z.eqb_refl. done. Qed.

Lemma rt_rnd_ok s : ∃ v st, rt_rnd s = Ok v (mkRegTest (rt_cpu s) (rt_sample s) st) ∧ 0 <= v < 2 ^ 31.
Proof.
  unfold rt_rnd. pose proof (libc_rand_range (rt_rand s)) as Hr.
  destruct (libc_rand (rt_rand s)) as [v st]. now exists v, st.
Qed.

(** After the loop the registers hold the samples. *)
Lemma reg_test_fill e s : eip (rt_cpu s) = e →
  ∃ s', for_ 8 R_EAX (λ i,
    v ← rt_rnd;
    _ ← modify (λ s, mkRegTest (rt_cpu s) (aset i v (rt_sample s)) (rt_rand s));
    _ ← rt_set_cpu (set_gpr_l i v);
    rt_assert (gpr_w i) (λ a, Z.land (aget a i) 65535)) s = Ok tt s' ∧
  eip (rt_cpu s') = e ∧ ∀ i, 0 <= i < 8 → gpr_l i (rt_cpu s') = aget (rt_sample s') i.
Proof.
  intros He. apply (for_ok (λ i s, eip (rt_cpu s) = e ∧
    ∀ j, 0 <= j < i → gpr_l j (rt_cpu s) = aget (rt_sample s) j)).
  { split; [done|]. unfold R_EAX. lia. }
  intros i s1 _ [He1 H1]. destruct (rt_rnd_ok s1) as (v & st & Hr & Hv).
  rewrite (bind_Ok _ _ _ _ _ Hr). unfold rt_set_cpu.
  rewrite (bind_Ok (modify _) _ _ tt _ eq_refl), (bind_Ok (modify _) _ _ tt _ eq_refl).
  eexists. split; [apply rt_assert_ok|]; cbn.
  - unfold gpr_w. rewrite gpr_l_set_l_eq, aget_aset_eq. unfold bitfield.
    rewrite Z.shiftr_0_r. rewrite wrap_small by lia. done.
  - split; [done|]. intros j Hj. rewrite gpr_l_set_l, aget_aset.
    destruct (Z.eqb_spec i j); [now rewrite wrap_small by lia|]. apply H1. lia.
Qed.

Lemma reg_test_ok s : ∃ s', reg_test s = Ok tt s'.
Proof.
  unfold reg_test. destruct (rt_rnd_ok s) as (e & st & Hr & _). rewrite (bind_Ok _ _ _ _ _ Hr).
  cbv beta. rewrite (bind_Ok (rt_set_cpu _) _ _ tt _ eq_refl).
  cbn [rt_cpu rt_sample rt_rand].
  set (s0 := mkRegTest (set_eip e _) _ _).
  destruct (reg_test_fill e s0 eq_refl) as (s' & Hrun & He & Hg). rewrite (bind_Ok _ _ _ _ _ Hrun).
  assert (∀ i k, 0 <= k < 4 → (i = k ∨ i = k + 4) → gpr_b i (rt_cpu s') =
    Z.land (Z.shiftr (aget (rt_sample s') k) (if i =? k then 0 else 8)) 255) as Hb.
  { intros i k Hk Hi. unfold gpr_b, bitfield. change (2 ^ 8 - 1) with 255. f_equal.
    assert (k = 0 ∨ k = 1 ∨ k = 2 ∨ k = 3) as [-> | [-> | [-> | ->]]] by lia;
      destruct Hi as [-> | ->]; rewrite Hg by (vm_compute; split; [discriminate|reflexivity]); reflexivity. }
  do 8 (rewrite (bind_Ok (rt_assert _ _) _ s' tt s') by (apply rt_assert_ok;
    first [ exact (Hb _ 0 ltac:(lia) (or_introl eq_refl)) | exact (Hb _ 0 ltac:(lia) (or_intror eq_refl))
          | exact (Hb _ 1 ltac:(lia) (or_introl eq_refl)) | exact (Hb _ 1 ltac:(lia) (or_intror eq_refl))
          | exact (Hb _ 2 ltac:(lia) (or_introl eq_refl)) | exact (Hb _ 2 ltac:(lia) (or_intror eq_refl))
          | exact (Hb _ 3 ltac:(lia) (or_introl eq_refl)) | exact (Hb _ 3 ltac:(lia) (or_intror eq_refl)) ])).
  exists s'.
  destruct (for_ok (λ _ s, s = s') 8 R_EAX (λ i, rt_assert (gpr_l i) (λ a, aget a i)) s')
    as (s2 & Hl & ->); [done| |].
  { intros i s1 Hi ->. exists s'. split; [|done]. apply rt_assert_ok. apply Hg. unfold R_EAX in Hi. lia. }
  rewrite (bind_Ok _ _ _ _ _ Hl). now apply rt_assert_ok.
Qed.
End RegTestFacts.

(** Registers hold 32-bit values. *)
Record cpu_ok (c : CPU_state) : Prop := {
  ok_gpr : ∀ i, 0 <= gpr_l i c < 2 ^ 32;
  ok_eflags : 0 <= eflags c < 2 ^ 32;
  ok_eip : 0 <= eip c < 2 ^ 32;
  ok_sel : ∀ i, 0 <= selector (aget (sreg c) i) < 2 ^ 16
}.
