(* ===== verification/I8259.v ===== *)
(** The interrupt controllers of [nemu/src/device/i8259.c]: a master and a slave
    cascaded on line 2, the vector they offer and the CPU's INTR pin they drive. *)
From S2P Require Import Prelude.

Definition IRQ_BASE : Z := 32.
Definition NO_INTR : Z := -1.

Record i8259 := mkI8259 { IRR : Z; ISR : Z; IMR : Z; highest_irq : Z }.

(** [master], [slave], [intr_NO]; [INTR] is the member of [CPU_state] the controllers
    drive, kept with them. *)
Record Pic := mkPic { master : i8259; slave : i8259; intr_NO : Z; INTR : bool }.

Definition pic0 : Pic := mkPic (mkI8259 0 0 0 0) (mkI8259 0 0 0 0) 0 false.

(** "find first '1'" *)
Definition ffo_table : list Z := [
  -1; 0; 1; 0; 2; 0; 1; 0; 3; 0; 1; 0; 2; 0; 1; 0;
  4; 0; 1; 0; 2; 0; 1; 0; 3; 0; 1; 0; 2; 0; 1; 0;
  5; 0; 1; 0; 2; 0; 1; 0; 3; 0; 1; 0; 2; 0; 1; 0;
  4; 0; 1; 0; 2; 0; 1; 0; 3; 0; 1; 0; 2; 0; 1; 0;
  6; 0; 1; 0; 2; 0; 1; 0; 3; 0; 1; 0; 2; 0; 1; 0;
  4; 0; 1; 0; 2; 0; 1; 0; 3; 0; 1; 0; 2; 0; 1; 0;
  5; 0; 1; 0; 2; 0; 1; 0; 3; 0; 1; 0; 2; 0; 1; 0;
  4; 0; 1; 0; 2; 0; 1; 0; 3; 0; 1; 0; 2; 0; 1; 0;
  7; 0; 1; 0; 2; 0; 1; 0; 3; 0; 1; 0; 2; 0; 1; 0;
  4; 0; 1; 0; 2; 0; 1; 0; 3; 0; 1; 0; 2; 0; 1; 0;
  5; 0; 1; 0; 2; 0; 1; 0; 3; 0; 1; 0; 2; 0; 1; 0;
  4; 0; 1; 0; 2; 0; 1; 0; 3; 0; 1; 0; 2; 0; 1; 0;
  6; 0; 1; 0; 2; 0; 1; 0; 3; 0; 1; 0; 2; 0; 1; 0;
  4; 0; 1; 0; 2; 0; 1; 0; 3; 0; 1; 0; 2; 0; 1; 0;
  5; 0; 1; 0; 2; 0; 1; 0; 3; 0; 1; 0; 2; 0; 1; 0;
  4; 0; 1; 0; 2; 0; 1; 0; 3; 0; 1; 0; 2; 0; 1; 0 ].

Definition ffo (i : Z) : Z := nth (Z.to_nat i) ffo_table 0.
#[global] Arguments ffo : simpl never.

Definition set_IRR (v : Z) (c : i8259) := mkI8259 (u8 v) (ISR c) (IMR c) (highest_irq c).
(** [c.highest_irq = ffo_table\[c.IRR & ~c.IMR\]] *)
Definition set_highest (c : i8259) :=
  mkI8259 (IRR c) (ISR c) (IMR c) (ffo (Z.land (IRR c) (Z.lnot (IMR c)))).
Definition set_master (m : i8259) (p : Pic) := mkPic m (slave p) (intr_NO p) (INTR p).
Definition set_slave (s : i8259) (p : Pic) := mkPic (master p) s (intr_NO p) (INTR p).
Definition set_intr (n : Z) (b : bool) (p : Pic) := mkPic (master p) (slave p) n b.

(** [1 << n]; a negative count is undefined. *)
Definition MASK (n : Z) : M Pic Z := if n <? 0 then fail EUndefined else mret (Z.shiftl 1 n).

Definition do_i8259 : M Pic unit :=
  p ← getS;
  let master_irq := highest_irq (master p) in
  if master_irq =? NO_INTR then modify (set_intr (intr_NO p) false)
  else
    master_irq ← (if master_irq =? 2
                  then _ ← cassert (negb (highest_irq (slave p) =? NO_INTR));
                       mret (s8 (8 + highest_irq (slave p)))
                  else mret master_irq);
    modify (set_intr (u8 (master_irq + IRQ_BASE)) true).

Definition i8259_raise_intr (n : Z) : M Pic unit :=
  _ ← cassert ((0 <=? n) && (n <? 16));
  _ ← (if n <? 8 then
         m ← MASK n;
         modify (λ p, set_master (set_IRR (Z.lor (IRR (master p)) m) (master p)) p)
       else
         m ← MASK (n - 8);
         _ ← modify (λ p, set_slave (set_IRR (Z.lor (IRR (slave p)) m) (slave p)) p);
         m2 ← MASK 2;
         _ ← modify (λ p, set_master (set_IRR (Z.lor (IRR (master p)) m2) (master p)) p);
         modify (λ p, set_slave (set_highest (slave p)) p));
  _ ← modify (λ p, set_master (set_highest (master p)) p);
  do_i8259.

Definition i8259_query_intr : M Pic Z := gets intr_NO.

(** [intr_NO] is unsigned, so the test against [NO_INTR] never holds. *)
Definition i8259_ack_intr : M Pic unit :=
  p ← getS;
  if intr_NO p =? NO_INTR then mret tt
  else
    let n := intr_NO p - IRQ_BASE in
    _ ← (if n <? 8 then
           m ← MASK n;
           modify (λ p, set_master (set_IRR (Z.land (IRR (master p)) (Z.lnot m)) (master p)) p)
         else
           m ← MASK (n - 8);
           _ ← modify (λ p, set_slave (set_IRR (Z.land (IRR (slave p)) (Z.lnot m)) (slave p)) p);
           m2 ← MASK 2;
           _ ← modify (λ p, set_master (set_IRR (Z.land (IRR (master p)) (Z.lnot m2)) (master p)) p);
           modify (λ p, set_slave (set_highest (slave p)) p));
    _ ← modify (λ p, set_master (set_highest (master p)) p);
    do_i8259.

(** * The controllers as a transition system

    Devices raise a line other than the cascade; the CPU acknowledges when INTR is
    up. *)
Inductive pic_step : Pic → Pic → Prop :=
| step_raise n p p' : 0 <= n < 16 → n ≠ 2 → i8259_raise_intr n p = Ok tt p' → pic_step p p'
| step_ack p p' : INTR p = true → i8259_ack_intr p = Ok tt p' → pic_step p p'.

(** The invariant: what is pending, what is offered.  (The master's [highest_irq] is
    always recomputed before it is used, the slave's is not.) *)
Record pic_ok (p : Pic) : Prop := {
  pic_mirr : 0 <= IRR (master p) < 256;
  pic_sirr : 0 <= IRR (slave p) < 256;
  pic_unmasked : IMR (master p) = 0 ∧ IMR (slave p) = 0;
  pic_shigh : IRR (slave p) ≠ 0 → highest_irq (slave p) = ffo (IRR (slave p));
  pic_cascade : Z.testbit (IRR (master p)) 2 = true → IRR (slave p) ≠ 0;
  pic_intr : INTR p = negb (IRR (master p) =? 0);
  pic_vector : INTR p = true → intr_NO p =
    if ffo (IRR (master p)) =? 2 then 40 + ffo (IRR (slave p)) else 32 + ffo (IRR (master p))
}.

(** * The table *)

(** [ffo x] is the position of the lowest set bit. *)
Definition ffo_spec_b (x : Z) : bool :=
  (0 <=? ffo x) && (ffo x <? 8) && Z.testbit x (ffo x) &&
  forallb (λ j, (ffo x <=? Z.of_nat j) || negb (Z.testbit x (Z.of_nat j))) (seq 0 8).

Lemma ffo_spec_all : forallb (λ x, ffo_spec_b (Z.of_nat x)) (seq 1 255) = true.
Proof. vm_compute. reflexivity. Qed.

Lemma ffo_spec x : 0 < x < 256 →
  0 <= ffo x < 8 ∧ Z.testbit x (ffo x) = true ∧ ∀ j, 0 <= j < ffo x → Z.testbit x j = false.
Proof.
  intros Hx. pose proof ffo_spec_all as H. rewrite forallb_forall in H.
  specialize (H (Z.to_nat x)). rewrite in_seq, Z2Nat.id in H by lia.
  specialize (H ltac:(lia)). unfold ffo_spec_b in H.
  apply andb_prop in H as [[[H1 H2]%andb_prop H3]%andb_prop H4]. split_and!; [lia|lia|done|].
  intros j Hj. rewrite forallb_forall in H4. specialize (H4 (Z.to_nat j)).
  rewrite in_seq, Z2Nat.id in H4 by lia. specialize (H4 ltac:(lia)).
  destruct (Z.testbit x j); [lia|done].
Qed.

Lemma ffo_0 : ffo 0 = -1.
Proof. reflexivity. Qed.

Lemma ffo_unique x i : 0 < x < 256 → 0 <= i → Z.testbit x i = true →
  (∀ j, 0 <= j < i → Z.testbit x j = false) → ffo x = i.
Proof.
  intros Hx Hi Hb Hl. destruct (ffo_spec x Hx) as (Hr & Hb' & Hl').
  destruct (Z.lt_trichotomy (ffo x) i) as [H|[H|H]]; [|done|].
  - now rewrite Hl in Hb' by lia.
  - now rewrite Hl' in Hb by lia.
Qed.

(** * Runs of the controllers *)

(** The common end of [i8259_raise_intr] and [i8259_ack_intr]. *)
Lemma pic_tail_ok p :
  0 <= IRR (master p) < 256 → 0 <= IRR (slave p) < 256 →
  IMR (master p) = 0 ∧ IMR (slave p) = 0 →
  (IRR (slave p) ≠ 0 → highest_irq (slave p) = ffo (IRR (slave p))) →
  (Z.testbit (IRR (master p)) 2 = true → IRR (slave p) ≠ 0) →
  ∃ p', (_ ← modify (λ p, set_master (set_highest (master p)) p); do_i8259) p = Ok tt p' ∧
    pic_ok p' ∧ IRR (master p') = IRR (master p) ∧ IRR (slave p') = IRR (slave p).
Proof.
  intros Hm Hs [Hi1 Hi2] Hsh Hc.
  rewrite (bind_Ok (modify _) _ _ tt _ eq_refl).
  unfold do_i8259. rewrite (bind_Ok getS _ _ _ _ eq_refl). cbn [master set_master set_highest highest_irq].
  rewrite Hi1. change (Z.lnot 0) with (-1). rewrite Z.land_m1_r.
  destruct (Z.eqb_spec (IRR (master p)) 0) as [H0|H0].
  - rewrite H0, ffo_0. eexists. split; [reflexivity|]. split; [|cbn; now rewrite H0].
    split; cbn; rewrite ?H0; done.
  - destruct (ffo_spec (IRR (master p))) as (Hr & Hb & _); [lia|].
    replace (ffo (IRR (master p)) =? NO_INTR) with false by (unfold NO_INTR; lia).
    destruct (Z.eqb_spec (ffo (IRR (master p))) 2) as [E2|E2].
    + rewrite E2 in Hb. specialize (Hc Hb).
      destruct (ffo_spec (IRR (slave p))) as (Hsr & _); [lia|]. mstep. cbn [slave set_master].
      rewrite (Hsh Hc). replace (ffo (IRR (slave p)) =? NO_INTR) with false by (unfold NO_INTR; lia).
      cbn [negb]. eexists. split; [reflexivity|]. split; [|done].
      split; cbn; try done; [now rewrite (proj2 (Z.eqb_neq _ _) H0)|].
      intros _. rewrite E2, Z.eqb_refl. unfold sgn. rewrite Z.mod_small by lia.
      replace (8 + _ <? _) with true by lia. unfold IRQ_BASE. rewrite wrap_small; lia.
    + mstep. eexists. split; [reflexivity|]. split; [|done].
      split; cbn; try done; [now rewrite (proj2 (Z.eqb_neq _ _) H0)|].
      intros _. apply Z.eqb_neq in E2 as ->. unfold IRQ_BASE. rewrite wrap_small; lia.
Qed.

Lemma shiftl_1_range n : 0 <= n < 8 → 0 <= Z.shiftl 1 n < 256.
Proof.
  intros. rewrite Z.shiftl_1_l. split; [lia|]. change 256 with (2 ^ 8). apply Z.pow_lt_mono_r; lia.
Qed.

Lemma lor_bit_ne0 a n : 0 <= n → Z.lor a (Z.shiftl 1 n) ≠ 0.
Proof.
  intros Hn H. assert (Z.testbit (Z.lor a (Z.shiftl 1 n)) n = true) as Hb.
  { rewrite Z.lor_spec, testbit_pow2, Z.eqb_refl by lia. apply orb_true_r. }
  now rewrite H, Z.bits_0 in Hb.
Qed.

(** The states the two operations hand to their common end. *)
Definition irq_end : M Pic unit :=
  _ ← modify (λ p, set_master (set_highest (master p)) p); do_i8259.

Lemma raise_lo p n : 0 <= n < 8 → i8259_raise_intr n p =
  irq_end (set_master (set_IRR (Z.lor (IRR (master p)) (Z.shiftl 1 n)) (master p)) p).
Proof.
  intros H. unfold i8259_raise_intr, MASK, irq_end. replace (_ && _) with true by lia.
  replace (n <? 8) with true by lia. replace (n <? 0) with false by lia. reflexivity.
Qed.

Lemma raise_hi p n : 8 <= n < 16 → i8259_raise_intr n p =
  irq_end (mkPic (set_IRR (Z.lor (IRR (master p)) (Z.shiftl 1 2)) (master p))
    (set_highest (set_IRR (Z.lor (IRR (slave p)) (Z.shiftl 1 (n - 8))) (slave p)))
    (intr_NO p) (INTR p)).
Proof.
  intros H. unfold i8259_raise_intr, MASK, irq_end. replace (_ && _) with true by lia.
  replace (n <? 8) with false by lia. replace (n - 8 <? 0) with false by lia. reflexivity.
Qed.

Lemma ack_lo p : 32 <= intr_NO p < 40 → i8259_ack_intr p =
  irq_end (set_master (set_IRR (Z.land (IRR (master p)) (Z.lnot (Z.shiftl 1 (intr_NO p - 32)))) (master p)) p).
Proof.
  intros H. unfold i8259_ack_intr, MASK, irq_end, NO_INTR, IRQ_BASE.
  rewrite (bind_Ok getS _ _ _ _ eq_refl). replace (intr_NO p =? -1) with false by lia.
  replace (intr_NO p - 32 <? 8) with true by lia. replace (intr_NO p - 32 <? 0) with false by lia.
  reflexivity.
Qed.

Lemma ack_hi p : 40 <= intr_NO p < 48 → i8259_ack_intr p =
  irq_end (mkPic (set_IRR (Z.land (IRR (master p)) (Z.lnot (Z.shiftl 1 2))) (master p))
    (set_highest (set_IRR (Z.land (IRR (slave p)) (Z.lnot (Z.shiftl 1 (intr_NO p - 32 - 8)))) (slave p)))
    (intr_NO p) (INTR p)).
Proof.
  intros H. unfold i8259_ack_intr, MASK, irq_end, NO_INTR, IRQ_BASE.
  rewrite (bind_Ok getS _ _ _ _ eq_refl). replace (intr_NO p =? -1) with false by lia.
  replace (intr_NO p - 32 <? 8) with false by lia. replace (intr_NO p - 32 - 8 <? 0) with false by lia.
  reflexivity.
Qed.

(** What is pending after line [n] is raised, after vector [v] is acknowledged. *)
Definition raised_master (n m : Z) : Z := Z.lor m (Z.shiftl 1 (if n <? 8 then n else 2)).
Definition raised_slave (n s : Z) : Z := if n <? 8 then s else Z.lor s (Z.shiftl 1 (n - 8)).
Definition acked_master (v m : Z) : Z := Z.land m (Z.lnot (Z.shiftl 1 (if v <? 40 then v - 32 else 2))).
Definition acked_slave (v s : Z) : Z := if v <? 40 then s else Z.land s (Z.lnot (Z.shiftl 1 (v - 40))).

Lemma u8_lor a n : 0 <= a < 256 → 0 <= n < 8 → u8 (Z.lor a (Z.shiftl 1 n)) = Z.lor a (Z.shiftl 1 n).
Proof. intros. apply wrap_small, (lor_range 8); [lia|lia|now apply shiftl_1_range]. Qed.

Lemma u8_land a b : 0 <= a < 256 → u8 (Z.land a b) = Z.land a b.
Proof. intros. apply wrap_small, (land_range 8); lia. Qed.

Lemma raise_ok p n : pic_ok p → 0 <= n < 16 → n ≠ 2 →
  ∃ p', i8259_raise_intr n p = Ok tt p' ∧ pic_ok p' ∧
    IRR (master p') = raised_master n (IRR (master p)) ∧
    IRR (slave p') = raised_slave n (IRR (slave p)).
Proof.
  intros [Hm Hs [Hi1 Hi2] Hsh Hc _ _] Hn Hn2. unfold raised_master, raised_slave.
  destruct (Z.ltb_spec n 8) as [H8|H8].
  - rewrite raise_lo by lia.
    destruct (pic_tail_ok (set_master (set_IRR (Z.lor (IRR (master p)) (Z.shiftl 1 n)) (master p)) p))
      as (p' & Hrun & Hok & Hm' & Hs'); cbn in *; rewrite ?u8_lor in * by lia; try done.
    + apply (lor_range 8); [lia|lia|apply shiftl_1_range; lia].
    + rewrite Z.lor_spec, testbit_pow2 by lia. replace (2 =? n) with false by lia.
      now rewrite orb_false_r.
    + exists p'. rewrite Hm', Hs'. done.
  - rewrite raise_hi by lia. set (q := mkPic _ _ _ _).
    destruct (pic_tail_ok q) as (p' & Hrun & Hok & Hm' & Hs'); unfold q in *; cbn in *;
      rewrite ?u8_lor in * by lia; try done.
    + apply (lor_range 8); [lia|lia|apply shiftl_1_range; lia].
    + apply (lor_range 8); [lia|lia|apply shiftl_1_range; lia].
    + intros _. rewrite Hi2. change (Z.lnot 0) with (-1). now rewrite Z.land_m1_r.
    + intros _. apply lor_bit_ne0. lia.
    + exists p'. rewrite Hm', Hs'. done.
Qed.

Lemma ack_ok p : pic_ok p → INTR p = true →
  ∃ p', i8259_ack_intr p = Ok tt p' ∧ pic_ok p' ∧
    IRR (master p') = acked_master (intr_NO p) (IRR (master p)) ∧
    IRR (slave p') = acked_slave (intr_NO p) (IRR (slave p)).
Proof.
  intros [Hm Hs [Hi1 Hi2] Hsh Hc Hintr Hvec] HI. specialize (Hvec HI). rewrite Hintr in HI.
  destruct (ffo_spec (IRR (master p))) as (Hr & Hb & _); [lia|].
  unfold acked_master, acked_slave. destruct (Z.eqb_spec (ffo (IRR (master p))) 2) as [E2|E2].
  - rewrite E2 in Hb. specialize (Hc Hb). destruct (ffo_spec (IRR (slave p))) as (Hsr & _); [lia|].
    replace (intr_NO p <? 40) with false by lia. rewrite ack_hi by lia.
    replace (intr_NO p - 32 - 8) with (intr_NO p - 40) by lia. set (q := mkPic _ _ _ _).
    destruct (pic_tail_ok q) as (p' & Hrun & Hok & Hm' & Hs'); unfold q in *; cbn in *;
      rewrite ?u8_land in * by lia; try done.
    + now apply (land_range 8).
    + now apply (land_range 8).
    + intros _. rewrite Hi2. change (Z.lnot 0) with (-1). now rewrite Z.land_m1_r.
    + rewrite Z.land_spec. change (Z.testbit (Z.lnot 4) 2) with false. now rewrite andb_false_r.
    + exists p'. rewrite Hm', Hs'. done.
  - replace (intr_NO p <? 40) with true by lia. rewrite ack_lo by lia.
    set (q := set_master _ _).
    destruct (pic_tail_ok q) as (p' & Hrun & Hok & Hm' & Hs'); unfold q in *; cbn in *;
      rewrite ?u8_land in * by lia; try done.
    + now apply (land_range 8).
    + rewrite Z.land_spec. intros [H2 _]%andb_prop. now apply Hc.
    + exists p'. rewrite Hm', Hs'. done.
Qed.

Lemma pic0_ok : pic_ok pic0.
Proof. split; cbn; try done. Qed.

Lemma pic_reachable_ok p : rtc pic_step pic0 p → pic_ok p.
Proof.
  intros H. remember pic0 as q eqn:Hq. assert (pic_ok q) as Hok by (subst; apply pic0_ok). clear Hq.
  induction H as [q|q r p Hs _ IH]; [done|]. apply IH. destruct Hs as [n q r Hn H2 Hr|q r HI Hr].
  - destruct (raise_ok q n Hok Hn H2) as (r' & Hr' & Hok' & _). congruence.
  - destruct (ack_ok q Hok HI) as (r' & Hr' & Hok' & _). congruence.
Qed.

Lemma INTR_pending p : pic_ok p → INTR p = true → 0 < IRR (master p) < 256.
Proof. intros Hp HI. rewrite (pic_intr _ Hp) in HI. pose proof (pic_mirr _ Hp). lia. Qed.

(** * Properties *)

(** C7: the interrupt controllers are never stuck: from the initial state, through any
    sequence of raised lines (other than the cascade line 2) and acknowledged
    interrupts, no assertion of i8259.c can fail and no shift is undefined: every
    raise and, while INTR is up, the acknowledge end normally; INTR is up exactly
    when a line of the master is pending. *)
Theorem i8259_never_fails p : rtc pic_step pic0 p →
  (∀ n, 0 <= n < 16 → n ≠ 2 → ∃ p', i8259_raise_intr n p = Ok tt p') ∧
  (INTR p = true → ∃ p', i8259_ack_intr p = Ok tt p') ∧
  INTR p = negb (IRR (master p) =? 0).
Proof.
  intros H%pic_reachable_ok. split_and!; [| |apply H].
  - intros n Hn H2. destruct (raise_ok p n) as (p' & Hr & _); [done..|]. now exists p'.
  - intros HI. destruct (ack_ok p) as (p' & Hr & _); [done..|]. now exists p'.
Qed.

(** C8: the vector offered to the CPU is that of the pending line of highest priority:
    32 + n for the lowest line n of the master, or, when that line is the cascade,
    40 + k for the lowest pending line k of the slave. *)
Theorem i8259_offers_highest_priority p : rtc pic_step pic0 p → INTR p = true →
  ∃ n, 0 <= n < 8 ∧ Z.testbit (IRR (master p)) n = true ∧
    (∀ j, 0 <= j < n → Z.testbit (IRR (master p)) j = false) ∧
    if n =? 2
    then ∃ k, 0 <= k < 8 ∧ Z.testbit (IRR (slave p)) k = true ∧
           (∀ j, 0 <= j < k → Z.testbit (IRR (slave p)) j = false) ∧ intr_NO p = 40 + k
    else intr_NO p = 32 + n.
Proof.
  intros Hp%pic_reachable_ok HI. pose proof (INTR_pending p Hp HI) as Hm.
  destruct (ffo_spec _ Hm) as (Hr & Hb & Hl). exists (ffo (IRR (master p))).
  pose proof (pic_vector _ Hp HI) as Hv. split_and!; try done; try lia.
  destruct (Z.eqb_spec (ffo (IRR (master p))) 2) as [E|E]; [|done].
  rewrite E in Hb. pose proof (pic_cascade _ Hp Hb). pose proof (pic_sirr _ Hp).
  destruct (ffo_spec (IRR (slave p))) as (Hr' & Hb' & Hl'); [lia|]. now exists (ffo (IRR (slave p))).
Qed.

(** C9: acknowledging an interrupt of the slave clears the master's cascade bit whatever
    else the slave has pending: when the slave's lines were the only ones pending,
    INTR goes down while the slave's remaining requests stay in its IRR, unserved until
    a line of the slave is raised again. *)
Theorem i8259_ack_forgets_slave p :
  pic_ok p → INTR p = true → 40 <= intr_NO p → IRR (master p) = 4 →
  ∃ p', i8259_ack_intr p = Ok tt p' ∧ INTR p' = false ∧
    IRR (slave p') = Z.land (IRR (slave p)) (Z.lnot (Z.shiftl 1 (intr_NO p - 40))).
Proof.
  intros Hp HI Hv Hm. destruct (ack_ok p Hp HI) as (p' & Hr & Hok & Hm' & Hs'). exists p'.
  unfold acked_master, acked_slave in *. replace (intr_NO p <? 40) with false in * by lia.
  split_and!; [done| |done]. rewrite (pic_intr _ Hok), Hm', Hm. reflexivity.
Qed.

(** A run of the controllers: lines raised and [None] for an acknowledge. *)
Fixpoint pic_run (l : list (option Z)) : M Pic unit :=
  match l with
  | [] => mret tt
  | Some n :: l => _ ← i8259_raise_intr n; pic_run l
  | None :: l => _ ← i8259_ack_intr; pic_run l
  end.

Definition pic_after (l : list (option Z)) : Pic :=
  match pic_run l pic0 with Ok _ p => p | _ => pic0 end.

Lemma i8259_never_fails_witness :
  rtc pic_step pic0 (pic_after [Some 14; Some 1; None]) ∧
  INTR (pic_after [Some 14; Some 1; None]) = true.
Proof.
  assert (rtc pic_step pic0 (pic_after [Some 14; Some 1; None])) as H.
  { eapply rtc_l; [apply (step_raise 14); [lia|lia|vm_compute; reflexivity]|].
    eapply rtc_l; [apply (step_raise 1); [lia|lia|vm_compute; reflexivity]|].
    apply rtc_once. apply step_ack; vm_compute; reflexivity. }
  split; [exact H|]. destruct (i8259_never_fails _ H) as (_ & _ & ->). vm_compute. reflexivity.
Defined.

Lemma i8259_offers_highest_priority_witness :
  ∃ n, 0 <= n < 8 ∧ Z.testbit (IRR (master (pic_after [Some 15; Some 14]))) n = true.
Proof.
  destruct (i8259_offers_highest_priority (pic_after [Some 15; Some 14])) as (n & Hn & Hb & _).
  - eapply rtc_l; [apply (step_raise 15); [lia|lia|vm_compute; reflexivity]|].
    apply rtc_once. apply (step_raise 14); [lia|lia|vm_compute; reflexivity].
  - vm_compute. reflexivity.
  - exact (ex_intro _ n (conj Hn Hb)).
Defined.

Lemma i8259_ack_forgets_slave_witness :
  ∃ p', i8259_ack_intr (pic_after [Some 14; Some 15]) = Ok tt p' ∧ INTR p' = false ∧
    IRR (slave p') = 128.
Proof.
  apply (i8259_ack_forgets_slave (pic_after [Some 14; Some 15])).
  - apply pic_reachable_ok.
    eapply rtc_l; [apply (step_raise 14); [lia|lia|vm_compute; reflexivity]|].
    apply rtc_once. apply (step_raise 15); [lia|lia|vm_compute; reflexivity].
  - vm_compute. reflexivity.
  - vm_compute. discriminate.
  - vm_compute. reflexivity.
Defined.
