(* ===== verification/Mmio.v ===== *)
(** The memory-mapped and port-mapped I/O buses of [nemu/src/device/io/mmio.c] and
    [port-io.c]: the maps devices register and the bytes behind them.  The buses are
    sections over the state they live in and over the function that runs a device's
    callback, so that any machine with a bus instantiates them. *)
From S2P Require Import Prelude.

(** * Memory-mapped I/O *)
Definition MMIO_SPACE_MAX : Z := 256 * 1024.
Definition NR_MAP : Z := 8.

(** A map: the addresses [low .. high], the offset of its bytes in the pool, and the
    callback, named. *)
Record MMIO_t (CB : Type) := mkMMIO {
  mm_low : Z; mm_high : Z; mm_space : Z; mm_callback : CB }.
Arguments mkMMIO {CB}. Arguments mm_low {CB}. Arguments mm_high {CB}.
Arguments mm_space {CB}. Arguments mm_callback {CB}.

(** [maps\[0 .. nr_map)] is the list [mmio_maps]. *)
Record Mmio (CB : Type) := mkMmioBus {
  mmio_space_pool : arr Z; mmio_space_free_index : Z; mmio_maps : list (MMIO_t CB) }.
Arguments mkMmioBus {CB}. Arguments mmio_space_pool {CB}.
Arguments mmio_space_free_index {CB}. Arguments mmio_maps {CB}.

Definition mmio_init {CB} : Mmio CB := mkMmioBus (anew 0) 0 [].

Fixpoint is_mmio_from {CB} (maps : list (MMIO_t CB)) (addr i : Z) : Z :=
  match maps with
  | [] => -1
  | m :: maps =>
    if (mm_low m <=? addr) && (addr <=? mm_high m) then i else is_mmio_from maps addr (i + 1)
  end.

Definition is_mmio {CB} (b : Mmio CB) (addr : Z) : Z := is_mmio_from (mmio_maps b) addr 0.

(** [&maps\[map_NO\]] *)
Definition mmio_map {CB} (b : Mmio CB) (map_NO : Z) : option (MMIO_t CB) :=
  if map_NO <? 0 then None else mmio_maps b !! Z.to_nat map_NO.

Section MmioOps.
Context {S CB : Type} (bus : S → Mmio CB) (set_bus : Mmio CB → S → S)
  (callback : CB → Z → Z → bool → M S unit).

(** The returned pointer is the offset of the map's bytes in the pool. *)
Definition add_mmio_map (addr len : Z) (cb : CB) : M S Z :=
  b ← gets bus;
  _ ← cassert (Z.of_nat (length (mmio_maps b)) <? NR_MAP);
  _ ← cassert (mmio_space_free_index b + len <=? MMIO_SPACE_MAX);
  let space_base := mmio_space_free_index b in
  _ ← modify (set_bus (mkMmioBus (mmio_space_pool b) (mmio_space_free_index b + len)
        (mmio_maps b ++ [mkMMIO addr (u32 (addr + len - 1)) space_base cb])));
  mret space_base.

(** An access outside the pool is undefined. *)
Definition mmio_read (addr len map_NO : Z) : M S Z :=
  _ ← cassert ((len =? 1) || (len =? 2) || (len =? 4));
  b ← gets bus;
  match mmio_map b map_NO with
  | None => fail EUndefined
  | Some map =>
    let p := mm_space map + u32 (addr - mm_low map) in
    if MMIO_SPACE_MAX <? p + 4 then fail EUndefined else
    let data := Z.land (le_load 4 (aget (mmio_space_pool b)) p) (len_mask len) in
    _ ← callback (mm_callback map) addr len false;
    mret data
  end.

(** The mask bytes of the first [len] bytes are all ones, so they are all copied. *)
Definition mmio_write (addr len data map_NO : Z) : M S unit :=
  _ ← cassert ((len =? 1) || (len =? 2) || (len =? 4));
  b ← gets bus;
  match mmio_map b map_NO with
  | None => fail EUndefined
  | Some map =>
    let p := mm_space map + u32 (addr - mm_low map) in
    if MMIO_SPACE_MAX <? p + len then fail EUndefined else
    let mask := le_store 4 0 (len_mask len) (anew 0) in
    let src := le_store 4 0 data (anew 0) in
    let pool := foldl (λ pool i, if aget mask (Z.of_nat i) =? 0 then pool
                                 else aset (p + Z.of_nat i) (aget src (Z.of_nat i)) pool)
                      (mmio_space_pool b) (seq 0 (Z.to_nat len)) in
    _ ← modify (set_bus (mkMmioBus pool (mmio_space_free_index b) (mmio_maps b)));
    callback (mm_callback map) addr len true
  end.
End MmioOps.

(** * Port-mapped I/O *)
Definition PORT_IO_SPACE_MAX : Z := 65536.

Record PIO_t (CB : Type) := mkPIO { pm_low : Z; pm_high : Z; pm_callback : CB }.
Arguments mkPIO {CB}. Arguments pm_low {CB}. Arguments pm_high {CB}. Arguments pm_callback {CB}.

Record Pio (CB : Type) := mkPioBus { pio_space : arr Z; pio_maps : list (PIO_t CB) }.
Arguments mkPioBus {CB}. Arguments pio_space {CB}. Arguments pio_maps {CB}.

Definition pio_init {CB} : Pio CB := mkPioBus (anew 0) [].

Definition pio_get {CB} (b : Pio CB) (port : Z) : Z := aget (pio_space b) port.
Definition pio_set {CB} (port v : Z) (b : Pio CB) : Pio CB :=
  mkPioBus (aset port (u8 v) (pio_space b)) (pio_maps b).

Section PioOps.
Context {S CB : Type} (bus : S → Pio CB) (set_bus : Pio CB → S → S)
  (callback : CB → Z → Z → bool → M S unit).

(** The first map that covers the whole access, if any. *)
Fixpoint pio_callback_in (maps : list (PIO_t CB)) (addr len : Z) (is_write : bool) : M S unit :=
  match maps with
  | [] => mret tt
  | m :: maps =>
    if (pm_low m <=? addr) && (addr + len - 1 <=? pm_high m)
    then callback (pm_callback m) addr len is_write
    else pio_callback_in maps addr len is_write
  end.

Definition pio_callback (addr len : Z) (is_write : bool) : M S unit :=
  b ← gets bus; pio_callback_in (pio_maps b) addr len is_write.

Definition add_pio_map (addr len : Z) (cb : CB) : M S Z :=
  b ← gets bus;
  _ ← cassert (Z.of_nat (length (pio_maps b)) <? NR_MAP);
  _ ← cassert (addr + len <=? PORT_IO_SPACE_MAX);
  _ ← modify (set_bus (mkPioBus (pio_space b)
        (pio_maps b ++ [mkPIO addr (u16 (addr + len - 1)) cb])));
  mret addr.

Definition pio_read (addr len : Z) : M S Z :=
  _ ← cassert ((len =? 1) || (len =? 2) || (len =? 4));
  _ ← cassert (addr + len - 1 <? PORT_IO_SPACE_MAX);
  _ ← pio_callback addr len false;
  b ← gets bus;
  mret (Z.land (le_load 4 (aget (pio_space b)) addr) (len_mask len)).

Definition pio_write (addr len data : Z) : M S unit :=
  _ ← cassert ((len =? 1) || (len =? 2) || (len =? 4));
  _ ← cassert (addr + len - 1 <? PORT_IO_SPACE_MAX);
  _ ← modify (λ s, set_bus (mkPioBus (le_store (Z.to_nat len) addr data (pio_space (bus s)))
                              (pio_maps (bus s))) s);
  pio_callback addr len true.
End PioOps.

(** * What [is_mmio] answers *)
Lemma is_mmio_from_spec {CB} (maps : list (MMIO_t CB)) addr i : 0 <= i →
  match is_mmio_from maps addr i with
  | -1 => ∀ m, m ∈ maps → ¬ (mm_low m <= addr <= mm_high m)
  | k => i <= k ∧ ∃ m, maps !! Z.to_nat (k - i) = Some m ∧ mm_low m <= addr <= mm_high m
  end.
Proof.
  revert i; induction maps as [|m maps IH]; intros i Hi; cbn [is_mmio_from].
  { intros m Hm. now apply not_elem_of_nil in Hm. }
  destruct ((mm_low m <=? addr) && (addr <=? mm_high m)) eqn:E.
  { destruct i as [|i|i]; try lia; (split; [lia|]; exists m; rewrite Z.sub_diag; cbn; split; [done|lia]). }
  specialize (IH (i + 1) ltac:(lia)).
  destruct (is_mmio_from maps addr (i + 1)) as [|k|k] eqn:Ek.
  - destruct IH; lia.
  - destruct IH as (Hk & m' & Hl & Hr). split; [lia|]. exists m'. split; [|done].
    replace (Z.to_nat (Z.pos k - i)) with (Datatypes.S (Z.to_nat (Z.pos k - (i + 1)))) by lia. done.
  - destruct k as [k|k|]; try (destruct IH; lia).
    intros m' [-> | Hm]%elem_of_cons; [lia|]. now apply IH.
Qed.

Lemma is_mmio_none {CB} (b : Mmio CB) addr :
  (∀ m, m ∈ mmio_maps b → ¬ (mm_low m <= addr <= mm_high m)) ↔ is_mmio b addr = -1.
Proof.
  unfold is_mmio. pose proof (is_mmio_from_spec (mmio_maps b) addr 0 ltac:(lia)) as H.
  split.
  - intros Hn. destruct (is_mmio_from _ _ _) as [|k|k]; [..|destruct k as [k|k|]; try (destruct H; lia); done].
    all: destruct H as (_ & m & Hl & Hr); exfalso; apply list_elem_of_lookup_2 in Hl; exact (Hn m Hl Hr).
  - intros E. now rewrite E in H.
Qed.
