(* ===== verification/Vga.v ===== *)
(** The VGA device of [nemu/src/device/vga.c]: the frame buffer's dirty lines and the
    refresh of the window, the palette (DAC) and CRTC port handlers.  The SDL surfaces
    are the pixels the code writes; SDL's own calls (blit, flip, set palette) only show
    them. *)
From S2P Require Import Prelude.

Definition VGA_DAC_READ_INDEX : Z := 0x3C7.
Definition VGA_DAC_WRITE_INDEX : Z := 0x3C8.
Definition VGA_DAC_DATA : Z := 0x3C9.
Definition VGA_CRTC_INDEX : Z := 0x3D4.
Definition VGA_CRTC_DATA : Z := 0x3D5.
Definition CTR_ROW : Z := 200.
Definition CTR_COL : Z := 320.
Definition SCREEN_ROW : Z := 400.
Definition SCREEN_COL : Z := 640.

(** [palette] is its bytes, [color_ptr] an offset in them ([None]: the null pointer it
    starts as); [sdl_colors] is the address of SDL's [colors] member relative to
    [palette], which the code takes modulo 4.  [pixel_buf\[y\]\[x\]] is element
    [y * SCREEN_COL + x]; [vmem_base] is the offset of the frame buffer in the pool. *)
Record Vga := mkVga {
  vmem_base : Z;
  vmem_dirty : bool;
  line_dirty : arr bool;
  vga_crtc_regs : arr Z;
  palette : arr Z;
  color_ptr : option Z;
  sdl_colors : Z;
  pixel_buf : arr Z
}.

Definition vga_set_dirty (d : bool) (l : arr bool) (v : Vga) : Vga :=
  mkVga (vmem_base v) d l (vga_crtc_regs v) (palette v) (color_ptr v) (sdl_colors v) (pixel_buf v).
Definition vga_set_crtc (r : arr Z) (v : Vga) : Vga :=
  mkVga (vmem_base v) (vmem_dirty v) (line_dirty v) r (palette v) (color_ptr v) (sdl_colors v) (pixel_buf v).
Definition vga_set_dac (p : arr Z) (c : option Z) (v : Vga) : Vga :=
  mkVga (vmem_base v) (vmem_dirty v) (line_dirty v) (vga_crtc_regs v) p c (sdl_colors v) (pixel_buf v).
Definition vga_set_pixels (p : arr Z) (v : Vga) : Vga :=
  mkVga (vmem_base v) (vmem_dirty v) (line_dirty v) (vga_crtc_regs v) (palette v) (color_ptr v) (sdl_colors v) p.
Definition vga_set_base (b : Z) (v : Vga) : Vga :=
  mkVga b (vmem_dirty v) (line_dirty v) (vga_crtc_regs v) (palette v) (color_ptr v) (sdl_colors v) (pixel_buf v).

Definition vga0 (colors : Z) (pal : arr Z) : Vga :=
  mkVga 0 false (anew false) (anew 0) pal None colors (anew 0).

(** * The frame buffer *)
Definition vga_vmem_io_handler (addr len : Z) (is_write : bool) : M Vga unit :=
  if is_write then
    let line := u32 (addr - 0xa0000) / CTR_COL in
    if line <? CTR_ROW then modify (λ v, vga_set_dirty true (aset line true (line_dirty v)) v)
    else mret tt
  else mret tt.

Definition draw_pixel (x y color_idx : Z) : M Vga unit :=
  _ ← cassert ((0 <=? x) && (x <? SCREEN_COL) && (0 <=? y) && (y <? SCREEN_ROW));
  modify (λ v, vga_set_pixels (aset (y * SCREEN_COL + x) color_idx (pixel_buf v)) v).

(** [vmem i j] is byte [vmem\[i\]\[j\]] of the frame buffer. *)
Definition do_update_screen_graphic_mode (vmem : Z → Z → Z) : M Vga unit :=
  for_ (Z.to_nat CTR_ROW) 0 (λ i,
    v ← getS;
    if aget (line_dirty v) i then
      for_ (Z.to_nat CTR_COL) 0 (λ j,
        let color_idx := vmem i j in
        _ ← draw_pixel (2 * j) (2 * i) color_idx;
        _ ← draw_pixel (2 * j) (2 * i + 1) color_idx;
        _ ← draw_pixel (2 * j + 1) (2 * i) color_idx;
        draw_pixel (2 * j + 1) (2 * i + 1) color_idx)
    else mret tt).

Definition update_screen (vmem : Z → Z → Z) : M Vga unit :=
  v ← getS;
  if vmem_dirty v then
    _ ← do_update_screen_graphic_mode vmem;
    modify (vga_set_dirty false (anew false))
  else mret tt.

(** * The ports

    [base0], [base1] are the bytes [vga_dac_port_base\[0\]], [\[1\]]
    ([vga_crtc_port_base]). *)
Definition vga_dac_io_handler (base0 base1 addr : Z) (is_write : bool) : M Vga unit :=
  if (addr =? VGA_DAC_WRITE_INDEX) && is_write then
    modify (λ v, vga_set_dac (palette v) (Some (base0 * 4)) v)
  else if (addr =? VGA_DAC_DATA) && is_write then
    v ← getS;
    match color_ptr v with
    | None => fail EUndefined
    | Some p =>
      if 1024 <=? p then fail EUndefined else
      let pal := aset p (u8 (Z.shiftl base1 2)) (palette v) in
      let p := p + 1 in
      let p := if Z.land (p - sdl_colors v) 3 =? 3 then p + 1 else p in
      modify (vga_set_dac pal (Some p))
    end
  else mret tt.

(** The byte the handler puts in [vga_crtc_port_base\[1\]], if any. *)
Definition vga_crtc_io_handler (base0 base1 addr : Z) (is_write : bool) : M Vga (option Z) :=
  if (addr =? VGA_CRTC_INDEX) && is_write then
    v ← getS;
    if base0 <? 19 then mret (Some (aget (vga_crtc_regs v) base0)) else fail EUndefined
  else if (addr =? VGA_CRTC_DATA) && is_write then
    if base0 <? 19 then
      _ ← modify (λ v, vga_set_crtc (aset base0 base1 (vga_crtc_regs v)) v); mret None
    else fail EUndefined
  else mret None.

(** * Refreshing the window *)
Lemma draw_pixel_ok x y c v : 0 <= x < SCREEN_COL → 0 <= y < SCREEN_ROW →
  draw_pixel x y c v = Ok tt (vga_set_pixels (aset (y * 640 + x) c (pixel_buf v)) v).
Proof.
  intros Hx Hy. unfold draw_pixel. change SCREEN_COL with 640 in *. change SCREEN_ROW with 400 in *.
  replace ((0 <=? x) && (x <? 640) && (0 <=? y) && (y <? 400)) with true by lia. done.
Qed.

Lemma draw_pixel_bind {B} x y c v (k : unit → M Vga B) : 0 <= x < 640 → 0 <= y < 400 →
  (draw_pixel x y c ≫= k) v = k tt (vga_set_pixels (aset (y * 640 + x) c (pixel_buf v)) v).
Proof. intros Hx Hy. exact (bind_Ok _ _ _ _ _ (draw_pixel_ok x y c v Hx Hy)). Qed.

(** Pixel [(2 i + a, 2 j + b)] of the window shows byte [j] of line [i]. *)
Definition shows (vmem : Z → Z → Z) (v : Vga) (i : Z) : Prop :=
  ∀ j a b, 0 <= j < 320 → 0 <= a < 2 → 0 <= b < 2 →
    aget (pixel_buf v) ((2 * i + a) * 640 + (2 * j + b)) = vmem i j.

(** [v'] is [v] with other pixels. *)
Definition same_but_pixels (v v' : Vga) : Prop := v' = vga_set_pixels (pixel_buf v') v.

Lemma same_but_pixels_refl v : same_but_pixels v v.
Proof. now destruct v. Qed.

Lemma same_but_pixels_trans v v1 v2 :
  same_but_pixels v v1 → same_but_pixels v1 v2 → same_but_pixels v v2.
Proof. unfold same_but_pixels. intros H1 H2. rewrite H2, H1. done. Qed.

Lemma draw_cell_ok vmem v i j : 0 <= i < 200 → 0 <= j < 320 →
  ∃ v', (let color_idx := vmem i j in
        _ ← draw_pixel (2 * j) (2 * i) color_idx;
        _ ← draw_pixel (2 * j) (2 * i + 1) color_idx;
        _ ← draw_pixel (2 * j + 1) (2 * i) color_idx;
        draw_pixel (2 * j + 1) (2 * i + 1) color_idx) v = Ok tt v' ∧ same_but_pixels v v' ∧
    (∀ a b, 0 <= a < 2 → 0 <= b < 2 →
       aget (pixel_buf v') ((2 * i + a) * 640 + (2 * j + b)) = vmem i j) ∧
    (∀ i' j' a b, 0 <= i' < 200 → 0 <= j' < 320 → 0 <= a < 2 → 0 <= b < 2 → (i', j') ≠ (i, j) →
       aget (pixel_buf v') ((2 * i' + a) * 640 + (2 * j' + b)) =
       aget (pixel_buf v) ((2 * i' + a) * 640 + (2 * j' + b))).
Proof.
  intros Hi Hj. cbv zeta. do 3 rewrite draw_pixel_bind by lia.
  rewrite draw_pixel_ok by (change SCREEN_COL with 640; change SCREEN_ROW with 400; lia).
  eexists. split; [reflexivity|]. split; [done|]. split.
  - intros a b Ha Hb. cbn. rewrite !aget_aset. assert (a = 0 ∨ a = 1) as [-> | ->] by lia;
      assert (b = 0 ∨ b = 1) as [-> | ->] by lia; repeat case_match; done || lia.
  - intros i' j' a b Hi' Hj' Ha Hb Hne. cbn. rewrite !aget_aset_ne; [done|..].
    all: intros He; apply Hne; f_equal; lia.
Qed.

Lemma shows_frame vmem v v' i : (∀ j a b, 0 <= j < 320 → 0 <= a < 2 → 0 <= b < 2 →
    aget (pixel_buf v') ((2 * i + a) * 640 + (2 * j + b)) =
    aget (pixel_buf v) ((2 * i + a) * 640 + (2 * j + b))) →
  shows vmem v i → shows vmem v' i.
Proof. intros H Hs j a b Hj Ha Hb. rewrite H by done. now apply Hs. Qed.

Lemma draw_line_ok vmem v i : 0 <= i < 200 →
  ∃ v', for_ (Z.to_nat CTR_COL) 0 (λ j,
        let color_idx := vmem i j in
        _ ← draw_pixel (2 * j) (2 * i) color_idx;
        _ ← draw_pixel (2 * j) (2 * i + 1) color_idx;
        _ ← draw_pixel (2 * j + 1) (2 * i) color_idx;
        draw_pixel (2 * j + 1) (2 * i + 1) color_idx) v = Ok tt v' ∧ same_but_pixels v v' ∧
    shows vmem v' i ∧
    (∀ i', 0 <= i' < 200 → i' ≠ i → shows vmem v i' → shows vmem v' i').
Proof.
  intros Hi. pose (P := λ (k : Z) (v' : Vga), same_but_pixels v v' ∧
    (∀ j a b, 0 <= j < k → 0 <= a < 2 → 0 <= b < 2 →
      aget (pixel_buf v') ((2 * i + a) * 640 + (2 * j + b)) = vmem i j) ∧
    (∀ i', 0 <= i' < 200 → i' ≠ i → shows vmem v i' → shows vmem v' i')).
  enough (∃ v', for_ (Z.to_nat CTR_COL) 0 (λ j,
        let color_idx := vmem i j in
        _ ← draw_pixel (2 * j) (2 * i) color_idx;
        _ ← draw_pixel (2 * j) (2 * i + 1) color_idx;
        _ ← draw_pixel (2 * j + 1) (2 * i) color_idx;
        draw_pixel (2 * j + 1) (2 * i + 1) color_idx) v = Ok tt v' ∧ P 320 v')
    as (v' & Hrun & Hs & Hd & Ho) by (exists v'; split_and!; done).
  apply (for_ok P (Z.to_nat CTR_COL) 0).
  { split_and!; [apply same_but_pixels_refl|intros; lia|done]. }
  intros j v1 Hj (Hs & Hd & Ho). change (0 + Z.of_nat (Z.to_nat CTR_COL)) with 320 in Hj.
  destruct (draw_cell_ok vmem v1 i j Hi Hj) as (v2 & Hrun & Hs2 & Hc & Hf).
  exists v2. split; [exact Hrun|]. split_and!.
  - now apply (same_but_pixels_trans v v1).
  - intros j' a b Hj' Ha Hb. destruct (Z.eqb_spec j' j) as [->|]; [now apply Hc|].
    rewrite Hf by (lia || congruence). apply Hd; lia.
  - intros i' Hi' Hne Hsh. apply (shows_frame vmem v1); [|now apply Ho].
    intros. apply Hf; try done. congruence.
Qed.

Lemma update_lines_ok vmem v :
  ∃ v', do_update_screen_graphic_mode vmem v = Ok tt v' ∧ same_but_pixels v v' ∧
    ∀ i, 0 <= i < 200 → aget (line_dirty v) i = true ∨ shows vmem v i → shows vmem v' i.
Proof.
  pose (P := λ (k : Z) (v' : Vga), same_but_pixels v v' ∧
    ∀ i, 0 <= i < 200 → (i < k ∧ aget (line_dirty v) i = true) ∨ shows vmem v i → shows vmem v' i).
  enough (∃ v', do_update_screen_graphic_mode vmem v = Ok tt v' ∧ P 200 v') as (v' & Hrun & Hs & Hd).
  { exists v'. split_and!; try done. intros i Hi [H|H]; apply Hd; try done; [left; split; [lia|done]|by right]. }
  apply (for_ok P (Z.to_nat CTR_ROW) 0).
  { split; [apply same_but_pixels_refl|]. intros i Hi [[? _]|H]; [lia|done]. }
  intros i v1 Hi (Hs & Hd). change (0 + Z.of_nat (Z.to_nat CTR_ROW)) with 200 in Hi.
  rewrite (bind_Ok getS _ _ _ _ eq_refl).
  replace (line_dirty v1) with (line_dirty v) by (now rewrite Hs).
  destruct (aget (line_dirty v) i) eqn:E.
  - destruct (draw_line_ok vmem v1 i Hi) as (v2 & Hrun & Hs2 & Hsh & Ho). exists v2.
    split; [exact Hrun|]. split; [now apply (same_but_pixels_trans v v1)|].
    intros i' Hi' H. destruct (Z.eqb_spec i' i) as [->|]; [done|]. apply Ho; try done. apply Hd; [done|].
    destruct H as [[? ?]|?]; [left|by right]. split; [lia|done].
  - exists v1. split; [done|]. split; [done|]. intros i' Hi' H. apply Hd; [done|].
    destruct H as [[? ?]|?]; [|by right]. destruct (Z.eqb_spec i' i); [congruence|].
    left. split; [lia|done].
Qed.

(** * Properties *)

(** C10: [update_screen] refreshes the window: when every line of the frame buffer that
    is not marked dirty is already shown (each byte as a 2x2 square), then after it,
    if [vmem_dirty] covers the dirty lines, every line is shown, no assertion of
    [draw_pixel] failed, and no line is dirty any more. *)
Theorem update_screen_shows_all vmem v :
  (∀ i, 0 <= i < 200 → aget (line_dirty v) i = true ∨ shows vmem v i) →
  ((∃ i, 0 <= i < 200 ∧ aget (line_dirty v) i = true) → vmem_dirty v = true) →
  ∃ v', update_screen vmem v = Ok tt v' ∧ (∀ i, 0 <= i < 200 → shows vmem v' i) ∧
    vmem_dirty v' = false ∧ ∀ i, 0 <= i < 200 → aget (line_dirty v') i = false.
Proof.
  intros Hl Hd. unfold update_screen. rewrite (bind_Ok getS _ _ _ _ eq_refl).
  destruct (vmem_dirty v) eqn:E.
  - destruct (update_lines_ok vmem v) as (v1 & Hrun & _ & Hsh). rewrite (bind_Ok _ _ _ _ _ Hrun).
    eexists. split; [reflexivity|]. split_and!; [|done|intros; apply aget_anew].
    intros i Hi j a b. now apply (Hsh i Hi (Hl i Hi)).
  - exists v. assert (∀ i, 0 <= i < 200 → aget (line_dirty v) i = false) as Hn.
    { intros i Hi. destruct (aget (line_dirty v) i) eqn:Ei; [|done].
      discriminate Hd. now exists i. }
    split_and!; try done. intros i Hi. destruct (Hl i Hi) as [H|H]; [|done]. now rewrite Hn in H.
Qed.

Definition vga_demo : Vga := vga_set_dirty true (aset 3 true (anew false)) (vga0 0 (anew 0)).

Lemma update_screen_shows_all_witness :
  ∃ v', update_screen (λ i j, if i =? 3 then j mod 256 else 0) vga_demo = Ok tt v' ∧
    ∀ i, 0 <= i < 200 → shows (λ i j, if i =? 3 then j mod 256 else 0) v' i.
Proof.
  destruct (update_screen_shows_all (λ i j, if i =? 3 then j mod 256 else 0) vga_demo)
    as (v' & Hrun & Hs & _).
  - intros i Hi. destruct (Z.eqb_spec i 3) as [->|Hne]; [left; reflexivity|right].
    intros j a b _ _ _. apply Z.eqb_neq in Hne as ->. unfold vga_demo. cbn. apply aget_anew.
  - intros _. reflexivity.
  - exact (ex_intro _ v' (conj Hrun Hs)).
Defined.
