(* ===== verification/WpPool.v ===== *)
(** The debugger's state and the watchpoint pool of
    [nemu/src/monitor/debug/watchpoint.c]: a static array of nodes threaded on a list of
    watchpoints in use and a list of free ones. *)
From S2P Require Import Prelude.

Definition NR_WP : Z := 32.

(** A pointer to a watchpoint: an element of the pool, or the local copy [tmp] of
    [delete_wp], which is dead once [delete_wp] has returned.  [Tmp] stands for the local
    of every call: a pointer to the copy that an earlier call has left behind is undefined
    in C, and here reads the dead copy between the calls ([EUndefined]) but the new one
    while another call runs, which is what the compiled code does, whose calls of
    [delete_wp] from the command loop have their frame at the same place. *)
Inductive wptr := Pool (i : Z) | Tmp.

#[export] Instance wptr_eq_dec : EqDecision wptr.
Proof. solve_decision. Defined.

(** [str] is the C string's bytes, without the terminator. *)
Record WP := mkWP { NO : Z; next : option wptr; wp_str : list Z; wp_val : Z }.

Definition set_next (n : option wptr) (w : WP) : WP := mkWP (NO w) n (wp_str w) (wp_val w).
Definition set_wp_str (s : list Z) (w : WP) : WP := mkWP (NO w) (next w) s (wp_val w).
Definition set_wp_val (v : Z) (w : WP) : WP := mkWP (NO w) (next w) (wp_str w) (u32 v).

(** [tmp] is the copy while [delete_wp] runs. *)
Record WpState := mkWps {
  wp_pool : arr WP; tmp : option WP; head : option wptr; free_ : option wptr }.

Definition wp0 : WP := mkWP 0 None [] 0.
Definition wps0 : WpState := mkWps (anew wp0) None None None.

Definition set_wp_pool p s := mkWps p (tmp s) (head s) (free_ s).
Definition set_tmp t s := mkWps (wp_pool s) t (head s) (free_ s).
Definition set_head h s := mkWps (wp_pool s) (tmp s) h (free_ s).
Definition set_free f s := mkWps (wp_pool s) (tmp s) (head s) f.

(** [*p]; the dead [tmp] is undefined. *)
Definition deref (p : wptr) : M WpState WP := λ s,
  match p with
  | Pool i => Ok (aget (wp_pool s) i) s
  | Tmp => match tmp s with Some w => Ok w s | None => Fail_ EUndefined end
  end.
Definition update (p : wptr) (f : WP → WP) : M WpState unit := λ s,
  match p with
  | Pool i => Ok tt (set_wp_pool (aset i (f (aget (wp_pool s) i)) (wp_pool s)) s)
  | Tmp => match tmp s with Some w => Ok tt (set_tmp (Some (f w)) s) | None => Fail_ EUndefined end
  end.

Definition init_wp_pool : M WpState unit :=
  _ ← for_ (Z.to_nat NR_WP) 0 (λ i,
    _ ← update (Pool i) (λ w, mkWP i (next w) (wp_str w) (wp_val w));
    update (Pool i) (set_next (Some (Pool (i + 1)))));
  _ ← update (Pool (NR_WP - 1)) (set_next None);
  _ ← modify (set_head None);
  modify (set_free (Some (Pool 0))).

(** [while (h->next != NULL && p(h->next)) h = h->next], from [h]. *)
Fixpoint walk (fuel : nat) (p : wptr → M WpState bool) (h : wptr) : M WpState wptr :=
  match fuel with
  | O => fail EFuel
  | S fuel =>
    w ← deref h;
    match next w with
    | None => mret h
    | Some n => b ← p n; if (b : bool) then walk fuel p n else mret h
    end
  end.

(** More steps than nodes: the lists have no cycle ([WpPool] facts). *)
Definition walk_fuel : nat := 64.

Definition new_wp : M WpState wptr :=
  s ← getS;
  match free_ s with
  | None => fail EAssert
  | Some w =>
    n ← deref w;
    _ ← modify (set_free (next n));
    _ ← update w (set_next None);
    s ← getS;
    _ ← match head s with
        | None => _ ← modify (set_head (Some w)); update w (set_next None)
        | Some h => h ← walk walk_fuel (λ _, mret true) h; update h (set_next (Some w))
        end;
    mret w
  end.

Definition free_WP (wp : wptr) : M WpState unit :=
  s ← getS;
  match head s with
  | None => mret tt
  | Some h =>
    hw ← deref h; w ← deref wp;
    if NO hw =? NO w then modify (set_head (next hw))
    else
      h ← walk walk_fuel (λ n, nw ← deref n; w ← deref wp; mret (negb (NO nw =? NO w))) h;
      hw ← deref h;
      match next hw with
      | None => mret tt
      | Some _ =>
        w ← deref wp;
        _ ← update h (set_next (next w));
        s ← getS;
        _ ← update wp (set_next None);
        match free_ s with
        | None => mret tt
        | Some p => p ← walk walk_fuel (λ _, mret true) p; update p (set_next (Some wp))
        end
      end
  end.

(** [WP tmp = wp_pool\[num\]; free_WP(&tmp)]: the copy dies on return. *)
Definition delete_wp (num : Z) : M WpState Z :=
  if (0 <=? num) && (num <? NR_WP) then
    _ ← modify (λ s, set_tmp (Some (aget (wp_pool s) num)) s);
    _ ← free_WP Tmp;
    _ ← modify (set_tmp None);
    mret 1
  else mret 0.

(** * The rest of the debugger's state *)

(** A token: [str\[32\]] keeps what earlier tokens left in it. *)
Record Token := mkToken { tk_type : Z; tk_str : arr Z }.

(** A symbol of the loaded ELF file, its name resolved in [strtab]. *)
Record Sym := mkSym { st_name : list Z; st_value : Z; st_size : Z; st_info : Z }.

Record Debug := mkDebug {
  tokens : arr Token; nr_token : Z; symtab : list Sym; wps : WpState }.

Definition set_tokens t d := mkDebug t (nr_token d) (symtab d) (wps d).
Definition set_nr_token n d := mkDebug (tokens d) n (symtab d) (wps d).
Definition set_wps w d := mkDebug (tokens d) (nr_token d) (symtab d) w.

Definition debug0 (syms : list Sym) : Debug :=
  mkDebug (anew (mkToken 0 (anew 0))) 0 syms wps0.
