(* ===== verification/WpSpec.v ===== *)
(** The watchpoint pool ([debug/watchpoint.c]) against its abstract behaviour: the
    watchpoints in use in the order of their creation, the free nodes, and whether the free
    list ends in the dead copy that [delete_wp] leaves on it. *)
From S2P Require Import Prelude WpPool.

(** * Chains of nodes *)
Definition first (l : list Z) (fin : option wptr) : option wptr := match l with [] => fin | i :: _ => Some (Pool i) end.

Fixpoint chain (pool : arr WP) (l : list Z) (fin : option wptr) : Prop :=
  match l with [] => True | i :: l => next (aget pool i) = first l fin ∧ chain pool l fin end.

Lemma first_app l1 l2 fin : first (l1 ++ l2) fin = first l1 (first l2 fin).
Proof. now destruct l1. Qed.

Lemma chain_app pool l1 l2 fin : chain pool (l1 ++ l2) fin ↔ chain pool l1 (first l2 fin) ∧ chain pool l2 fin.
Proof. induction l1 as [|i l1 IH]; cbn; [tauto|]. rewrite IH, first_app. tauto. Qed.

Lemma chain_other pool l fin i w : i ∉ l → chain pool l fin → chain (aset i w pool) l fin.
Proof.
  induction l as [|j l IH]; [done|]. intros Hi [Hj Hl]. rewrite not_elem_of_cons in Hi. destruct Hi as [Hne Hi]. cbn.
  rewrite aget_aset_ne by done. auto.
Qed.

(** The last node gets another successor. *)
Lemma chain_relink pool l x fin fin' : NoDup (l ++ [x]) → chain pool (l ++ [x]) fin →
  chain (aset x (set_next fin' (aget pool x)) pool) (l ++ [x]) fin'.
Proof.
  intros Hn Hc. apply list.NoDup_app in Hn as (_ & Hd & _). apply chain_app in Hc as [Hc _]. apply chain_app. split.
  - apply chain_other; [|exact Hc]. intros Hx. apply (Hd x Hx). now left.
  - cbn. now rewrite aget_aset_eq.
Qed.

(** * The pool *)
Definition end_of (d : bool) : option wptr := if d then Some Tmp else None.

(** [us] in use, [fs] free, [d]: the free list ends in the dead copy. *)
Record pool_rep (s : WpState) (us fs : list Z) (d : bool) : Prop := {
  pr_no i : 0 <= i < NR_WP → NO (aget (wp_pool s) i) = i;
  pr_nodup : NoDup (us ++ fs);
  pr_range i : i ∈ us ++ fs → 0 <= i < NR_WP;
  pr_length : (length (us ++ fs) <= 32)%nat;
  pr_head : head s = first us None;
  pr_free : free_ s = first fs (end_of d);
  pr_used : chain (wp_pool s) us None;
  pr_unused : chain (wp_pool s) fs (end_of d)
}.

(** ** Walks *)
Lemma last_split {A} (x : A) l : ∃ l0 y, x :: l = l0 ++ [y].
Proof. destruct (exists_last (l := x :: l)) as (l0 & y & E); [done|]. now exists l0, y. Qed.

(** Along nodes that satisfy the condition. *)
Lemma walk_along fuel p fin i l0 y s : chain (wp_pool s) (l0 ++ [y]) fin → first (l0 ++ [y]) fin = Some (Pool i) →
  (∀ k, k ∈ tail (l0 ++ [y]) → p (Pool k) s = Ok true s) → walk (length l0 + fuel) p (Pool i) s = walk fuel p (Pool y) s.
Proof.
  revert i. induction l0 as [|j l0 IH]; intros i Hc Hi Hp.
  { cbn in Hi. now injection Hi as ->. }
  cbn [app first] in Hi. injection Hi as ->. destruct Hc as [Hn Hc]. cbn [length Nat.add walk].
  rewrite (bind_Ok (deref (Pool i)) _ s _ s eq_refl), Hn. cbn [app tail] in Hp.
  destruct (first (l0 ++ [y]) fin) as [n|] eqn:En; [|now destruct l0].
  assert (∃ k, n = Pool k ∧ k ∈ l0 ++ [y]) as (k & -> & Hk).
  { destruct l0 as [|k l0]; cbn in En; injection En as <-; eexists; (split; [reflexivity|]); [now left|now left]. }
  rewrite (bind_Ok _ _ _ _ _ (Hp k Hk)). apply IH; [exact Hc|reflexivity|]. intros k' Hk'. apply Hp.
  destruct (l0 ++ [y]); [done|]. now right.
Qed.

(** To the last node of a list. *)
Lemma walk_end p i l0 y s : chain (wp_pool s) (l0 ++ [y]) None → first (l0 ++ [y]) None = Some (Pool i) →
  (∀ k, k ∈ tail (l0 ++ [y]) → p (Pool k) s = Ok true s) → (length l0 < walk_fuel)%nat → walk walk_fuel p (Pool i) s = Ok (Pool y) s.
Proof.
  intros Hc Hi Hp Hf. replace walk_fuel with (length l0 + S (walk_fuel - length l0 - 1))%nat by lia.
  rewrite (walk_along _ p None i l0 y s Hc Hi Hp). cbn [walk]. rewrite (bind_Ok (deref (Pool y)) _ s _ s eq_refl).
  apply chain_app in Hc as [_ [-> _]]. reflexivity.
Qed.

(** Up to a node that does not satisfy the condition. *)
Lemma walk_before p i l0 y n s : chain (wp_pool s) (l0 ++ [y]) (Some n) → first (l0 ++ [y]) (Some n) = Some (Pool i) →
  (∀ k, k ∈ tail (l0 ++ [y]) → p (Pool k) s = Ok true s) → p n s = Ok false s → (length l0 < walk_fuel)%nat →
  walk walk_fuel p (Pool i) s = Ok (Pool y) s.
Proof.
  intros Hc Hi Hp Hn Hf. replace walk_fuel with (length l0 + S (walk_fuel - length l0 - 1))%nat by lia.
  rewrite (walk_along _ p _ i l0 y s Hc Hi Hp). cbn [walk]. rewrite (bind_Ok (deref (Pool y)) _ s _ s eq_refl).
  apply chain_app in Hc as [_ [-> _]]. cbn [first]. now rewrite (bind_Ok _ _ _ _ _ Hn).
Qed.

(** To the copy, while it lives. *)
Lemma walk_tmp p l0 y i w s : chain (wp_pool s) (l0 ++ [y]) (Some Tmp) → first (l0 ++ [y]) (Some Tmp) = Some (Pool i) →
  (∀ n, p n s = Ok true s) → tmp s = Some w → next w = None → (length l0 + 1 < walk_fuel)%nat → walk walk_fuel p (Pool i) s = Ok Tmp s.
Proof.
  intros Hc Hi Hp Ht Hw Hf. replace walk_fuel with (length l0 + S (S (walk_fuel - length l0 - 2)))%nat by lia.
  rewrite (walk_along _ p _ i l0 y s Hc Hi); [|intros k _; apply Hp]. cbn [walk]. rewrite (bind_Ok (deref (Pool y)) _ s _ s eq_refl).
  apply chain_app in Hc as [_ [-> _]]. cbn [first]. rewrite (bind_Ok _ _ _ _ _ (Hp Tmp)).
  assert (deref Tmp s = Ok w s) as E by (unfold deref; now rewrite Ht). rewrite (bind_Ok _ _ _ _ _ E), Hw. reflexivity.
Qed.

Lemma update_run i f s : update (Pool i) f s = Ok tt (set_wp_pool (aset i (f (aget (wp_pool s) i)) (wp_pool s)) s).
Proof. done. Qed.

Lemma rep_head s us fs d : pool_rep s us fs d → head s = None ↔ us = [].
Proof. intros H. rewrite (pr_head _ _ _ _ H). now destruct us. Qed.

(** ** A new watchpoint *)
Lemma new_wp_ok s us w fs d : pool_rep s us (w :: fs) d → ∃ s', new_wp s = Ok (Pool w) s' ∧ pool_rep s' (us ++ [w]) fs d ∧ tmp s' = tmp s.
Proof.
  intros H. pose proof (pr_nodup _ _ _ _ H) as Hnd. pose proof (pr_unused _ _ _ _ H) as [Hw Hfs].
  assert (NoDup ((us ++ [w]) ++ fs)) as Hnd' by now rewrite <- app_assoc.
  pose proof Hnd' as Hnd2. apply list.NoDup_app in Hnd2 as (Hus & Hdis & _).
  assert (w ∉ fs) as Hwf by (apply Hdis, elem_of_app; right; now left).
  assert (w ∉ us) as Hwu. { intros Hin. apply list.NoDup_app in Hus as (_ & Hd & _). apply (Hd w Hin). now left. }
  set (p1 := aset w (set_next None (aget (wp_pool s) w)) (wp_pool s)).
  assert (∀ p' h', (∀ i, 0 <= i < NR_WP → NO (aget p' i) = i) → h' = first (us ++ [w]) None → chain p' (us ++ [w]) None → chain p' fs (end_of d) →
    pool_rep (mkWps p' (tmp s) h' (first fs (end_of d))) (us ++ [w]) fs d) as Hrep.
  { intros p' h' Hno Hh Hu Hf. split; try done; cbn [head wp_pool free_].
    - intros i Hi. apply (pr_range _ _ _ _ H). now rewrite <- app_assoc in Hi.
    - rewrite <- app_assoc. exact (pr_length _ _ _ _ H). }
  assert (∀ i, 0 <= i < NR_WP → NO (aget p1 i) = i) as Hno1.
  { intros i Hi. unfold p1. rewrite aget_aset. destruct (Z.eqb_spec w i) as [->|]; apply (pr_no _ _ _ _ H i Hi). }
  assert (chain p1 us None) as Hu1 by (apply chain_other; [done|apply H]).
  assert (chain p1 fs (end_of d)) as Hf1 by (apply chain_other; [done|exact Hfs]).
  assert (next (aget p1 w) = None) as Hw1 by (unfold p1; now rewrite aget_aset_eq).
  unfold new_wp. rewrite bind_getS, (pr_free _ _ _ _ H). cbn [first]. rewrite (bind_Ok (deref (Pool w)) _ s _ s eq_refl), bind_modify, Hw.
  rewrite (bind_Ok _ _ _ _ _ (update_run w _ _)), bind_getS.
  change (set_wp_pool _ _) with (mkWps p1 (tmp s) (head s) (first fs (end_of d))). cbn [head].
  rewrite (pr_head _ _ _ _ H). destruct us as [|u us].
  - cbn [first]. rewrite bind_bind, bind_modify.
    rewrite (bind_Ok _ _ _ _ _ (update_run w _ _)). eexists. split; [reflexivity|]. split; [|done]. apply Hrep; [|done| |now apply chain_other].
    + intros i Hi. rewrite aget_aset. destruct (Z.eqb_spec w i) as [->|]; apply (Hno1 i Hi).
    + cbn. rewrite aget_aset_eq. done.
  - cbn [first]. destruct (last_split u us) as (l0 & y & E). rewrite E in *.
    assert (first (l0 ++ [y]) None = Some (Pool u)) as Hfirst by (now rewrite <- E).
    assert (length l0 < walk_fuel)%nat as Hlen.
    { pose proof (pr_length _ _ _ _ H) as Hl. rewrite !length_app in Hl. unfold walk_fuel. cbn [length] in Hl. lia. }
    rewrite bind_bind. erewrite (bind_Ok (walk _ _ _)); [|apply (walk_end _ u l0 y); [exact Hu1|exact Hfirst|done|exact Hlen]].
    rewrite (bind_Ok _ _ _ _ _ (update_run y _ _)). eexists. split; [reflexivity|]. split; [|done].
    assert (y ≠ w) as Hyw. { intros ->. apply Hwu, elem_of_app. right. now left. }
    assert (y ∉ fs) as Hyf by (apply Hdis; rewrite !elem_of_app; left; right; now left).
    apply Hrep.
    + intros i Hi. rewrite aget_aset. destruct (Z.eqb_spec y i) as [->|]; apply (Hno1 i Hi).
    + rewrite first_app, <- Hfirst. now destruct l0.
    + apply chain_app. split; [|cbn; now rewrite aget_aset_ne].
      apply (chain_relink p1 l0 y None); [|exact Hu1]. now apply list.NoDup_app in Hus as (Hus & _).
    + now apply chain_other.
Qed.

(** ** Deleting a watchpoint *)

(** The rest of [free_WP(&tmp)] once the node is unlinked: the copy goes on the free list. *)
Definition put_on_free (wp : wptr) (f : option wptr) : M WpState unit :=
  match f with
  | None => mret tt
  | Some p => p ← walk walk_fuel (λ _, mret true) p; update p (set_next (Some wp))
  end.

Definition nonempty (fs : list Z) : bool := match fs with [] => false | _ => true end.

Lemma pool_rep_tmp t s us fs d : pool_rep s us fs d → pool_rep (set_tmp t s) us fs d.
Proof. intros []. now split. Qed.

Lemma put_on_free_ok s us fs d w : pool_rep s us fs d → tmp s = Some w → next w = None → ∃ s',
  put_on_free Tmp (free_ s) s = Ok tt s' ∧ pool_rep s' us fs (d || nonempty fs).
Proof.
  intros H Ht Hw. rewrite (pr_free _ _ _ _ H).
  assert (deref Tmp s = Ok w s) as Ed by (unfold deref; now rewrite Ht).
  assert (∀ s1, tmp s1 = Some w → ∃ w', update Tmp (set_next (Some Tmp)) s1 = Ok tt (set_tmp (Some w') s1)) as Eu.
  { intros s1 H1. unfold update. rewrite H1. now eexists. }
  destruct fs as [|f fs].
  - destruct d; cbn [first end_of put_on_free orb nonempty]; [|exists s; now split].
    change walk_fuel with (S (walk_fuel - 1)). cbn [walk]. rewrite bind_bind, (bind_Ok _ _ _ _ _ Ed), Hw. rewrite bind_ret.
    destruct (Eu s Ht) as (w' & E). rewrite E. eexists. split; [reflexivity|now apply pool_rep_tmp].
  - cbn [first put_on_free nonempty]. rewrite orb_true_r. destruct (last_split f fs) as (l0 & y & E).
    pose proof (pr_length _ _ _ _ H) as Hl. rewrite E, !length_app in Hl. cbn [length] in Hl.
    pose proof (pr_unused _ _ _ _ H) as Hc. rewrite E in Hc.
    assert (∀ fin, first (l0 ++ [y]) fin = Some (Pool f)) as Hfirst by (intros fin; now rewrite <- E).
    destruct d; cbn [end_of] in Hc.
    + erewrite bind_Ok; [|apply (walk_tmp _ l0 y f w); [exact Hc|apply Hfirst|done|exact Ht|exact Hw|unfold walk_fuel; lia]].
      destruct (Eu s Ht) as (w' & E'). rewrite E'. eexists. split; [reflexivity|now apply pool_rep_tmp].
    + erewrite bind_Ok; [|apply (walk_end _ f l0 y); [exact Hc|apply Hfirst|done|unfold walk_fuel; lia]]. rewrite update_run.
      eexists. split; [reflexivity|]. pose proof (pr_nodup _ _ _ _ H) as Hnd. rewrite E in Hnd.
      apply list.NoDup_app in Hnd as (_ & Hd & Hnf). destruct H as [Hno Hnd Hr Hln Hh Hfr Hu Hun].
      split; cbn [set_wp_pool head free_ wp_pool]; try done.
      * intros i Hi. rewrite aget_aset. destruct (Z.eqb_spec y i) as [->|]; apply (Hno i Hi).
      * apply chain_other; [|exact Hu]. intros Hin. apply (Hd y Hin). apply elem_of_app. right. now left.
      * rewrite E. now apply (chain_relink _ _ _ None).
Qed.

(** The condition of the search for the copied node. *)
Definition not_copied (n : wptr) : M WpState bool := nw ← deref n; w ← deref Tmp; mret (negb (NO nw =? NO w)).

Lemma not_copied_run s w k : tmp s = Some w → not_copied (Pool k) s = Ok (negb (NO (aget (wp_pool s) k) =? NO w)) s.
Proof.
  intros Ht. unfold not_copied. rewrite (bind_Ok (deref (Pool k)) _ s _ s eq_refl).
  assert (deref Tmp s = Ok w s) as E by (unfold deref; now rewrite Ht). now rewrite (bind_Ok _ _ _ _ _ E).
Qed.

(** A node is unlinked from the middle of the list. *)
Lemma unlink_ok s l0 y num l2 fs d : pool_rep s (l0 ++ y :: num :: l2) fs d →
  pool_rep (set_wp_pool (aset y (set_next (first l2 None) (aget (wp_pool s) y)) (wp_pool s)) s) (l0 ++ y :: l2) fs d.
Proof.
  intros [Hno Hnd Hr Hl Hh Hf Hu Hun].
  replace (l0 ++ y :: num :: l2) with ((l0 ++ [y]) ++ num :: l2) in * by now rewrite <- app_assoc.
  replace (l0 ++ y :: l2) with ((l0 ++ [y]) ++ l2) by now rewrite <- app_assoc.
  assert (Permutation (((l0 ++ [y]) ++ num :: l2) ++ fs) (num :: ((l0 ++ [y]) ++ l2) ++ fs)) as Hp.
  { rewrite <- Permutation_middle. reflexivity. }
  pose proof Hnd as Hnd'. rewrite Hp in Hnd'. apply list.NoDup_cons in Hnd' as (_ & Hnd').
  pose proof Hnd' as Hnd2. apply list.NoDup_app in Hnd2 as (Hnu & Hdis & _). apply list.NoDup_app in Hnu as (Hn0 & Hd2 & _).
  assert (y ∈ l0 ++ [y]) as Hy by (apply elem_of_app; right; now left).
  apply chain_app in Hu as [Hu1 [_ Hu2]]. split; cbn [set_wp_pool wp_pool head free_]; try done.
  - intros i Hi. rewrite aget_aset. destruct (Z.eqb_spec y i) as [->|]; apply (Hno i Hi).
  - intros i Hi. apply Hr. rewrite Hp. now right.
  - rewrite (Permutation_length Hp) in Hl. cbn [length] in Hl. lia.
  - rewrite Hh. now destruct l0.
  - apply chain_app. split; [now apply (chain_relink _ _ _ (first (num :: l2) None))|]. apply chain_other; [now apply Hd2|exact Hu2].
  - apply chain_other; [|exact Hun]. apply Hdis, elem_of_app. now left.
Qed.

(** * The abstract pool *)
Record Pools := mkPools { in_use : list Z; unused : list Z; dead : bool }.
Definition pools_rep (s : WpState) (p : Pools) : Prop := pool_rep s (in_use p) (unused p) (dead p).

(** A new watchpoint takes the first free node, and comes last. *)
Definition spec_new (p : Pools) : Z * Pools + err :=
  match unused p with
  | w :: fs => inl (w, mkPools (in_use p ++ [w]) fs (dead p))
  | [] => inr (if dead p then EUndefined else EAssert)
  end.

(** A deleted watchpoint is forgotten, and its node with it; unless it was the first one,
    what is left of the free list ends in the dead copy from then on. *)
Definition spec_delete (num : Z) (p : Pools) : Pools :=
  match in_use p with
  | [] => p
  | i :: l =>
    if i =? num then mkPools l (unused p) (dead p)
    else if bool_decide (num ∈ l) then
      mkPools (i :: List.filter (λ x, negb (x =? num)) l) (unused p) (dead p || nonempty (unused p))
    else p
  end.

Lemma filter_other num l : num ∉ l → List.filter (λ x, negb (x =? num)) l = l.
Proof.
  induction l as [|i l IH]; [done|]. rewrite not_elem_of_cons. intros [Hi Hl]. cbn. replace (i =? num) with false by lia. cbn. now rewrite IH.
Qed.

Lemma filter_middle num l1 l2 : num ∉ l1 → num ∉ l2 → List.filter (λ x, negb (x =? num)) (l1 ++ num :: l2) = l1 ++ l2.
Proof. intros H1 H2. rewrite List.filter_app. cbn. rewrite Z.eqb_refl. cbn. now rewrite !filter_other by done. Qed.

Lemma update_tmp_run w f s : tmp s = Some w → update Tmp f s = Ok tt (set_tmp (Some (f w)) s).
Proof. intros H. unfold update. now rewrite H. Qed.

Lemma deref_tmp w s : tmp s = Some w → deref Tmp s = Ok w s.
Proof. intros H. unfold deref. now rewrite H. Qed.

Lemma first_number s us fs d i l0 y : pool_rep s us fs d → i ∈ us → 0 <= i < NR_WP ∧ NO (aget (wp_pool s) i) = i ∧ (us = l0 ++ [y] → (length l0 < walk_fuel)%nat).
Proof.
  intros H Hi. assert (0 <= i < NR_WP) as Hr by (apply (pr_range _ _ _ _ H), elem_of_app; now left).
  split; [done|]. split; [now apply (pr_no _ _ _ _ H)|]. intros ->. pose proof (pr_length _ _ _ _ H) as Hl. rewrite !length_app in Hl.
  unfold walk_fuel. cbn [length] in Hl. lia.
Qed.

(** The search stops before the node, or at the end. *)
Lemma search_ok s i l fs d num : pool_rep s (i :: l) fs d → 0 <= num < NR_WP → tmp s = Some (aget (wp_pool s) num) → i ≠ num →
  ∃ l0 y l2, i :: l = l0 ++ y :: l2 ∧ walk walk_fuel not_copied (Pool i) s = Ok (Pool y) s ∧
    (((num ∉ l) ∧ l2 = []) ∨ (num ∈ l ∧ ∃ l3, l2 = num :: l3 ∧ i :: List.filter (λ x, negb (x =? num)) l = l0 ++ y :: l3)).
Proof.
  intros H Hnum Ht Hne.
  assert (∀ k, k ∈ i :: l → k ≠ num → not_copied (Pool k) s = Ok true s) as Hpass.
  { intros k Hk Hkn. rewrite (not_copied_run _ _ _ Ht), (pr_no _ _ _ _ H num Hnum).
    destruct (first_number s _ fs d k [] i H Hk) as (_ & -> & _). now replace (k =? num) with false by lia. }
  destruct (decide (num ∈ l)) as [Hin|Hin].
  - apply list_elem_of_split in Hin as (l1 & l2 & ->). pose proof (pr_nodup _ _ _ _ H) as Hnd.
    apply list.NoDup_app in Hnd as (Hnd & _). apply list.NoDup_cons in Hnd as (_ & Hnd). apply list.NoDup_app in Hnd as (_ & Hd1 & Hnd2).
    apply list.NoDup_cons in Hnd2 as (Hd2 & _). assert (num ∉ l1) as Hn1 by (intros Hx; apply (Hd1 num Hx); now left).
    destruct (last_split i l1) as (l0 & y & E). exists l0, y, (num :: l2).
    assert (∀ l', i :: l1 ++ l' = l0 ++ y :: l') as E2 by (intros l'; change (i :: l1 ++ l') with ((i :: l1) ++ l'); now rewrite E, <- app_assoc).
    split; [apply E2|]. split; [|right; split; [apply elem_of_app; right; now left|exists l2; rewrite filter_middle by done; auto]].
    pose proof (pr_used _ _ _ _ H) as Hu. rewrite E2 in Hu. replace (l0 ++ y :: num :: l2) with ((l0 ++ [y]) ++ num :: l2) in Hu by now rewrite <- app_assoc.
    apply chain_app in Hu as [Hu _]. apply (walk_before _ i l0 y (Pool num)); [exact Hu|now rewrite <- E| | |].
    + intros k Hk. rewrite <- E in Hk. apply Hpass; [right; apply elem_of_app; left; exact Hk|]. intros ->. now apply Hn1.
    + rewrite (not_copied_run _ _ _ Ht), !(pr_no _ _ _ _ H num Hnum). now rewrite Z.eqb_refl.
    + pose proof (pr_length _ _ _ _ H) as Hl. rewrite E2, !length_app in Hl. cbn [length] in Hl. unfold walk_fuel. lia.
  - destruct (last_split i l) as (l0 & y & E). exists l0, y, []. split; [exact E|]. split; [|now left].
    pose proof (pr_used _ _ _ _ H) as Hu. rewrite E in Hu. apply (walk_end _ i l0 y); [exact Hu|now rewrite <- E| |].
    + intros k Hk. rewrite <- E in Hk. apply Hpass; [now right|]. intros ->. now apply Hin.
    + destruct (first_number s _ fs d i l0 y H ltac:(now left)) as (_ & _ & Hl). now apply Hl.
Qed.

(** [free_WP(&tmp)], [tmp] a copy of the node [num]. *)
Lemma free_WP_ok s p num : pools_rep s p → 0 <= num < NR_WP → tmp s = Some (aget (wp_pool s) num) →
  ∃ s', free_WP Tmp s = Ok tt s' ∧ pools_rep s' (spec_delete num p).
Proof.
  unfold pools_rep, spec_delete. destruct p as [us fs d]. cbn [in_use unused dead]. intros H Hnum Ht.
  unfold free_WP. rewrite bind_getS, (pr_head _ _ _ _ H). destruct us as [|i l]; [exists s; now split|]. cbn [first].
  rewrite (bind_Ok (deref (Pool i)) _ s _ s eq_refl), (bind_Ok _ _ _ _ _ (deref_tmp _ _ Ht)).
  rewrite (pr_no _ _ _ _ H num Hnum). destruct (first_number s _ fs d i [] i H ltac:(now left)) as (Hi & -> & _).
  destruct (Z.eqb_spec i num) as [->|Hne].
  { eexists. split; [reflexivity|]. destruct H as [Hno Hnd Hr Hl Hh Hf [Hn Hu] Hun].
    apply list.NoDup_cons in Hnd as (_ & Hnd). split; cbn [set_head head wp_pool free_ in_use unused dead]; try done.
    - intros j Hj. apply Hr. now right.
    - rewrite length_app in Hl |- *. cbn [length] in Hl. lia. }
  change (λ n, nw ← deref n; w ← deref Tmp; mret (negb (NO nw =? NO w))) with not_copied.
  destruct (search_ok s i l fs d num H Hnum Ht Hne) as (l0 & y & l2 & E & Ew & Hcase).
  rewrite (bind_Ok _ _ _ _ _ Ew), (bind_Ok (deref (Pool y)) _ s _ s eq_refl).
  pose proof (pr_used _ _ _ _ H) as Hu. rewrite E in H, Hu. apply chain_app in Hu as [_ [-> Hu]].
  destruct Hcase as [(Hin & ->)|(Hin & l3 & -> & ->)]; [rewrite bool_decide_false by done|rewrite bool_decide_true by done].
  { exists s. cbn [in_use unused dead]. split; [reflexivity|now rewrite E]. }
  cbn [first]. destruct Hu as [Hnext _]. rewrite (bind_Ok _ _ _ _ _ (deref_tmp _ _ Ht)), Hnext, (bind_Ok _ _ _ _ _ (update_run y _ _)), bind_getS.
  set (s2 := set_wp_pool _ s). rewrite (bind_Ok _ _ _ _ _ (update_tmp_run _ _ s2 Ht)).
  change (free_ s2) with (free_ (set_tmp (Some (set_next None (aget (wp_pool s) num))) s2)).
  apply (put_on_free_ok _ _ fs d (set_next None (aget (wp_pool s) num))); [|reflexivity|reflexivity].
  apply pool_rep_tmp, (unlink_ok s l0 y num l3 fs d H).
Qed.

Lemma delete_wp_ok s p num : pools_rep s p → 0 <= num < NR_WP → ∃ s', delete_wp num s = Ok 1 s' ∧ pools_rep s' (spec_delete num p) ∧ tmp s' = None.
Proof.
  intros H Hnum. unfold delete_wp. replace ((0 <=? num) && (num <? NR_WP)) with true by lia. rewrite bind_modify.
  destruct (free_WP_ok (set_tmp (Some (aget (wp_pool s) num)) s) p num) as (s' & E & H'); [now apply pool_rep_tmp|done|done|].
  rewrite (bind_Ok _ _ _ _ _ E). eexists. split; [reflexivity|]. split; [now apply pool_rep_tmp|done].
Qed.

(** * Runs *)
Inductive wp_op := New | Delete (num : Z).

Definition wp_step (o : wp_op) : M WpState unit :=
  match o with New => _ ← new_wp; mret tt | Delete num => _ ← delete_wp num; mret tt end.
Fixpoint wp_run (ops : list wp_op) : M WpState unit :=
  match ops with [] => mret tt | o :: ops => _ ← wp_step o; wp_run ops end.

Definition spec_step (o : wp_op) (p : Pools) : Pools + err :=
  match o with
  | New => match spec_new p with inl (_, p) => inl p | inr e => inr e end
  | Delete num => inl (if (0 <=? num) && (num <? NR_WP) then spec_delete num p else p)
  end.
Fixpoint spec_run (ops : list wp_op) (p : Pools) : Pools + err :=
  match ops with [] => inl p | o :: ops => match spec_step o p with inl p => spec_run ops p | inr e => inr e end end.

Definition pools0 : Pools := mkPools [] (map Z.of_nat (seq 0 32)) false.

Lemma wp_step_ok s p o : pools_rep s p → tmp s = None →
  match spec_step o p with
  | inl p' => ∃ s', wp_step o s = Ok tt s' ∧ pools_rep s' p' ∧ tmp s' = None
  | inr e => wp_step o s = Fail_ e
  end.
Proof.
  intros H Ht. destruct o as [|num]; cbn [spec_step wp_step].
  - unfold spec_new. destruct p as [us [|w fs] d]; cbn [in_use unused dead].
    + unfold new_wp. rewrite bind_bind, bind_getS, (pr_free _ _ _ _ H). destruct d; cbn [first unused end_of dead]; [|reflexivity].
      unfold mbind, M_bind. cbn [deref]. now rewrite Ht.
    + destruct (new_wp_ok s us w fs d H) as (s' & E & H' & Ht'). rewrite (bind_Ok _ _ _ _ _ E). exists s'. split; [done|]. split; [done|congruence].
  - destruct ((0 <=? num) && (num <? NR_WP)) eqn:E.
    + destruct (delete_wp_ok s p num H ltac:(lia)) as (s' & E' & H'). rewrite (bind_Ok _ _ _ _ _ E'). now exists s'.
    + unfold delete_wp. rewrite E, bind_ret. now exists s.
Qed.

Lemma wp_run_ok ops s p : pools_rep s p → tmp s = None →
  match spec_run ops p with
  | inl p' => ∃ s', wp_run ops s = Ok tt s' ∧ pools_rep s' p'
  | inr e => wp_run ops s = Fail_ e
  end.
Proof.
  revert s p. induction ops as [|o ops IH]; intros s p H Ht; cbn [spec_run wp_run]; [now exists s|].
  pose proof (wp_step_ok s p o H Ht) as Hs. destruct (spec_step o p) as [p'|e].
  - destruct Hs as (s' & E & H' & Ht'). rewrite (bind_Ok _ _ _ _ _ E). now apply IH.
  - unfold mbind, M_bind. now rewrite Hs.
Qed.

(** The pool as [init_wp_pool] leaves it. *)
Definition wps1 : WpState := match init_wp_pool wps0 with Ok _ s => s | _ => wps0 end.

Lemma wps1_run : init_wp_pool wps0 = Ok tt wps1.
Proof. unfold wps1. now destruct (init_wp_pool wps0) as [[] s| |] eqn:E; [|vm_compute in E; discriminate..]. Qed.

Lemma wps1_rep : pools_rep wps1 pools0.
Proof.
  assert (∀ k, (k < 32)%nat → NO (aget (wp_pool wps1) (Z.of_nat k)) = Z.of_nat k) as Hno.
  { intros k Hk. assert (forallb (λ k, NO (aget (wp_pool wps1) (Z.of_nat k)) =? Z.of_nat k) (seq 0 32) = true) as Hall by (vm_compute; reflexivity).
    rewrite forallb_forall in Hall. apply Z.eqb_eq, Hall, in_seq. lia. }
  split; cbn [pools0 in_use unused dead app].
  - intros i Hi. unfold NR_WP in Hi. specialize (Hno (Z.to_nat i) ltac:(lia)). now rewrite Z2Nat.id in Hno by lia.
  - change (NoDup (Z.of_nat <$> seq 0 32)). apply NoDup_fmap; [intros x y; lia|apply NoDup_seq].
  - intros i (k & <- & Hk%in_seq)%list_elem_of_In%in_map_iff. unfold NR_WP. lia.
  - now rewrite length_map, length_seq.
  - vm_compute. reflexivity.
  - vm_compute. reflexivity.
  - exact I.
  - vm_compute. repeat split.
Qed.

(** ** The pool as a client of the two operations finds it *)

(** Between calls: in the state of an abstract pool reached by some operations. *)
Definition wps_ok (w : WpState) : Prop :=
  tmp w = None ∧ ∃ ops p, spec_run ops pools0 = inl p ∧ pools_rep w p.

Lemma wps1_ok : wps_ok wps1.
Proof. split; [vm_compute; reflexivity|]. exists [], pools0. split; [done|apply wps1_rep]. Qed.

Lemma spec_run_snoc ops o p q r : spec_run ops p = inl q → spec_step o q = inl r → spec_run (ops ++ [o]) p = inl r.
Proof.
  revert p; induction ops as [|o' ops IH]; intros p; cbn [spec_run app].
  - intros [= ->] E. now rewrite E.
  - destruct (spec_step o' p); [apply IH|discriminate].
Qed.

Lemma keeps_wp_op {A} o (m : M WpState A) : wp_step o = (_ ← m; mret tt) → keeps wps_ok m.
Proof.
  intros Em s (Ht & ops & p & Hr & Hp). pose proof (wp_step_ok s p o Hp Ht) as H. rewrite Em in H.
  unfold mbind, M_bind in H. destruct (spec_step o p) as [p'|e] eqn:E.
  - destruct H as (s' & H & Hp' & Ht'). destruct (m s); [|discriminate|discriminate]. injection H as ->.
    split; [done|]. exists (ops ++ [o]), p'. split; [|done]. now apply (spec_run_snoc _ _ _ p).
  - destruct (m s); [discriminate|discriminate|exact I].
Qed.

Lemma keeps_new_wp : keeps wps_ok new_wp.
Proof. now apply (keeps_wp_op New). Qed.

Lemma keeps_delete_wp num : keeps wps_ok (delete_wp num).
Proof. now apply (keeps_wp_op (Delete num)). Qed.

(** Assignments to the other members of a node. *)
Definition keeps_links (f : WP → WP) : Prop := ∀ w, NO (f w) = NO w ∧ next (f w) = next w.

Lemma chain_kept pool l fin i f : keeps_links f → chain pool l fin → chain (aset i (f (aget pool i)) pool) l fin.
Proof.
  intros Hf. induction l as [|j l IH]; [done|]. intros [Hj Hl]. split; [|now apply IH].
  rewrite aget_aset. destruct (Z.eqb_spec i j) as [->|]; [|done]. now rewrite (proj2 (Hf _)).
Qed.

Lemma rep_update s us fs d i f : keeps_links f → pool_rep s us fs d →
  pool_rep (set_wp_pool (aset i (f (aget (wp_pool s) i)) (wp_pool s)) s) us fs d.
Proof.
  intros Hf [Hno Hn Hr Hl Hh Hfr Hu Hun]. split; cbn [set_wp_pool wp_pool head free_]; try done; try now apply chain_kept.
  intros j Hj. rewrite aget_aset. destruct (Z.eqb_spec i j) as [->|]; [|now apply Hno].
  rewrite (proj1 (Hf _)). now apply Hno.
Qed.

Lemma keeps_update n f : keeps_links f → keeps wps_ok (update n f).
Proof.
  intros Hf s (Ht & ops & p & Hr & Hp). destruct n as [i|]; cbn [update]; [|now rewrite Ht].
  split; [exact Ht|]. exists ops, p. split; [exact Hr|]. now apply rep_update.
Qed.

Lemma keeps_links_str str : keeps_links (set_wp_str str).
Proof. done. Qed.
Lemma keeps_links_val v : keeps_links (set_wp_val v).
Proof. done. Qed.

Lemma keeps_deref (P : WpState → Prop) n : keeps P (deref n).
Proof. intros s Hs. destruct n as [i|]; cbn [deref]; [exact Hs|]. now destruct (tmp s). Qed.
#[export] Hint Resolve keeps_new_wp keeps_delete_wp keeps_update keeps_links_str keeps_links_val keeps_deref : nemu.

(** C40: Whatever watchpoints are created and deleted after [init_wp_pool], in any order, the
    pool's linked lists behave as the abstract pool: watchpoints are listed in the order of
    their creation, numbers are given out once, from 0 to 31, and a deleted one is never
    reused.  Creating one more stops on the assertion when the free list is at its end,
    or reads the dead copy [delete_wp] left there, which it does when any watchpoint but the
    first of the list was deleted while some were free. *)
Theorem pool_refines ops :
  match spec_run ops pools0 with
  | inl p => ∃ s, (_ ← init_wp_pool; wp_run ops) wps0 = Ok tt s ∧ pools_rep s p
  | inr e => (_ ← init_wp_pool; wp_run ops) wps0 = Fail_ e
  end.
Proof.
  rewrite (bind_Ok _ _ _ _ _ wps1_run). apply wp_run_ok; [exact wps1_rep|vm_compute; reflexivity].
Qed.

(** Two watchpoints, the second deleted: the pool fails at the 33rd creation, by a read of
    the dead copy; without the deletion, by the assertion. *)
Example dead_copy_read : (_ ← init_wp_pool; wp_run (New :: New :: Delete 1 :: repeat New 31)) wps0 = Fail_ EUndefined ∧
  (_ ← init_wp_pool; wp_run (repeat New 33)) wps0 = Fail_ EAssert.
Proof. split; vm_compute; reflexivity. Qed.
