(* ===== verification/Machine.v ===== *)
(** The whole emulated machine: the CPU, its decoder's operands, the memory hierarchy,
    the TLB, the buses and the devices, as one record, and the monad its code runs in.
    Each component's own operations run in it through [zoom]. *)
From S2P Require Import Prelude Dram Cache Tlb Cpu I8259 Mmio Vga WpPool.

(** * The decoder's operands: [nemu/include/cpu/decode/operand.h] *)
Definition OP_TYPE_REG : Z := 0.
Definition OP_TYPE_MEM : Z := 1.
Definition OP_TYPE_IMM : Z := 2.

(** The members [reg], [addr], [imm] and [simm] of the union are the same four bytes,
    [op_u]; [sreg] is the byte after them.  The text [str] is left out. *)
Record Operand := mkOperand {
  op_type : Z; op_size : Z; op_u : Z; op_sreg : Z; op_val : Z }.

Definition operand0 : Operand := mkOperand 0 0 0 0 0.

Definition set_op_type t o := mkOperand t (op_size o) (op_u o) (op_sreg o) (op_val o).
Definition set_op_size n o := mkOperand (op_type o) n (op_u o) (op_sreg o) (op_val o).
Definition set_op_u u o := mkOperand (op_type o) (op_size o) (u32 u) (op_sreg o) (op_val o).
Definition set_op_sreg r o := mkOperand (op_type o) (op_size o) (op_u o) (u8 r) (op_val o).
Definition set_op_val v o := mkOperand (op_type o) (op_size o) (op_u o) (op_sreg o) (u32 v).

Record Operands := mkOperands {
  opcode : Z; is_operand_size_16 : bool; src : Operand; dest : Operand; src2 : Operand }.

(** Which of the three operands a pointer names. *)
Inductive opref := op_src | op_dest | op_src2.

Definition operand (r : opref) (o : Operands) : Operand :=
  match r with op_src => src o | op_dest => dest o | op_src2 => src2 o end.

Definition set_operand (r : opref) (f : Operand → Operand) (o : Operands) : Operands :=
  match r with
  | op_src => mkOperands (opcode o) (is_operand_size_16 o) (f (src o)) (dest o) (src2 o)
  | op_dest => mkOperands (opcode o) (is_operand_size_16 o) (src o) (f (dest o)) (src2 o)
  | op_src2 => mkOperands (opcode o) (is_operand_size_16 o) (src o) (dest o) (f (src2 o))
  end.

(** * Devices *)
Inductive mmio_cb := vga_vmem_cb.
Inductive pio_cb := serial_cb | vga_dac_cb | vga_crtc_cb | i8042_cb | ide_cb | bmr_cb.

(** The disk image opened with [fopen(exec_file, "r+")]: its bytes, size, position and
    end-of-file indicator. *)
Record File := mkFile { f_data : arr Z; f_size : Z; f_pos : Z; f_eof : bool }.

Record Ide := mkIde {
  sector : Z; disk_idx : Z; byte_cnt : Z; ide_write : bool; disk_fp : File }.

(** The statics of [nemu/src/device/sdl.c]. *)
Record Sdl := mkSdl { jiffy : Z; device_update_flag : bool; update_screen_flag : bool }.

(** [nemu_state] *)
Definition STOP : Z := 0.
Definition RUNNING : Z := 1.
Definition END : Z := 2.

Section Machine.
Context `{HRand : !LibcRand}.

(** [serial_out] is what was written to the host's stdout, last byte first. *)
Record Machine := mkMachine {
  cpu : CPU_state;
  ops_decoded : Operands;
  caches : Caches;
  tlb : TLB;
  mmio : Mmio mmio_cb;
  vga : Vga;
  pic : Pic;
  pio : Pio pio_cb;
  serial_out : list Z;
  newkey : bool;
  ide : Ide;
  nemu_state : Z;
  sdl : Sdl;
  debug : Debug
}.

Definition set_cpu x s := mkMachine x (ops_decoded s) (caches s) (tlb s) (mmio s) (vga s) (pic s)
  (pio s) (serial_out s) (newkey s) (ide s) (nemu_state s) (sdl s) (debug s).
Definition set_ops x s := mkMachine (cpu s) x (caches s) (tlb s) (mmio s) (vga s) (pic s)
  (pio s) (serial_out s) (newkey s) (ide s) (nemu_state s) (sdl s) (debug s).
Definition set_caches x s := mkMachine (cpu s) (ops_decoded s) x (tlb s) (mmio s) (vga s) (pic s)
  (pio s) (serial_out s) (newkey s) (ide s) (nemu_state s) (sdl s) (debug s).
Definition set_tlb x s := mkMachine (cpu s) (ops_decoded s) (caches s) x (mmio s) (vga s) (pic s)
  (pio s) (serial_out s) (newkey s) (ide s) (nemu_state s) (sdl s) (debug s).
Definition set_mmio x s := mkMachine (cpu s) (ops_decoded s) (caches s) (tlb s) x (vga s) (pic s)
  (pio s) (serial_out s) (newkey s) (ide s) (nemu_state s) (sdl s) (debug s).
Definition set_vga x s := mkMachine (cpu s) (ops_decoded s) (caches s) (tlb s) (mmio s) x (pic s)
  (pio s) (serial_out s) (newkey s) (ide s) (nemu_state s) (sdl s) (debug s).
Definition set_pic x s := mkMachine (cpu s) (ops_decoded s) (caches s) (tlb s) (mmio s) (vga s) x
  (pio s) (serial_out s) (newkey s) (ide s) (nemu_state s) (sdl s) (debug s).
Definition set_pio x s := mkMachine (cpu s) (ops_decoded s) (caches s) (tlb s) (mmio s) (vga s) (pic s)
  x (serial_out s) (newkey s) (ide s) (nemu_state s) (sdl s) (debug s).
Definition set_serial_out x s := mkMachine (cpu s) (ops_decoded s) (caches s) (tlb s) (mmio s) (vga s)
  (pic s) (pio s) x (newkey s) (ide s) (nemu_state s) (sdl s) (debug s).
Definition set_newkey x s := mkMachine (cpu s) (ops_decoded s) (caches s) (tlb s) (mmio s) (vga s)
  (pic s) (pio s) (serial_out s) x (ide s) (nemu_state s) (sdl s) (debug s).
Definition set_ide x s := mkMachine (cpu s) (ops_decoded s) (caches s) (tlb s) (mmio s) (vga s)
  (pic s) (pio s) (serial_out s) (newkey s) x (nemu_state s) (sdl s) (debug s).
Definition set_nemu_state x s := mkMachine (cpu s) (ops_decoded s) (caches s) (tlb s) (mmio s) (vga s)
  (pic s) (pio s) (serial_out s) (newkey s) (ide s) x (sdl s) (debug s).

Definition set_sdl x s := mkMachine (cpu s) (ops_decoded s) (caches s) (tlb s) (mmio s) (vga s)
  (pic s) (pio s) (serial_out s) (newkey s) (ide s) (nemu_state s) x (debug s).
Definition set_debug x s := mkMachine (cpu s) (ops_decoded s) (caches s) (tlb s) (mmio s) (vga s)
  (pic s) (pio s) (serial_out s) (newkey s) (ide s) (nemu_state s) (sdl s) x.

#[local] Abbreviation NEMU := (M Machine).

Definition in_caches {A} (m : M Caches A) : NEMU A := zoom caches set_caches m.
Definition in_vga {A} (m : M Vga A) : NEMU A := zoom vga set_vga m.
Definition in_pic {A} (m : M Pic A) : NEMU A := zoom pic set_pic m.

Definition in_debug {A} (m : M Debug A) : NEMU A := zoom debug set_debug m.
Definition in_wps {A} (m : M WpState A) : NEMU A := in_debug (zoom wps set_wps m).

Definition get_cpu {A} (f : CPU_state → A) : NEMU A := gets (λ s, f (cpu s)).
Definition mod_cpu (f : CPU_state → CPU_state) : NEMU unit := modify (λ s, set_cpu (f (cpu s)) s).

(** [op->field], and [op->field = ...]. *)
Definition get_op {A} (r : opref) (f : Operand → A) : NEMU A :=
  gets (λ s, f (operand r (ops_decoded s))).
Definition mod_op (r : opref) (f : Operand → Operand) : NEMU unit :=
  modify (λ s, set_ops (set_operand r f (ops_decoded s)) s).

(** The registers, through [check_reg_index]. *)
Definition reg_l (i : Z) : NEMU Z := i ← check_reg_index i; get_cpu (gpr_l i).
Definition reg_w (i : Z) : NEMU Z := i ← check_reg_index i; get_cpu (gpr_w i).
Definition reg_b (i : Z) : NEMU Z := i ← check_reg_index i; get_cpu (gpr_b i).
Definition set_reg_l (i v : Z) : NEMU unit := i ← check_reg_index i; mod_cpu (set_gpr_l i v).
Definition set_reg_w (i v : Z) : NEMU unit := i ← check_reg_index i; mod_cpu (set_gpr_w i v).
Definition set_reg_b (i v : Z) : NEMU unit := i ← check_reg_index i; mod_cpu (set_gpr_b i v).
End Machine.

(** The monad of the emulator's code. *)
Abbreviation NEMU := (M Machine).
