(* ===== verification/Memory.v ===== *)
(** The memory interface of [nemu/src/memory/memory.c]: hardware, linear and
    segmented addresses, paging through the TLB, accesses across a page. *)
From S2P Require Import Prelude Dram Cache Tlb Cpu I8259 Mmio Vga Machine.

Section Memory.
Context `{HRand : !LibcRand, HJunk : !StackJunk}.

(** The callback of a memory map, run on the machine. *)
Definition mmio_callback (cb : mmio_cb) (addr len : Z) (is_write : bool) : NEMU unit :=
  match cb with vga_vmem_cb => in_vga (vga_vmem_io_handler addr len is_write) end.

(** * Hardware addresses *)
Definition hwaddr_read (addr len : Z) : NEMU Z :=
  map_NO ← gets (λ s, is_mmio (mmio s) addr);
  if map_NO =? -1 then
    v ← in_caches (Cache_1_read addr len);
    mret (Z.land v (len_mask len))
  else
    v ← mmio_read mmio mmio_callback addr len map_NO;
    mret (Z.land v (len_mask len)).

Definition hwaddr_write (addr len data : Z) : NEMU unit :=
  if addr =? 0 then mret tt else
  map_NO ← gets (λ s, is_mmio (mmio s) addr);
  if map_NO =? -1 then in_caches (Cache_1_write addr len data)
  else mmio_write mmio set_mmio mmio_callback addr len data map_NO.

(** * Paging *)
Definition tlb_update (addr hwaddr : Z) : NEMU unit := λ s,
  let '(t, st) := TLB_update addr hwaddr (tlb s) in
  let c := caches s in
  Ok tt (set_tlb t (set_caches (mkCaches (L1 c) (L2 c) (cdram c) st) s)).

Definition page_translate (addr : Z) : NEMU Z :=
  s ← getS;
  if (paging (cpu s) =? 1) && (protect_enable (cpu s) =? 1) then
    let hwaddr := TLB_translate (tlb s) addr in
    if hwaddr =? 2 ^ 32 - 1 then
      let dir := Z.shiftr addr 22 in
      let page := Z.land (Z.shiftr addr 12) 0x3ff in
      let offset := Z.land addr 0xfff in
      let page_directory := Z.lor (u32 (Z.shiftl (page_directory_base (cpu s)) 12)) (Z.shiftl dir 2) in
      pde ← hwaddr_read page_directory 4;
      _ ← cassert (PDE_present pde =? 1);
      let page_entry := Z.lor (u32 (Z.shiftl (PDE_page_frame pde) 12)) (Z.shiftl page 2) in
      pte ← hwaddr_read page_entry 4;
      _ ← cassert (PTE_present pte =? 1);
      let hwaddr := Z.lor offset (u32 (Z.shiftl (PTE_page_frame pte) 12)) in
      _ ← tlb_update addr hwaddr;
      mret hwaddr
    else
      let offset := Z.land addr 0xfff in
      mret (Z.lor (Z.land hwaddr 0xfffff000) offset)
  else mret addr.

(** * Linear addresses *)
Definition lnaddr_read (addr len : Z) : NEMU Z :=
  _ ← cassert ((len =? 1) || (len =? 2) || (len =? 4));
  if 0xfff <? Z.land addr 0xfff + len - 1 then
    let front := 0xfff - Z.land addr 0xfff + 1 in
    let back := len - front in
    h ← page_translate addr;
    low ← hwaddr_read h front;
    h ← page_translate (u32 (addr + front));
    high ← hwaddr_read h back;
    mret (Z.lor (u32 (Z.shiftl high (front * 8))) low)
  else
    hwaddr ← page_translate addr;
    hwaddr_read hwaddr len.

Definition lnaddr_write (addr len data : Z) : NEMU unit :=
  if 0xfff <? Z.land addr 0xfff + len - 1 then
    let front := 0xfff - Z.land addr 0xfff + 1 in
    let back := len - front in
    let high := Z.shiftr data (8 * front) in
    let low := Z.land data (Z.shiftl 1 (front * 8) - 1) in
    h ← page_translate addr;
    _ ← hwaddr_write h front low;
    h ← page_translate (u32 (addr + front));
    hwaddr_write h back high
  else
    hwaddr ← page_translate addr;
    hwaddr_write hwaddr len data.

(** * Segments *)
Definition seg_base (r : SegReg) : Z :=
  let d := seg_cache r in
  Z.lor (Z.lor (SegDesc_base_15_0 d) (Z.shiftl (SegDesc_base_23_16 d) 16))
        (Z.shiftl (SegDesc_base_31_24 d) 24).

Definition seg_translate (addr len sr : Z) : NEMU Z :=
  _ ← cassert ((sr =? 0) || (sr =? 1) || (sr =? 2) || (sr =? 3));
  c ← get_cpu id;
  if protect_enable c =? 1 then mret (u32 (addr + seg_base (aget (sreg c) sr)))
  else mret addr.

Definition swaddr_read (addr len sr : Z) : NEMU Z :=
  _ ← cassert ((len =? 1) || (len =? 2) || (len =? 4));
  lnaddr ← seg_translate addr len sr;
  lnaddr_read lnaddr len.

Definition swaddr_write (addr len data sr : Z) : NEMU unit :=
  _ ← cassert ((len =? 1) || (len =? 2) || (len =? 4));
  lnaddr ← seg_translate addr len sr;
  lnaddr_write lnaddr len data.

(** [instr_fetch] of [nemu/include/cpu/helper.h]: through CS. *)
Definition instr_fetch (addr len : Z) : NEMU Z := swaddr_read addr len 1.
End Memory.
