(* ===== verification/MemFacts.v ===== *)
(** The memory interface over any flat memory: what the code of [Memory] promises when
    [hwaddr_read] and [hwaddr_write] behave as a flat memory ([FlatMemory]), and the
    instance of that interface which the caches give for a working set. *)
From S2P Require Import Prelude Dram Cache L2Facts CacheFacts CacheSpec WorkingSet.
From S2P Require Import Tlb Cpu I8259 Mmio Vga Machine Memory.

Section Frames.
Context `{HRand : !LibcRand}.

(** [s'] is [s] but for the caches and the TLB: what a memory access may change. *)
Definition only_mem (s s' : Machine) : Prop := s' = set_tlb (tlb s') (set_caches (caches s') s).

(** The state a memory access depends on is the same. *)
Record same_mem (s s' : Machine) : Prop := {
  sm_L1 : L1 (caches s') = L1 (caches s);
  sm_L2 : L2 (caches s') = L2 (caches s);
  sm_dram : cdram (caches s') = cdram (caches s);
  sm_mmio : mmio s' = mmio s
}.

Lemma only_mem_refl s : only_mem s s.
Proof. now destruct s. Qed.

Lemma only_mem_trans s1 s2 s3 : only_mem s1 s2 → only_mem s2 s3 → only_mem s1 s3.
Proof. unfold only_mem. intros H1 H2. rewrite H2, H1. reflexivity. Qed.

Lemma only_caches s c : only_mem s (set_caches c s).
Proof. now destruct s. Qed.

Lemma only_mem_cpu s s' : only_mem s s' → cpu s' = cpu s.
Proof. intros ->. reflexivity. Qed.

Lemma only_mem_ops s s' : only_mem s s' → ops_decoded s' = ops_decoded s.
Proof. intros ->. reflexivity. Qed.

Lemma only_mem_mmio s s' : only_mem s s' → mmio s' = mmio s.
Proof. intros ->. reflexivity. Qed.

Lemma only_mem_pic s s' : only_mem s s' → pic s' = pic s.
Proof. intros ->. reflexivity. Qed.
End Frames.
#[export] Hint Resolve only_mem_refl only_caches : nemu.
#[export] Hint Rewrite @only_mem_cpu @only_mem_ops using eassumption : cpu.

(** * The interface: hardware addresses as a flat memory

    [Inv f s]: the machine [s] shows the bytes [f]; [ok a len]: the [len] bytes at
    [a] are memory. *)
Class FlatMemory `{HRand : !LibcRand, HJunk : !StackJunk}
    (Inv : (Z → Z) → Machine → Prop) (ok : Z → Z → Prop) := {
  fm_ok a len : ok a len → 0 <= a ∧ 1 <= len <= 4 ∧ a + len <= 2 ^ 32;
  fm_bytes f s : Inv f s → ∀ b, 0 <= b < 2 ^ 32 → 0 <= f b < 256;
  fm_ext f g s : (∀ b, 0 <= b < 2 ^ 32 → f b = g b) → Inv f s → Inv g s;
  fm_frame f s s' : same_mem s s' → Inv f s → Inv f s';
  fm_read f s a len : Inv f s → ok a len →
    ∃ c, hwaddr_read a len s = Ok (le_load (Z.to_nat len) f a) (set_caches c s) ∧
         Inv f (set_caches c s);
  fm_write f s a len v : Inv f s → ok a len → a ≠ 0 →
    ∃ c, hwaddr_write a len v s = Ok tt (set_caches c s) ∧
         Inv (flat_store f a len v) (set_caches c s)
}.

(** * The caches as a flat memory *)
Section Cached.
Context `{HRand : !LibcRand, HJunk : !StackJunk}.
Context (W : working_set) (maps : list (MMIO_t mmio_cb)).

Definition cached_inv (f : Z → Z) (s : Machine) : Prop :=
  ws_ok W (caches s) ∧ mmio_maps (mmio s) = maps ∧
  ∀ b, 0 <= b < 2 ^ 32 → cmem (caches s) b = f b.

Definition cached_ok (a len : Z) : Prop :=
  ws_acc W a len ∧ ∀ m, m ∈ maps → ¬ (mm_low m <= a <= mm_high m).

Lemma in_caches_Ok {A} (m : M Caches A) s a c :
  m (caches s) = Ok a c → in_caches m s = Ok a (set_caches c s).
Proof. intros H. unfold in_caches, zoom. now rewrite H. Qed.

(** No map at [a]: the access goes to the caches. *)
Lemma not_mmio {A} (k : Z → NEMU A) a s : mmio_maps (mmio s) = maps →
  (∀ m, m ∈ maps → ¬ (mm_low m <= a <= mm_high m)) →
  (gets (λ s, is_mmio (mmio s) a) ≫= k) s = k (-1) s.
Proof. intros <- H%is_mmio_none. unfold gets, mbind, M_bind. now rewrite H. Qed.

Lemma ws_ok_ext (c c' : Caches) : L1 c' = L1 c → L2 c' = L2 c → cdram c' = cdram c →
  ws_ok W c → ws_ok W c'.
Proof.
  intros H1 H2 Hd [Hs Hw]. split; [|now apply (within_ext W c)].
  assert (∀ g w, line1 c' g w = line1 c g w) as Hl by (intros; unfold line1; now rewrite H1).
  assert (∀ g t w, holds1 c' g t w ↔ holds1 c g t w) as Hh by (intros; unfold holds1; now rewrite Hl).
  split.
  - apply (l2_ok_ext c); [done|done|apply Hs].
  - intros g t w w' Hg. rewrite !Hh. now apply Hs.
  - intros g t w Hg Hh1%Hh i Hi. rewrite Hl, (cmem_ext c c') by done. now apply (l1_coherent _ Hs).
  - intros g w. rewrite Hl. apply Hs.
Qed.

Lemma flat_ext_load n f g a : (∀ b, 0 <= b < 2 ^ 32 → f b = g b) →
  0 <= a → a + Z.of_nat n <= 2 ^ 32 → le_load n f a = le_load n g a.
Proof. intros H Ha Hn. apply le_load_ext. intros k Hk. apply H. lia. Qed.

Lemma cached_read f s a len : cached_inv f s → cached_ok a len →
  ∃ c, hwaddr_read a len s = Ok (le_load (Z.to_nat len) f a) (set_caches c s) ∧
       cached_inv f (set_caches c s).
Proof.
  intros (Hs & Hm & Hf) (HA & Hno). destruct (ws_read W (caches s) a len Hs HA)
    as (v & c & Hrun & Hc & Hcm & Hv).
  exists c. split.
  - unfold hwaddr_read. rewrite not_mmio by done. change (-1 =? -1) with true. cbv iota.
    rewrite (bind_Ok _ _ _ _ _ (in_caches_Ok _ _ _ _ Hrun)). unfold mret, M_ret. rewrite Hv. f_equal. destruct HA as (? & ? & ? & _). change HW_MEM_SIZE with 134217728 in *.
    apply flat_ext_load; [done|lia|lia].
  - split; [exact Hc|]. split; [exact Hm|]. intros b Hb. cbn [caches set_caches]. now rewrite Hcm, Hf.
Qed.

Lemma cached_write f s a len v : cached_inv f s → cached_ok a len → a ≠ 0 →
  ∃ c, hwaddr_write a len v s = Ok tt (set_caches c s) ∧
       cached_inv (flat_store f a len v) (set_caches c s).
Proof.
  intros (Hs & Hm & Hf) (HA & Hno) Ha0. destruct (ws_write W (caches s) a len v Hs HA)
    as (c & Hrun & Hc & Hcm).
  exists c. split.
  - unfold hwaddr_write. apply Z.eqb_neq in Ha0 as ->. 
    rewrite not_mmio by done. change (-1 =? -1) with true. cbv iota. exact (in_caches_Ok _ _ _ _ Hrun).
  - split; [exact Hc|]. split; [exact Hm|]. intros b Hb. cbn [caches set_caches].
    rewrite Hcm by done. apply flat_store_ext. now apply Hf.
Qed.

#[export] Instance cached_memory : FlatMemory cached_inv cached_ok.
Proof.
  split.
  - intros a len [(? & ? & ? & _) _]. change HW_MEM_SIZE with 134217728 in *. lia.
  - intros f s (Hs & _ & Hf) b Hb. rewrite <- Hf by done. apply cmem_bytes, Hs.
  - intros f g s H (Hs & Hm & Hf). split_and!; try done. intros b Hb. now rewrite Hf, H.
  - intros f s s' [H1 H2 Hd Hmm] (Hs & Hm & Hf). split; [now apply (ws_ok_ext (caches s))|].
    split; [congruence|]. intros b Hb. rewrite (cmem_ext (caches s)) by done. now apply Hf.
  - apply cached_read.
  - apply cached_write.
Qed.
End Cached.
