(* ===== verification/DemoMachine.v ===== *)
(** Concrete machines at which the theorems about the whole machine are applied: cold
    caches over a DRAM with given bytes, no device mapped. *)
From S2P Require Import Prelude Dram Cache L2Facts CacheFacts CacheSpec WorkingSet.
From S2P Require Import Tlb Cpu I8259 Mmio Vga WpPool Machine Memory MemFacts.
#[local] Existing Instance IsoRand.
#[local] Existing Instance ZeroJunk.

(** The bytes [l], in order, at [a] in an otherwise zero memory. *)
Fixpoint demo_dram (a : Z) (l : list Z) (d : Dram) : Dram :=
  match l with
  | [] => d
  | b :: l => demo_dram (a + 1) l (hw_set a b d)
  end.

Definition demo_caches (d : Dram) : Caches :=
  mkCaches (anew (mkCache_1 false 0 (anew 0))) (anew (mkCache_2 false false 0 (anew 0))) d (libc_srand 1).

Definition demo_ide : Ide := mkIde 0 0 0 false (mkFile (anew 0) 0 0 false).

Definition demo_machine (c : CPU_state) (d : Dram) : Machine :=
  mkMachine c (mkOperands 0 false operand0 operand0 operand0) (demo_caches d) (anew tlb_item0)
    mmio_init (vga0 0 (anew 0)) pic0 pio_init [] false demo_ide STOP (mkSdl 0 false false) (debug0 []).

Lemma hw_get_hw_set a v d x : hw_get (hw_set a v d) x = if a =? x then v else hw_get d x.
Proof.
  unfold hw_get, hw_set, set_row; cbn. change NR_COL with 1024. rewrite aget_aset.
  destruct (Z.eqb_spec (a / 1024) (x / 1024)) as [E|E].
  - rewrite aget_aset. destruct (Z.eqb_spec (a mod 1024) (x mod 1024)).
    + now replace (a =? x) with true by lia.
    + replace (a =? x) with false by lia. now rewrite E.
  - now replace (a =? x) with false by lia.
Qed.

Lemma demo_dram_below a l d x : x < a → hw_get (demo_dram a l d) x = hw_get d x.
Proof.
  revert a d; induction l as [|b l IH]; intros a d Hx; cbn [demo_dram]; [done|]. rewrite IH, hw_get_hw_set by lia.
  now replace (a =? x) with false by lia.
Qed.

Lemma demo_dram_at a l d k b : l !! k = Some b → hw_get (demo_dram a l d) (a + Z.of_nat k) = b.
Proof.
  revert a d k; induction l as [|b' l IH]; intros a d k Hk; cbn [demo_dram]; [discriminate Hk|].
  destruct k as [|k]; cbn in Hk.
  - injection Hk as ->. rewrite demo_dram_below, hw_get_hw_set by lia. now replace (a =? a + Z.of_nat 0) with true by lia.
  - replace (a + Z.of_nat (S k)) with (a + 1 + Z.of_nat k) by lia. now apply IH.
Qed.

(** A memory of bytes with no open row. *)
Definition cold_dram (d : Dram) : Prop := rowbufs d = rowbufs dram0 ∧ is_bytes (hw_get d).

Lemma demo_dram_cold a l d : cold_dram d → Forall (λ b, 0 <= b < 256) l → cold_dram (demo_dram a l d).
Proof.
  intros Hd Hl. revert a d Hd; induction Hl as [|b l Hb _ IH]; intros a d Hd; [done|].
  cbn [demo_dram]. apply IH. split; [apply Hd|].
  intros x. rewrite hw_get_hw_set. destruct (_ =? _); [done|apply Hd].
Qed.

Lemma cold_dram0 : cold_dram dram0.
Proof. split; [done|]. intros i. unfold hw_get. cbn. rewrite !aget_anew. lia. Qed.

Lemma cold_dram_ok d : cold_dram d → dram_ok d.
Proof. intros [Hr Hb]. split; [|done]. intros k. rewrite Hr. cbn. now rewrite aget_anew. Qed.

Lemma demo_inv lo c d : cold_dram d → cached_inv (window lo) [] (hw_get d) (demo_machine c d).
Proof.
  intros Hd. assert (all_invalid (demo_caches d)) as Hi.
  { split; [now apply cold_dram_ok|]. split; intros g w; unfold line1, line2; cbn; rewrite aget_anew; cbn;
      split_and!; try done; intros i; rewrite aget_anew; lia. }
  destruct (all_invalid_ok _ Hi) as [Hok Hcm]. split; [|split; [done|]].
  - split; [exact Hok|now apply all_invalid_within].
  - intros b _. apply Hcm.
Qed.

Lemma demo_ok lo a len : lo mod 64 = 0 → 0 <= a → 1 <= len <= 4 → a + len <= HW_MEM_SIZE →
  lo <= a → a + len <= lo + 2 ^ 22 → cached_ok (window lo) [] a len.
Proof.
  intros. change HW_MEM_SIZE with 134217728 in *. split; [|intros m Hm; now apply not_elem_of_nil in Hm].
  unfold ws_acc. change HW_MEM_SIZE with 134217728. split_and!; try lia; apply window_has; lia.
Qed.
