(* ===== verification/PageSpec.v ===== *)
(** Paging and segmentation over any flat memory: the page walk as a function of the
    memory's bytes, its refinement by [page_translate] with its TLB, linear accesses across
    a page, segmented accesses, and the store to address 0 that is dropped. *)
From S2P Require Import Prelude Dram Cache L2Facts CacheFacts CacheSpec WorkingSet.
From S2P Require Import Tlb Cpu I8259 Mmio Vga WpPool Machine Memory MemFacts DemoMachine.

(** * The specification *)

(** The two-level walk from the directory at frame [base] in the memory [f]: the hardware
    address of the linear address [a], if both entries are present. *)
Definition walk_pde (base a : Z) : Z := base * 4096 + a / 4194304 * 4.
Definition walk_pte (pde a : Z) : Z := pde / 4096 * 4096 + a / 4096 mod 1024 * 4.
Definition page_walk (f : Z → Z) (base a : Z) : option Z :=
  let pde := le_load 4 f (walk_pde base a) in
  if pde mod 2 =? 1 then
    let pte := le_load 4 f (walk_pte pde a) in
    if pte mod 2 =? 1 then Some (pte / 4096 * 4096 + a mod 4096) else None
  else None.

(** The entries the walk of [a] reads are in memory. *)
Definition walk_ok (ok : Z → Z → Prop) (f : Z → Z) (base a : Z) : Prop :=
  ok (walk_pde base a) 4 ∧
  (le_load 4 f (walk_pde base a) mod 2 = 1 → ok (walk_pte (le_load 4 f (walk_pde base a)) a) 4).

(** What a linear address means in a machine with the memory [f]. *)
Definition paged (c : CPU_state) : bool := (paging c =? 1) && (protect_enable c =? 1).
Definition translate (f : Z → Z) (c : CPU_state) (a : Z) : option Z :=
  if paged c then page_walk f (page_directory_base c) a else Some a.

(** An item of the TLB the walk agrees with. *)
Definition tlb_agrees (f : Z → Z) (base page h : Z) : Prop :=
  page_walk f base (page * 4096) = Some (h / 4096 * 4096).

(** * The bit operations of [page_translate] *)
Lemma entry_addr frame i : 0 <= frame < 2 ^ 20 → 0 <= i < 1024 →
  Z.lor (u32 (Z.shiftl frame 12)) (Z.shiftl i 2) = frame * 4096 + i * 4.
Proof.
  intros Hf Hi. rewrite (wrap_small 32) by (rewrite Z.shiftl_mul_pow2 by lia; lia).
  rewrite lor_shiftl_add by (rewrite ?Z.shiftl_mul_pow2 by lia; lia).
  rewrite Z.shiftl_mul_pow2 by lia. lia.
Qed.

Lemma page_addr frame off : 0 <= frame < 2 ^ 20 → 0 <= off < 4096 →
  Z.lor off (u32 (Z.shiftl frame 12)) = frame * 4096 + off.
Proof.
  intros Hf Ho. rewrite Z.lor_comm, wrap_small by (rewrite Z.shiftl_mul_pow2 by lia; lia).
  now rewrite lor_shiftl_add by lia.
Qed.

Lemma page_off a : Z.land a 0xfff = a mod 4096.
Proof. apply (land_ones_mod a 12). lia. Qed.

Lemma page_mask h : 0 <= h < 2 ^ 32 → Z.land h 0xfffff000 = h / 4096 * 4096.
Proof.
  intros Hh. change 0xfffff000 with (Z.ldiff (Z.ones 32) (Z.ones 12)).
  apply Z.bits_inj'. intros n Hn. rewrite Z.land_spec, Z.ldiff_spec, !Z.testbit_ones by lia.
  change 4096 with (2 ^ 12). rewrite <- Z.shiftr_div_pow2, <- Z.shiftl_mul_pow2, Z.shiftl_spec by lia.
  destruct (Z.ltb_spec n 12).
  - rewrite (Z.testbit_neg_r _ (n - 12)) by lia. replace (0 <=? n) with true by lia.
    replace (n <? 12) with true by lia. now rewrite !andb_false_r.
  - rewrite Z.shiftr_spec by lia. replace (n - 12 + 12) with n by lia.
    replace (0 <=? n) with true by lia. replace (n <? 12) with false by lia. cbn.
    destruct (Z.ltb_spec n 32); cbn; [now rewrite !andb_true_r|].
    now rewrite (testbit_above 32 h n) by lia.
Qed.

Lemma PDE_fields v : 0 <= v < 2 ^ 32 →
  PDE_present v = v mod 2 ∧ PDE_page_frame v = v / 4096 ∧ 0 <= v / 4096 < 2 ^ 20.
Proof.
  intros Hv. unfold PDE_present, PDE_page_frame. rewrite !bitfield_eq by lia.
  rewrite Z.div_1_r. change (2 ^ 12) with 4096. rewrite (Z.mod_small (v / 4096)) by lia. lia.
Qed.

Lemma PTE_fields v : 0 <= v < 2 ^ 32 →
  PTE_present v = v mod 2 ∧ PTE_page_frame v = v / 4096.
Proof. intros Hv. destruct (PDE_fields v Hv) as (? & ? & _). done. Qed.

Lemma page_dir_range c : 0 <= page_directory_base c < 2 ^ 20.
Proof. apply (bitfield_range _ 12 20); lia. Qed.

(** Addresses of one page have one walk. *)
Lemma page_walk_page f base a : 0 <= a < 2 ^ 32 →
  page_walk f base a = (λ h, h + a mod 4096) <$> page_walk f base (a / 4096 * 4096).
Proof.
  intros Ha. unfold page_walk, walk_pde, walk_pte.
  replace (a / 4096 * 4096 / 4194304) with (a / 4194304) by lia.
  replace (a / 4096 * 4096 / 4096) with (a / 4096) by lia.
  destruct (_ =? 1); [|done]. destruct (_ =? 1); [|done]. cbn. f_equal. lia.
Qed.

Lemma le_load_4 f a : (∀ b, 0 <= b < 2 ^ 32 → 0 <= f b < 256) → 0 <= a → a + 4 <= 2 ^ 32 →
  0 <= le_load 4 f a < 2 ^ 32.
Proof.
  intros Hf Ha Ha4. cbn [le_load].
  pose proof (Hf a ltac:(lia)). pose proof (Hf (a + 1) ltac:(lia)).
  pose proof (Hf (a + 1 + 1) ltac:(lia)). pose proof (Hf (a + 1 + 1 + 1) ltac:(lia)). lia.
Qed.

Lemma page_walk_range f base a h : (∀ b, 0 <= b < 2 ^ 32 → 0 <= f b < 256) →
  0 <= a < 2 ^ 32 → 0 <= base < 2 ^ 20 → page_walk f base a = Some h → 0 <= h < 2 ^ 32.
Proof.
  intros Hf Ha Hb. unfold page_walk.
  assert (0 <= le_load 4 f (walk_pde base a) < 2 ^ 32) as Hpde by (apply le_load_4; unfold walk_pde; (done || lia)).
  set (pde := le_load 4 f (walk_pde base a)) in *.
  assert (0 <= le_load 4 f (walk_pte pde a) < 2 ^ 32) by (apply le_load_4; unfold walk_pte; (done || lia)).
  set (pte := le_load 4 f (walk_pte pde a)) in *. clearbody pte.
  destruct (_ =? 1); [|done]. destruct (_ =? 1); [|done]. intros [= <-]. clear - H Ha. lia.
Qed.

Section PageSpec.
Context `{HRand : !LibcRand, HJunk : !StackJunk} {Inv : (Z → Z) → Machine → Prop} {ok : Z → Z → Prop}.
Context `{HMem : !FlatMemory Inv ok}.

(** The memory is [f] and the TLB agrees with the page tables in it. *)
Definition vm_inv (f : Z → Z) (s : Machine) : Prop :=
  Inv f s ∧ (paged (cpu s) = true → tlb_sound (tlb_agrees f (page_directory_base (cpu s))) (tlb s)).

Lemma only_mem_page s s' : only_mem s s' → page_directory_base (cpu s') = page_directory_base (cpu s).
Proof. intros ->. reflexivity. Qed.

(** The walk on a miss, as [page_translate] makes it. *)
Definition walk_code (base a : Z) : NEMU Z :=
  pde ← hwaddr_read (walk_pde base a) 4;
  _ ← cassert (PDE_present pde =? 1);
  pte ← hwaddr_read (Z.lor (u32 (Z.shiftl (PDE_page_frame pde) 12))
                       (Z.shiftl (Z.land (Z.shiftr a 12) 0x3ff) 2)) 4;
  _ ← cassert (PTE_present pte =? 1);
  mret (Z.lor (a mod 4096) (u32 (Z.shiftl (PTE_page_frame pte) 12))).

Lemma walk_run f s a base :
  Inv f s → 0 <= a < 2 ^ 32 → 0 <= base < 2 ^ 20 → walk_ok ok f base a →
  match page_walk f base a with
  | Some h => ∃ c, walk_code base a s = Ok h (set_caches c s) ∧ Inv f (set_caches c s)
  | None => walk_code base a s = Fail_ EAssert
  end.
Proof using HMem.
  intros Hs Ha Hb (Hok1 & Hok2). unfold page_walk, walk_code.
  pose proof (fm_bytes _ _ Hs) as Hf.
  assert (0 <= le_load 4 f (walk_pde base a) < 2 ^ 32) as Hpde
    by (apply le_load_4; unfold walk_pde; (done || lia)).
  destruct (fm_read f s _ 4 Hs Hok1) as (c & Hrun & Hc). rewrite (bind_Ok _ _ _ _ _ Hrun). clear Hrun.
  change (Z.to_nat 4) with 4%nat.
  set (pde := le_load 4 f (walk_pde base a)) in *.
  destruct (PDE_fields pde Hpde) as (-> & -> & Hfr).
  destruct (Z.eqb_spec (pde mod 2) 1) as [Hp|]; [|done].
  rewrite bind_cassert by done.
  change 0x3ff with (2 ^ 10 - 1). rewrite land_ones_mod, shiftr_12 by lia.
  rewrite entry_addr by lia. change (2 ^ 10) with 1024. fold (walk_pte pde a).
  assert (0 <= le_load 4 f (walk_pte pde a) < 2 ^ 32) as Hpte
    by (apply le_load_4; unfold walk_pte; (done || lia)).
  destruct (fm_read f _ _ 4 Hc (Hok2 Hp)) as (c' & Hrun & Hc'). rewrite (bind_Ok _ _ _ _ _ Hrun). clear Hrun.
  change (Z.to_nat 4) with 4%nat. set (pte := le_load 4 f (walk_pte pde a)) in *.
  destruct (PTE_fields pte Hpte) as (-> & ->).
  destruct (Z.eqb_spec (pte mod 2) 1); [|done].
  exists c'. split; [|exact Hc']. rewrite bind_cassert by done.
  rewrite page_addr by lia. reflexivity.
Qed.

(** [page_translate] with paging on is the walk on a miss of the TLB. *)
Lemma page_translate_miss s a : 0 <= a < 2 ^ 32 → paged (cpu s) = true →
  TLB_translate (tlb s) a = 2 ^ 32 - 1 →
  page_translate a s =
    (walk_code (page_directory_base (cpu s)) a ≫= λ h, tlb_update a h ≫= λ _, mret h) s.
Proof.
  intros Ha Hp Ht. unfold page_translate. rewrite bind_getS. unfold paged in Hp. rewrite Hp. cbv zeta.
  rewrite Ht, Z.eqb_refl. cbv iota. rewrite page_off.
  assert (Z.shiftr a 22 = a / 4194304) as -> by (rewrite Z.shiftr_div_pow2 by lia; reflexivity).
  pose proof (page_dir_range (cpu s)). rewrite entry_addr by lia.
  change (page_directory_base (cpu s) * 4096 + a / 4194304 * 4) with (walk_pde (page_directory_base (cpu s)) a).
  unfold walk_code, mbind, M_bind, cassert.
  destruct (hwaddr_read _ 4 s) as [pde s1|s1|]; [|done..].
  destruct (PDE_present pde =? 1); [cbn|done].
  destruct (hwaddr_read _ 4 s1) as [pte s2|s2|]; [|done..].
  destruct (PTE_present pte =? 1); done.
Qed.

Lemma tlb_update_run a h s : ∃ st,
  tlb_update a h s = Ok tt (set_tlb (fst (TLB_update a h (tlb s)))
    (set_caches (mkCaches (L1 (caches s)) (L2 (caches s)) (cdram (caches s)) st) s)).
Proof. unfold tlb_update. destruct (TLB_update a h (tlb s)) as [t st]. now exists st. Qed.

Lemma page_translate_ok f s a :
  vm_inv f s → 0 <= a < 2 ^ 32 →
  (paged (cpu s) = true → walk_ok ok f (page_directory_base (cpu s)) a) →
  match translate f (cpu s) a with
  | Some h => ∃ s', page_translate a s = Ok h s' ∧ vm_inv f s' ∧ only_mem s s'
  | None => page_translate a s = Fail_ EAssert
  end.
Proof using HMem.
  intros [Hs Ht] Ha Hw. unfold translate. destruct (paged (cpu s)) eqn:Hp.
  2:{ exists s. split; [|split; [split; [done|congruence]|apply only_mem_refl]].
      unfold page_translate. rewrite bind_getS. unfold paged in Hp. now rewrite Hp. }
  specialize (Ht eq_refl). specialize (Hw eq_refl). set (base := page_directory_base (cpu s)) in *.
  pose proof (page_dir_range (cpu s) : 0 <= base < 2 ^ 20) as Hb.
  destruct (Z.eqb_spec (TLB_translate (tlb s) a) (2 ^ 32 - 1)) as [Em|Em].
  - rewrite (page_translate_miss s a Ha Hp Em). fold base.
    pose proof (walk_run f s a base Hs Ha Hb Hw) as Hr.
    destruct (page_walk f base a) as [h|] eqn:Ew.
    2:{ unfold mbind, M_bind. now rewrite Hr. }
    destruct Hr as (c & Hrun & Hc). rewrite (bind_Ok _ _ _ _ _ Hrun).
    destruct (tlb_update_run a h (set_caches c s)) as (st & Hu). rewrite (bind_Ok _ _ _ _ _ Hu).
    eexists. split; [reflexivity|]. split; [split|reflexivity].
    + apply (fm_frame f (set_caches c s)); [|exact Hc]. now split.
    + intros _. apply TLB_update_sound; [exact Ht|done|]. change (page_directory_base _) with base.
      unfold tlb_agrees. rewrite page_walk_page in Ew by done.
      destruct (page_walk f base (a / 4096 * 4096)) as [h0|] eqn:E0; [|done].
      injection Ew as <-. f_equal. unfold page_walk in E0.
      destruct (_ =? 1); [|done]. destruct (_ =? 1); [|done]. injection E0 as <-.
      replace (a / 4096 * 4096 mod 4096) with 0 by lia. lia.
  - destruct (tlb_hit_sound _ (tlb s) a Ht Ha) as [|Hag]; [done|].
    set (h := TLB_translate (tlb s) a) in *. unfold tlb_agrees in Hag.
    rewrite page_walk_page by done. rewrite Hag. cbn [fmap option_fmap option_map].
    exists s. split; [|split; [split; [done|intros _; exact Ht]|apply only_mem_refl]].
    unfold page_translate. rewrite bind_getS. unfold paged in Hp. rewrite Hp. fold h. cbv zeta.
    apply Z.eqb_neq in Em as ->. rewrite page_off.
    pose proof (page_walk_range f base (a / 4096 * 4096) _ (fm_bytes _ _ Hs) ltac:(lia) Hb Hag) as Hr.
    rewrite page_mask by lia. unfold mret, M_ret. f_equal.
    replace (h / 4096 * 4096) with (Z.shiftl (h / 4096) 12) at 1 by (rewrite Z.shiftl_mul_pow2 by lia; lia).
    rewrite lor_shiftl_add by lia. lia.
Qed.

(** ** Linear addresses *)

(** The byte the machine shows at the linear address [x]. *)
Definition lin_byte (f : Z → Z) (c : CPU_state) (x : Z) : Z :=
  match translate f c x with Some h => f h | None => 0 end.

(** The [len] bytes at the linear address [a], which stay in its page, are memory at [h]. *)
Definition lin_at (f : Z → Z) (c : CPU_state) (a len h : Z) : Prop :=
  translate f c a = Some h ∧ ok h len ∧
  (paged c = true → walk_ok ok f (page_directory_base c) a).

Lemma translate_page f c a h k : 0 <= a < 2 ^ 32 → 0 <= k → a mod 4096 + k < 4096 →
  translate f c a = Some h → translate f c (a + k) = Some (h + k).
Proof.
  intros Ha Hk Hp. unfold translate. destruct (paged c); [|intros [= ->]; done].
  rewrite (page_walk_page _ _ a), (page_walk_page _ _ (a + k)) by lia.
  replace ((a + k) / 4096) with (a / 4096) by lia.
  destruct (page_walk _ _ _); [|done]. cbn. intros [= <-]. f_equal. lia.
Qed.

Lemma lin_load_eq f c a len h : 0 <= a < 2 ^ 32 → 0 <= len → a mod 4096 + len <= 4096 →
  translate f c a = Some h →
  le_load (Z.to_nat len) f h = le_load (Z.to_nat len) (λ x, lin_byte f c (u32 x)) a.
Proof.
  intros Ha Hl Hp Ht. apply le_load_shift. intros k Hk. unfold lin_byte.
  rewrite wrap_small by lia. now rewrite (translate_page f c a h k) by (done || lia).
Qed.

Lemma page_hw_read f s a len h : vm_inv f s → 0 <= a < 2 ^ 32 → lin_at f (cpu s) a len h →
  ∃ s', (h ← page_translate a; hwaddr_read h len) s = Ok (le_load (Z.to_nat len) f h) s' ∧
    vm_inv f s' ∧ only_mem s s'.
Proof using HMem.
  intros Hs Ha (Ht & Hok & Hw). pose proof (page_translate_ok f s a Hs Ha Hw) as Hp.
  rewrite Ht in Hp. destruct Hp as (s1 & Hrun & [Hs1 Htl] & Ho). rewrite (bind_Ok _ _ _ _ _ Hrun).
  destruct (fm_read f s1 h len Hs1 Hok) as (c & Hr & Hc). exists (set_caches c s1).
  split; [exact Hr|]. split; [split; [exact Hc|exact Htl]|].
  apply (only_mem_trans _ s1); [done|apply only_caches].
Qed.

(** The [len] bytes at the linear address [a] are memory, in one page or in two. *)
Definition front_of (a : Z) : Z := 4096 - a mod 4096.
Definition lin_ok (f : Z → Z) (c : CPU_state) (a len : Z) : Prop :=
  if a mod 4096 + len <=? 4096 then ∃ h, lin_at f c a len h
  else ∃ h1 h2, lin_at f c a (front_of a) h1 ∧ lin_at f c (u32 (a + front_of a)) (len - front_of a) h2.

Lemma one_page a len : 0 <= a → (0xfff <? Z.land a 0xfff + len - 1) = negb (a mod 4096 + len <=? 4096).
Proof. intros Ha. rewrite page_off. lia. Qed.

Lemma front_eq a : 0xfff - Z.land a 0xfff + 1 = front_of a.
Proof. rewrite page_off. unfold front_of. lia. Qed.

Lemma join_bytes f front back a b : (∀ k, 0 <= k < front → 0 <= f (a + k) < 256) →
  (∀ k, 0 <= k < back → 0 <= f (b + k) < 256) → 0 <= front → 0 <= back → front + back <= 4 →
  Z.lor (u32 (Z.shiftl (le_load (Z.to_nat back) f b) (front * 8))) (le_load (Z.to_nat front) f a) =
  le_load (Z.to_nat front) f a + 256 ^ front * le_load (Z.to_nat back) f b.
Proof.
  intros Ha Hb Hf Hk Hs.
  assert (0 <= le_load (Z.to_nat front) f a < 256 ^ front) as Hra.
  { pose proof (le_load_range_in (Z.to_nat front) f a) as H. rewrite Z2Nat.id in H by done.
    apply H. intros k Hk'. replace k with (a + (k - a)) by lia. apply Ha. lia. }
  assert (0 <= le_load (Z.to_nat back) f b < 256 ^ back) as Hrb.
  { pose proof (le_load_range_in (Z.to_nat back) f b) as H. rewrite Z2Nat.id in H by done.
    apply H. intros k Hk'. replace k with (b + (k - b)) by lia. apply Hb. lia. }
  assert (256 ^ front = 2 ^ (front * 8)) as Hp.
  { change 256 with (2 ^ 8). rewrite <- Z.pow_mul_r by lia. f_equal. lia. }
  assert (256 ^ front * 256 ^ back <= 2 ^ 32) as Hle.
  { rewrite <- Z.pow_add_r by lia. change (2 ^ 32) with (256 ^ 4). apply Z.pow_le_mono_r; lia. }
  rewrite wrap_small.
  - rewrite lor_shiftl_add by (rewrite <- ?Hp; lia). rewrite <- Hp. lia.
  - rewrite Z.shiftl_mul_pow2, <- Hp by lia. nia.
Qed.

Lemma lnaddr_read_ok f s a len : vm_inv f s → 0 <= a < 2 ^ 32 → len = 1 ∨ len = 2 ∨ len = 4 →
  lin_ok f (cpu s) a len →
  ∃ s', lnaddr_read a len s = Ok (le_load (Z.to_nat len) (λ x, lin_byte f (cpu s) (u32 x)) a) s' ∧
    vm_inv f s' ∧ only_mem s s'.
Proof using HMem.
  intros Hs Ha Hlen Hl. unfold lnaddr_read. rewrite bind_cassert by lia.
  rewrite one_page by lia. unfold lin_ok in Hl. destruct (Z.leb_spec (a mod 4096 + len) 4096) as [H1|H1].
  - destruct Hl as (h & Hl). destruct (page_hw_read f s a len h Hs Ha Hl) as (s' & Hrun & Hs').
    exists s'. split; [|done]. cbn [negb]. refine (eq_trans Hrun _). f_equal.
    apply lin_load_eq; [done|lia|lia|apply Hl].
  - destruct Hl as (h1 & h2 & Hl1 & Hl2). cbn [negb]. rewrite front_eq. cbv zeta.
    assert (1 <= front_of a <= 3 ∧ a mod 4096 + front_of a <= 4096) as [Hfr Hfr'] by (unfold front_of; lia).
    destruct (page_hw_read f s a _ h1 Hs Ha Hl1) as (s1 & Hrun1 & Hs1 & Ho1).
    rewrite <- (bind_bind (page_translate a)). rewrite (bind_Ok _ _ _ _ _ Hrun1).
    rewrite <- (only_mem_cpu _ _ Ho1) in Hl2.
    destruct (page_hw_read f s1 _ _ h2 Hs1 (wrap_range 32 _ ltac:(lia)) Hl2) as (s2 & Hrun2 & Hs2 & Ho2).
    rewrite <- (bind_bind (page_translate _)). rewrite (bind_Ok _ _ _ _ _ Hrun2).
    exists s2. split; [|split; [done|now apply (only_mem_trans _ s1)]]. unfold mret, M_ret. f_equal.
    pose proof (fm_bytes _ _ (proj1 Hs)) as Hf.
    destruct (fm_ok _ _ (proj1 (proj2 Hl1))) as (? & ? & ?).
    destruct (fm_ok _ _ (proj1 (proj2 Hl2))) as (? & ? & ?).
    rewrite join_bytes by (lia || intros; apply Hf; lia).
    replace (Z.to_nat len) with (Z.to_nat (front_of a) + Z.to_nat (len - front_of a))%nat by lia.
    rewrite le_load_app, Z2Nat.id by lia.
    rewrite (lin_load_eq f (cpu s) a (front_of a) h1) by (done || lia || apply Hl1).
    rewrite (lin_load_eq f (cpu s) (u32 (a + front_of a)) (len - front_of a) h2);
      [|apply (wrap_range 32); lia|lia| |rewrite <- (only_mem_cpu _ _ Ho1); apply Hl2].
    + f_equal. f_equal. apply le_load_shift. intros k Hk. now rewrite wrap_add_l.
    + unfold wrap, front_of in *. lia.
Qed.

(** [g] has the page tables of [f]. *)
Definition tables_keep (f g : Z → Z) (c : CPU_state) : Prop :=
  paged c = true → ∀ x, 0 <= x < 2 ^ 32 →
    let base := page_directory_base c in
    le_load 4 g (walk_pde base x) = le_load 4 f (walk_pde base x) ∧
    let pde := le_load 4 f (walk_pde base x) in
    le_load 4 g (walk_pte pde x) = le_load 4 f (walk_pte pde x).

(** Directory and tables below [lim]: a store above keeps them. *)
Lemma tables_keep_below f g c lim : is_bytes f →
  forallb (λ i, le_load 4 f (page_directory_base c * 4096 + Z.of_nat i * 4) <? lim) (seq 0 1024) = true →
  page_directory_base c * 4096 + 4096 <= lim → lim mod 4096 = 0 →
  (∀ x, 0 <= x < lim → g x = f x) → tables_keep f g c.
Proof.
  intros Hf Hp Hb Hlim Hg _ x Hx. cbv zeta. unfold walk_pde.
  pose proof (page_dir_range c). set (base := page_directory_base c) in *. clearbody base.
  set (i := x / 4194304). assert (0 <= i < 1024) as Hi by (unfold i; lia).
  rewrite forallb_forall in Hp. specialize (Hp (Z.to_nat i)).
  rewrite in_seq, Z2Nat.id in Hp by lia. specialize (Hp ltac:(lia)).
  pose proof (le_load_range 4 f (base * 4096 + i * 4) Hf) as [Hpos _].
  clearbody i. split; [apply le_load_ext; intros k Hk; apply Hg; lia|].
  set (pde := le_load 4 f (base * 4096 + i * 4)) in *. clearbody pde.
  apply le_load_ext; intros k Hk; apply Hg; unfold walk_pte in *; lia.
Qed.

Lemma translate_keep f g c x : tables_keep f g c → 0 <= x < 2 ^ 32 →
  translate g c x = translate f c x.
Proof.
  intros Hk Hx. unfold translate. destruct (paged c) eqn:Hp; [|done].
  destruct (Hk Hp x Hx) as [H1 H2]. unfold page_walk. now rewrite H1, H2.
Qed.

Lemma lin_at_keep f g c a len h : tables_keep f g c → 0 <= a < 2 ^ 32 →
  lin_at f c a len h → lin_at g c a len h.
Proof.
  intros Hk Ha (Ht & Hok & Hw). split; [now rewrite (translate_keep f g)|]. split; [done|].
  intros Hp. destruct (Hk Hp a Ha) as [H1 _]. specialize (Hw Hp). unfold walk_ok in *. now rewrite H1.
Qed.

Lemma lin_ok_keep f g c a len : tables_keep f g c → 0 <= a < 2 ^ 32 → lin_ok f c a len → lin_ok g c a len.
Proof.
  intros Hk Ha. unfold lin_ok. destruct (_ <=? _).
  - intros (h & Hl). exists h. now apply (lin_at_keep f).
  - intros (h1 & h2 & H1 & H2). exists h1, h2.
    split; apply (lin_at_keep f); try done. apply (wrap_range 32). lia.
Qed.

Lemma vm_inv_store f g s c : tables_keep f g (cpu s) → vm_inv f s → Inv g (set_caches c s) →
  vm_inv g (set_caches c s).
Proof using.
  intros Hk [_ Ht] Hg. split; [exact Hg|]. intros Hp. specialize (Ht Hp).
  intros i Hi Hv. destruct (Ht i Hi Hv) as [Hr Ha]. split; [done|]. unfold tlb_agrees in *.
  pose proof (translate_keep f g (cpu s) (t_addr (aget (tlb s) i) / 4096 * 4096) Hk ltac:(lia)) as E.
  unfold translate in E. cbn [cpu set_caches tlb] in *. now rewrite Hp, Ha in E.
Qed.

Lemma page_hw_write f s a len h v : vm_inv f s → 0 <= a < 2 ^ 32 → lin_at f (cpu s) a len h → h ≠ 0 →
  tables_keep f (flat_store f h len v) (cpu s) →
  ∃ s', (h ← page_translate a; hwaddr_write h len v) s = Ok tt s' ∧
    vm_inv (flat_store f h len v) s' ∧ only_mem s s'.
Proof using HMem.
  intros Hs Ha (Ht & Hok & Hw) H0 Hkeep. pose proof (page_translate_ok f s a Hs Ha Hw) as Hp.
  rewrite Ht in Hp. destruct Hp as (s1 & Hrun & Hs1 & Ho). rewrite (bind_Ok _ _ _ _ _ Hrun).
  destruct (fm_write f s1 h len v (proj1 Hs1) Hok H0) as (c & Hr & Hc). exists (set_caches c s1).
  split; [exact Hr|]. split; [|apply (only_mem_trans _ s1); [done|apply only_caches]].
  apply (vm_inv_store f); [now rewrite (only_mem_cpu _ _ Ho)|done|done].
Qed.

(** The hardware memory after a store at linear address [a]: in one page, or in two. *)
Definition store_front (f : Z → Z) (c : CPU_state) (a v : Z) : Z → Z :=
  match translate f c a with
  | Some h => flat_store f h (front_of a) (v mod 256 ^ front_of a)
  | None => f
  end.
Definition lin_store (f : Z → Z) (c : CPU_state) (a len v : Z) : Z → Z :=
  if a mod 4096 + len <=? 4096 then
    match translate f c a with Some h => flat_store f h len v | None => f end
  else
    match translate f c (u32 (a + front_of a)) with
    | Some h => flat_store (store_front f c a v) h (len - front_of a) (v / 256 ^ front_of a)
    | None => f
    end.

(** The store is not to the hardware address 0, and to no page table. *)
Definition store_ok (f : Z → Z) (c : CPU_state) (a len v : Z) : Prop :=
  translate f c a ≠ Some 0 ∧ tables_keep f (lin_store f c a len v) c ∧
  (4096 < a mod 4096 + len →
    translate f c (u32 (a + front_of a)) ≠ Some 0 ∧ tables_keep f (store_front f c a v) c).

Lemma tables_keep_trans f g k c : tables_keep f g c → tables_keep f k c → tables_keep g k c.
Proof.
  intros H1 H2 Hp x Hx. destruct (H1 Hp x Hx) as [E1 E2]. destruct (H2 Hp x Hx) as [E3 E4].
  cbv zeta. rewrite E1. split; [congruence|]. congruence.
Qed.

Lemma lnaddr_write_ok f s a len v : vm_inv f s → 0 <= a < 2 ^ 32 → 1 <= len <= 4 →
  lin_ok f (cpu s) a len → store_ok f (cpu s) a len v →
  ∃ s', lnaddr_write a len v s = Ok tt s' ∧ vm_inv (lin_store f (cpu s) a len v) s' ∧ only_mem s s'.
Proof using HMem.
  intros Hs Ha Hlen Hl (Hz & Hkeep & Hx). unfold lnaddr_write. rewrite one_page by lia.
  unfold lin_ok in Hl. unfold lin_store in *. unfold store_front in *.
  destruct (Z.leb_spec (a mod 4096 + len) 4096) as [H1|H1]; cbn [negb].
  - destruct Hl as (h & Hl). rewrite (proj1 Hl) in *.
    apply (page_hw_write f s a len h v); try done. congruence.
  - destruct (Hx ltac:(lia)) as [Hz2 Hkeep1]. destruct Hl as (h1 & h2 & Hl1 & Hl2).
    rewrite (proj1 Hl1), (proj1 Hl2) in *. rewrite front_eq. cbv zeta.
    assert (1 <= front_of a <= 3) as Hfr by (unfold front_of; lia).
    assert (Z.land v (Z.shiftl 1 (front_of a * 8) - 1) = v mod 256 ^ front_of a) as ->.
    { rewrite Z.shiftl_1_l, land_ones_mod, Z.mul_comm, Z.pow_mul_r by lia. done. }
    assert (Z.shiftr v (8 * front_of a) = v / 256 ^ front_of a) as ->.
    { rewrite Z.shiftr_div_pow2, Z.pow_mul_r by lia. done. }
    destruct (page_hw_write f s a (front_of a) h1 (v mod 256 ^ front_of a))
      as (s1 & Hrun1 & Hs1 & Ho1); try done; [congruence|].
    rewrite <- (bind_bind (page_translate a)), (bind_Ok _ _ _ _ _ Hrun1).
    rewrite <- (only_mem_cpu _ _ Ho1) in Hkeep, Hkeep1, Hl2.
    pose proof (wrap_range 32 (a + front_of a) ltac:(lia)) as Hr.
    destruct (page_hw_write _ s1 (u32 (a + front_of a)) (len - front_of a) h2 (v / 256 ^ front_of a) Hs1 Hr) as (s2 & Hrun2 & Hs2 & Ho2).
    + now apply (lin_at_keep f).
    + congruence.
    + now apply (tables_keep_trans f).
    + exists s2. split; [exact Hrun2|]. split; [done|now apply (only_mem_trans _ s1)].
Qed.

Lemma translate_offset f c a h : 0 <= a < 2 ^ 32 → translate f c a = Some h → h mod 4096 = a mod 4096.
Proof.
  intros Ha. unfold translate, page_walk. destruct (paged c); [|intros [= ->]; done].
  destruct (_ =? 1); [|done]. destruct (_ =? 1); [|done]. intros [= <-].
  generalize (le_load 4 f (walk_pte (le_load 4 f (walk_pde (page_directory_base c) a)) a)). intros x. lia.
Qed.

Lemma flat_store_at f h len v k : 0 <= k < len → flat_store f h len v (h + k) = byte_of v k.
Proof. intros. unfold flat_store. replace (_ && _) with true by lia. f_equal. lia. Qed.

Lemma flat_store_out f h len v x : x < h ∨ h + len <= x → flat_store f h len v x = f x.
Proof. intros. unfold flat_store. now replace (_ && _) with false by lia. Qed.

(** What is stored at a linear address is there: bytes in both pages included, as their
    offsets in a page keep the two parts apart. *)
Lemma lin_store_byte f c a len v k : 0 <= a < 2 ^ 32 → 1 <= len <= 4 →
  lin_ok f c a len → store_ok f c a len v → 0 <= k < len →
  lin_byte (lin_store f c a len v) c (u32 (a + k)) = byte_of v k.
Proof using.
  intros Ha Hlen Hl (_ & Hkeep & Hx) Hk. unfold lin_byte.
  rewrite (translate_keep f) by (done || apply (wrap_range 32); lia).
  unfold lin_ok, lin_store, store_front in *. destruct (Z.leb_spec (a mod 4096 + len) 4096).
  - destruct Hl as (h & Ht & _). rewrite wrap_small by lia.
    rewrite (translate_page f c a h k), Ht by (done || lia). now apply flat_store_at.
  - destruct Hl as (h1 & h2 & (Ht1 & _) & (Ht2 & _)). rewrite Ht1, Ht2.
    pose proof (translate_offset _ _ _ _ Ha Ht1) as Ho1.
    pose proof (translate_offset _ _ _ _ (wrap_range 32 (a + front_of a) ltac:(lia)) Ht2) as Ho2.
    assert (u32 (a + front_of a) mod 4096 = 0) as Hz by (unfold wrap, front_of; lia).
    rewrite Hz in Ho2. assert (1 <= front_of a <= 3) as Hfr by (unfold front_of; lia).
    destruct (Z.ltb_spec k (front_of a)).
    + rewrite wrap_small by (unfold front_of in *; lia).
      rewrite (translate_page f c a h1 k) by (done || unfold front_of in *; lia).
      rewrite flat_store_out by (clear - Ho1 Ho2 Hfr H H0 Hk Hlen; unfold front_of in *; lia).
      rewrite flat_store_at by lia. now apply byte_of_mod.
    + replace (u32 (a + k)) with (u32 (a + front_of a) + (k - front_of a)) by
        (clear - H0 Hk Hlen H Ha; unfold wrap, front_of in *; lia).
      rewrite (translate_page f c _ h2 (k - front_of a)) by (done || lia || now apply (wrap_range 32)).
      rewrite flat_store_at by lia. rewrite byte_of_div by lia. f_equal. lia.
Qed.

Lemma lin_store_load f c a len v : 0 <= a < 2 ^ 32 → 1 <= len <= 4 →
  lin_ok f c a len → store_ok f c a len v →
  le_load (Z.to_nat len) (λ x, lin_byte (lin_store f c a len v) c (u32 x)) a = v mod 256 ^ len.
Proof using.
  intros Ha Hlen Hl Hst. rewrite <- (Z2Nat.id len) at 2 by lia. apply le_load_bytes.
  intros k Hk. apply lin_store_byte; (done || lia).
Qed.

(** * Properties *)

(** C12: [page_translate] is the two-level page walk over the bytes of the memory: with
    paging off it returns the linear address; with paging on, whatever the TLB answers
    (its items agreeing with the tables), it returns what the walk of the directory in CR3
    gives, offset included, and fails its assertion exactly when an entry is not present.
    It changes nothing but the caches and the TLB, and the TLB still agrees. *)
Theorem page_translate_walks f s a :
  vm_inv f s → 0 <= a < 2 ^ 32 →
  (paged (cpu s) = true → walk_ok ok f (page_directory_base (cpu s)) a) →
  match translate f (cpu s) a with
  | Some h => ∃ s', page_translate a s = Ok h s' ∧ vm_inv f s' ∧ only_mem s s'
  | None => page_translate a s = Fail_ EAssert
  end.
Proof using HMem. apply page_translate_ok. Qed.

(** [lnaddr_read] of 1, 2 or 4 bytes returns the little-endian value of the bytes at
    the linear addresses [a], [a + 1], ..., each translated on its own, also when the
    access goes on in the next page (which may be anywhere), or past 2^32. *)
Theorem lnaddr_read_bytes f s a len :
  vm_inv f s → 0 <= a < 2 ^ 32 → len = 1 ∨ len = 2 ∨ len = 4 → lin_ok f (cpu s) a len →
  ∃ s', lnaddr_read a len s = Ok (le_load (Z.to_nat len) (λ x, lin_byte f (cpu s) (u32 x)) a) s' ∧
    vm_inv f s' ∧ only_mem s s'.
Proof using HMem. apply lnaddr_read_ok. Qed.

(** C13: what [lnaddr_write] stores [lnaddr_read] loads, in one page or across two, unless
    a part of it falls on the hardware address 0 or changes a page table. *)
Theorem lnaddr_write_read f s a len v :
  vm_inv f s → 0 <= a < 2 ^ 32 → len = 1 ∨ len = 2 ∨ len = 4 →
  lin_ok f (cpu s) a len → store_ok f (cpu s) a len v →
  ∃ s1 s2, lnaddr_write a len v s = Ok tt s1 ∧ lnaddr_read a len s1 = Ok (v mod 256 ^ len) s2 ∧
    only_mem s s2.
Proof using HMem.
  intros Hs Ha Hlen Hl Hst.
  destruct (lnaddr_write_ok f s a len v) as (s1 & Hw & Hs1 & Ho1); try done; [lia|].
  destruct (lnaddr_read_ok (lin_store f (cpu s) a len v) s1 a len) as (s2 & Hr & _ & Ho2); try done.
  { rewrite (only_mem_cpu _ _ Ho1). apply (lin_ok_keep f); [apply Hst|done|done]. }
  exists s1, s2. split; [done|]. split; [|now apply (only_mem_trans _ s1)].
  rewrite (only_mem_cpu _ _ Ho1), lin_store_load in Hr; (done || lia).
Qed.

(** A store to the hardware address 0 is dropped: [hwaddr_write] returns without
    writing, so a load after it sees the old bytes, whatever was stored. *)
Theorem hwaddr_write_0_dropped f s len v :
  Inv f s → ok 0 len →
  ∃ c, (_ ← hwaddr_write 0 len v; hwaddr_read 0 len) s =
    Ok (le_load (Z.to_nat len) f 0) (set_caches c s).
Proof using HMem.
  intros Hs Hok. destruct (fm_read f s 0 len Hs Hok) as (c & Hr & _). exists c. exact Hr.
Qed.
End PageSpec.

(** * A machine with paging on

    The directory is at 0x1000, its first table at 0x2000; the pages at 0 and 0x1000 are
    the frames 5 and 9. *)
Definition word_bytes (v : Z) : list Z := map (λ i, byte_of v (Z.of_nat i)) (seq 0 4).
Definition page_dram : Dram :=
  demo_dram 0x1000 (word_bytes 0x2003)
    (demo_dram 0x2000 (word_bytes 0x5003 ++ word_bytes 0x9003) (demo_dram 0x5ffe [0x11; 0x22]
      (demo_dram 0x9000 [0x33; 0x44] dram0))).
Definition page_cpu : CPU_state := set_cr3 0x1000 (set_cr0 0x80000001 cpu0).
Definition page_machine : Machine := demo_machine page_cpu page_dram.
Definition page_bytes : Z → Z := hw_get page_dram.

#[local] Existing Instance IsoRand.
#[local] Existing Instance ZeroJunk.
#[local] Existing Instance cached_memory.

Lemma page_dram_cold : cold_dram page_dram.
Proof. unfold page_dram. repeat apply demo_dram_cold; [apply cold_dram0|..]; repeat constructor; vm_compute; congruence. Qed.

Lemma page_machine_inv : vm_inv (Inv := cached_inv (window 0) []) page_bytes page_machine.
Proof.
  split; [apply demo_inv, page_dram_cold|]. intros _ i Hi Hv. cbn in Hv. now rewrite aget_anew in Hv.
Qed.

Lemma page_pde : le_load 4 page_bytes 4096 = 8195.
Proof. vm_compute. reflexivity. Qed.

Lemma page_table_ok a : 0 <= a < 8192 → walk_ok (cached_ok (window 0) []) page_bytes 1 a.
Proof.
  intros Ha. assert (walk_pde 1 a = 4096) as E by (unfold walk_pde; lia).
  unfold walk_ok. rewrite E, page_pde. split; [|intros _]; apply demo_ok; unfold walk_pte; try lia.
  all: change HW_MEM_SIZE with 134217728; lia.
Qed.

(** No entry of the directory points above the first table. *)
Lemma page_pdes : forallb (λ i, le_load 4 page_bytes (4096 + Z.of_nat i * 4) <? 12288) (seq 0 1024) = true.
Proof. vm_compute. reflexivity. Qed.

Lemma page_tables_keep g : (∀ x, 0 <= x < 12288 → g x = page_bytes x) →
  tables_keep page_bytes g page_cpu.
Proof.
  apply (tables_keep_below _ _ _ 12288); 
    [exact (proj2 page_dram_cold)|exact page_pdes|vm_compute; congruence|reflexivity].
Qed.

Lemma page_lin_ok : lin_ok (ok := cached_ok (window 0) []) page_bytes page_cpu 4094 4.
Proof.
  exists 24574, 36864. split; (split; [vm_compute; reflexivity|split; [apply demo_ok|intros _; now apply page_table_ok]]);
    vm_compute; first [done | congruence].
Qed.

Lemma page_store_ok : store_ok page_bytes page_cpu 4094 4 305419896.
Proof.
  split; [vm_compute; congruence|].
  assert (∀ v x, 0 <= x < 12288 → store_front page_bytes page_cpu 4094 v x = page_bytes x) as Hf.
  { intros v x Hx. unfold store_front. replace (translate page_bytes page_cpu 4094) with (Some 24574)
      by (vm_compute; reflexivity). apply flat_store_out. lia. }
  split; [|intros _; split; [vm_compute; congruence|]]; apply page_tables_keep; intros x Hx; [|now apply Hf].
  unfold lin_store. change (4094 mod 4096 + 4 <=? 4096) with false. cbv iota.
  replace (translate page_bytes page_cpu _) with (Some 36864) by (vm_compute; reflexivity).
  rewrite flat_store_out by lia. now apply Hf.
Qed.

Lemma page_translate_walks_witness : ∃ s', page_translate 4096 page_machine = Ok 36864 s'.
Proof.
  pose proof (page_translate_walks (Inv := cached_inv (window 0) []) page_bytes page_machine 4096
    page_machine_inv ltac:(lia) (λ _, page_table_ok 4096 ltac:(lia))) as H.
  assert (translate page_bytes (cpu page_machine) 4096 = Some 36864) as E by (vm_compute; reflexivity).
  rewrite E in H. destruct H as (s' & H & _). exact (ex_intro _ s' H).
Defined.

Lemma lnaddr_read_bytes_witness : ∃ s', lnaddr_read 4094 4 page_machine = Ok 0x44332211 s'.
Proof.
  destruct (lnaddr_read_bytes (Inv := cached_inv (window 0) []) page_bytes page_machine 4094 4
    page_machine_inv ltac:(lia) ltac:(lia) page_lin_ok) as (s' & H & _).
  exists s'. refine (eq_trans H _). apply (f_equal (λ v, Ok v s')). vm_compute. reflexivity.
Defined.

Lemma lnaddr_write_read_witness :
  ∃ s1 s2, lnaddr_write 4094 4 305419896 page_machine = Ok tt s1 ∧ lnaddr_read 4094 4 s1 = Ok 305419896 s2.
Proof.
  destruct (lnaddr_write_read (Inv := cached_inv (window 0) []) page_bytes page_machine 4094 4 305419896
    page_machine_inv ltac:(lia) ltac:(lia) page_lin_ok page_store_ok) as (s1 & s2 & H1 & H2 & _).
  exact (ex_intro _ s1 (ex_intro _ s2 (conj H1 H2))).
Defined.

Lemma hwaddr_write_0_dropped_witness :
  ∃ c, (_ ← hwaddr_write 0 4 7; hwaddr_read 0 4) page_machine = Ok 0 (set_caches c page_machine).
Proof.
  destruct (hwaddr_write_0_dropped (Inv := cached_inv (window 0) []) page_bytes page_machine 4 7)
    as (c & H); [apply page_machine_inv|apply demo_ok; (lia || vm_compute; congruence)|].
  exists c. refine (eq_trans H _). apply (f_equal (λ v, Ok v (set_caches c page_machine))). vm_compute. reflexivity.
Defined.
