(* ===== verification/SegMem.v ===== *)
(** Data memory as instructions see it: the interface [DataMem] of segmented accesses to
    one flat memory, the instance a flat hardware memory gives when segments are flat and
    paging is off, and the weakest preconditions of the operations instructions are made
    of, for proofs that run them step by step. *)
From S2P Require Import Prelude Dram Cache L2Facts CacheFacts CacheSpec WorkingSet.
From S2P Require Import Tlb Cpu I8259 Mmio Vga WpPool Machine Memory MemFacts DemoMachine PageSpec.

Section View.
Context `{HRand : !LibcRand}.

(** The two machines see memory alike. *)
Record same_view (s s' : Machine) : Prop := {
  sv_mem : same_mem s s';
  sv_tlb : tlb s' = tlb s;
  sv_cr0 : cr0 (cpu s') = cr0 (cpu s);
  sv_cr3 : cr3 (cpu s') = cr3 (cpu s);
  sv_sreg : sreg (cpu s') = sreg (cpu s)
}.

(** What instructions of the register, memory and branch kinds leave alone besides. *)
Record same_rest (s s' : Machine) : Prop := {
  rest_debug : debug s' = debug s;
  rest_pic : pic s' = pic s;
  rest_state : nemu_state s' = nemu_state s;
  rest_16 : is_operand_size_16 (ops_decoded s') = is_operand_size_16 (ops_decoded s);
  rest_sreg : op_sreg (src (ops_decoded s')) = op_sreg (src (ops_decoded s))
}.

Lemma same_rest_trans s1 s2 s3 : same_rest s1 s2 → same_rest s2 s3 → same_rest s1 s3.
Proof. intros [] []. split; congruence. Qed.

Lemma same_view_refl s : same_view s s.
Proof. repeat split. Qed.
End View.

(** [DInv f s]: the machine [s] shows the bytes [f]; [dok sr a len]: an instruction may
    access the [len] bytes at [a] of the segment [sr]. *)
Class DataMem `{HRand : !LibcRand, HJunk : !StackJunk}
    (DInv : (Z → Z) → Machine → Prop) (dok : Z → Z → Z → Prop) := {
  dm_ok sr a len : dok sr a len → 0 < a ∧ a + len <= 2 ^ 32 ∧ (len = 1 ∨ len = 2 ∨ len = 4);
  dm_bytes f s : DInv f s → ∀ b, 0 <= b < 2 ^ 32 → 0 <= f b < 256;
  dm_ext f g s : (∀ b, 0 <= b < 2 ^ 32 → f b = g b) → DInv f s → DInv g s;
  dm_frame f s s' : same_view s s' → DInv f s → DInv f s';
  dm_read f s sr a len : DInv f s → dok sr a len →
    ∃ s', swaddr_read a len sr s = Ok (le_load (Z.to_nat len) f a) s' ∧ DInv f s' ∧ only_mem s s';
  dm_write f s sr a len v : DInv f s → dok sr a len →
    ∃ s', swaddr_write a len v sr s = Ok tt s' ∧ DInv (flat_store f a len v) s' ∧ only_mem s s'
}.

(** * Flat segments without paging *)
Section Flat.
Context `{HRand : !LibcRand, HJunk : !StackJunk} {Inv : (Z → Z) → Machine → Prop} {ok : Z → Z → Prop}.
Context `{HMem : !FlatMemory Inv ok}.

(** No paging, and every segment in use starts at 0. *)
Definition flat_segs (c : CPU_state) : Prop :=
  paged c = false ∧
  (protect_enable c = 1 → ∀ sr, 0 <= sr < 4 → seg_base (aget (sreg c) sr) = 0).

Definition flat_inv (f : Z → Z) (s : Machine) : Prop := Inv f s ∧ flat_segs (cpu s).

Definition flat_ok (sr a len : Z) : Prop :=
  0 <= sr < 4 ∧ 0 < a ∧ a + len <= 2 ^ 32 ∧ (len = 1 ∨ len = 2 ∨ len = 4) ∧
  ∀ k n, 0 <= k → 1 <= n → k + n <= len → ok (a + k) n.

Lemma flat_seg_translate s a len sr : flat_segs (cpu s) → 0 <= sr < 4 → 0 <= a < 2 ^ 32 →
  seg_translate a len sr s = Ok a s.
Proof using.
  intros [_ Hb] Hsr Ha. unfold seg_translate. rewrite bind_cassert by lia.
  unfold get_cpu. rewrite bind_gets. unfold id. destruct (Z.eqb_spec (protect_enable (cpu s)) 1) as [Hp|]; [|done].
  rewrite Hb by done. rewrite Z.add_0_r, wrap_small by done. reflexivity.
Qed.

Lemma flat_translate f c x : paged c = false → translate f c x = Some x.
Proof using. intros H. unfold translate. now rewrite H. Qed.

Lemma flat_lin_at f c a len : paged c = false → ok a len → lin_at (ok := ok) f c a len a.
Proof using. intros Hp Hok. split; [now apply flat_translate|]. split; [done|]. congruence. Qed.

Lemma flat_lin_ok f c sr a len : paged c = false → flat_ok sr a len → lin_ok (ok := ok) f c a len.
Proof using.
  intros Hp (_ & Ha & Hsz & Hlen & Hok). unfold lin_ok. destruct (Z.leb_spec (a mod 4096 + len) 4096).
  - exists a. apply flat_lin_at; [done|]. replace a with (a + 0) by lia. apply Hok; lia.
  - assert (1 <= front_of a < len) by (unfold front_of; lia).
    rewrite wrap_small by lia. exists a, (a + front_of a). split; apply flat_lin_at; try done.
    + replace a with (a + 0) at 1 by lia. apply Hok; lia.
    + apply Hok; lia.
Qed.

Lemma flat_vm_inv f s : flat_inv f s → vm_inv (Inv := Inv) f s.
Proof using. intros [Hs [Hp _]]. split; [done|]. congruence. Qed.

Lemma flat_lin_store f c a len v : paged c = false → 0 < a → a + len <= 2 ^ 32 → 1 <= len <= 4 →
  ∀ x, lin_store f c a len v x = flat_store f a len v x.
Proof using.
  intros Hp Ha Hsz Hl x. unfold lin_store, store_front. rewrite !flat_translate by done.
  destruct (Z.leb_spec (a mod 4096 + len) 4096); [done|].
  assert (1 <= front_of a < len) by (unfold front_of; lia).
  rewrite wrap_small by lia. rewrite flat_store_split by lia. f_equal. lia.
Qed.

Lemma flat_lnaddr_read f s sr a len : Inv f s → paged (cpu s) = false → flat_ok sr a len →
  ∃ s', lnaddr_read a len s = Ok (le_load (Z.to_nat len) f a) s' ∧ Inv f s' ∧ only_mem s s'.
Proof using HMem.
  intros Hs Hp Hok. pose proof Hok as (Hsr & Ha & Hsz & Hlen & _).
  destruct (lnaddr_read_ok f s a len) as (s' & Hrun & [Hs' _] & Ho); [split; [done|congruence]|lia|done| |].
  { by apply (flat_lin_ok _ _ sr). }
  exists s'. split; [|split; [exact Hs'|exact Ho]].
  refine (eq_trans Hrun _). f_equal. apply le_load_ext. intros k Hk. unfold lin_byte.
  rewrite flat_translate by apply Hp. now rewrite wrap_small by lia.
Qed.

Lemma flat_read f s sr a len : flat_inv f s → flat_ok sr a len →
  ∃ s', swaddr_read a len sr s = Ok (le_load (Z.to_nat len) f a) s' ∧ flat_inv f s' ∧ only_mem s s'.
Proof using HMem.
  intros Hs Hok. pose proof Hok as (Hsr & Ha & Hsz & Hlen & _). unfold swaddr_read.
  rewrite bind_cassert by lia. rewrite (bind_Ok _ _ _ _ _ (flat_seg_translate s a len sr (proj2 Hs) Hsr ltac:(lia))).
  destruct (flat_lnaddr_read f s sr a len) as (s' & Hrun & Hs' & Ho); [apply Hs..|done|].
  exists s'. split; [exact Hrun|]. split; [split; [exact Hs'|]|exact Ho].
  rewrite (only_mem_cpu _ _ Ho). apply Hs.
Qed.

Lemma flat_write f s sr a len v : flat_inv f s → flat_ok sr a len →
  ∃ s', swaddr_write a len v sr s = Ok tt s' ∧ flat_inv (flat_store f a len v) s' ∧ only_mem s s'.
Proof using HMem.
  intros Hs Hok. pose proof Hok as (Hsr & Ha & Hsz & Hlen & _). unfold swaddr_write.
  rewrite bind_cassert by lia. rewrite (bind_Ok _ _ _ _ _ (flat_seg_translate s a len sr (proj2 Hs) Hsr ltac:(lia))).
  assert (paged (cpu s) = false) as Hp by apply Hs.
  destruct (lnaddr_write_ok f s a len v) as (s' & Hrun & [Hs' _] & Ho); [now apply flat_vm_inv|lia|lia| | |].
  { now apply (flat_lin_ok _ _ sr). }
  { split; [rewrite flat_translate by done; intros [= ->]; lia|]. split; [intros ?; congruence|].
    intros Hx. split; [|intros ?; congruence]. rewrite flat_translate by done.
    rewrite wrap_small by (unfold front_of; lia). intros [= ?]. unfold front_of in *. lia. }
  exists s'. split; [exact Hrun|]. split; [|done]. split; [|rewrite (only_mem_cpu _ _ Ho); apply Hs].
  apply (fm_ext (lin_store f (cpu s) a len v)); [|done]. intros b Hb. apply flat_lin_store; (done || lia).
Qed.

#[export] Instance flat_data : DataMem flat_inv flat_ok.
Proof using HMem.
  split.
  - intros sr a len (_ & ? & ? & ? & _). done.
  - intros f s [Hs _]. now apply (fm_bytes f s).
  - intros f g s H [Hs ?]. split; [now apply (fm_ext f)|done].
  - intros f s s' [Hm _ Hc0 Hc3 Hsr] [Hs [Hp Hb]]. split; [now apply (fm_frame f s)|].
    unfold flat_segs, paged, paging, protect_enable in *. rewrite Hc0, Hsr. exact (conj Hp Hb).
  - apply flat_read.
  - apply flat_write.
Qed.
End Flat.

(** * What memory accesses leave alone *)
Section Keeps.
Context `{HRand : !LibcRand, HJunk : !StackJunk} (P : Machine → Prop).

(** [P] does not depend on the caches, the TLB, the mapped memory or the screen. *)
Record mem_stable : Prop := {
  ms_caches c s : P s → P (set_caches c s);
  ms_tlb t s : P s → P (set_tlb t s);
  ms_mmio b s : P s → P (set_mmio b s);
  ms_vga v s : P s → P (set_vga v s)
}.

Context (HP : mem_stable).

Lemma keeps_in_caches {A} (m : M Caches A) : keeps P (in_caches m).
Proof using HP. apply keeps_zoom. intros s Hs. destruct (m _); [now apply ms_caches..|done]. Qed.

Lemma keeps_mmio_callback cb a len b : keeps P (mmio_callback cb a len b).
Proof using HP.
  destruct cb. apply keeps_zoom. intros s Hs. destruct (vga_vmem_io_handler _ _ _ _); [now apply ms_vga..|done].
Qed.

Lemma keeps_hwaddr_read a len : keeps P (hwaddr_read a len).
Proof using HP.
  unfold hwaddr_read, mmio_read. repeat (keeps_step; cbv zeta); auto using keeps_in_caches, keeps_mmio_callback.
Qed.

Lemma keeps_hwaddr_write a len v : keeps P (hwaddr_write a len v).
Proof using HP.
  unfold hwaddr_write, mmio_write. repeat (keeps_step; cbv zeta); auto using keeps_in_caches, keeps_mmio_callback.
  apply keeps_modify. intros s. now apply ms_mmio.
Qed.

Lemma keeps_tlb_update a h : keeps P (tlb_update a h).
Proof using HP.
  intros s Hs. unfold tlb_update. destruct (TLB_update _ _ _). apply (ms_tlb HP), (ms_caches HP), Hs.
Qed.

Lemma keeps_page_translate a : keeps P (page_translate a).
Proof using HP.
  unfold page_translate. repeat (keeps_step; cbv zeta); auto using keeps_hwaddr_read, keeps_tlb_update.
Qed.

Lemma keeps_lnaddr_read a len : keeps P (lnaddr_read a len).
Proof using HP.
  unfold lnaddr_read. repeat (keeps_step; cbv zeta); auto using keeps_hwaddr_read, keeps_page_translate.
Qed.

Lemma keeps_lnaddr_write a len v : keeps P (lnaddr_write a len v).
Proof using HP.
  unfold lnaddr_write. repeat (keeps_step; cbv zeta); auto using keeps_hwaddr_write, keeps_page_translate.
Qed.

Lemma keeps_swaddr_read a len sr : keeps P (swaddr_read a len sr).
Proof using HP.
  unfold swaddr_read, seg_translate, get_cpu. repeat (keeps_step; cbv zeta); auto using keeps_lnaddr_read.
Qed.

Lemma keeps_swaddr_write a len v sr : keeps P (swaddr_write a len v sr).
Proof using HP.
  unfold swaddr_write, seg_translate, get_cpu. repeat (keeps_step; cbv zeta); auto using keeps_lnaddr_write.
Qed.
End Keeps.

(** * Running instructions step by step *)

(** Projections of a state built from setters. *)
Ltac mproj :=
  cbn [cpu ops_decoded caches tlb mmio vga pic pio serial_out newkey ide nemu_state sdl debug
       set_cpu set_ops set_caches set_tlb set_mmio set_vga set_pic set_pio set_serial_out
       set_newkey set_ide set_nemu_state set_sdl set_debug
       operand set_operand src dest src2 opcode is_operand_size_16 op_type op_size op_u op_sreg op_val
       set_op_type set_op_size set_op_u set_op_sreg set_op_val].

Ltac mproj_in H :=
  cbn [cpu ops_decoded caches tlb mmio vga pic pio serial_out newkey ide nemu_state sdl debug
       set_cpu set_ops set_caches set_tlb set_mmio set_vga set_pic set_pio set_serial_out
       set_newkey set_ide set_nemu_state set_sdl set_debug
       operand set_operand src dest src2 opcode is_operand_size_16 op_type op_size op_u op_sreg op_val
       set_op_type set_op_size set_op_u set_op_sreg set_op_val] in H.

Ltac regs :=
  cbv delta [R_EAX R_ECX R_EDX R_EBX R_ESP R_EBP R_ESI R_EDI R_AX R_DX R_AL R_CL].

Section WpMachine.
Context `{HRand : !LibcRand, HJunk : !StackJunk} (J : Machine → Prop).

Lemma wp_get_cpu {A} (f : CPU_state → A) Q s : Q (f (cpu s)) s → wp J (get_cpu f) Q s.
Proof. done. Qed.

Lemma wp_mod_cpu f (Q : unit → Machine → Prop) s : Q tt (set_cpu (f (cpu s)) s) → wp J (mod_cpu f) Q s.
Proof. done. Qed.

Lemma wp_get_op {A} r (f : Operand → A) Q s :
  Q (f (operand r (ops_decoded s))) s → wp J (get_op r f) Q s.
Proof. done. Qed.

Lemma wp_mod_op r f (Q : unit → Machine → Prop) s :
  Q tt (set_ops (set_operand r f (ops_decoded s)) s) → wp J (mod_op r f) Q s.
Proof. done. Qed.

Lemma wp_reg_l i Q s : 0 <= i < 8 → Q (gpr_l i (cpu s)) s → wp J (reg_l i) Q s.
Proof.
  intros Hi HQ. unfold reg_l, check_reg_index. repeat apply wp_bind.
  apply wp_cassert; [lia|]. apply wp_ret, wp_get_cpu, HQ.
Qed.

Lemma wp_reg_w i Q s : 0 <= i < 8 → Q (gpr_w i (cpu s)) s → wp J (reg_w i) Q s.
Proof.
  intros Hi HQ. unfold reg_w, check_reg_index. repeat apply wp_bind.
  apply wp_cassert; [lia|]. apply wp_ret, wp_get_cpu, HQ.
Qed.

Lemma wp_reg_b i Q s : 0 <= i < 8 → Q (gpr_b i (cpu s)) s → wp J (reg_b i) Q s.
Proof.
  intros Hi HQ. unfold reg_b, check_reg_index. repeat apply wp_bind.
  apply wp_cassert; [lia|]. apply wp_ret, wp_get_cpu, HQ.
Qed.

Lemma wp_set_reg_l i v (Q : unit → Machine → Prop) s : 0 <= i < 8 →
  Q tt (set_cpu (set_gpr_l i v (cpu s)) s) → wp J (set_reg_l i v) Q s.
Proof.
  intros Hi HQ. unfold set_reg_l, check_reg_index. repeat apply wp_bind.
  apply wp_cassert; [lia|]. apply wp_ret, wp_mod_cpu, HQ.
Qed.

Lemma wp_set_reg_w i v (Q : unit → Machine → Prop) s : 0 <= i < 8 →
  Q tt (set_cpu (set_gpr_w i v (cpu s)) s) → wp J (set_reg_w i v) Q s.
Proof.
  intros Hi HQ. unfold set_reg_w, check_reg_index. repeat apply wp_bind.
  apply wp_cassert; [lia|]. apply wp_ret, wp_mod_cpu, HQ.
Qed.

Lemma wp_set_reg_b i v (Q : unit → Machine → Prop) s : 0 <= i < 8 →
  Q tt (set_cpu (set_gpr_b i v (cpu s)) s) → wp J (set_reg_b i v) Q s.
Proof.
  intros Hi HQ. unfold set_reg_b, check_reg_index. repeat apply wp_bind.
  apply wp_cassert; [lia|]. apply wp_ret, wp_mod_cpu, HQ.
Qed.

Context {DInv : (Z → Z) → Machine → Prop} {dok : Z → Z → Z → Prop} `{HData : !DataMem DInv dok}.

(** A load leaves another cache and TLB behind, a store the stored memory too. *)
Lemma wp_swaddr_read sr a len f Q s : dok sr a len → DInv f s →
  (∀ t c, DInv f (set_tlb t (set_caches c s)) →
     Q (le_load (Z.to_nat len) f a) (set_tlb t (set_caches c s))) →
  wp J (swaddr_read a len sr) Q s.
Proof using HData.
  intros Hok Hs HQ. destruct (dm_read f s sr a len Hs Hok) as (s' & Hrun & Hs' & Ho).
  eapply wp_Ok; [exact Hrun|]. rewrite Ho in Hs' |- *. now apply HQ.
Qed.

Lemma wp_swaddr_write sr a len v f (Q : unit → Machine → Prop) s : dok sr a len → DInv f s →
  (∀ t c, DInv (flat_store f a len v) (set_tlb t (set_caches c s)) →
     Q tt (set_tlb t (set_caches c s))) →
  wp J (swaddr_write a len v sr) Q s.
Proof using HData.
  intros Hok Hs HQ. destruct (dm_write f s sr a len v Hs Hok) as (s' & Hrun & Hs' & Ho).
  eapply wp_Ok; [exact Hrun|]. rewrite Ho in Hs' |- *. now apply HQ.
Qed.

(** General registers, flags, EIP and the decoded operands are not part of the view. *)
Lemma data_cpu f s c : cr0 c = cr0 (cpu s) → cr3 c = cr3 (cpu s) → sreg c = sreg (cpu s) →
  DInv f s → DInv f (set_cpu c s).
Proof using HData. intros H0 H3 Hsr. apply dm_frame. now split. Qed.

Lemma data_ops f s o : DInv f s → DInv f (set_ops o s).
Proof using HData. apply dm_frame. now split. Qed.
End WpMachine.

(** Some hypothesis shows the memory of a state with the same view. *)
Ltac data :=
  match goal with
  | H : ?D ?f ?s |- ?D _ ?s' => refine (dm_frame f s s' _ H); repeat split; reflexivity
  end.

(** A load or a store at a place that [H] says is data. *)
Ltac wp_load H := eapply (wp_swaddr_read _ _ _ _ _ _ _ H); [data|let H' := fresh "Hd" in intros ? ? H'; mproj_in H'].
Ltac wp_store H := eapply (wp_swaddr_write _ _ _ _ _ _ _ _ H); [data|let H' := fresh "Hd" in intros ? ? H'; mproj_in H'].

(** The setters of a state in one order, each once. *)
Ltac collapse :=
  repeat match goal with
  | |- context [set_ops ?a (set_ops ?b ?s)] => change (set_ops a (set_ops b s)) with (set_ops a s)
  | |- context [set_cpu ?c (set_cpu ?d ?s)] => change (set_cpu c (set_cpu d s)) with (set_cpu c s)
  | |- context [set_tlb ?c (set_tlb ?d ?s)] => change (set_tlb c (set_tlb d s)) with (set_tlb c s)
  | |- context [set_caches ?c (set_caches ?d ?s)] =>
      change (set_caches c (set_caches d s)) with (set_caches c s)
  | |- context [set_cpu ?c (set_ops ?a ?s)] =>
      change (set_cpu c (set_ops a s)) with (set_ops a (set_cpu c s))
  | |- context [set_tlb ?c (set_ops ?a ?s)] =>
      change (set_tlb c (set_ops a s)) with (set_ops a (set_tlb c s))
  | |- context [set_caches ?c (set_ops ?a ?s)] =>
      change (set_caches c (set_ops a s)) with (set_ops a (set_caches c s))
  | |- context [set_tlb ?c (set_cpu ?a ?s)] =>
      change (set_tlb c (set_cpu a s)) with (set_cpu a (set_tlb c s))
  | |- context [set_caches ?c (set_cpu ?a ?s)] =>
      change (set_caches c (set_cpu a s)) with (set_cpu a (set_caches c s))
  | |- context [set_caches ?c (set_tlb ?a ?s)] =>
      change (set_caches c (set_tlb a s)) with (set_tlb a (set_caches c s))
  end.

Ltac wp_norm := cbv zeta; mproj; regs; collapse.

(** One operation of a run; memory accesses are left to [wp_swaddr_read] and
    [wp_swaddr_write]. *)
Ltac wp_step :=
  wp_norm;
  match goal with
  | |- wp _ (_ ≫= _) _ _ => apply wp_bind
  | |- wp _ (mret _) _ _ => apply wp_ret
  | |- wp _ getS _ _ => apply wp_getS
  | |- wp _ (gets _) _ _ => apply wp_gets
  | |- wp _ (modify _) _ _ => apply wp_modify
  | |- wp _ longjmp _ _ => apply wp_longjmp
  | |- wp _ (cassert _) _ _ => apply wp_cassert; [lia|]
  | |- wp _ (get_cpu _) _ _ => apply wp_get_cpu
  | |- wp _ (mod_cpu _) _ _ => apply wp_mod_cpu
  | |- wp _ (get_op _ _) _ _ => apply wp_get_op
  | |- wp _ (mod_op _ _) _ _ => apply wp_mod_op
  | |- wp _ (reg_l _) _ _ => apply wp_reg_l; [lia|]
  | |- wp _ (reg_w _) _ _ => apply wp_reg_w; [lia|]
  | |- wp _ (reg_b _) _ _ => apply wp_reg_b; [lia|]
  | |- wp _ (set_reg_l _ _) _ _ => apply wp_set_reg_l; [lia|]
  | |- wp _ (set_reg_w _ _) _ _ => apply wp_set_reg_w; [lia|]
  | |- wp _ (set_reg_b _ _) _ _ => apply wp_set_reg_b; [lia|]
  end.

(** * Data memory on the machines of [DemoMachine] *)
#[local] Existing Instance IsoRand.
#[local] Existing Instance ZeroJunk.
#[export] Existing Instance cached_memory.

Abbreviation demo_data := (flat_inv (Inv := cached_inv (window 0) [])).
Abbreviation demo_dok := (flat_ok (ok := cached_ok (window 0) [])).

Lemma demo_data_inv c d : cold_dram d → flat_segs c → demo_data (hw_get d) (demo_machine c d).
Proof. intros Hd Hc. split; [now apply demo_inv|exact Hc]. Qed.

Lemma demo_data_ok sr a len : 0 <= sr < 4 → 0 < a → a + len <= 2 ^ 22 → (len = 1 ∨ len = 2 ∨ len = 4) →
  demo_dok sr a len.
Proof.
  intros. split; [done|]. split; [done|]. split; [lia|]. split; [done|]. intros k n Hk Hn Hl.
  apply demo_ok; change HW_MEM_SIZE with 134217728; lia.
Qed.

(** Real mode: no segment base, no paging. *)
Lemma flat_segs_real c : cr0 c = 0 → flat_segs c.
Proof. intros H. unfold flat_segs, paged, paging, protect_enable. rewrite H. split; [reflexivity|]. discriminate. Qed.
