(* ===== verification/Devices.v ===== *)
(** The port-mapped devices: serial port, keyboard controller, timer, IDE disk and its
    bus master ([nemu/src/device/serial.c], [keyboard.c], [timer.c], [ide.c]), the
    dispatch of the port bus to them, and [init_device]. *)
From S2P Require Import Prelude Dram Cache Tlb Cpu I8259 Mmio Vga Machine Memory.

Definition SERIAL_PORT : Z := 0x3F8.
Definition CH_OFFSET : Z := 0.
Definition LSR_OFFSET : Z := 5.
Definition I8042_DATA_PORT : Z := 0x60.
Definition KEYBOARD_IRQ : Z := 1.
Definition TIMER_IRQ : Z := 0.
Definition IDE_CTRL_PORT : Z := 0x3F6.
Definition IDE_PORT : Z := 0x1F0.
Definition BMR_PORT : Z := 0xc040.
Definition IDE_IRQ : Z := 14.

(** * The disk image: [fseek], [fread], [fwrite] on one stream

    [fread] and [fwrite] of one item of [n] bytes, with the item count they return;
    errors of the host's file system are not modelled. *)
Definition fseek (p : Z) (f : File) : File := mkFile (f_data f) (f_size f) p false.

Definition fread (n : Z) (f : File) : Z * list Z * File :=
  let k := Z.max 0 (Z.min n (f_size f - f_pos f)) in
  let bytes := map (λ i, aget (f_data f) (f_pos f + Z.of_nat i)) (seq 0 (Z.to_nat k)) in
  ((if (0 <? n) && (k =? n) then 1 else 0), bytes,
   mkFile (f_data f) (f_size f) (f_pos f + k) (f_eof f || (k <? n))).

Definition fwrite (bytes : list Z) (f : File) : Z * File :=
  let d := foldl (λ '(d, p) b, (aset p b d, p + 1)) (f_data f, f_pos f) bytes in
  (1, mkFile (fst d) (Z.max (f_size f) (snd d)) (snd d) (f_eof f)).

Section Devices.
Context `{HRand : !LibcRand, HJunk : !StackJunk}.

(** The byte of a port, read and written by its device. *)
Definition port (p : Z) : NEMU Z := gets (λ s, pio_get (pio s) p).
Definition set_port (p v : Z) : NEMU unit := modify (λ s, set_pio (pio_set p v (pio s)) s).

Definition mod_ide (f : Ide → Ide) : NEMU unit := modify (λ s, set_ide (f (ide s)) s).

(** * Serial port *)
Definition serial_io_handler (addr len : Z) (is_write : bool) : NEMU unit :=
  if is_write then
    _ ← cassert (len =? 1);
    if addr =? SERIAL_PORT + CH_OFFSET then
      c ← port (SERIAL_PORT + CH_OFFSET);
      modify (λ s, set_serial_out (c :: serial_out s) s)
    else mret tt
  else mret tt.

(** * Keyboard and timer *)
Definition keyboard_intr (scancode : Z) : NEMU unit :=
  s ← getS;
  if (nemu_state s =? RUNNING) && negb (newkey s) then
    _ ← set_port I8042_DATA_PORT scancode;
    _ ← in_pic (i8259_raise_intr KEYBOARD_IRQ);
    modify (set_newkey true)
  else mret tt.

Definition i8042_io_handler (addr len : Z) (is_write : bool) : NEMU unit :=
  if negb is_write then modify (set_newkey false) else mret tt.

Definition timer_intr : NEMU unit :=
  s ← getS;
  if nemu_state s =? RUNNING then in_pic (i8259_raise_intr TIMER_IRQ) else mret tt.

(** * IDE *)
Definition ide_set_sector (v : Z) (i : Ide) := mkIde (u32 v) (disk_idx i) (byte_cnt i) (ide_write i) (disk_fp i).
Definition ide_set_idx (v : Z) (i : Ide) := mkIde (sector i) (u32 v) (byte_cnt i) (ide_write i) (disk_fp i).
Definition ide_set_cnt (v : Z) (i : Ide) := mkIde (sector i) (disk_idx i) (u32 v) (ide_write i) (disk_fp i).
Definition ide_set_write (b : bool) (i : Ide) := mkIde (sector i) (disk_idx i) (byte_cnt i) b (disk_fp i).
Definition ide_set_fp (f : File) (i : Ide) := mkIde (sector i) (disk_idx i) (byte_cnt i) (ide_write i) f.

(** [sector = ...; disk_idx = sector << 9; fseek(disk_fp, disk_idx, SEEK_SET)] *)
Definition ide_seek : NEMU unit :=
  b3 ← port (IDE_PORT + 3); b4 ← port (IDE_PORT + 4);
  b5 ← port (IDE_PORT + 5); b6 ← port (IDE_PORT + 6);
  _ ← mod_ide (ide_set_sector (Z.lor (Z.lor (Z.lor (Z.shiftl (Z.land b6 0x1f) 24) (Z.shiftl b5 16))
                                        (Z.shiftl b4 8)) b3));
  _ ← mod_ide (λ i, ide_set_idx (Z.shiftl (sector i) 9) i);
  mod_ide (λ i, ide_set_fp (fseek (disk_idx i) (disk_fp i)) i).

(** [byte_cnt += 4; if(byte_cnt == 512) ide_port_base\[7\] = 0x40] *)
Definition ide_count : NEMU unit :=
  _ ← mod_ide (λ i, ide_set_cnt (byte_cnt i + 4) i);
  s ← getS;
  if byte_cnt (ide s) =? 512 then set_port (IDE_PORT + 7) 0x40 else mret tt.

Definition ide_io_handler (addr len : Z) (is_write : bool) : NEMU unit :=
  s ← getS;
  _ ← cassert (byte_cnt (ide s) <=? 512);
  if is_write then
    if (addr - IDE_PORT =? 0) && (len =? 4) then
      _ ← cassert (ide_write (ide s));
      let '(ret, f) := fwrite (map (λ i, pio_get (pio s) (IDE_PORT + Z.of_nat i)) (seq 0 4))
                              (disk_fp (ide s)) in
      _ ← mod_ide (ide_set_fp f);
      _ ← cassert (ret =? 1);
      ide_count
    else if addr - IDE_PORT =? 7 then
      cmd ← port (IDE_PORT + 7);
      if (cmd =? 0x20) || (cmd =? 0x30) then
        _ ← ide_seek;
        _ ← mod_ide (ide_set_cnt 0);
        if cmd =? 0x20 then
          _ ← mod_ide (ide_set_write false);
          _ ← set_port (IDE_PORT + 7) 0x40;
          in_pic (i8259_raise_intr IDE_IRQ)
        else mod_ide (ide_set_write true)
      else if cmd =? 0xc8 then mret tt
      else cassert false
    else mret tt
  else
    if (addr - IDE_PORT =? 0) && (len =? 4) then
      _ ← cassert (negb (ide_write (ide s)));
      let '(ret, bytes, f) := fread 4 (disk_fp (ide s)) in
      _ ← mod_ide (ide_set_fp f);
      _ ← modify (λ s, set_pio (foldl (λ b '(i, v), pio_set (IDE_PORT + i) v b) (pio s)
                               (zip (map Z.of_nat (seq 0 4)) bytes)) s);
      _ ← cassert ((ret =? 1) || f_eof f);
      ide_count
    else mret tt.

(** [hwa_to_va(addr)] plus [n] bytes must be inside the array. *)
Definition hw_store (addr : Z) (bytes : list Z) : NEMU unit :=
  if HW_MEM_SIZE <? addr + Z.of_nat (length bytes) then fail EUndefined
  else in_caches (in_dram (modify (λ d,
    fst (foldl (λ '(d, p) b, (hw_set p b d, p + 1)) (d, addr) bytes)))).

Definition bmr_io_handler (addr len : Z) (is_write : bool) : NEMU unit :=
  if is_write then
    if addr - BMR_PORT =? 0 then
      b0 ← port BMR_PORT;
      if negb (Z.land b0 0x1 =? 0) then
        if negb (Z.land b0 0x8 =? 0) then
          prdt_addr ← gets (λ s, le_load 4 (pio_get (pio s)) (BMR_PORT + 4));
          addr ← hwaddr_read prdt_addr 4;
          hi_entry ← hwaddr_read (u32 (prdt_addr + 4)) 4;
          let byte_cnt := Z.land hi_entry 0xffff in
          _ ← ide_seek;
          s ← getS;
          let '(ret, bytes, f) := fread byte_cnt (disk_fp (ide s)) in
          _ ← mod_ide (ide_set_fp f);
          _ ← hw_store addr bytes;
          _ ← cassert ((ret =? 1) || f_eof f);
          _ ← cassert (negb (Z.land hi_entry 0x80000000 =? 0));
          _ ← set_port (IDE_PORT + 7) 0x40;
          in_pic (i8259_raise_intr IDE_IRQ)
        else cassert false
      else mret tt
    else mret tt
  else mret tt.

(** * The port bus *)
Definition pio_callback_fn (cb : pio_cb) (addr len : Z) (is_write : bool) : NEMU unit :=
  match cb with
  | serial_cb => serial_io_handler addr len is_write
  | vga_dac_cb =>
    b0 ← port VGA_DAC_WRITE_INDEX; b1 ← port (VGA_DAC_WRITE_INDEX + 1);
    in_vga (vga_dac_io_handler b0 b1 addr is_write)
  | vga_crtc_cb =>
    b0 ← port VGA_CRTC_INDEX; b1 ← port (VGA_CRTC_INDEX + 1);
    r ← in_vga (vga_crtc_io_handler b0 b1 addr is_write);
    match r with Some v => set_port (VGA_CRTC_INDEX + 1) v | None => mret tt end
  | i8042_cb => i8042_io_handler addr len is_write
  | ide_cb => ide_io_handler addr len is_write
  | bmr_cb => bmr_io_handler addr len is_write
  end.

Definition pio_in (addr len : Z) : NEMU Z := pio_read pio pio_callback_fn addr len.
Definition pio_out (addr len data : Z) : NEMU unit := pio_write pio set_pio pio_callback_fn addr len data.

Definition map_port (addr len : Z) (cb : pio_cb) : NEMU Z := add_pio_map pio set_pio addr len cb.

(** * Initialisation *)
Definition init_serial : NEMU unit :=
  base ← map_port SERIAL_PORT 8 serial_cb;
  set_port (base + LSR_OFFSET) 0x20.

Definition init_timer : NEMU unit := mret tt.

Definition init_vga : NEMU unit :=
  _ ← map_port VGA_DAC_WRITE_INDEX 2 vga_dac_cb;
  _ ← map_port VGA_CRTC_INDEX 2 vga_crtc_cb;
  base ← add_mmio_map mmio set_mmio 0xa0000 0x20000 vga_vmem_cb;
  in_vga (modify (vga_set_base base)).

Definition init_i8042 : NEMU unit :=
  _ ← map_port I8042_DATA_PORT 1 i8042_cb;
  modify (set_newkey false).

(** [disk] is the file [fopen(exec_file, "r+")] opens; a file that does not open
    ends the emulator. *)
Definition init_ide (disk : option File) : NEMU unit :=
  base ← map_port IDE_PORT 8 ide_cb;
  _ ← set_port (base + 7) 0x40;
  bmr_base ← map_port BMR_PORT 8 bmr_cb;
  _ ← set_port bmr_base 0;
  match disk with
  | Some f => mod_ide (ide_set_fp f)
  | None => cassert false
  end.

Definition init_device (disk : option File) : NEMU unit :=
  _ ← init_serial;
  _ ← init_timer;
  _ ← init_vga;
  _ ← init_i8042;
  init_ide disk.
End Devices.
