(* ===== verification/Decode.v ===== *)
(** Operand decoding: [nemu/src/cpu/decode/modrm.c], and
    [nemu/src/cpu/decode/decode-template.h], which is instantiated at the operand sizes
    of 1, 2 and 4 bytes ([nemu/include/cpu/exec/template-start.h]). *)
From S2P Require Import Prelude Dram Cache Tlb Cpu I8259 Mmio Vga Machine Memory.

(** * Operand sizes: [DATA_BYTE]

    The suffixes [b], [w], [l] and what template-start.h derives from them. *)
Inductive width := WB | WW | WL.

#[export] Instance width_eq_dec : EqDecision width.
Proof. solve_decision. Defined.

Definition DATA_BYTE (w : width) : Z := match w with WB => 1 | WW => 2 | WL => 4 end.
Definition bits (w : width) : Z := 8 * DATA_BYTE w.

(** Conversion to [DATA_TYPE] and to [DATA_TYPE_S]. *)
Definition DATA_TYPE (w : width) (x : Z) : Z := wrap (bits w) x.
Definition DATA_TYPE_S (w : width) (x : Z) : Z := sgn (bits w) x.
Definition MSB (w : width) (n : Z) : Z := Z.shiftr (DATA_TYPE w n) (Z.shiftl (DATA_BYTE w) 3 - 1).

Section Decode.
Context `{HRand : !LibcRand, HJunk : !StackJunk}.

(** [REG(index)], [MEM_R], [MEM_W] *)
Definition REG (w : width) (i : Z) : NEMU Z :=
  match w with WB => reg_b i | WW => reg_w i | WL => reg_l i end.
Definition set_REG (w : width) (i v : Z) : NEMU unit :=
  match w with WB => set_reg_b i v | WW => set_reg_w i v | WL => set_reg_l i v end.
Definition MEM_R (w : width) (addr sr : Z) : NEMU Z := swaddr_read addr (DATA_BYTE w) sr.
Definition MEM_W (w : width) (addr data sr : Z) : NEMU unit :=
  swaddr_write addr (DATA_BYTE w) (DATA_TYPE w data) sr.

(** * ModR/M and SIB *)
Definition ModR_M_R_M (v : Z) : Z := bitfield v 0 3.
Definition ModR_M_reg (v : Z) : Z := bitfield v 3 3.
Definition ModR_M_mod (v : Z) : Z := bitfield v 6 2.
Definition ModR_M_opcode (v : Z) : Z := bitfield v 3 3.
Definition SIB_base (v : Z) : Z := bitfield v 0 3.
Definition SIB_index (v : Z) : Z := bitfield v 3 3.
Definition SIB_ss (v : Z) : Z := bitfield v 6 2.

(** The base register, index register (-1: none), scale and offset of the
    displacement. *)
Definition load_addr_sib (eip R_M : Z) : NEMU (Z * Z * Z * Z) :=
  if R_M =? R_ESP then
    s ← instr_fetch (u32 (eip + 1)) 1;
    mret (SIB_base s, (if negb (SIB_index s =? R_ESP) then SIB_index s else -1), SIB_ss s, 2)
  else mret (R_M, -1, 0, 1).

Definition load_addr (eip m : Z) (rm : opref) : NEMU Z :=
  _ ← cassert (negb (ModR_M_mod m =? 3));
  '(base_reg, index_reg, scale, disp_offset) ← load_addr_sib eip (ModR_M_R_M m);
  let '(base_reg, disp_size) :=
    if ModR_M_mod m =? 0 then
      if base_reg =? R_EBP then (-1, 4) else (base_reg, 0)
    else if ModR_M_mod m =? 1 then (base_reg, 1)
    else (base_reg, 4) in
  let instr_len := disp_offset in
  let addr := 0 in
  '(instr_len, addr) ←
    (if negb (disp_size =? 0) then
       d ← instr_fetch (u32 (eip + disp_offset)) disp_size;
       let disp := if disp_size =? 1 then s8 d else s32 d in
       mret (instr_len + disp_size, u32 (addr + disp))
     else mret (instr_len, addr));
  addr ← (if negb (base_reg =? -1) then r ← reg_l base_reg; mret (u32 (addr + r)) else mret addr);
  addr ← (if negb (index_reg =? -1)
          then r ← reg_l index_reg; mret (u32 (addr + u32 (Z.shiftl r scale))) else mret addr);
  _ ← mod_op rm (set_op_type OP_TYPE_MEM);
  _ ← mod_op rm (set_op_u addr);
  mret instr_len.

Definition read_ModR_M (eip : Z) (rm reg : opref) : NEMU Z :=
  m ← instr_fetch eip 1;
  _ ← mod_op reg (set_op_type OP_TYPE_REG);
  _ ← mod_op reg (set_op_u (ModR_M_reg m));
  r ← get_op reg op_u;
  _ ← mod_op rm (set_op_sreg (if (r =? 5) || (r =? 4) then 2 else 3));
  if ModR_M_mod m =? 3 then
    _ ← mod_op rm (set_op_type OP_TYPE_REG);
    _ ← mod_op rm (set_op_u (ModR_M_R_M m));
    size ← get_op rm op_size;
    v ← (if size =? 1 then reg_b (ModR_M_R_M m)
         else if size =? 2 then reg_w (ModR_M_R_M m)
         else if size =? 4 then reg_l (ModR_M_R_M m)
         else fail EAssert);
    _ ← mod_op rm (set_op_val v);
    mret 1
  else
    instr_len ← load_addr eip m rm;
    o ← get_op rm id;
    v ← swaddr_read (op_u o) (op_size o) (op_sreg o);
    _ ← mod_op rm (set_op_val v);
    mret instr_len.

(** * decode-template.h *)
Section Template.
Context (w : width).

Definition decode_n (eip : Z) : NEMU Z :=
  _ ← mod_op op_src (set_op_type OP_TYPE_IMM);
  mret 0.

Definition decode_i (eip : Z) : NEMU Z :=
  _ ← mod_op op_src (set_op_type OP_TYPE_IMM);
  v ← instr_fetch eip (DATA_BYTE w);
  _ ← mod_op op_src (set_op_u v);
  imm ← get_op op_src op_u;
  _ ← mod_op op_src (set_op_val imm);
  mret (DATA_BYTE w).

(** Instantiated at 1 and 4 bytes only. *)
Definition decode_si (eip : Z) : NEMU Z :=
  _ ← mod_op op_src (set_op_type OP_TYPE_IMM);
  v ← instr_fetch eip (DATA_BYTE w);
  _ ← mod_op op_src (set_op_u (DATA_TYPE_S w v));
  simm ← get_op op_src op_u;
  _ ← mod_op op_src (set_op_val simm);
  mret (DATA_BYTE w).

Definition decode_a (eip : Z) (op : opref) : NEMU Z :=
  _ ← mod_op op (set_op_type OP_TYPE_REG);
  _ ← mod_op op (set_op_u R_EAX);
  v ← REG w R_EAX;
  _ ← mod_op op (set_op_val v);
  mret 0.

Definition decode_r_internal (eip : Z) (op : opref) : NEMU Z :=
  _ ← mod_op op (set_op_type OP_TYPE_REG);
  o ← gets (λ s, opcode (ops_decoded s));
  _ ← mod_op op (set_op_u (Z.land o 0x7));
  r ← get_op op op_u;
  v ← REG w r;
  _ ← mod_op op (set_op_val v);
  mret 0.

Definition decode_rm_internal (eip : Z) (rm reg : opref) : NEMU Z :=
  _ ← mod_op rm (set_op_size (DATA_BYTE w));
  len ← read_ModR_M eip rm reg;
  r ← get_op reg op_u;
  v ← REG w r;
  _ ← mod_op reg (set_op_val v);
  mret len.

Definition decode_r2rm (eip : Z) : NEMU Z := decode_rm_internal eip op_dest op_src.
Definition decode_rm2r (eip : Z) : NEMU Z := decode_rm_internal eip op_src op_dest.

Definition decode_i2a (eip : Z) : NEMU Z :=
  _ ← decode_a eip op_dest;
  decode_i eip.

Definition decode_i_rm2r (eip : Z) : NEMU Z :=
  len ← decode_rm_internal eip op_src2 op_dest;
  l ← decode_i (u32 (eip + len));
  mret (len + l).

Definition decode_i2rm (eip : Z) : NEMU Z :=
  len ← decode_rm_internal eip op_dest op_src2;
  l ← decode_i (u32 (eip + len));
  mret (len + l).

Definition decode_i2r (eip : Z) : NEMU Z :=
  _ ← decode_r_internal eip op_dest;
  decode_i eip.

Definition decode_rm (eip : Z) : NEMU Z := decode_rm_internal eip op_src op_src2.
Definition decode_r (eip : Z) : NEMU Z := decode_r_internal eip op_src.
End Template.

Section Template2.
Context (w : width).

Definition decode_si2rm (eip : Z) : NEMU Z :=
  len ← decode_rm_internal w eip op_dest op_src2;
  l ← decode_si WB (u32 (eip + len));
  mret (len + l).

Definition decode_si_rm2r (eip : Z) : NEMU Z :=
  len ← decode_rm_internal w eip op_src2 op_dest;
  l ← decode_si WB (u32 (eip + len));
  mret (len + l).

Definition decode_rm_1 (eip : Z) : NEMU Z :=
  len ← decode_r2rm w eip;
  _ ← mod_op op_src (set_op_type OP_TYPE_IMM);
  _ ← mod_op op_src (set_op_u 1);
  _ ← mod_op op_src (set_op_val 1);
  mret len.

Definition decode_rm_cl (eip : Z) : NEMU Z :=
  len ← decode_r2rm w eip;
  _ ← mod_op op_src (set_op_type OP_TYPE_REG);
  _ ← mod_op op_src (set_op_u R_CL);
  v ← reg_b R_CL;
  _ ← mod_op op_src (set_op_val v);
  mret len.

Definition decode_rm_imm (eip : Z) : NEMU Z :=
  len ← decode_r2rm w eip;
  l ← decode_i WB (u32 (eip + len));
  mret (len + l).

Definition write_operand (op : opref) (v : Z) : NEMU unit :=
  let v := DATA_TYPE w v in
  o ← get_op op id;
  if op_type o =? OP_TYPE_REG then set_REG w (op_u o) v
  else if op_type o =? OP_TYPE_MEM then swaddr_write (op_u o) (op_size o) v (op_sreg o)
  else fail EAssert.
End Template2.

(** * helper.h *)

(** [idex(eip, decode, execute)] *)
Definition idex (eip : Z) (decode : Z → NEMU Z) (execute : NEMU unit) : NEMU Z :=
  len ← decode (u32 (eip + 1));
  _ ← execute;
  mret (len + 1).

(** A helper: an opcode's function, from the address of the opcode to the length of
    the instruction. *)
Definition helper : Type := Z → NEMU Z.

(** [make_instr_helper(type)] *)
Definition make_instr_helper (decode : width → helper) (execute : width → NEMU unit) : width → helper :=
  λ w eip, idex eip (decode w) (execute w).

(** [make_helper_v(name)]: by [is_operand_size_16], the [_w] or the [_l] helper. *)
Definition make_helper_v (h : width → helper) : helper := λ eip,
  s ← getS; if is_operand_size_16 (ops_decoded s) then h WW eip else h WL eip.
End Decode.
