(* ===== verification/Arith.v ===== *)
(** Integer arithmetic: [nemu/src/cpu/exec/arith/].  A template is a function of the
    operand size; [x_type] is [make_instr_helper(type)] and [x_v] its
    [make_helper_v]. *)
From S2P Require Import Prelude Dram Cache Tlb Cpu I8259 Mmio Vga Machine Memory Decode.

(** The end of every flag update: [result ^= result >> 4; result ^= result >> 2;
    result ^= result >> 1; cpu.PF = !(result & 1)]. *)
Definition pf_of (w : width) (result : Z) : Z :=
  let result := DATA_TYPE w (Z.lxor result (Z.shiftr result 4)) in
  let result := DATA_TYPE w (Z.lxor result (Z.shiftr result 2)) in
  let result := DATA_TYPE w (Z.lxor result (Z.shiftr result 1)) in
  b2z (Z.land result 1 =? 0).

(** [cpu.CF = cf; cpu.SF = MSB(result); cpu.ZF = !result; cpu.OF = ovf(cpu.SF); PF]: the
    flag updates of add, sub and the like, which differ in [cf] and [ovf]. *)
Definition update_flags (w : width) (result cf : Z) (ovf : Z → bool) (c : CPU_state) : CPU_state :=
  let c := set_CF cf c in
  let c := set_SF (MSB w result) c in
  let c := set_ZF (b2z (result =? 0)) c in
  let c := set_OF (b2z (ovf (SF c))) c in
  set_PF (pf_of w result) c.

Section Arith.
Context `{HRand : !LibcRand, HJunk : !StackJunk}.

(** * adc, add *)
Definition do_adc (w : width) : NEMU unit :=
  d ← get_op op_dest op_val; s ← get_op op_src op_val;
  cf ← get_cpu CF;
  let result := DATA_TYPE w (d + s + cf) in
  _ ← write_operand w op_dest result;
  let r1 := MSB w d in let r2 := MSB w s in
  mod_cpu (update_flags w result (b2z (result <? d)) (λ sf, (r1 =? r2) && negb (sf =? r1))).
Definition adc_r2rm : width → helper := make_instr_helper decode_r2rm do_adc.
Definition adc_i2rm : width → helper := make_instr_helper decode_i2rm do_adc.
Definition adc_rm2r : width → helper := make_instr_helper decode_rm2r do_adc.
Definition adc_i2a : width → helper := make_instr_helper decode_i2a do_adc.
Definition adc_si2rm : width → helper := make_instr_helper decode_si2rm do_adc.
Definition adc_i2rm_v : helper := make_helper_v adc_i2rm.
Definition adc_i2a_v : helper := make_helper_v adc_i2a.
Definition adc_si2rm_v : helper := make_helper_v adc_si2rm.
Definition adc_r2rm_v : helper := make_helper_v adc_r2rm.
Definition adc_rm2r_v : helper := make_helper_v adc_rm2r.

Definition do_add (w : width) : NEMU unit :=
  d ← get_op op_dest op_val; s ← get_op op_src op_val;
  let result := DATA_TYPE w (d + s) in
  _ ← write_operand w op_dest result;
  let r1 := MSB w d in let r2 := MSB w s in
  mod_cpu (update_flags w result (b2z (result <? d)) (λ sf, (r1 =? r2) && negb (sf =? r1))).
Definition add_r2rm : width → helper := make_instr_helper decode_r2rm do_add.
Definition add_i2rm : width → helper := make_instr_helper decode_i2rm do_add.
Definition add_rm2r : width → helper := make_instr_helper decode_rm2r do_add.
Definition add_i2a : width → helper := make_instr_helper decode_i2a do_add.
Definition add_si2rm : width → helper := make_instr_helper decode_si2rm do_add.
Definition add_i2rm_v : helper := make_helper_v add_i2rm.
Definition add_i2a_v : helper := make_helper_v add_i2a.
Definition add_si2rm_v : helper := make_helper_v add_si2rm.
Definition add_r2rm_v : helper := make_helper_v add_r2rm.
Definition add_rm2r_v : helper := make_helper_v add_rm2r.

(** * cmp, sub, sbb *)
Definition do_cmp (w : width) : NEMU unit :=
  d ← get_op op_dest op_val; s ← get_op op_src op_val;
  let result := DATA_TYPE w (d - s) in
  let r1 := MSB w d in let r2 := MSB w s in
  mod_cpu (update_flags w result (b2z (d <? s)) (λ sf, negb (r1 =? r2) && (sf =? r2))).
Definition cmp_i2rm : width → helper := make_instr_helper decode_i2rm do_cmp.
Definition cmp_r2rm : width → helper := make_instr_helper decode_r2rm do_cmp.
Definition cmp_rm2r : width → helper := make_instr_helper decode_rm2r do_cmp.
Definition cmp_i2a : width → helper := make_instr_helper decode_i2a do_cmp.
Definition cmp_si2rm : width → helper := make_instr_helper decode_si2rm do_cmp.
Definition cmp_i2rm_v : helper := make_helper_v cmp_i2rm.
Definition cmp_r2rm_v : helper := make_helper_v cmp_r2rm.
Definition cmp_rm2r_v : helper := make_helper_v cmp_rm2r.
Definition cmp_si2rm_v : helper := make_helper_v cmp_si2rm.
Definition cmp_i2a_v : helper := make_helper_v cmp_i2a.

Definition do_sub (w : width) : NEMU unit :=
  d ← get_op op_dest op_val; s ← get_op op_src op_val;
  let result := DATA_TYPE w (d - s) in
  _ ← write_operand w op_dest result;
  let r1 := MSB w d in let r2 := MSB w s in
  mod_cpu (update_flags w result (b2z (d <? s)) (λ sf, negb (r1 =? r2) && (sf =? r2))).
Definition sub_r2rm : width → helper := make_instr_helper decode_r2rm do_sub.
Definition sub_i2rm : width → helper := make_instr_helper decode_i2rm do_sub.
Definition sub_i2a : width → helper := make_instr_helper decode_i2a do_sub.
Definition sub_rm2r : width → helper := make_instr_helper decode_rm2r do_sub.
Definition sub_si2rm : width → helper := make_instr_helper decode_si2rm do_sub.
Definition sub_i2rm_v : helper := make_helper_v sub_i2rm.
Definition sub_i2a_v : helper := make_helper_v sub_i2a.
Definition sub_si2rm_v : helper := make_helper_v sub_si2rm.
Definition sub_rm2r_v : helper := make_helper_v sub_rm2r.
Definition sub_r2rm_v : helper := make_helper_v sub_r2rm.

Definition do_sbb (w : width) : NEMU unit :=
  s ← get_op op_src op_val;
  let src := DATA_TYPE w s in
  sz ← get_op op_src op_size; dsz ← get_op op_dest op_size;
  _ ← (if (sz =? 1) && negb (dsz =? 1) then mod_op op_src (set_op_val (s8 s)) else mret tt);
  cf ← get_cpu CF;
  let src := DATA_TYPE w (src + cf) in
  d ← get_op op_dest op_val;
  let result := DATA_TYPE w (d - src) in
  _ ← write_operand w op_dest result;
  s ← get_op op_src op_val;
  let r1 := MSB w d in let r2 := MSB w s in
  mod_cpu (update_flags w result (b2z (d <? src)) (λ sf, negb (r1 =? r2) && (sf =? r2))).
Definition sbb_si2rm : width → helper := make_instr_helper decode_si2rm do_sbb.
Definition sbb_i2a : width → helper := make_instr_helper decode_i2a do_sbb.
Definition sbb_i2rm : width → helper := make_instr_helper decode_i2rm do_sbb.
Definition sbb_r2rm : width → helper := make_instr_helper decode_r2rm do_sbb.
Definition sbb_rm2r : width → helper := make_instr_helper decode_rm2r do_sbb.
Definition sbb_i2a_v : helper := make_helper_v sbb_i2a.
Definition sbb_i2rm_v : helper := make_helper_v sbb_i2rm.
Definition sbb_r2rm_v : helper := make_helper_v sbb_r2rm.
Definition sbb_rm2r_v : helper := make_helper_v sbb_rm2r.
Definition sbb_si2rm_v : helper := make_helper_v sbb_si2rm.

(** * inc, dec, neg *)
Definition do_inc (w : width) : NEMU unit :=
  s ← get_op op_src op_val;
  let result := DATA_TYPE w (s + 1) in
  _ ← write_operand w op_src result;
  let r1 := 0 in let r2 := MSB w s in
  mod_cpu (update_flags w result (b2z (result <? s)) (λ sf, (r1 =? r2) && negb (sf =? r2))).
Definition inc_rm : width → helper := make_instr_helper decode_rm do_inc.
Definition inc_r : width → helper := make_instr_helper decode_r do_inc.
Definition inc_rm_v : helper := make_helper_v inc_rm.
Definition inc_r_v : helper := make_helper_v inc_r.

Definition do_dec (w : width) : NEMU unit :=
  s ← get_op op_src op_val;
  let result := DATA_TYPE w (s - 1) in
  _ ← write_operand w op_src result;
  let r1 := MSB w s in let r2 := 0 in
  mod_cpu (update_flags w result (b2z (s <? 1)) (λ sf, negb (r1 =? r2) && (sf =? r2))).
Definition dec_rm : width → helper := make_instr_helper decode_rm do_dec.
Definition dec_r : width → helper := make_instr_helper decode_r do_dec.
Definition dec_rm_v : helper := make_helper_v dec_rm.
Definition dec_r_v : helper := make_helper_v dec_r.

Definition do_neg (w : width) : NEMU unit :=
  s ← get_op op_src op_val;
  write_operand w op_src (DATA_TYPE w (- s)).
Definition neg_rm : width → helper := make_instr_helper decode_rm do_neg.
Definition neg_rm_v : helper := make_helper_v neg_rm.

(** * mul, imul *)
Definition do_mul (w : width) : NEMU unit :=
  src ← get_op op_src op_val;
  a ← REG w R_EAX;
  let result := u64 (a * src) in
  match w with
  | WB => set_reg_w R_AX result
  | WW => _ ← set_REG w R_EAX (Z.land result 0xffff); set_REG w R_EDX (Z.shiftr result 16)
  | WL => _ ← set_REG w R_EAX (Z.land result 0xffffffff); set_REG w R_EDX (Z.shiftr result 32)
  end.
Definition mul_rm : width → helper := make_instr_helper decode_rm do_mul.
Definition mul_rm_v : helper := make_helper_v mul_rm.

(** [RET_DATA_TYPE], the signed type of twice the width; a product beyond it wraps. *)
Definition RET_DATA_TYPE (w : width) (x : Z) : Z := sgn (2 * bits w) x.

Definition do_imul (w : width) : NEMU unit :=
  s ← get_op op_src op_val; s2 ← get_op op_src2 op_val;
  let result := RET_DATA_TYPE w (RET_DATA_TYPE w s * RET_DATA_TYPE w s2) in
  write_operand w op_dest result.

Definition imul_rm2r (w : width) : helper := λ eip,
  len ← decode_rm2r w (u32 (eip + 1));
  _ ← modify (λ s, set_ops (set_operand op_src2 (λ _, dest (ops_decoded s)) (ops_decoded s)) s);
  _ ← do_imul w;
  mret (len + 1).

Definition imul_rm2a (w : width) : helper := λ eip,
  len ← decode_rm w (u32 (eip + 1));
  v ← get_op op_src op_val;
  let src := DATA_TYPE_S w v in
  a ← REG w R_EAX;
  let result := s64 (DATA_TYPE_S w a * src) in
  _ ← match w with
      | WB => set_reg_w R_AX result
      | WW => _ ← set_REG w R_EAX (Z.land result 0xffff); set_REG w R_EDX (Z.shiftr result 16)
      | WL => _ ← set_REG w R_EAX (Z.land result 0xffffffff); set_REG w R_EDX (Z.shiftr result 32)
      end;
  mret (len + 1).
Definition imul_si_rm2r : width → helper := make_instr_helper decode_si_rm2r do_imul.
Definition imul_i_rm2r : width → helper := make_instr_helper decode_i_rm2r do_imul.
Definition imul_rm : width → helper := make_instr_helper decode_rm do_imul.
Definition imul_rm2a_v : helper := make_helper_v imul_rm2a.
Definition imul_rm2r_v : helper := make_helper_v imul_rm2r.
Definition imul_rm_v : helper := make_helper_v imul_rm.
Definition imul_si_rm2r_v : helper := make_helper_v imul_si_rm2r.
Definition imul_i_rm2r_v : helper := make_helper_v imul_i_rm2r.

(** * div, idiv: a zero divisor (or the one signed overflow) traps in the host *)
Definition do_div (w : width) : NEMU unit :=
  v ← get_op op_src op_val;
  let b := DATA_TYPE w v in
  a ← match w with
      | WB => reg_w R_EAX
      | _ => d ← REG w R_EDX; a ← REG w R_EAX; mret (Z.lor (u64 (Z.shiftl d (bits w))) a)
      end;
  if b =? 0 then fail EUndefined else
  _ ← set_REG w R_EAX (a / b);
  set_REG w R_EDX (a mod b).
Definition div_rm : width → helper := make_instr_helper decode_rm do_div.
Definition div_rm_v : helper := make_helper_v div_rm.

Definition do_idiv (w : width) : NEMU unit :=
  v ← get_op op_src op_val;
  let b := DATA_TYPE_S w v in
  a ← match w with
      | WB => a ← reg_w R_EAX; mret (s16 a)
      | _ => d ← REG w R_EDX; a ← REG w R_EAX; mret (s64 (Z.lor (Z.shiftl d (bits w)) a))
      end;
  if (b =? 0) || ((a =? - 2 ^ 63) && (b =? -1)) then fail EUndefined else
  _ ← set_REG w R_EAX (Z.quot a b);
  set_REG w R_EDX (Z.rem a b).
Definition idiv_rm : width → helper := make_instr_helper decode_rm do_idiv.
Definition idiv_rm_v : helper := make_helper_v idiv_rm.
End Arith.
