(* ===== verification/Logic.v ===== *)
(** Logic, shifts and conditional sets: [nemu/src/cpu/exec/logic/]. *)
From S2P Require Import Prelude Dram Cache Tlb Cpu I8259 Mmio Vga Machine Memory Decode.
From S2P Require Import Arith.

(** [cpu.CF = 0; cpu.OF = 0; cpu.SF = MSB(result); cpu.ZF = !result; PF]. *)
Definition logic_flags (w : width) (result : Z) (c : CPU_state) : CPU_state :=
  let c := set_CF 0 c in
  let c := set_OF 0 c in
  let c := set_SF (MSB w result) c in
  let c := set_ZF (b2z (result =? 0)) c in
  set_PF (pf_of w result) c.

(** [cpu.ZF = !result; cpu.SF = MSB(result); PF], after a shift. *)
Definition shift_flags (w : width) (result : Z) (c : CPU_state) : CPU_state :=
  let c := set_ZF (b2z (result =? 0)) c in
  let c := set_SF (MSB w result) c in
  set_PF (pf_of w result) c.

Section Logic.
Context `{HRand : !LibcRand, HJunk : !StackJunk}.

(** * and, or, xor, test, not *)
Definition do_and (w : width) : NEMU unit :=
  d ← get_op op_dest op_val; s ← get_op op_src op_val;
  let result := DATA_TYPE w (Z.land d s) in
  _ ← write_operand w op_dest result;
  mod_cpu (logic_flags w result).
Definition and_i2a : width → helper := make_instr_helper decode_i2a do_and.
Definition and_i2rm : width → helper := make_instr_helper decode_i2rm do_and.
Definition and_si2rm : width → helper := make_instr_helper decode_si2rm do_and.
Definition and_r2rm : width → helper := make_instr_helper decode_r2rm do_and.
Definition and_rm2r : width → helper := make_instr_helper decode_rm2r do_and.
Definition and_i2a_v : helper := make_helper_v and_i2a.
Definition and_i2rm_v : helper := make_helper_v and_i2rm.
Definition and_si2rm_v : helper := make_helper_v and_si2rm.
Definition and_r2rm_v : helper := make_helper_v and_r2rm.
Definition and_rm2r_v : helper := make_helper_v and_rm2r.

Definition do_or (w : width) : NEMU unit :=
  d ← get_op op_dest op_val; s ← get_op op_src op_val;
  let result := DATA_TYPE w (Z.lor d s) in
  _ ← write_operand w op_dest result;
  mod_cpu (logic_flags w result).
Definition or_i2a : width → helper := make_instr_helper decode_i2a do_or.
Definition or_i2rm : width → helper := make_instr_helper decode_i2rm do_or.
Definition or_si2rm : width → helper := make_instr_helper decode_si2rm do_or.
Definition or_r2rm : width → helper := make_instr_helper decode_r2rm do_or.
Definition or_rm2r : width → helper := make_instr_helper decode_rm2r do_or.
Definition or_i2a_v : helper := make_helper_v or_i2a.
Definition or_i2rm_v : helper := make_helper_v or_i2rm.
Definition or_si2rm_v : helper := make_helper_v or_si2rm.
Definition or_r2rm_v : helper := make_helper_v or_r2rm.
Definition or_rm2r_v : helper := make_helper_v or_rm2r.

Definition do_xor (w : width) : NEMU unit :=
  d ← get_op op_dest op_val; s ← get_op op_src op_val;
  let result := DATA_TYPE w (Z.lxor d s) in
  _ ← write_operand w op_dest result;
  mod_cpu (logic_flags w result).
Definition xor_i2a : width → helper := make_instr_helper decode_i2a do_xor.
Definition xor_i2rm : width → helper := make_instr_helper decode_i2rm do_xor.
Definition xor_si2rm : width → helper := make_instr_helper decode_si2rm do_xor.
Definition xor_r2rm : width → helper := make_instr_helper decode_r2rm do_xor.
Definition xor_rm2r : width → helper := make_instr_helper decode_rm2r do_xor.
Definition xor_i2a_v : helper := make_helper_v xor_i2a.
Definition xor_i2rm_v : helper := make_helper_v xor_i2rm.
Definition xor_si2rm_v : helper := make_helper_v xor_si2rm.
Definition xor_r2rm_v : helper := make_helper_v xor_r2rm.
Definition xor_rm2r_v : helper := make_helper_v xor_rm2r.

Definition do_test (w : width) : NEMU unit :=
  d ← get_op op_dest op_val; s ← get_op op_src op_val;
  let result := DATA_TYPE w (Z.land d s) in
  mod_cpu (logic_flags w result).
Definition test_r2rm : width → helper := make_instr_helper decode_r2rm do_test.
Definition test_i2rm : width → helper := make_instr_helper decode_i2rm do_test.
Definition test_i2a : width → helper := make_instr_helper decode_i2a do_test.
Definition test_r2rm_v : helper := make_helper_v test_r2rm.
Definition test_i2rm_v : helper := make_helper_v test_i2rm.
Definition test_i2a_v : helper := make_helper_v test_i2a.

Definition do_not (w : width) : NEMU unit :=
  s ← get_op op_src op_val;
  let result := DATA_TYPE w (Z.lnot s) in
  _ ← write_operand w op_src result;
  mod_cpu (set_ZF (b2z (result =? 0))).
Definition not_rm : width → helper := make_instr_helper decode_rm do_not.
Definition not_rm_v : helper := make_helper_v not_rm.

(** * Shifts *)
Definition do_shl (w : width) : NEMU unit :=
  s ← get_op op_src op_val; d ← get_op op_dest op_val;
  let src := DATA_TYPE w s in let dest := DATA_TYPE w d in
  _ ← mod_cpu (set_CF (MSB w src));
  let count := Z.land src 0x1f in
  let dest := DATA_TYPE w (Z.shiftl dest count) in
  _ ← write_operand w op_dest dest;
  mod_cpu (shift_flags w dest).
Definition shl_rm_1 : width → helper := make_instr_helper decode_rm_1 do_shl.
Definition shl_rm_cl : width → helper := make_instr_helper decode_rm_cl do_shl.
Definition shl_rm_imm : width → helper := make_instr_helper decode_rm_imm do_shl.
Definition shl_rm_1_v : helper := make_helper_v shl_rm_1.
Definition shl_rm_cl_v : helper := make_helper_v shl_rm_cl.
Definition shl_rm_imm_v : helper := make_helper_v shl_rm_imm.

Definition do_shr (w : width) : NEMU unit :=
  s ← get_op op_src op_val; d ← get_op op_dest op_val;
  let src := DATA_TYPE w s in let dest := DATA_TYPE w d in
  _ ← mod_cpu (set_CF (MSB w (Z.shiftl src (Z.shiftl (DATA_BYTE w) 3 - 1))));
  let count := Z.land src 0x1f in
  let dest := DATA_TYPE w (Z.shiftr dest count) in
  _ ← write_operand w op_dest dest;
  mod_cpu (shift_flags w dest).
Definition shr_rm_1 : width → helper := make_instr_helper decode_rm_1 do_shr.
Definition shr_rm_cl : width → helper := make_instr_helper decode_rm_cl do_shr.
Definition shr_rm_imm : width → helper := make_instr_helper decode_rm_imm do_shr.
Definition shr_rm_1_v : helper := make_helper_v shr_rm_1.
Definition shr_rm_cl_v : helper := make_helper_v shr_rm_cl.
Definition shr_rm_imm_v : helper := make_helper_v shr_rm_imm.

Definition do_sar (w : width) : NEMU unit :=
  s ← get_op op_src op_val; d ← get_op op_dest op_val;
  let src := DATA_TYPE w s in let dest := DATA_TYPE_S w d in
  _ ← mod_cpu (set_CF (MSB w (Z.shiftl src (Z.shiftl (DATA_BYTE w) 3 - 1))));
  let count := Z.land src 0x1f in
  let dest := DATA_TYPE_S w (Z.shiftr dest count) in
  _ ← write_operand w op_dest dest;
  let result := DATA_TYPE w dest in
  mod_cpu (shift_flags w result).
Definition sar_rm_1 : width → helper := make_instr_helper decode_rm_1 do_sar.
Definition sar_rm_cl : width → helper := make_instr_helper decode_rm_cl do_sar.
Definition sar_rm_imm : width → helper := make_instr_helper decode_rm_imm do_sar.
Definition sar_rm_1_v : helper := make_helper_v sar_rm_1.
Definition sar_rm_cl_v : helper := make_helper_v sar_rm_cl.
Definition sar_rm_imm_v : helper := make_helper_v sar_rm_imm.

(** [while(count != 0)]: [count] rounds. *)
Fixpoint shrd_loop (w : width) (count : nat) (out inn : Z) : Z :=
  match count with
  | O => out
  | S count =>
    let out := Z.shiftr out 1 in
    let out := DATA_TYPE w (Z.lor out (Z.shiftl (Z.land inn 1) (Z.shiftl (DATA_BYTE w) 3 - 1))) in
    shrd_loop w count out (Z.shiftr inn 1)
  end.

Definition do_shrd (w : width) : NEMU unit :=
  d ← get_op op_dest op_val; s2 ← get_op op_src2 op_val; s ← get_op op_src op_val;
  let count := Z.land (u8 s) 0x1f in
  let out := shrd_loop w (Z.to_nat count) (DATA_TYPE w s2) (DATA_TYPE w d) in
  write_operand w op_src2 out.

Definition shrdi (w : width) : helper := λ eip,
  len ← decode_si_rm2r w (u32 (eip + 1));
  r ← get_op op_dest op_u;
  v ← REG w r;
  _ ← mod_op op_dest (set_op_val v);
  _ ← do_shrd w;
  mret (len + 1).
Definition shrdi_v : helper := make_helper_v shrdi.

(** * The one-operand sets (instantiated at one byte) *)
Definition do_seta (w : width) : NEMU unit :=
  result ← get_cpu (λ c, b2z ((CF c =? 0) && (ZF c =? 0)));
  write_operand w op_src result.
Definition seta_rm : width → helper := make_instr_helper decode_rm do_seta.

Definition do_setc (w : width) : NEMU unit :=
  result ← get_cpu (λ c, b2z (CF c =? 1));
  write_operand w op_src result.
Definition setc_rm : width → helper := make_instr_helper decode_rm do_setc.

Definition do_sete (w : width) : NEMU unit :=
  result ← get_cpu (λ c, b2z (ZF c =? 1));
  write_operand w op_src result.
Definition sete_rm : width → helper := make_instr_helper decode_rm do_sete.

Definition do_setna (w : width) : NEMU unit :=
  result ← get_cpu (λ c, b2z ((CF c =? 1) || (ZF c =? 1)));
  write_operand w op_src result.
Definition setna_rm : width → helper := make_instr_helper decode_rm do_setna.

Definition do_setnc (w : width) : NEMU unit :=
  result ← get_cpu (λ c, b2z (CF c =? 0));
  write_operand w op_src result.
Definition setnc_rm : width → helper := make_instr_helper decode_rm do_setnc.

Definition do_setne (w : width) : NEMU unit :=
  result ← get_cpu (λ c, b2z (ZF c =? 0));
  write_operand w op_src result.
Definition setne_rm : width → helper := make_instr_helper decode_rm do_setne.

(** * setcc (instantiated at one byte) *)

(** [if(cond) OPERAND_W(op_dest, 1); else OPERAND_W(op_dest, 0)]. *)
Definition setcc (cond : CPU_state → bool) : helper := λ eip,
  len ← decode_r2rm WB (u32 (eip + 1));
  b ← get_cpu cond;
  _ ← (if (b : bool) then write_operand WB op_dest 1 else write_operand WB op_dest 0);
  mret (1 + len).
Definition setcc_a : helper := setcc (λ c, (CF c =? 0) && (ZF c =? 0)).
Definition setcc_ae : helper := setcc (λ c, CF c =? 0).
Definition setcc_b : helper := setcc (λ c, CF c =? 1).
Definition setcc_be : helper := setcc (λ c, (CF c =? 1) || (ZF c =? 1)).
Definition setcc_e : helper := setcc (λ c, ZF c =? 1).
Definition setcc_g : helper := setcc (λ c, (ZF c =? 0) && (SF c =? OF c)).
Definition setcc_ge : helper := setcc (λ c, SF c =? OF c).
Definition setcc_l : helper := setcc (λ c, negb (SF c =? OF c)).
Definition setcc_le : helper := setcc (λ c, (ZF c =? 1) || negb (SF c =? OF c)).
Definition setcc_ne : helper := setcc (λ c, ZF c =? 0).
Definition setcc_no : helper := setcc (λ c, OF c =? 0).
Definition setcc_np : helper := setcc (λ c, PF c =? 0).
Definition setcc_ns : helper := setcc (λ c, SF c =? 0).
Definition setcc_o : helper := setcc (λ c, OF c =? 1).
Definition setcc_p : helper := setcc (λ c, PF c =? 1).
Definition setcc_s : helper := setcc (λ c, SF c =? 1).
End Logic.
