(* ===== verification/DataMov.v ===== *)
(** Data movement: [nemu/src/cpu/exec/data-mov/]. *)
From S2P Require Import Prelude Dram Cache Tlb Cpu I8259 Mmio Vga Machine Memory Decode.
From S2P Require Import Arith.

(** [cpu.sreg\[i\].cache.field = v], the fields of the descriptor's 64 bits. *)
Definition set_seg_cache (i lo n v : Z) (c : CPU_state) : CPU_state :=
  let r := aget (sreg c) i in
  set_sreg i (mkSegReg (selector r) (set_bitfield (seg_cache r) lo n v)) c.
Definition set_selector (i v : Z) (c : CPU_state) : CPU_state :=
  set_sreg i (mkSegReg (u16 v) (seg_cache (aget (sreg c) i))) c.
Definition set_base_15_0 (i : Z) := set_seg_cache i 16 16.
Definition set_base_23_16 (i : Z) := set_seg_cache i 32 8.
Definition set_base_31_24 (i : Z) := set_seg_cache i 56 8.
Definition set_limit_15_0 (i : Z) := set_seg_cache i 0 16.
Definition set_limit_19_16 (i : Z) := set_seg_cache i 48 4.

Section DataMov.
Context `{HRand : !LibcRand, HJunk : !StackJunk}.

(** [cpu.esp] *)
Definition get_esp : NEMU Z := get_cpu (gpr_l R_ESP).
Definition set_esp (v : Z) : NEMU unit := mod_cpu (set_gpr_l R_ESP v).

(** * mov *)
Definition do_mov (w : width) : NEMU unit :=
  s ← get_op op_src op_val;
  write_operand w op_dest s.

Definition mov_a2moffs (w : width) : helper := λ eip,
  addr ← instr_fetch (u32 (eip + 1)) 4;
  v ← REG w R_EAX;
  _ ← MEM_W w addr v 3;
  mret 5.

Definition mov_moffs2a (w : width) : helper := λ eip,
  addr ← instr_fetch (u32 (eip + 1)) 4;
  v ← MEM_R w addr 3;
  _ ← set_REG w R_EAX v;
  mret 5.

Definition mov_i2r : width → helper := make_instr_helper decode_i2r do_mov.
Definition mov_i2rm : width → helper := make_instr_helper decode_i2rm do_mov.
Definition mov_r2rm : width → helper := make_instr_helper decode_r2rm do_mov.
Definition mov_rm2r : width → helper := make_instr_helper decode_rm2r do_mov.
Definition mov_i2r_v : helper := make_helper_v mov_i2r.
Definition mov_i2rm_v : helper := make_helper_v mov_i2rm.
Definition mov_r2rm_v : helper := make_helper_v mov_r2rm.
Definition mov_rm2r_v : helper := make_helper_v mov_rm2r.
Definition mov_a2moffs_v : helper := make_helper_v mov_a2moffs.
Definition mov_moffs2a_v : helper := make_helper_v mov_moffs2a.

Definition mov_cr2r : helper := λ eip,
  r_num ← instr_fetch (u32 (eip + 1)) 1;
  _ ← (if Z.land (Z.shiftr r_num 3) 0x7 =? 0 then
         v ← get_cpu cr0; set_reg_l (Z.land r_num 0x7) v
       else
         v ← get_cpu cr0; set_reg_l (Z.land r_num 0x7) v);
  mret 2.

Definition mov_r2cr : helper := λ eip,
  r_num ← instr_fetch (u32 (eip + 1)) 1;
  _ ← (if Z.land (Z.shiftr r_num 3) 0x7 =? 0 then
         v ← reg_l (Z.land r_num 0x7); mod_cpu (set_cr0 v)
       else
         v ← reg_l (Z.land r_num 0x7);
         _ ← mod_cpu (set_cr3 v);
         modify (λ s, set_tlb (init_TLB (tlb s)) s));
  mret 2.

(** [lnaddr_read(cpu.gdtr.base + 8 * cpu.sreg\[r\].INDEX + off, len)] *)
Definition read_desc (r off len : Z) : NEMU Z :=
  a ← get_cpu (λ c, u32 (gdtr_base c + 8 * INDEX (aget (sreg c) r) + off));
  lnaddr_read a len.

Definition mov_rm2s : helper := λ eip,
  len ← decode_r2rm WW (u32 (eip + 1));
  r ← get_op op_src op_u;
  if 6 <=? r then fail EUndefined else
  d ← get_op op_dest op_val;
  _ ← mod_cpu (set_selector r (Z.land d 0xffff));
  v ← read_desc r 2 2; _ ← mod_cpu (set_base_15_0 r v);
  v ← read_desc r 4 1; _ ← mod_cpu (set_base_23_16 r v);
  v ← read_desc r 7 1; _ ← mod_cpu (set_base_31_24 r v);
  v ← read_desc r 0 2; _ ← mod_cpu (set_limit_15_0 r v);
  v ← read_desc r 6 1; _ ← mod_cpu (set_limit_19_16 r (Z.land v 0xf));
  _ ← cassert (r <? 4);
  mret (len + 1).

Definition movzb (w : width) : helper := λ eip,
  len ← decode_rm2r WB (u32 (eip + 1));
  r ← get_op op_dest op_u; s ← get_op op_src op_val;
  _ ← set_REG w r s;
  mret (len + 1).

Definition movsb (w : width) : helper := λ eip,
  len ← decode_rm2r WB (u32 (eip + 1));
  r ← get_op op_dest op_u; s ← get_op op_src op_val;
  _ ← set_REG w r (s8 s);
  mret (len + 1).
Definition movzb_v : helper := make_helper_v movzb.
Definition movsb_v : helper := make_helper_v movsb.

(** Instantiated at four bytes only. *)
Definition movzw_l : helper := λ eip,
  len ← decode_rm2r WW (u32 (eip + 1));
  r ← get_op op_dest op_u; s ← get_op op_src op_val;
  _ ← set_REG WL r s;
  mret (len + 1).

Definition movsw_l : helper := λ eip,
  len ← decode_rm2r WW (u32 (eip + 1));
  r ← get_op op_dest op_u; s ← get_op op_src op_val;
  _ ← set_REG WL r (s16 s);
  mret (len + 1).

(** * push, pop *)
Definition do_push (w : width) : NEMU unit :=
  s ← get_op op_src op_val;
  _ ← (if DATA_BYTE w =? 1 then mod_op op_src (set_op_val (s8 s)) else mret tt);
  esp ← reg_l R_ESP;
  _ ← set_reg_l R_ESP (esp - 4);
  esp ← reg_l R_ESP;
  v ← get_op op_src op_val;
  swaddr_write esp 4 v 2.
Definition push_i : width → helper := make_instr_helper decode_i do_push.
Definition push_r : width → helper := make_instr_helper decode_r do_push.
Definition push_rm : width → helper := make_instr_helper decode_rm do_push.
Definition push_r_v : helper := make_helper_v push_r.
Definition push_rm_v : helper := make_helper_v push_rm.
Definition push_i_v : helper := make_helper_v push_i.

Definition do_pop (w : width) : NEMU unit :=
  esp ← reg_l R_ESP;
  sr ← get_op op_src op_sreg;
  v ← MEM_R w esp sr;
  _ ← write_operand w op_src v;
  esp ← reg_l R_ESP;
  _ ← MEM_W w esp 0 2;
  esp ← reg_l R_ESP;
  set_reg_l R_ESP (esp + DATA_BYTE w).
Definition pop_r : width → helper := make_instr_helper decode_r do_pop.
Definition pop_rm : width → helper := make_instr_helper decode_rm do_pop.
Definition pop_r_v : helper := make_helper_v pop_r.
Definition pop_rm_v : helper := make_helper_v pop_rm.

(** [cpu.esp -= DATA_BYTE; MEM_W(cpu.esp, v, 2)] *)
Definition pusha_one (w : width) (v : NEMU Z) : NEMU unit :=
  esp ← get_esp;
  _ ← set_esp (esp - DATA_BYTE w);
  esp ← get_esp;
  v ← v;
  MEM_W w esp v 2.

Definition pusha (w : width) : helper := λ eip,
  esp ← get_esp;
  let temp := DATA_TYPE w esp in
  _ ← pusha_one w (REG w 0);
  _ ← pusha_one w (REG w 1);
  _ ← pusha_one w (REG w 2);
  _ ← pusha_one w (REG w 3);
  _ ← pusha_one w (mret temp);
  _ ← pusha_one w (REG w 5);
  _ ← pusha_one w (REG w 6);
  _ ← pusha_one w (REG w 7);
  mret 1.
Definition pusha_v : helper := make_helper_v pusha.

(** [REG(i) = MEM_R(cpu.esp, 2); cpu.esp += DATA_BYTE] *)
Definition popa_one (w : width) (i : Z) : NEMU unit :=
  esp ← get_esp;
  v ← MEM_R w esp 2;
  _ ← set_REG w i v;
  esp ← get_esp;
  set_esp (esp + DATA_BYTE w).

Definition popa (w : width) : helper := λ eip,
  _ ← popa_one w 7;
  _ ← popa_one w 6;
  _ ← popa_one w 5;
  esp ← get_esp; _ ← set_esp (esp + DATA_BYTE w);
  _ ← popa_one w 3;
  _ ← popa_one w 2;
  _ ← popa_one w 1;
  _ ← popa_one w 0;
  mret 1.
Definition popa_v : helper := make_helper_v popa.

Definition leave : helper := λ eip,
  ebp ← get_cpu (gpr_l R_EBP);
  _ ← set_esp ebp;
  esp ← get_esp;
  v ← swaddr_read esp 4 2;
  _ ← mod_cpu (set_gpr_l R_EBP v);
  esp ← get_esp;
  _ ← set_esp (esp + 4);
  mret 1.

(** * xchg *)
Definition do_xchg (w : width) : NEMU unit :=
  s ← get_op op_src op_val; d ← get_op op_dest op_val;
  let temp := DATA_TYPE w s in
  _ ← write_operand w op_src d;
  write_operand w op_dest temp.

Definition xchg_a2r (w : width) : helper := λ eip,
  _ ← decode_r w eip;
  _ ← mod_op op_dest (set_op_type OP_TYPE_REG);
  _ ← mod_op op_dest (set_op_u R_EAX);
  v ← REG w R_EAX;
  _ ← mod_op op_dest (set_op_val v);
  _ ← do_xchg w;
  mret 1.
Definition xchg_r2rm : width → helper := make_instr_helper decode_r2rm do_xchg.
Definition xchg_a2r_v : helper := make_helper_v xchg_a2r.
Definition xchg_r2rm_v : helper := make_helper_v xchg_r2rm.

(** * cmovcc *)
Definition cmovcc (cc : CPU_state → bool) (w : width) : helper := λ eip,
  len ← decode_rm2r w (u32 (eip + 1));
  b ← get_cpu cc;
  s ← get_op op_src op_val;
  _ ← (if (b : bool) then write_operand w op_dest s else mret tt);
  mret (len + 1).

Definition cmove : width → helper := cmovcc check_cc_e.
Definition cmovle : width → helper := cmovcc check_cc_le.
Definition cmove_v : helper := make_helper_v cmove.
Definition cmovle_v : helper := make_helper_v cmovle.

(** * bt *)

(** The bit of [op_dest] that [op_src] selects. *)
Definition bt_flag (w : width) : NEMU unit :=
  t ← get_op op_dest op_type; s ← get_op op_src op_val;
  if t =? OP_TYPE_REG then
    d ← get_op op_dest op_val;
    let mask := u32 (Z.shiftl 1 (s mod (DATA_BYTE w * 8))) in
    mod_cpu (set_CF (b2z (negb (Z.land d mask =? 0))))
  else
    a ← get_op op_dest op_u; sr ← get_op op_dest op_sreg;
    let addr := u32 (s / (DATA_BYTE w * 8) + a) in
    let offset := s mod (DATA_BYTE w * 8) in
    v ← swaddr_read addr (DATA_BYTE w) sr;
    mod_cpu (set_CF (Z.land (Z.shiftr v offset) 0x1)).

Definition bt_i2rm (w : width) : helper := λ eip,
  len ← decode_rm w (u32 (eip + 1));
  l ← decode_i WB (u32 (eip + 1 + len));
  _ ← bt_flag w;
  mret (1 + (len + l)).

Definition bt_r2rm (w : width) : helper := λ eip,
  len ← decode_r2rm w (u32 (eip + 1));
  _ ← bt_flag w;
  mret (1 + len).
Definition bt_r2rm_v : helper := make_helper_v bt_r2rm.
Definition bt_i2rm_v : helper := make_helper_v bt_i2rm.

(** * cltd, cwtl *)
Definition cltd (w : width) : helper := λ eip,
  a ← REG w R_EAX;
  _ ← set_REG w R_EDX (- MSB w a);
  mret 1.

Definition cwtl (w : width) : helper := λ eip,
  _ ← (if DATA_BYTE w =? 2 then v ← reg_b R_AL; set_reg_w R_AX (s8 v)
       else v ← reg_w R_AX; set_reg_l R_EAX (s16 v));
  mret 1.
Definition cltd_v : helper := make_helper_v cltd.
Definition cwtl_v : helper := make_helper_v cwtl.

(** * lgdt, lidt: the address is used as a linear one *)
Definition lgdt (w : width) : helper := λ eip,
  len ← decode_rm2r WL (u32 (eip + 1));
  addr ← get_op op_src op_u;
  limit ← lnaddr_read addr 2;
  _ ← mod_cpu (λ c, set_gdtr (u16 limit) (gdtr_base c) c);
  base ← (if DATA_BYTE w =? 2 then lnaddr_read (u32 (addr + 2)) 3 else lnaddr_read (u32 (addr + 2)) 4);
  _ ← mod_cpu (λ c, set_gdtr (gdtr_limit c) base c);
  mret (len + 1).
Definition lgdt_v : helper := make_helper_v lgdt.

Definition lidt (w : width) : helper := λ eip,
  len ← decode_rm2r WL (u32 (eip + 1));
  addr ← get_op op_src op_u;
  limit ← lnaddr_read addr 2;
  _ ← mod_cpu (λ c, set_idtr (u16 limit) (idtr_base c) c);
  base ← (if DATA_BYTE w =? 2 then lnaddr_read (u32 (addr + 2)) 3 else lnaddr_read (u32 (addr + 2)) 4);
  _ ← mod_cpu (λ c, set_idtr (idtr_limit c) base c);
  mret (len + 1).
Definition lidt_v : helper := make_helper_v lidt.

(** * cld, std *)
Definition cld : helper := λ eip, _ ← mod_cpu (set_DF 0); mret 1.
Definition std : helper := λ eip, _ ← mod_cpu (set_DF 1); mret 1.
End DataMov.
