(* ===== verification/ConTran.v ===== *)
(** Control transfer: [nemu/src/cpu/exec/con-tran/].  [cpu.eip] is the address of the
    instruction while it executes; the main loop adds the length a helper returns. *)
From S2P Require Import Prelude Dram Cache Tlb Cpu I8259 Mmio Vga Machine Memory Decode.
From S2P Require Import Arith DataMov.

Section ConTran.
Context `{HRand : !LibcRand, HJunk : !StackJunk}.

(** [cpu.eip], and [cpu.eip = e] *)
Definition get_eip : NEMU Z := get_cpu eip.
Definition put_eip (e : Z) : NEMU unit := mod_cpu (set_eip (u32 e)).

(** * call, ret *)
Definition call_i (w : width) : helper := λ eip,
  len ← decode_i w (u32 (eip + 1));
  esp ← reg_l R_ESP; _ ← set_reg_l R_ESP (esp - DATA_BYTE w);
  esp ← reg_l R_ESP; pc ← get_eip;
  _ ← swaddr_write esp 4 (u32 (pc + len)) 1;
  v ← get_op op_src op_val;
  let displacement := DATA_TYPE_S w v in
  pc ← get_eip;
  _ ← put_eip (pc + displacement);
  mret (len + 1).

Definition call_rm (w : width) : helper := λ eip,
  len ← decode_rm w (u32 (eip + 1));
  esp ← reg_l R_ESP; _ ← set_reg_l R_ESP (esp - DATA_BYTE w);
  esp ← reg_l R_ESP; pc ← get_eip;
  _ ← swaddr_write esp 4 (u32 (pc + len)) 1;
  v ← get_op op_src op_val;
  let displacement := DATA_TYPE_S w v in
  _ ← put_eip (displacement - len - 1);
  mret (len + 1).
Definition call_i_v : helper := make_helper_v call_i.
Definition call_rm_v : helper := make_helper_v call_rm.

Definition ret_o (w : width) : helper := λ eip,
  esp ← reg_l R_ESP;
  v ← MEM_R w esp 1;
  _ ← put_eip v;
  esp ← reg_l R_ESP;
  _ ← set_reg_l R_ESP (esp + DATA_BYTE w);
  mret 1.

(** [for (i = 0; i < val; i += DATA_BYTE) MEM_W(REG(R_ESP) + i, 0, 1)], [n] rounds from [i]. *)
Fixpoint ret_clear (w : width) (n : nat) (i : Z) : NEMU unit :=
  match n with
  | O => mret tt
  | S n =>
    esp ← REG w R_ESP;
    _ ← MEM_W w (u32 (esp + i)) 0 1;
    ret_clear w n (i + DATA_BYTE w)
  end.

Definition ret_i (w : width) : helper := λ eip,
  val ← instr_fetch (u32 (eip + 1)) 2;
  esp ← REG w R_ESP;
  v ← MEM_R w esp 1;
  _ ← put_eip v;
  _ ← (if DATA_BYTE w =? 2 then e ← get_eip; put_eip (Z.land e 0xffff) else mret tt);
  esp ← REG w R_ESP; _ ← set_REG w R_ESP (esp + DATA_BYTE w);
  _ ← ret_clear w (Z.to_nat ((val + DATA_BYTE w - 1) / DATA_BYTE w)) 0;
  esp ← REG w R_ESP; _ ← set_REG w R_ESP (esp + val);
  mret 1.
Definition ret_o_v : helper := make_helper_v ret_o.
Definition ret_i_v : helper := make_helper_v ret_i.

(** * jmp *)
Definition do_jmp (w : width) : NEMU unit :=
  v ← get_op op_src op_val;
  let displacement := DATA_TYPE w v in
  t ← get_op op_src op_type;
  if (t =? OP_TYPE_MEM) || (t =? OP_TYPE_REG) then
    pc ← get_eip;
    l ← decode_rm w (u32 (pc + 1));
    put_eip (displacement - l - 1)
  else
    pc ← get_eip;
    put_eip (pc + DATA_TYPE_S w displacement).

(** "long jump": reload CS and its cached descriptor. *)
Definition load_cs (sel : Z) : NEMU unit :=
  _ ← mod_cpu (set_selector 1 sel);
  v ← read_desc 1 2 2; _ ← mod_cpu (set_base_15_0 1 v);
  v ← read_desc 1 4 1; _ ← mod_cpu (set_base_23_16 1 v);
  v ← read_desc 1 7 1; _ ← mod_cpu (set_base_31_24 1 v);
  v ← read_desc 1 0 2; _ ← mod_cpu (set_limit_15_0 1 v);
  v ← read_desc 1 6 1; mod_cpu (set_limit_19_16 1 (Z.land v 0xf)).

Definition jmp_l (w : width) : helper := λ eip,
  offset ← instr_fetch (u32 (eip + 1)) (DATA_BYTE w);
  cs_new ← instr_fetch (u32 (eip + 5)) 2;
  _ ← put_eip (offset - DATA_BYTE w - 3);
  _ ← (if DATA_BYTE w =? 2 then e ← get_eip; put_eip (Z.land e 0x0000ffff) else mret tt);
  _ ← load_cs cs_new;
  mret (DATA_BYTE w + 3).
Definition jmp_i : width → helper := make_instr_helper decode_i do_jmp.
Definition jmp_rm : width → helper := make_instr_helper decode_rm do_jmp.
Definition jmp_i_v : helper := make_helper_v jmp_i.
Definition jmp_rm_v : helper := make_helper_v jmp_rm.
Definition jmp_l_v : helper := make_helper_v jmp_l.

(** * jcc *)
Definition for_2_bit (w : width) : Z := b2z (negb (DATA_BYTE w =? 1)).

Definition next_addr (w : width) (eip : Z) : NEMU Z :=
  match w with
  | WW =>
    v ← instr_fetch (u32 (eip + 1)) (DATA_BYTE w);
    mret (Z.land (u32 (eip + 1 + DATA_BYTE w + v)) 0x0000ffff)
  | _ =>
    _ ← decode_si w (u32 (eip + 1));
    simm ← get_op op_src op_u;
    mret (u32 (eip + 1 + DATA_BYTE w + simm))
  end.

Definition jcc (cond : CPU_state → bool) (w : width) : helper := λ eip,
  cur_addr ← next_addr w eip;
  b ← get_cpu cond;
  _ ← (if (b : bool) then put_eip (cur_addr - (1 + DATA_BYTE w) - for_2_bit w) else mret tt);
  mret (DATA_BYTE w + 1).

Definition jcc_e : width → helper := jcc (λ c, ZF c =? 1).
Definition jcc_a : width → helper := jcc (λ c, (CF c =? 0) && (ZF c =? 0)).
Definition jcc_ae : width → helper := jcc (λ c, CF c =? 0).
Definition jcc_b : width → helper := jcc (λ c, CF c =? 1).
Definition jcc_be : width → helper := jcc (λ c, (ZF c =? 1) || (CF c =? 1)).
Definition jcc_ecxz : width → helper := jcc (λ c, gpr_l 1 c =? 0).
Definition jcc_g : width → helper := jcc (λ c, (ZF c =? 0) && (SF c =? OF c)).
Definition jcc_ge : width → helper := jcc (λ c, SF c =? OF c).
Definition jcc_l : width → helper := jcc (λ c, negb (SF c =? OF c)).
Definition jcc_le : width → helper := jcc (λ c, (ZF c =? 1) || negb (SF c =? OF c)).
Definition jcc_ne : width → helper := jcc (λ c, ZF c =? 0).
Definition jcc_no : width → helper := jcc (λ c, OF c =? 0).
Definition jcc_np : width → helper := jcc (λ c, PF c =? 0).
Definition jcc_ns : width → helper := jcc (λ c, SF c =? 0).
Definition jcc_o : width → helper := jcc (λ c, OF c =? 1).
Definition jcc_p : width → helper := jcc (λ c, PF c =? 1).
Definition jcc_s : width → helper := jcc (λ c, SF c =? 1).
Definition jcc_e_v : helper := make_helper_v jcc_e.
Definition jcc_a_v : helper := make_helper_v jcc_a.
Definition jcc_ae_v : helper := make_helper_v jcc_ae.
Definition jcc_b_v : helper := make_helper_v jcc_b.
Definition jcc_be_v : helper := make_helper_v jcc_be.
Definition jcc_g_v : helper := make_helper_v jcc_g.
Definition jcc_ge_v : helper := make_helper_v jcc_ge.
Definition jcc_l_v : helper := make_helper_v jcc_l.
Definition jcc_le_v : helper := make_helper_v jcc_le.
Definition jcc_ne_v : helper := make_helper_v jcc_ne.
Definition jcc_no_v : helper := make_helper_v jcc_no.
Definition jcc_np_v : helper := make_helper_v jcc_np.
Definition jcc_ns_v : helper := make_helper_v jcc_ns.
Definition jcc_o_v : helper := make_helper_v jcc_o.
Definition jcc_p_v : helper := make_helper_v jcc_p.
Definition jcc_s_v : helper := make_helper_v jcc_s.

(** * The relative jumps of the other files (ja.c, ..., js.c), not in the opcode table *)
Definition do_jrel (cond : CPU_state → bool) (w : width) : NEMU unit :=
  v ← get_op op_src op_val;
  let displacement := DATA_TYPE_S w v in
  b ← get_cpu cond;
  if (b : bool) then pc ← get_eip; put_eip (pc + displacement) else mret tt.

Definition do_ja : width → NEMU unit := do_jrel (λ c, (CF c =? 0) && (ZF c =? 0)).
Definition ja_i : width → helper := make_instr_helper decode_i do_ja.
Definition ja_i_v : helper := make_helper_v ja_i.
Definition do_jae : width → NEMU unit := do_jrel (λ c, ZF c =? 0).
Definition jae_i : width → helper := make_instr_helper decode_i do_jae.
Definition jae_i_v : helper := make_helper_v jae_i.
Definition do_jb : width → NEMU unit := do_jrel (λ c, CF c =? 1).
Definition jb_i : width → helper := make_instr_helper decode_i do_jb.
Definition jb_i_v : helper := make_helper_v jb_i.
Definition do_jbe : width → NEMU unit := do_jrel (λ c, (CF c =? 1) || (ZF c =? 1)).
Definition jbe_i : width → helper := make_instr_helper decode_i do_jbe.
Definition jbe_i_v : helper := make_helper_v jbe_i.
Definition do_je : width → NEMU unit := do_jrel (λ c, ZF c =? 1).
Definition je_i : width → helper := make_instr_helper decode_i do_je.
Definition je_i_v : helper := make_helper_v je_i.
Definition do_jg : width → NEMU unit := do_jrel (λ c, (ZF c =? 0) && (SF c =? OF c)).
Definition jg_i : width → helper := make_instr_helper decode_i do_jg.
Definition jg_i_v : helper := make_helper_v jg_i.
Definition do_jge : width → NEMU unit := do_jrel (λ c, (ZF c =? 1) || (SF c =? OF c)).
Definition jge_i : width → helper := make_instr_helper decode_i do_jge.
Definition jge_i_v : helper := make_helper_v jge_i.
Definition do_jl : width → NEMU unit := do_jrel (λ c, (ZF c =? 0) && negb (SF c =? OF c)).
Definition jl_i : width → helper := make_instr_helper decode_i do_jl.
Definition jl_i_v : helper := make_helper_v jl_i.
Definition do_jle : width → NEMU unit := do_jrel (λ c, (ZF c =? 1) || negb (SF c =? OF c)).
Definition jle_i : width → helper := make_instr_helper decode_i do_jle.
Definition jle_i_v : helper := make_helper_v jle_i.
Definition do_jna : width → NEMU unit := do_jrel (λ c, (CF c =? 1) || (ZF c =? 1)).
Definition jna_i : width → helper := make_instr_helper decode_i do_jna.
Definition jna_i_v : helper := make_helper_v jna_i.
Definition do_jne : width → NEMU unit := do_jrel (λ c, ZF c =? 0).
Definition jne_i : width → helper := make_instr_helper decode_i do_jne.
Definition jne_i_v : helper := make_helper_v jne_i.
Definition do_jns : width → NEMU unit := do_jrel (λ c, SF c =? 0).
Definition jns_i : width → helper := make_instr_helper decode_i do_jns.
Definition jns_i_v : helper := make_helper_v jns_i.
Definition do_js : width → NEMU unit := do_jrel (λ c, SF c =? 1).
Definition js_i : width → helper := make_instr_helper decode_i do_js.
Definition js_i_v : helper := make_helper_v js_i.
End ConTran.
