(* ===== verification/StringOps.v ===== *)
(** String instructions: [nemu/src/cpu/exec/string/], but [rep], which calls the
    executor ([Exec]). *)
From S2P Require Import Prelude Dram Cache Tlb Cpu I8259 Mmio Vga Machine Memory Decode.
From S2P Require Import Arith DataMov.

Section StringOps.
Context `{HRand : !LibcRand, HJunk : !StackJunk}.

(** [if (cpu.DF == 0) reg += DATA_BYTE; else reg -= DATA_BYTE], on a 32-bit register. *)
Definition step_l (w : width) (i : Z) : NEMU unit :=
  df ← get_cpu DF;
  r ← reg_l i;
  if df =? 0 then set_reg_l i (r + DATA_BYTE w) else set_reg_l i (r - DATA_BYTE w).

Definition do_movs (w : width) : NEMU unit :=
  d ← reg_l R_EDI;
  s ← reg_l R_ESI;
  v ← MEM_R w s 3;
  _ ← MEM_W w d v 0;
  _ ← step_l w R_EDI;
  step_l w R_ESI.
Definition movs_n : width → helper := make_instr_helper (λ _, decode_n) do_movs.
Definition movs_n_v : helper := make_helper_v movs_n.

Definition do_lods (w : width) : NEMU unit :=
  src ← reg_l R_ESI;
  v ← MEM_R w src 3;
  _ ← match w with
      | WB => set_reg_b R_AL v
      | WW => set_reg_w R_AX v
      | WL => set_reg_l R_EAX v
      end;
  step_l w R_ESI.
Definition lods_n : width → helper := make_instr_helper (λ _, decode_n) do_lods.
Definition lods_n_v : helper := make_helper_v lods_n.

Definition do_stos (w : width) : NEMU unit :=
  dest ← reg_l R_EDI;
  v ← match w with WB => reg_b R_AL | WW => reg_w R_AX | WL => reg_l R_EAX end;
  _ ← MEM_W w dest v 0;
  step_l w R_EDI.
Definition stos_n : width → helper := make_instr_helper (λ _, decode_n) do_stos.
Definition stos_n_v : helper := make_helper_v stos_n.

(** The overflow flag of [cmps] and [scas] is computed from [op_dest->val] and
    [op_src->val], which these instructions do not set. *)
Definition do_scas (w : width) : NEMU unit :=
  edi ← reg_l R_EDI;
  dest ← MEM_R w edi 0;
  src ← match w with WB => reg_b R_AL | WW => reg_w R_AX | WL => reg_l R_EAX end;
  let result := DATA_TYPE w (src - dest) in
  od ← get_op op_dest op_val; os ← get_op op_src op_val;
  let r1 := MSB w od in let r2 := MSB w os in
  _ ← mod_cpu (update_flags w result (b2z (src <? dest)) (λ sf, negb (r1 =? r2) && (sf =? r2)));
  step_l w R_EDI.
Definition scas_n : width → helper := make_instr_helper (λ _, decode_n) do_scas.
Definition scas_n_v : helper := make_helper_v scas_n.

(** [REG(i) += DATA_BYTE] or [-=]: at one byte, [REG(R_EDI)] is BH and [REG(R_ESI)] DH. *)
Definition step_REG (w : width) (i : Z) : NEMU unit :=
  df ← get_cpu DF;
  r ← REG w i;
  if df =? 0 then set_REG w i (r + DATA_BYTE w) else set_REG w i (r - DATA_BYTE w).

Definition do_cmps (w : width) : NEMU unit :=
  esi ← reg_l R_ESI;
  src ← swaddr_read esi (DATA_BYTE w) 3;
  edi ← reg_l R_EDI;
  dest ← swaddr_read edi (DATA_BYTE w) 0;
  let src := DATA_TYPE w src in let dest := DATA_TYPE w dest in
  let result := DATA_TYPE w (dest - src) in
  od ← get_op op_dest op_val; os ← get_op op_src op_val;
  let r1 := MSB w od in let r2 := MSB w os in
  _ ← mod_cpu (update_flags w result (b2z (dest <? src)) (λ sf, negb (r1 =? r2) && (sf =? r2)));
  _ ← step_REG w R_EDI;
  step_REG w R_ESI.
Definition cmps_n : width → helper := make_instr_helper (λ _, decode_n) do_cmps.
Definition cmps_n_v : helper := make_helper_v cmps_n.
End StringOps.
