(* ===== verification/SysIO.v ===== *)
(** Port I/O, system and special instructions: [nemu/src/cpu/exec/io/], [system/],
    [misc/], [special/], and the interrupt entry of [intr.c]. *)
From S2P Require Import Prelude Dram Cache Tlb Cpu I8259 Mmio Vga Machine Memory Devices.
From S2P Require Import Decode Arith DataMov ConTran.

Section SysIO.
Context `{HRand : !LibcRand, HJunk : !StackJunk}.

(** * in, out *)
Definition in_i (w : width) : helper := λ eip,
  len ← decode_i WB (u32 (eip + 1));
  p ← get_op op_src op_val;
  v ← pio_in (u16 p) (DATA_BYTE w);
  _ ← set_REG w R_EAX v;
  mret (1 + len).

Definition in_d (w : width) : helper := λ eip,
  p ← reg_w R_DX;
  v ← pio_in p (DATA_BYTE w);
  _ ← set_REG w R_EAX v;
  mret 1.
Definition in_i_v : helper := make_helper_v in_i.
Definition in_d_v : helper := make_helper_v in_d.

Definition out_i (w : width) : helper := λ eip,
  len ← decode_i WB (u32 (eip + 1));
  p ← get_op op_src op_val;
  v ← REG w R_EAX;
  _ ← pio_out (u16 p) (DATA_BYTE w) v;
  mret (1 + len).

Definition out_d (w : width) : helper := λ eip,
  p ← reg_w R_DX;
  v ← REG w R_EAX;
  _ ← pio_out p (DATA_BYTE w) v;
  mret 1.
Definition out_i_v : helper := make_helper_v out_i.
Definition out_d_v : helper := make_helper_v out_d.

(** * hlt, cli, sti *)
Definition hlt : helper := λ _,
  s ← getS;
  _ ← (if negb (INTR (pic s)) then pc ← get_eip; put_eip (pc - 1) else mret tt);
  mret 1.

Definition cli : helper := λ _, _ ← mod_cpu (set_IF 0); mret 1.
Definition sti : helper := λ _, _ ← mod_cpu (set_IF 1); mret 1.

(** * Interrupts *)

(** [cpu.esp -= 4; swaddr_write(cpu.esp, 4, v, 2)] *)
Definition intr_push (v : NEMU Z) : NEMU unit :=
  esp ← get_esp;
  _ ← set_esp (esp - 4);
  esp ← get_esp;
  v ← v;
  swaddr_write esp 4 v 2.

(** [NO] is a byte. *)
Definition raise_intr {A} (NO : Z) : NEMU A :=
  let NO := u8 NO in
  _ ← intr_push (get_cpu eflags);
  _ ← intr_push (get_cpu (λ c, selector (aget (sreg c) 1)));
  _ ← intr_push get_eip;
  idt ← get_cpu idtr_base;
  idt_selector ← lnaddr_read (u32 (idt + 8 * NO + 2)) 2;
  _ ← load_cs idt_selector;
  base_addr ← get_cpu (λ c, seg_base (aget (sreg c) 1));
  offset1 ← lnaddr_read (u32 (idt + 8 * NO)) 2;
  offset2 ← lnaddr_read (u32 (idt + 8 * NO + 6)) 2;
  let offset_total := Z.lor (Z.shiftl offset2 16) offset1 in
  _ ← put_eip (base_addr + offset_total);
  longjmp.

Definition int_i : helper := λ eip,
  imm ← instr_fetch (u32 (eip + 1)) 1;
  pc ← get_eip;
  _ ← put_eip (pc + 2);
  raise_intr imm.

Definition iret : helper := λ eip,
  esp ← get_esp; v ← swaddr_read esp 4 2; _ ← put_eip v;
  esp ← get_esp; _ ← set_esp (esp + 4);
  esp ← get_esp; v ← swaddr_read esp 4 2; _ ← mod_cpu (set_selector 1 v);
  esp ← get_esp; _ ← set_esp (esp + 4);
  esp ← get_esp; v ← swaddr_read esp 4 2; _ ← mod_cpu (set_eflags v);
  esp ← get_esp; _ ← set_esp (esp + 4);
  mret 0.

(** * nop, int3, lea *)
Definition nop : helper := λ _, mret 1.

(** [do_int3] of [nemu/src/monitor/cpu-exec.c] stops the run. *)
Definition do_int3 : NEMU unit := modify (set_nemu_state STOP).
Definition int3 : helper := λ _, _ ← do_int3; mret 1.

Definition lea : helper := λ eip,
  m ← instr_fetch (u32 (eip + 1)) 1;
  len ← load_addr (u32 (eip + 1)) m op_src;
  a ← get_op op_src op_u;
  _ ← set_reg_l (ModR_M_reg m) a;
  mret (1 + len).

(** * Invalid opcodes and the trap *)

(** [inv] fetches the bytes to print them; the assertion ends the emulator. *)
Definition inv : helper := λ eip,
  _ ← instr_fetch eip 4;
  _ ← instr_fetch (u32 (eip + 4)) 4;
  fail EAssert.

Definition nemu_trap : helper := λ _,
  eax ← get_cpu (gpr_l R_EAX);
  _ ← (if eax =? 2 then
         c ← get_cpu id;
         let len := s32 (gpr_l R_EDX c) in
         let addr := gpr_l R_ECX c in
         for_ (Z.to_nat len) 0 (λ i,
           v ← swaddr_read (u32 (addr + i)) 1 3;
           modify (λ s, set_serial_out (v :: serial_out s) s))
       else modify (set_nemu_state END));
  mret 1.
End SysIO.
