(* ===== verification/Exec.v ===== *)
(** The executor: [nemu/src/cpu/exec/exec.c] with its opcode tables and groups, the
    operand-size prefix ([prefix/prefix.c]) and the [rep] prefixes ([string/rep.c]).

    [exec] calls itself through the prefixes; the model gives the nesting, and the
    rounds of a [rep] loop, one bound [fuel] ([EFuel] when it does not suffice). *)
From S2P Require Import Prelude Dram Cache Tlb Cpu I8259 Mmio Vga WpPool Machine Memory.
From S2P Require Import Devices Decode Arith Logic DataMov ConTran StringOps SysIO.

Section Exec.
Context `{HRand : !LibcRand, HJunk : !StackJunk}.

(** * Groups: the helper the [opcode] field of the ModR/M byte selects *)
Definition make_group (table : list helper) : helper := λ eip,
  m ← instr_fetch (u32 (eip + 1)) 1;
  nth (Z.to_nat (ModR_M_opcode m)) table inv eip.

Definition group1_b : helper := make_group [
  add_i2rm WB; or_i2rm WB; adc_i2rm WB; sbb_i2rm WB;
  and_i2rm WB; sub_i2rm WB; xor_i2rm WB; cmp_i2rm WB].
Definition group1_v : helper := make_group [
  add_i2rm_v; or_i2rm_v; adc_i2rm_v; sbb_i2rm_v;
  and_i2rm_v; sub_i2rm_v; xor_i2rm_v; cmp_i2rm_v].
Definition group1_sx_v : helper := make_group [
  add_si2rm_v; or_si2rm_v; adc_si2rm_v; sbb_si2rm_v;
  and_si2rm_v; sub_si2rm_v; xor_si2rm_v; cmp_si2rm_v].
Definition group2_i_b : helper := make_group [
  inv; inv; inv; inv;
  shl_rm_imm WB; shr_rm_imm WB; inv; sar_rm_imm WB].
Definition group2_i_v : helper := make_group [
  inv; inv; inv; inv;
  shl_rm_imm_v; shr_rm_imm_v; inv; sar_rm_imm_v].
Definition group2_1_b : helper := make_group [
  inv; inv; inv; inv;
  shl_rm_1 WB; shr_rm_1 WB; inv; sar_rm_1 WB].
Definition group2_1_v : helper := make_group [
  inv; inv; inv; inv;
  shl_rm_1_v; shr_rm_1_v; inv; sar_rm_1_v].
Definition group2_cl_b : helper := make_group [
  inv; inv; inv; inv;
  shl_rm_cl WB; shr_rm_cl WB; inv; sar_rm_cl WB].
Definition group2_cl_v : helper := make_group [
  inv; inv; inv; inv;
  shl_rm_cl_v; shr_rm_cl_v; inv; sar_rm_cl_v].
Definition group3_b : helper := make_group [
  test_i2rm WB; inv; not_rm WB; neg_rm WB;
  mul_rm WB; imul_rm2a WB; div_rm WB; idiv_rm WB].
Definition group3_v : helper := make_group [
  test_i2rm_v; inv; not_rm_v; neg_rm_v;
  mul_rm_v; imul_rm2a_v; div_rm_v; idiv_rm_v].
Definition group4 : helper := make_group [
  inc_rm WB; dec_rm WB; inv; inv;
  inv; inv; inv; inv].
Definition group5 : helper := make_group [
  inc_rm_v; dec_rm_v; call_rm_v; call_rm_v;
  jmp_rm_v; jmp_rm_v; push_rm_v; inv].
Definition group6 : helper := make_group [
  inv; inv; inv; inv;
  inv; inv; inv; inv].
Definition group7 : helper := make_group [
  inv; inv; lgdt_v; lidt_v;
  inv; inv; inv; inv].

(** * Two-byte opcodes *)
Definition two_byte_opcode_table : list helper := [
  (* 0x00 *) group6; group7; inv; inv;
  (* 0x04 *) inv; inv; inv; inv;
  (* 0x08 *) inv; inv; inv; inv;
  (* 0x0c *) inv; inv; inv; inv;
  (* 0x10 *) inv; inv; inv; inv;
  (* 0x14 *) inv; inv; inv; inv;
  (* 0x18 *) inv; inv; inv; inv;
  (* 0x1c *) inv; inv; inv; inv;
  (* 0x20 *) mov_cr2r; inv; mov_r2cr; inv;
  (* 0x24 *) inv; inv; inv; inv;
  (* 0x28 *) inv; inv; inv; inv;
  (* 0x2c *) inv; inv; inv; inv;
  (* 0x30 *) inv; inv; inv; inv;
  (* 0x34 *) inv; inv; inv; inv;
  (* 0x38 *) inv; inv; inv; inv;
  (* 0x3c *) inv; inv; inv; inv;
  (* 0x40 *) inv; inv; inv; inv;
  (* 0x44 *) cmove_v; inv; inv; inv;
  (* 0x48 *) inv; inv; inv; inv;
  (* 0x4c *) inv; cmovle_v; cmovle_v; inv;
  (* 0x50 *) inv; inv; inv; inv;
  (* 0x54 *) inv; inv; inv; inv;
  (* 0x58 *) inv; inv; inv; inv;
  (* 0x5c *) inv; inv; inv; inv;
  (* 0x60 *) inv; inv; inv; inv;
  (* 0x64 *) inv; inv; inv; inv;
  (* 0x68 *) inv; inv; inv; inv;
  (* 0x6c *) inv; inv; inv; inv;
  (* 0x70 *) inv; inv; inv; inv;
  (* 0x74 *) inv; inv; inv; inv;
  (* 0x78 *) inv; inv; inv; inv;
  (* 0x7c *) inv; inv; inv; inv;
  (* 0x80 *) jcc_o_v; jcc_no_v; jcc_b_v; jcc_ae_v;
  (* 0x84 *) jcc_e_v; jcc_ne_v; jcc_be_v; jcc_a_v;
  (* 0x88 *) jcc_s_v; jcc_ns_v; jcc_p_v; jcc_np_v;
  (* 0x8c *) jcc_l_v; jcc_ge_v; jcc_le_v; jcc_g_v;
  (* 0x90 *) setcc_o; setcc_no; setcc_b; setcc_ae;
  (* 0x94 *) setcc_e; setcc_ne; setcc_be; setcc_a;
  (* 0x98 *) setcc_s; setcc_ns; setcc_p; setcc_np;
  (* 0x9c *) setcc_l; setcc_ge; setcc_le; setcc_g;
  (* 0xa0 *) inv; inv; inv; bt_r2rm_v;
  (* 0xa4 *) inv; inv; inv; inv;
  (* 0xa8 *) inv; inv; inv; inv;
  (* 0xac *) shrdi_v; inv; inv; imul_rm2r_v;
  (* 0xb0 *) inv; inv; inv; inv;
  (* 0xb4 *) inv; inv; movzb_v; movzw_l;
  (* 0xb8 *) inv; inv; bt_i2rm_v; inv;
  (* 0xbc *) inv; inv; movsb_v; movsw_l;
  (* 0xc0 *) inv; inv; inv; inv;
  (* 0xc4 *) inv; inv; inv; inv;
  (* 0xc8 *) inv; inv; inv; inv;
  (* 0xcc *) inv; inv; inv; inv;
  (* 0xd0 *) inv; inv; inv; inv;
  (* 0xd4 *) inv; inv; inv; inv;
  (* 0xd8 *) inv; inv; inv; inv;
  (* 0xdc *) inv; inv; inv; inv;
  (* 0xe0 *) inv; inv; inv; inv;
  (* 0xe4 *) inv; inv; inv; inv;
  (* 0xe8 *) inv; inv; inv; inv;
  (* 0xec *) inv; inv; inv; inv;
  (* 0xf0 *) inv; inv; inv; inv;
  (* 0xf4 *) inv; inv; inv; inv;
  (* 0xf8 *) inv; inv; inv; inv;
  (* 0xfc *) inv; inv; inv; inv
].

(** [ops_decoded.opcode = o] *)
Definition put_opcode (o : Z) : NEMU unit := modify (λ s,
  let d := ops_decoded s in
  set_ops (mkOperands (u32 o) (is_operand_size_16 d) (src d) (dest d) (src2 d)) s).

Definition two_byte_esc : helper := λ eip,
  let eip := u32 (eip + 1) in
  opcode ← instr_fetch eip 1;
  _ ← put_opcode (Z.lor opcode 0x100);
  len ← nth (Z.to_nat opcode) two_byte_opcode_table inv eip;
  mret (len + 1).

(** * Prefixes, over the executor *)
Section Prefixes.
Context (exec : helper) (fuel : nat).

Definition put_operand_size_16 (b : bool) : NEMU unit := modify (λ s,
  let d := ops_decoded s in set_ops (mkOperands (opcode d) b (src d) (dest d) (src2 d)) s).

Definition operand_size : helper := λ eip,
  _ ← put_operand_size_16 true;
  instr_len ← exec (u32 (eip + 1));
  _ ← put_operand_size_16 false;
  mret (instr_len + 1).

(** The compare-string opcodes, which leave the loop on [ZF == zf]. *)
Definition rep_break (zf : Z) (s : Machine) : bool :=
  let o := opcode (ops_decoded s) in
  ((o =? 0xa6) || (o =? 0xa7) || (o =? 0xae) || (o =? 0xaf)) && (ZF (cpu s) =? zf).

(** [while(cpu.ecx) { exec(eip + 1); count ++; cpu.ecx --; if(...) break; }] *)
Fixpoint rep_loop (n : nat) (zf eip : Z) : NEMU unit :=
  ecx ← get_cpu (gpr_l R_ECX);
  if ecx =? 0 then mret tt else
  match n with
  | O => fail EFuel
  | S n =>
    _ ← exec (u32 (eip + 1));
    ecx ← get_cpu (gpr_l R_ECX);
    _ ← mod_cpu (set_gpr_l R_ECX (ecx - 1));
    s ← getS;
    if rep_break zf s then mret tt else rep_loop n zf eip
  end.

Definition rep : helper := λ eip,
  o ← instr_fetch (u32 (eip + 1)) 1;
  if o =? 0xc3 then
    _ ← exec (u32 (eip + 1));
    mret (0 + 1)
  else
    _ ← rep_loop fuel 0 eip;
    mret (1 + 1).

Definition repnz : helper := λ eip,
  _ ← rep_loop fuel 1 eip;
  mret (1 + 1).

(** * One-byte opcodes *)
Definition opcode_table : list helper := [
  (* 0x00 *) add_r2rm WB; add_r2rm_v; add_rm2r WB; add_rm2r_v;
  (* 0x04 *) add_i2a WB; add_i2a_v; inv; inv;
  (* 0x08 *) or_r2rm WB; or_r2rm_v; or_rm2r WB; or_rm2r_v;
  (* 0x0c *) or_i2a WB; or_i2a_v; inv; two_byte_esc;
  (* 0x10 *) adc_r2rm WB; adc_r2rm_v; adc_rm2r WB; adc_rm2r_v;
  (* 0x14 *) adc_i2a WB; adc_i2a_v; inv; inv;
  (* 0x18 *) sbb_r2rm WB; sbb_r2rm_v; sbb_rm2r WB; sbb_rm2r_v;
  (* 0x1c *) sbb_i2a WB; sbb_i2a_v; inv; inv;
  (* 0x20 *) and_r2rm WB; and_r2rm_v; and_rm2r WB; and_rm2r_v;
  (* 0x24 *) and_i2a WB; and_i2a_v; inv; inv;
  (* 0x28 *) sub_r2rm WB; sub_r2rm_v; sub_rm2r WB; sub_rm2r_v;
  (* 0x2c *) sub_i2a WB; sub_i2a_v; inv; inv;
  (* 0x30 *) xor_r2rm WB; xor_r2rm_v; xor_rm2r WB; xor_rm2r_v;
  (* 0x34 *) xor_i2a WB; xor_i2a_v; inv; inv;
  (* 0x38 *) cmp_r2rm WB; cmp_r2rm_v; cmp_rm2r WB; cmp_rm2r_v;
  (* 0x3c *) cmp_i2a WB; cmp_i2a_v; inv; inv;
  (* 0x40 *) inc_r_v; inc_r_v; inc_r_v; inc_r_v;
  (* 0x44 *) inc_r_v; inc_r_v; inc_r_v; inc_r_v;
  (* 0x48 *) dec_r_v; dec_r_v; dec_r_v; dec_r_v;
  (* 0x4c *) dec_r_v; dec_r_v; dec_r_v; dec_r_v;
  (* 0x50 *) push_r_v; push_r_v; push_r_v; push_r_v;
  (* 0x54 *) push_r_v; push_r_v; push_r_v; push_r_v;
  (* 0x58 *) pop_r_v; pop_r_v; pop_r_v; pop_r_v;
  (* 0x5c *) pop_r_v; pop_r_v; pop_r_v; pop_r_v;
  (* 0x60 *) pusha_v; popa_v; inv; inv;
  (* 0x64 *) inv; inv; operand_size; inv;
  (* 0x68 *) push_i_v; imul_i_rm2r_v; push_i WB; imul_si_rm2r_v;
  (* 0x6c *) inv; inv; inv; inv;
  (* 0x70 *) jcc_o WB; jcc_no WB; jcc_b WB; jcc_ae WB;
  (* 0x74 *) jcc_e WB; jcc_ne WB; jcc_be WB; jcc_a WB;
  (* 0x78 *) jcc_s WB; jcc_ns WB; jcc_p WB; jcc_np WB;
  (* 0x7c *) jcc_l WB; jcc_ge WB; jcc_le WB; jcc_g WB;
  (* 0x80 *) group1_b; group1_v; inv; group1_sx_v;
  (* 0x84 *) test_r2rm WB; test_r2rm_v; xchg_r2rm WB; xchg_r2rm_v;
  (* 0x88 *) mov_r2rm WB; mov_r2rm_v; mov_rm2r WB; mov_rm2r_v;
  (* 0x8c *) inv; lea; mov_rm2s; pop_rm_v;
  (* 0x90 *) nop; xchg_a2r_v; xchg_a2r_v; xchg_a2r_v;
  (* 0x94 *) xchg_a2r_v; xchg_a2r_v; xchg_a2r_v; xchg_a2r_v;
  (* 0x98 *) cwtl_v; cltd_v; inv; inv;
  (* 0x9c *) inv; inv; inv; inv;
  (* 0xa0 *) mov_moffs2a WB; mov_moffs2a_v; mov_a2moffs WB; mov_a2moffs_v;
  (* 0xa4 *) movs_n WB; movs_n_v; inv; inv;
  (* 0xa8 *) test_i2a WB; test_i2a_v; stos_n WB; stos_n_v;
  (* 0xac *) lods_n WB; lods_n_v; scas_n WB; scas_n_v;
  (* 0xb0 *) mov_i2r WB; mov_i2r WB; mov_i2r WB; mov_i2r WB;
  (* 0xb4 *) mov_i2r WB; mov_i2r WB; mov_i2r WB; mov_i2r WB;
  (* 0xb8 *) mov_i2r_v; mov_i2r_v; mov_i2r_v; mov_i2r_v;
  (* 0xbc *) mov_i2r_v; mov_i2r_v; mov_i2r_v; mov_i2r_v;
  (* 0xc0 *) group2_i_b; group2_i_v; ret_i_v; ret_o_v;
  (* 0xc4 *) inv; inv; mov_i2rm WB; mov_i2rm_v;
  (* 0xc8 *) inv; leave; inv; ret_o_v;
  (* 0xcc *) int3; int_i; inv; iret;
  (* 0xd0 *) group2_1_b; group2_1_v; group2_cl_b; group2_cl_v;
  (* 0xd4 *) inv; inv; nemu_trap; inv;
  (* 0xd8 *) inv; inv; inv; inv;
  (* 0xdc *) inv; inv; inv; inv;
  (* 0xe0 *) inv; inv; inv; inv;
  (* 0xe4 *) in_i WB; in_i_v; out_i WB; out_i_v;
  (* 0xe8 *) call_i_v; jmp_i_v; jmp_l_v; jmp_i WB;
  (* 0xec *) in_d WB; in_d_v; out_d WB; out_d_v;
  (* 0xf0 *) inv; inv; repnz; rep;
  (* 0xf4 *) hlt; inv; group3_b; group3_v;
  (* 0xf8 *) inv; inv; cli; sti;
  (* 0xfc *) cld; std; group4; group5
].
End Prefixes.

(** * exec *)
Fixpoint exec (fuel : nat) : helper := λ eip,
  match fuel with
  | O => fail EFuel
  | S fuel =>
    o ← instr_fetch eip 1;
    _ ← put_opcode o;
    nth (Z.to_nat o) (opcode_table (exec fuel) fuel) inv eip
  end.
End Exec.
