(* ===== verification/RepSpec.v ===== *)
(** [rep movs]: the executor runs the prefix, the table lookup and the string instruction
    as a block copy. *)
From S2P Require Import Prelude Dram Cache L2Facts CacheFacts CacheSpec WorkingSet.
From S2P Require Import Tlb Cpu I8259 Mmio Vga WpPool Machine Memory MemFacts DemoMachine PageSpec.
From S2P Require Import SegMem Devices Decode Arith Logic DataMov ConTran StringOps SysIO Exec.

(** * Block copies *)
Definition block_copy (f : Z → Z) (d s l : Z) : Z → Z := λ x, if (d <=? x) && (x <? d + l) then f (s + (x - d)) else f x.

Lemma byte_of_load n f a k : (∀ j, a <= j < a + Z.of_nat n → 0 <= f j < 256) → 0 <= k < Z.of_nat n →
  byte_of (le_load n f a) k = f (a + k).
Proof.
  intros Hf Hk. set (g := λ x, if (a <=? x) && (x <? a + Z.of_nat n) then f x else 0).
  rewrite (le_load_ext n f g a), byte_of_le_load; [|intros i; unfold g; destruct (_ && _) eqn:E; [apply Hf; lia|lia]|done|].
  - unfold g. now replace (_ && _) with true by lia.
  - intros j Hj. unfold g. now replace (_ && _) with true by lia.
Qed.

Lemma store_load_copy f d s b x : 0 < b → (∀ j, s <= j < s + b → 0 <= f j < 256) →
  flat_store f d b (le_load (Z.to_nat b) f s) x = block_copy f d s b x.
Proof.
  intros Hb Hf. unfold flat_store, block_copy. destruct ((d <=? x) && (x <? d + b)) eqn:E; [|done].
  apply byte_of_load; rewrite Z2Nat.id by lia; [exact Hf|lia].
Qed.

(** A copy in two parts; the source of the second is not overwritten by the first. *)
Lemma block_copy_app f d s b l x : 0 <= b → 0 <= l → d <= s ∨ s + (b + l) <= d →
  block_copy (block_copy f d s b) (d + b) (s + b) l x = block_copy f d s (b + l) x.
Proof.
  intros Hb Hl Hds. unfold block_copy. destruct (Z.leb_spec (d + b) x), (Z.ltb_spec x (d + b + l)); cbn [andb].
  - replace ((d <=? s + b + (x - (d + b))) && (s + b + (x - (d + b)) <? d + b)) with false by lia.
    replace ((d <=? x) && (x <? d + (b + l))) with true by lia. f_equal. lia.
  - now replace ((d <=? x) && (x <? d + b)) with false by lia; replace ((d <=? x) && (x <? d + (b + l))) with false by lia.
  - now replace ((d <=? x) && (x <? d + (b + l))) with ((d <=? x) && (x <? d + b)) by lia.
  - lia.
Qed.

Section Rep.
Context `{HRand : !LibcRand, HJunk : !StackJunk} {DInv : (Z → Z) → Machine → Prop}
  {dok : Z → Z → Z → Prop} `{HData : !DataMem DInv dok}.

(** The opcodes of [movs] at the width [w]. *)
Definition movs_opcode (is16 : bool) (w : width) (o : Z) : Prop :=
  (o = 0xa4 ∧ w = WB) ∨ (o = 0xa5 ∧ w = if is16 then WW else WL).

Lemma wp_put_opcode J o (Q : unit → Machine → Prop) s :
  Q tt (set_ops (mkOperands (u32 o) (is_operand_size_16 (ops_decoded s)) (src (ops_decoded s)) (dest (ops_decoded s)) (src2 (ops_decoded s))) s) →
  wp J (put_opcode o) Q s.
Proof using. done. Qed.

Lemma opcode_movs e m : nth (Z.to_nat 0xa4) (opcode_table e m) inv = movs_n WB ∧ nth (Z.to_nat 0xa5) (opcode_table e m) inv = movs_n_v.
Proof using. split; reflexivity. Qed.

Lemma opcode_rep e m : nth (Z.to_nat 0xf3) (opcode_table e m) inv = rep e m.
Proof using. reflexivity. Qed.

(** ** One element *)
Definition moved_regs (w : width) (c : CPU_state) : CPU_state :=
  let c := set_gpr_l R_EDI (gpr_l R_EDI c + DATA_BYTE w) c in set_gpr_l R_ESI (gpr_l R_ESI c + DATA_BYTE w) c.

Lemma loaded_fits f s sr a w : DInv f s → dok sr a (DATA_BYTE w) → DATA_TYPE w (le_load (Z.to_nat (DATA_BYTE w)) f a) = le_load (Z.to_nat (DATA_BYTE w)) f a.
Proof using HData.
  intros Hs (H0 & H1 & _)%dm_ok. apply wrap_small.
  assert (0 <= le_load (Z.to_nat (DATA_BYTE w)) f a < 256 ^ Z.of_nat (Z.to_nat (DATA_BYTE w))) as H.
  { apply le_load_range_in. intros k Hk. apply (dm_bytes f s); [done|]. rewrite Z2Nat.id in Hk; [lia|destruct w; cbn; lia]. }
  destruct w; exact H.
Qed.

Lemma do_movs_run J f s w Q : DInv f s → flag 10 (cpu s) = 0 →
  dok 3 (gpr_l R_ESI (cpu s)) (DATA_BYTE w) → dok 0 (gpr_l R_EDI (cpu s)) (DATA_BYTE w) →
  (∀ t c, let s' := set_cpu (moved_regs w (cpu s)) (set_tlb t (set_caches c s)) in
    DInv (flat_store f (gpr_l R_EDI (cpu s)) (DATA_BYTE w) (le_load (Z.to_nat (DATA_BYTE w)) f (gpr_l R_ESI (cpu s)))) s' → Q tt s') →
  wp J (do_movs w) Q s.
Proof using HData.
  intros Hs Hdf Hsrc Hdst HQ. unfold do_movs, MEM_R, MEM_W.
  apply wp_bind, wp_reg_l; [done|]. apply wp_bind, wp_reg_l; [done|].
  apply wp_bind. eapply (wp_swaddr_read _ _ _ _ _ _ _ Hsrc); [exact Hs|]. intros t c Hd. rewrite (loaded_fits f s 3) by done.
  apply wp_bind. eapply (wp_swaddr_write _ _ _ _ _ _ _ _ Hdst); [exact Hd|]. intros t2 c2 Hd2. unfold step_l.
  apply wp_bind. wp_norm. apply wp_bind, wp_get_cpu. mproj. rewrite Hdf. apply wp_bind, wp_reg_l; [done|]. mproj.
  change (0 =? 0) with true. cbv iota. apply wp_set_reg_l; [done|]. wp_norm. apply wp_bind, wp_get_cpu. mproj.
  change (flag 10 (set_gpr_l _ _ ?c)) with (flag 10 c). rewrite Hdf. apply wp_bind, wp_reg_l; [done|]. mproj.
  change (0 =? 0) with true. cbv iota. apply wp_set_reg_l; [done|]. wp_norm. 
  apply HQ. data.
Qed.

Lemma movs_once J f s m pc w o (Q : Z → Machine → Prop) : movs_opcode (is_operand_size_16 (ops_decoded s)) w o →
  DInv f s → f pc = o → dok 1 pc 1 → flag 10 (cpu s) = 0 →
  dok 3 (gpr_l R_ESI (cpu s)) (DATA_BYTE w) → dok 0 (gpr_l R_EDI (cpu s)) (DATA_BYTE w) →
  (∀ s', cpu s' = moved_regs w (cpu s) → is_operand_size_16 (ops_decoded s') = is_operand_size_16 (ops_decoded s) →
    opcode (ops_decoded s') = o →
    DInv (flat_store f (gpr_l R_EDI (cpu s)) (DATA_BYTE w) (le_load (Z.to_nat (DATA_BYTE w)) f (gpr_l R_ESI (cpu s)))) s' → Q 1 s') →
  wp J (exec (S m) pc) Q s.
Proof using HData.
  intros Ho Hs Hpc Hok Hdf Hsrc Hdst HQ. cbn [exec]. unfold instr_fetch.
  apply wp_bind. eapply (wp_swaddr_read _ _ _ _ _ _ _ Hok); [exact Hs|]. intros t c Hd.
  assert (le_load (Z.to_nat 1) f pc = o) as -> by (change (Z.to_nat 1) with 1%nat; cbn [le_load]; lia).
  apply wp_bind, wp_put_opcode. mproj. set (s1 := set_ops _ _).
  assert (wp J (movs_n w pc) Q s1) as Hrun.
  { unfold movs_n, make_instr_helper, idex, decode_n. apply wp_bind, wp_bind, wp_mod_op, wp_ret.
    apply wp_bind. apply (do_movs_run J f); unfold s1; mproj; [data|exact Hdf|exact Hsrc|exact Hdst|].
    intros t2 c2 Hd2. apply wp_ret. apply HQ; [reflexivity|reflexivity| |exact Hd2]. mproj.
    destruct Ho as [[-> _]|[-> _]]; reflexivity. }
  destruct (opcode_movs (exec m) m) as [E1 E2]. destruct Ho as [[-> ->]|[-> Ew]]; [now rewrite E1|].
  rewrite E2. unfold movs_n_v, make_helper_v. apply wp_bind, wp_getS.
  change (is_operand_size_16 (ops_decoded s1)) with (is_operand_size_16 (ops_decoded s)). rewrite Ew in Hrun.
  destruct (is_operand_size_16 (ops_decoded s)); exact Hrun.
Qed.

(** ** The loop *)

(** The registers after a copy that ends at [si] and [di] with [cx] elements left. *)
Record copied_regs (c c' : CPU_state) (si di cx : Z) : Prop := {
  cr_rest : c' = set_gpr (gpr c') c;
  cr_gpr : ∀ i, 0 <= i < 8 → gpr_l i c' = if i =? R_ESI then u32 si else if i =? R_EDI then u32 di else if i =? R_ECX then u32 cx else gpr_l i c
}.

(** [r] elements at [si] can be copied to [di] by the instruction at [pc]. *)
Record copyable (g : Z → Z) (w : width) (pc o si di r : Z) : Prop := {
  cp_src k : 0 <= k < r → dok 3 (si + DATA_BYTE w * k) (DATA_BYTE w);
  cp_dst k : 0 <= k < r → dok 0 (di + DATA_BYTE w * k) (DATA_BYTE w);
  cp_code : g pc = o;
  cp_kept : pc < di ∨ di + DATA_BYTE w * r <= pc;
  cp_order : di <= si ∨ si + DATA_BYTE w * r <= di
}.

Lemma copyable_next g w pc o si di r : 0 < r → copyable g w pc o si di r →
  copyable (block_copy g di si (DATA_BYTE w)) w pc o (si + DATA_BYTE w) (di + DATA_BYTE w) (r - 1).
Proof using.
  intros Hr [Hs Hd Hc Hk Ho]. assert (0 < DATA_BYTE w) as Hb by (destruct w; cbn; lia). split; try nia.
  - intros k Hk'. replace (si + _ + _) with (si + DATA_BYTE w * (k + 1)) by lia. apply Hs. lia.
  - intros k Hk'. replace (di + _ + _) with (di + DATA_BYTE w * (k + 1)) by lia. apply Hd. lia.
  - unfold block_copy. now replace ((di <=? pc) && (pc <? di + DATA_BYTE w)) with false by nia.
Qed.

Lemma moved_regs_ok w c si di r : gpr_l R_ESI c = si → gpr_l R_EDI c = di → gpr_l R_ECX c = r →
  copied_regs c (set_gpr_l R_ECX (r - 1) (moved_regs w c)) (si + DATA_BYTE w) (di + DATA_BYTE w) (r - 1).
Proof using.
  intros <- <- <-. split; [reflexivity|]. intros i Hi. unfold moved_regs. rewrite !gpr_l_set_l. regs.
  repeat match goal with |- context [?a =? ?b] => destruct (Z.eqb_spec a b) end; subst; try lia; reflexivity.
Qed.

Lemma copied_trans c c1 c2 si di r si' di' r' : copied_regs c c1 si di r → copied_regs c1 c2 si' di' r' → copied_regs c c2 si' di' r'.
Proof using.
  intros [E1 H1] [E2 H2]. split; [rewrite E2, E1; reflexivity|]. intros i Hi. rewrite H2, H1 by done.
  destruct (i =? R_ESI), (i =? R_EDI), (i =? R_ECX); done.
Qed.

Lemma copied_none c si di : gpr_l R_ESI c = u32 si → gpr_l R_EDI c = u32 di → gpr_l R_ECX c = 0 → copied_regs c c si di 0.
Proof using.
  intros Hsi Hdi Hcx. split; [now destruct c|]. intros i Hi. destruct (Z.eqb_spec i R_ESI) as [->|]; [done|].
  destruct (Z.eqb_spec i R_EDI) as [->|]; [done|]. now destruct (Z.eqb_spec i R_ECX) as [->|].
Qed.

Lemma rep_movs_loop J m n zf eip w o g s si di r (Q : unit → Machine → Prop) : let b := DATA_BYTE w in let pc := u32 (eip + 1) in
  movs_opcode (is_operand_size_16 (ops_decoded s)) w o → DInv g s → dok 1 pc 1 → flag 10 (cpu s) = 0 →
  gpr_l R_ESI (cpu s) = u32 si → gpr_l R_EDI (cpu s) = u32 di → gpr_l R_ECX (cpu s) = r → 0 <= r <= Z.of_nat n → r < 2 ^ 32 →
  copyable g w pc o si di r →
  (∀ s', copied_regs (cpu s) (cpu s') (si + b * r) (di + b * r) 0 → DInv (block_copy g di si (b * r)) s' → Q tt s') →
  wp J (rep_loop (exec (S m)) n zf eip) Q s.
Proof using HData.
  intros b pc Ho Hs Hok Hdf Hsi Hdi Hcx Hn Hr Hcp HQ. assert (0 < b) as Hb by (unfold b; destruct w; cbn; lia).
  revert g s si di r Ho Hs Hdf Hsi Hdi Hcx Hn Hr Hcp HQ. induction n as [|n IH]; intros g s si di r Ho Hs Hdf Hsi Hdi Hcx Hn Hr Hcp HQ;
    cbn [rep_loop]; apply wp_bind, wp_get_cpu; rewrite Hcx; (destruct (Z.eqb_spec r 0) as [->|Hr0]; [|try lia]).
  1, 2: rewrite Z.mul_0_r, !Z.add_0_r in HQ; apply wp_ret, HQ; [now apply copied_none|apply (dm_ext g); [|exact Hs]];
    intros x _; unfold block_copy; now replace (_ && _) with false by lia.
  pose proof (cp_src _ _ _ _ _ _ _ Hcp 0 ltac:(lia)) as Hsrc. pose proof (cp_dst _ _ _ _ _ _ _ Hcp 0 ltac:(lia)) as Hdst.
  rewrite Z.mul_0_r, Z.add_0_r in Hsrc, Hdst. fold b in Hsrc, Hdst. pose proof (dm_ok _ _ _ Hsrc) as (? & ? & _). pose proof (dm_ok _ _ _ Hdst) as (? & ? & _).
  rewrite wrap_small in Hsi, Hdi by lia.
  apply wp_bind. apply (movs_once J g s m pc w o _ Ho Hs (cp_code _ _ _ _ _ _ _ Hcp) Hok Hdf); [now rewrite Hsi|now rewrite Hdi|].
  rewrite Hsi, Hdi. fold b. intros s1 Ec Eop Eo Hd1. apply wp_bind, wp_get_cpu. apply wp_bind, wp_mod_cpu. apply wp_bind, wp_getS. mproj. rewrite Ec.
  assert (gpr_l R_ECX (moved_regs w (cpu s)) = r) as -> by (unfold moved_regs; rewrite !gpr_l_set_l; exact Hcx).
  assert (rep_break zf (set_cpu (set_gpr_l R_ECX (r - 1) (moved_regs w (cpu s))) s1) = false) as ->.
  { unfold rep_break. mproj. rewrite Eo. destruct Ho as [[-> _]|[-> _]]; reflexivity. }
  pose proof (moved_regs_ok w (cpu s) si di r Hsi Hdi Hcx) as Hm. fold b in Hm.
  apply (IH (block_copy g di si b) _ (si + b) (di + b) (r - 1)); mproj.
  - now rewrite Eop.
  - apply (dm_ext (flat_store g di b (le_load (Z.to_nat b) g si))).
    + intros x _. apply store_load_copy; [done|]. intros j Hj. apply (dm_bytes g s Hs). lia.
    + apply data_cpu; [rewrite Ec; reflexivity..|exact Hd1].
  - exact Hdf.
  - rewrite (cr_gpr _ _ _ _ _ Hm) by done. reflexivity.
  - rewrite (cr_gpr _ _ _ _ _ Hm) by done. reflexivity.
  - rewrite (cr_gpr _ _ _ _ _ Hm) by done. apply wrap_small. lia.
  - lia.
  - lia.
  - apply copyable_next; [lia|exact Hcp].
  - intros s' Hc Hd'. apply HQ.
    + replace (b * r) with (b + b * (r - 1)) by lia. rewrite !Z.add_assoc. exact (copied_trans _ _ _ _ _ _ _ _ _ Hm Hc).
    + apply (dm_ext _ _ _) with (2 := Hd'). intros x _. rewrite block_copy_app; [f_equal; lia|lia|nia|].
      pose proof (cp_order _ _ _ _ _ _ _ Hcp) as Hord. fold b in Hord. replace (b + b * (r - 1)) with (b * r) by lia. exact Hord.
Qed.

(** C15: [rep movs], executed from its prefix byte with the direction flag clear, copies ECX
    elements from ESI to EDI: the bytes of the destination become those of the source (also
    when they overlap, as long as the destination is the lower one), no other byte changes;
    ESI and EDI have moved past the blocks, ECX is 0, and the other registers are as before.
    The nesting and rounds the copy needs are bounded by ECX. *)
Theorem rep_movs_copies f s m pc w o : let c := cpu s in let b := DATA_BYTE w in
  let si := gpr_l R_ESI c in let di := gpr_l R_EDI c in let n := gpr_l R_ECX c in
  (∀ i, 0 <= gpr_l i c < 2 ^ 32) → movs_opcode (is_operand_size_16 (ops_decoded s)) w o → DInv f s →
  dok 1 pc 1 → f pc = 0xf3 → dok 1 (u32 (pc + 1)) 1 → flag 10 c = 0 →
  copyable f w (u32 (pc + 1)) o si di n → n <= Z.of_nat m + 1 →
  ∃ s', exec (S (S m)) pc s = Ok 2 s' ∧ DInv (block_copy f di si (b * n)) s' ∧ copied_regs c (cpu s') (si + b * n) (di + b * n) 0.
Proof using HData.
  intros c b si di n Hg Ho Hs Hok Hpc Hok1 Hdf Hcp Hn. apply wp_elim_val. cbn [exec]. unfold instr_fetch.
  apply wp_bind. eapply (wp_swaddr_read _ _ _ _ _ _ _ Hok); [exact Hs|]. intros t1 c1 Hd1.
  assert (le_load (Z.to_nat 1) f pc = 0xf3) as -> by (change (Z.to_nat 1) with 1%nat; cbn [le_load]; lia).
  apply wp_bind, wp_put_opcode. mproj. rewrite opcode_rep. unfold rep, instr_fetch.
  apply wp_bind. eapply (wp_swaddr_read _ _ _ _ _ _ _ Hok1); [data|]. intros t2 c2 Hd2.
  assert (le_load (Z.to_nat 1) f (u32 (pc + 1)) = o) as ->.
  { change (Z.to_nat 1) with 1%nat. cbn [le_load]. rewrite (cp_code _ _ _ _ _ _ _ Hcp). lia. }
  replace (o =? 0xc3) with false by (destruct Ho as [[-> _]|[-> _]]; reflexivity).
  apply wp_bind. apply (rep_movs_loop _ m (S m) 0 pc w o f _ si di n); try exact Ho; try exact Hok1; try exact Hdf; try exact Hcp; try data.
  - symmetry. apply wrap_small, Hg.
  - symmetry. apply wrap_small, Hg.
  - reflexivity.
  - specialize (Hg R_ECX). fold n in Hg. lia.
  - apply Hg.
  - intros s' Hc Hd. apply wp_ret. split; [reflexivity|]. split; [exact Hd|exact Hc].
Qed.
End Rep.

(** * The theorem on a machine *)
#[local] Existing Instance IsoRand.
#[local] Existing Instance ZeroJunk.

(** [rep movsb] at 512 moves three bytes down by one. *)
Definition rep_dram : Dram := demo_dram 512 [0xf3; 0xa4] (demo_dram 0x600 [1; 2; 3] dram0).
Definition rep_machine : Machine :=
  demo_machine (set_gpr_l R_ESI 0x600 (set_gpr_l R_EDI 0x5ff (set_gpr_l R_ECX 3 cpu0))) rep_dram.

Lemma rep_machine_inv : demo_data (hw_get rep_dram) rep_machine.
Proof.
  apply demo_data_inv; [|now apply flat_segs_real]. unfold rep_dram.
  repeat (apply demo_dram_cold; [|vm_compute; repeat constructor; congruence]). apply cold_dram0.
Qed.

Lemma rep_ecx : gpr_l R_ECX (cpu rep_machine) = 3.
Proof. vm_compute. reflexivity. Qed.
Lemma rep_esi : gpr_l R_ESI (cpu rep_machine) = 0x600.
Proof. vm_compute. reflexivity. Qed.
Lemma rep_edi : gpr_l R_EDI (cpu rep_machine) = 0x5ff.
Proof. vm_compute. reflexivity. Qed.

Lemma rep_movs_copies_witness : ∃ s', exec 4 512 rep_machine = Ok 2 s' ∧
  demo_data (block_copy (hw_get rep_dram) 0x5ff 0x600 3) s' ∧ gpr_l R_ESI (cpu s') = 0x603 ∧ gpr_l R_ECX (cpu s') = 0.
Proof.
  destruct (rep_movs_copies (DInv := demo_data) (hw_get rep_dram) rep_machine 2 512 WB 0xa4) as (s' & E & Hd & Hc).
  - intros i. unfold rep_machine, demo_machine. cbn [cpu]. rewrite !gpr_l_set_l.
    repeat match goal with |- context [?a =? ?b] => destruct (Z.eqb_spec a b) end; vm_compute; split; congruence.
  - now left.
  - exact rep_machine_inv.
  - apply demo_data_ok; lia.
  - vm_compute. reflexivity.
  - apply demo_data_ok; vm_compute; intuition congruence.
  - vm_compute. reflexivity.
  - rewrite rep_ecx, rep_esi, rep_edi. change (u32 (512 + 1)) with 513. change (DATA_BYTE WB) with 1 in *.
    split; change (DATA_BYTE WB) with 1; [intros k Hk; apply demo_data_ok; lia|intros k Hk; apply demo_data_ok; lia|vm_compute; reflexivity|lia|lia].
  - rewrite rep_ecx. lia.
  - rewrite rep_ecx, rep_esi, rep_edi in Hd. exists s'. split; [exact E|]. split; [exact Hd|].
    rewrite rep_esi, rep_edi, rep_ecx in Hc. destruct Hc as [_ Hg]. split.
    + refine (eq_trans (Hg R_ESI _) _); [unfold R_ESI; lia|reflexivity].
    + refine (eq_trans (Hg R_ECX _) _); [unfold R_ECX; lia|reflexivity].
Defined.
