(* ===== verification/Expr.v ===== *)
(** The debugger's expressions: [nemu/src/monitor/debug/expr.c], from the characters
    through the tokens to the value, and [check_WP] of [watchpoint.c], which evaluates
    them. *)
From S2P Require Import Prelude Dram Cache Tlb Cpu I8259 Mmio Vga WpPool Machine Memory.
From stdpp Require Import strings.
#[local] Open Scope Z_scope.

(** * Token types *)
Definition NOTYPE : Z := 256.
Definition EQ : Z := 257.
Definition NUM : Z := 258.
Definition HEXNUM : Z := 259.
Definition NEQ : Z := 260.
Definition REGISTER : Z := 261.
Definition AND : Z := 262.
Definition OR : Z := 263.
Definition MINUS : Z := 264.
Definition STAR : Z := 265.
Definition MARK : Z := 266.

(** A C string's bytes. *)
Definition bytes_of (s : string) : list Z :=
  map (λ a, Z.of_N (Ascii.N_of_ascii a)) (String.list_ascii_of_string s).

(** A character constant. *)
Definition chr (s : string) : Z := nth 0 (bytes_of s) 0.

(** * The rules

    Each regular expression of the table is a sequence of single characters of a class,
    the last one perhaps repeated ([+]); [regexec] finds the longest match, and the
    code takes it when it starts at the current position. *)
Definition atom : Type := (Z → bool) * bool.

Definition between (a b : string) (c : Z) : bool := (chr a <=? c) && (c <=? chr b).
Definition is_digit (c : Z) : bool := between "0" "9" c.
Definition is_alpha (c : Z) : bool := between "a" "z" c || between "A" "Z" c.
Definition is_xdigit (c : Z) : bool := is_digit c || between "a" "f" c || between "A" "F" c.
Definition is_word (c : Z) : bool := is_alpha c || (c =? chr "_") || is_digit c.

Definition lit (s : string) : list atom := map (λ c, ((λ x, x =? c), false)) (bytes_of s).

Definition rules : list (list atom * Z) := [
  (lit "(", chr "(");
  (lit ")", chr ")");
  (lit "0x" ++ [(is_xdigit, true)], HEXNUM);
  ([(is_digit, true)], NUM);
  (lit "$" ++ [(is_alpha, true)], REGISTER);
  ([(is_word, true)], MARK);
  ([((λ x, x =? chr " "), true)], NOTYPE);
  (lit "+", chr "+");
  (lit "==", EQ);
  (lit "!=", NEQ);
  (lit "-", chr "-");
  (lit "/", chr "/");
  (lit "*", chr "*");
  (lit "!", chr "!");
  (lit "&&", AND);
  (lit "||", OR) ].

Fixpoint span (p : Z → bool) (l : list Z) : nat :=
  match l with
  | c :: l => if p c then S (span p l) else O
  | [] => O
  end.

(** The length of the longest match at the start of [l]. *)
Fixpoint regexec (r : list atom) (l : list Z) : option nat :=
  match r with
  | [] => Some O
  | (p, false) :: r =>
    match l with c :: l => if p c then S <$> regexec r l else None | [] => None end
  | (p, true) :: r =>
    match span p l with
    | O => None
    | n => (λ m, (n + m)%nat) <$> regexec r (drop n l)
    end
  end.

(** The first rule that matches: its type and the length of the match. *)
Fixpoint match_rules (rs : list (list atom * Z)) (l : list Z) : option (Z * nat) :=
  match rs with
  | [] => None
  | (r, t) :: rs => match regexec r l with Some n => Some (t, n) | None => match_rules rs l end
  end.

(** [strncpy(dst, src, n)] for [n] characters before the terminator: no terminator is
    written. *)
Fixpoint strncpy (n : nat) (i : Z) (src : list Z) (dst : arr Z) : arr Z :=
  match n, src with
  | S n, c :: src => strncpy n (i + 1) src (aset i c dst)
  | _, _ => dst
  end.

(** The C string in [str\[32\]]; [None] when it runs past the array. *)
Definition tk_string (t : Token) : option (list Z) :=
  let l := map (λ i, aget (tk_str t) (Z.of_nat i)) (seq 0 32) in
  let n := span (λ c, negb (c =? 0)) l in
  if (n =? 32)%nat then None else Some (take n l).

(** * Numbers: [sscanf(s, "%x")], [sscanf(s, "%u")] *)
Definition hex_val (c : Z) : Z :=
  if is_digit c then c - chr "0" else if between "a" "f" c then c - chr "a" + 10 else c - chr "A" + 10.

Fixpoint scan_digits (base : Z) (p : Z → bool) (v : Z) (l : list Z) : Z :=
  match l with
  | c :: l => if p c then scan_digits base p (v * base + hex_val c) l else v
  | [] => v
  end.

Definition scan_x (l : list Z) : Z :=
  match l with
  | c :: d :: l' =>
    if (c =? chr "0") && (d =? chr "x") then scan_digits 16 is_xdigit 0 l'
    else scan_digits 16 is_xdigit 0 l
  | _ => scan_digits 16 is_xdigit 0 l
  end.
Definition scan_u (l : list Z) : Z := scan_digits 10 is_digit 0 l.

(** [strcmp(a, b) == 0] *)
Definition streq (a b : list Z) : bool := if decide (a = b) then true else false.

(** * make_token *)
Definition put_token (t : Z) (src : list Z) (n : nat) : M Debug unit := λ d,
  let old := aget (tokens d) (nr_token d) in
  Ok tt (set_nr_token (nr_token d + 1)
          (set_tokens (aset (nr_token d) (mkToken t (strncpy n 0 src (tk_str old))) (tokens d)) d)).

Fixpoint make_token_from (fuel : nat) (e : list Z) : M Debug bool :=
  match fuel, e with
  | _, [] => mret true
  | O, _ => fail EFuel
  | S fuel, _ =>
    match match_rules rules e with
    | None => mret false
    | Some (t, n) =>
      _ ← (if t =? NOTYPE then mret tt
           else if t =? REGISTER then put_token t (tl e) (n - 1)
           else put_token t e n);
      make_token_from fuel (drop n e)
    end
  end.

Definition make_token (e : list Z) : M Debug bool :=
  _ ← modify (set_nr_token 0);
  make_token_from (length e) e.

(** * Structure *)
Definition tok (d : Debug) (i : Z) : Z := tk_type (aget (tokens d) i).

Fixpoint parens_between (n : nat) (i count : Z) (ty : Z → Z) : bool :=
  match n with
  | O => count =? 0
  | S n =>
    let count := if ty i =? chr "(" then count + 1 else count in
    let count := if ty i =? chr ")" then count - 1 else count in
    if count <? 0 then false else parens_between n (i + 1) count ty
  end.

Definition check_parentheses (ty : Z → Z) (p q : Z) : bool :=
  if (ty p =? chr "(") && (ty q =? chr ")")
  then parens_between (Z.to_nat (q - (p + 1))) (p + 1) 0 ty
  else false.

(** From [i] down, [n] tokens: parenthesis depth [lvl] (the code's [is]), best so far. *)
Fixpoint dominant_from (n : nat) (i lvl result priority : Z) (ty : Z → Z) : Z :=
  match n with
  | O => result
  | S n =>
    let t := ty i in
    let lvl := if t =? chr ")" then lvl + 1 else lvl in
    let lvl := if t =? chr "(" then lvl - 1 else lvl in
    if (t =? NUM) || (t =? HEXNUM) || (t =? REGISTER) || (t =? MARK) || negb (lvl =? 0)
    then dominant_from n (i - 1) lvl result priority ty
    else if (t =? AND) || (t =? OR) then i
    else
      let '(result, priority) :=
        if ((t =? EQ) || (t =? NEQ)) && (1 <? priority) then (i, 1) else (result, priority) in
      let '(result, priority) :=
        if ((t =? chr "+") || (t =? chr "-")) && (2 <? priority) then (i, 2) else (result, priority) in
      let '(result, priority) :=
        if ((t =? chr "*") || (t =? chr "/")) && (3 <? priority) then (i, 3) else (result, priority) in
      let '(result, priority) :=
        if ((t =? STAR) || (t =? MINUS) || (t =? chr "!")) && (4 <? priority)
        then (i, 4) else (result, priority) in
      dominant_from n (i - 1) lvl result priority ty
  end.

Definition dominant_operator (ty : Z → Z) (p q : Z) : Z :=
  dominant_from (Z.to_nat (q - p + 1)) q 0 p 100 ty.

(** * Evaluation *)
Definition STT_OBJECT : Z := 1.
Definition STT_FUNC : Z := 2.

(** The value of the object symbol named [check]; a name of 32 characters or more
    overruns the buffer it is copied to. *)
Fixpoint find_object (l : list Sym) (check : list Z) : option (option Z) :=
  match l with
  | [] => Some None
  | s :: l =>
    if Z.land (st_info s) 0xf =? STT_OBJECT then
      if 32 <=? Z.of_nat (length (st_name s)) then None
      else if streq (st_name s) check then Some (Some (st_value s)) else find_object l check
    else find_object l check
  end.

Fixpoint reg_idx (n : nat) (l : list string) (s : list Z) (i : Z) : option Z :=
  match n, l with
  | S n, x :: l => if streq s (bytes_of x) then Some i else reg_idx n l s (i + 1)
  | _, _ => None
  end.

Section Eval.
Context `{HRand : !LibcRand, HJunk : !StackJunk}.

(** A register by name; of the byte registers, AL to AH only. *)
Definition eval_register (check : list Z) : NEMU Z :=
  match reg_idx 8 regsl check 0 with
  | Some k => reg_l k
  | None =>
    if streq check (bytes_of "eip") then get_cpu eip else
    match reg_idx 8 regsw check 0 with
    | Some k => reg_w k
    | None =>
      match reg_idx 5 regsb check 0 with
      | Some k => reg_b k
      | None => fail EAssert
      end
    end
  end.

(** A number that does not fit is undefined. *)
Definition scanned (v : Z) : NEMU Z := if 2 ^ 32 <=? v then fail EUndefined else mret v.

Definition eval_one (p : Z) : NEMU Z :=
  s ← getS;
  let t := aget (tokens (debug s)) p in
  match tk_string t with
  | None => fail EUndefined
  | Some check =>
    m ← (if tk_type t =? MARK then
           match find_object (symtab (debug s)) check with
           | None => fail EUndefined
           | Some r => mret r
           end
         else mret None);
    match m with
    | Some v => mret v
    | None =>
      if tk_type t =? HEXNUM then scanned (scan_x check)
      else if tk_type t =? NUM then scanned (scan_u check)
      else if tk_type t =? REGISTER then eval_register check
      else fail EAssert
    end
  end.

Definition eval_unop (t v : Z) : NEMU Z :=
  if t =? MINUS then mret (u32 (- v))
  else if t =? STAR then swaddr_read v 4 3
  else if t =? chr "!" then mret (if v =? 0 then 1 else 0)
  else fail EAssert.

Definition eval_binop (t v1 v2 : Z) : NEMU Z :=
  if t =? chr "+" then mret (u32 (v1 + v2))
  else if t =? chr "-" then mret (u32 (v1 - v2))
  else if t =? chr "*" then mret (u32 (v1 * v2))
  else if t =? chr "/" then if v2 =? 0 then fail EUndefined else mret (v1 / v2)
  else if t =? EQ then mret (b2z (v1 =? v2))
  else if t =? NEQ then mret (b2z (negb (v1 =? v2)))
  else if t =? AND then mret (b2z (nz v1 && nz v2))
  else if t =? OR then mret (b2z (nz v1 || nz v2))
  else fail EAssert.

Fixpoint eval_n (fuel : nat) (p q : Z) : NEMU Z :=
  match fuel with
  | O => fail EFuel
  | S fuel =>
    s ← getS;
    let ty := tok (debug s) in
    if q <? p then fail EAssert
    else if p =? q then eval_one p
    else if check_parentheses ty p q then eval_n fuel (p + 1) (q - 1)
    else
      let op := dominant_operator ty p q in
      if p =? op then
        v ← eval_n fuel (p + 1) q;
        eval_unop (ty op) v
      else
        val1 ← eval_n fuel p (op - 1);
        val2 ← eval_n fuel (op + 1) q;
        eval_binop (ty op) val1 val2
  end.

(** Each call is on strictly fewer tokens, and there are at most 32. *)
Definition eval (p q : Z) : NEMU Z := eval_n 34 p q.

(** [for (; i < nr_token; i++)]: binary and unary [*] and [-] told apart. *)
Definition mark_unary (d : Debug) : Debug :=
  foldl (λ d k,
    let i := Z.of_nat k in
    let check := if 0 <? i then tok d (i - 1) else 0 in
    let un := (i =? 0) || (negb (check =? NUM) && negb (check =? HEXNUM) &&
                           negb (check =? REGISTER) && negb (check =? chr ")")) in
    let set t d := set_tokens (aset i (mkToken t (tk_str (aget (tokens d) i))) (tokens d)) d in
    let d := if (tok d i =? chr "*") && un then set STAR d else d in
    if (tok d i =? chr "-") && un then set MINUS d else d) d (seq 0 (Z.to_nat (nr_token d))).

(** The value, or [None] for [*success = false]. *)
Definition expr (e : list Z) : NEMU (option Z) :=
  if 32 <? Z.of_nat (length e) then fail EAssert else
  ok ← in_debug (make_token e);
  if negb ok then mret None else
  _ ← in_debug (modify mark_unary);
  s ← getS;
  v ← eval 0 (nr_token (debug s) - 1);
  mret (Some v).

(** * check_WP *)

(** From node [h], at most [fuel] nodes. *)
Fixpoint check_WP_from (fuel : nat) (h : option wptr) (key : bool) : NEMU bool :=
  match h with
  | None => mret key
  | Some p =>
    match fuel with
    | O => fail EFuel
    | S fuel =>
      w ← in_wps (deref p);
      v ← expr (wp_str w);
      match v with
      | None => fail EAssert
      | Some NewValue =>
        _ ← (if negb (NewValue =? wp_val w) then in_wps (update p (set_wp_val NewValue)) else mret tt);
        w' ← in_wps (deref p);
        check_WP_from fuel (next w') (key && (NewValue =? wp_val w))
      end
    end
  end.

Definition check_WP : NEMU bool :=
  s ← getS;
  check_WP_from walk_fuel (WpPool.head (wps (debug s))) true.
End Eval.
