(* ===== verification/ExprSpec.v ===== *)
(** What the debugger's expressions mean: expressions as trees, printed with the
    parentheses their precedences need, are read back and evaluated to their value; the
    recursion of [eval] ends. *)
From S2P Require Import Prelude Dram Cache L2Facts CacheFacts CacheSpec WorkingSet.
From S2P Require Import Tlb Cpu I8259 Mmio Vga WpPool Machine Memory MemFacts DemoMachine PageSpec.
From S2P Require Import SegMem Expr.
From stdpp Require Import strings.
#[local] Open Scope Z_scope.

#[local] Abbreviation len l := (Z.of_nat (length l)).

(** * Trees *)
Inductive unop := Neg | Deref | Not.
Inductive binop := Add | Sub | Mul | Div | Eq | Ne | And | Or.

(** Numbers are their digits, registers their index in [regsl]. *)
Inductive exp :=
  | Num (ds : list Z)
  | Hex (ds : list Z)
  | Reg (i : Z)
  | Un (o : unop) (a : exp)
  | Bin (o : binop) (a b : exp).

Fixpoint exp_ok (e : exp) : Prop :=
  match e with
  | Num ds => ds ≠ [] ∧ Forall (λ c, is_digit c = true) ds ∧ scan_u ds < 2 ^ 32
  | Hex ds => ds ≠ [] ∧ Forall (λ c, is_xdigit c = true) ds ∧ scan_digits 16 is_xdigit 0 ds < 2 ^ 32
  | Reg i => 0 <= i < 8
  | Un _ a => exp_ok a
  | Bin _ a b => exp_ok a ∧ exp_ok b
  end.

(** [&&] and [||] bind alike, as the code has it. *)
Definition bprec (o : binop) : Z :=
  match o with And | Or => 0 | Eq | Ne => 1 | Add | Sub => 2 | Mul | Div => 3 end.
Definition prec (e : exp) : Z := match e with Bin o _ _ => bprec o | Un _ _ => 4 | _ => 5 end.

(** A token: its type once [*] and [-] are told apart, and the text kept for it. *)
Abbreviation tokn := (prod Z (list Z)).
Definition utok (o : unop) : tokn :=
  match o with Neg => (MINUS, bytes_of "-") | Deref => (STAR, bytes_of "*") | Not => (chr "!", bytes_of "!") end.
Definition btok (o : binop) : tokn :=
  match o with
  | Add => (chr "+", bytes_of "+") | Sub => (chr "-", bytes_of "-")
  | Mul => (chr "*", bytes_of "*") | Div => (chr "/", bytes_of "/")
  | Eq => (EQ, bytes_of "==") | Ne => (NEQ, bytes_of "!=")
  | And => (AND, bytes_of "&&") | Or => (OR, bytes_of "||")
  end.
Definition lpar : tokn := (chr "(", bytes_of "(").
Definition rpar : tokn := (chr ")", bytes_of ")").
Definition reg_name (i : Z) : list Z := bytes_of (nth (Z.to_nat i) regsl ""%string).

Definition parens (b : bool) (l : list tokn) : list tokn := if b then lpar :: l ++ [rpar] else l.

(** The tokens of [e] where only operators of precedence [k] or more may stand bare. *)
Fixpoint toks (k : Z) (e : exp) : list tokn :=
  parens (prec e <? k)
    match e with
    | Num ds => [(NUM, ds)]
    | Hex ds => [(HEXNUM, bytes_of "0x" ++ ds)]
    | Reg i => [(REGISTER, reg_name i)]
    | Un o a => utok o :: toks 5 a
    | Bin o a b => toks (bprec o) a ++ btok o :: toks (bprec o + 1) b
    end.

Definition body (e : exp) : list tokn :=
  match e with
  | Num ds => [(NUM, ds)]
  | Hex ds => [(HEXNUM, bytes_of "0x" ++ ds)]
  | Reg i => [(REGISTER, reg_name i)]
  | Un o a => utok o :: toks 5 a
  | Bin o a b => toks (bprec o) a ++ btok o :: toks (bprec o + 1) b
  end.

Lemma toks_body k e : toks k e = parens (prec e <? k) (body e).
Proof. now destruct e. Qed.

(** * Values *)
Definition bin_val (o : binop) (a b : Z) : option Z :=
  match o with
  | Add => Some ((a + b) mod 2 ^ 32)
  | Sub => Some ((a - b) mod 2 ^ 32)
  | Mul => Some ((a * b) mod 2 ^ 32)
  | Div => if b =? 0 then None else Some (a / b)
  | Eq => Some (b2z (a =? b))
  | Ne => Some (b2z (negb (a =? b)))
  | And => Some (b2z (negb (a =? 0) && negb (b =? 0)))
  | Or => Some (b2z (negb (a =? 0) || negb (b =? 0)))
  end.

Section Value.
Context `{HRand : !LibcRand, HJunk : !StackJunk}.

(** Both operands of every operator are evaluated, left to right; a read goes through the
    data segment. *)
Fixpoint value (e : exp) : NEMU Z :=
  match e with
  | Num ds => mret (scan_u ds)
  | Hex ds => mret (scan_digits 16 is_xdigit 0 ds)
  | Reg i => get_cpu (gpr_l i)
  | Un Neg a => v ← value a; mret ((- v) mod 2 ^ 32)
  | Un Deref a => v ← value a; swaddr_read v 4 3
  | Un Not a => v ← value a; mret (b2z (v =? 0))
  | Bin o a b =>
    v1 ← value a;
    v2 ← value b;
    match bin_val o v1 v2 with Some v => mret v | None => fail EUndefined end
  end.

(** * Tokens in the array *)
Definition laid (ty : Z → Z) (p : Z) (l : list tokn) : Prop :=
  ∀ i x, l !! i = Some x → ty (p + Z.of_nat i) = fst x.

Lemma laid_app ty p l1 l2 : laid ty p (l1 ++ l2) ↔ laid ty p l1 ∧ laid ty (p + Z.of_nat (length l1)) l2.
Proof using.
  split.
  - intros H. split; intros i x Hi.
    + apply H. rewrite lookup_app_l; [done|]. now apply lookup_lt_Some in Hi.
    + rewrite <- Z.add_assoc, <- Nat2Z.inj_add. apply H. rewrite lookup_app_r by lia.
      now replace (length l1 + i - length l1)%nat with i by lia.
  - intros [H1 H2] i x Hi. apply lookup_app_Some in Hi as [Hi|[Hl Hi]]; [now apply H1|].
    specialize (H2 _ _ Hi). now replace (p + Z.of_nat i) with (p + Z.of_nat (length l1) + Z.of_nat (i - length l1)) by lia.
Qed.

Lemma laid_cons ty p x l : laid ty p (x :: l) ↔ ty p = fst x ∧ laid ty (p + 1) l.
Proof using.
  rewrite (laid_app ty p [x] l). cbn [length]. split; intros [H1 H2]; (split; [|exact H2]).
  - specialize (H1 0%nat x eq_refl). now rewrite Z.add_0_r in H1.
  - intros [|i] y Hi; [|done]. injection Hi as <-. now rewrite Z.add_0_r.
Qed.

(** * The scan for the dominant operator *)
(** Inside parentheses a list is passed over. *)
Definition skipped (l : list tokn) : Prop := ∀ ty p n lvl r pri, laid ty p l → 1 <= lvl →
  dominant_from (length l + n) (p + len l - 1) lvl r pri ty = dominant_from n (p - 1) lvl r pri ty.

(** Outside them, with operators of precedence at least [k] only, what is found so far
    can only be replaced by what binds less, and not at all from [k] down. *)
Definition passed (k : Z) (l : list tokn) : Prop := ∀ ty p n r pri, laid ty p l → ∃ r' pri',
  dominant_from (length l + n) (p + len l - 1) 0 r pri ty = dominant_from n (p - 1) 0 r' pri' ty ∧
  Z.min pri k <= pri' <= pri ∧ (pri <= k → r' = r ∧ pri' = pri).

(** And the test of the parentheses. *)
Definition balanced (l : list tokn) : Prop := ∀ ty p n count, laid ty p l → 0 <= count →
  parens_between (length l + n) p count ty = parens_between n (p + len l) count ty.

Definition is_paren (t : Z) : bool := (t =? chr "(") || (t =? chr ")").

Lemma skipped_app l1 l2 : skipped l1 → skipped l2 → skipped (l1 ++ l2).
Proof using.
  intros H1 H2 ty p n lvl r pri [Hl1 Hl2]%laid_app Hlvl. rewrite length_app.
  replace (length l1 + length l2 + n)%nat with (length l2 + (length l1 + n))%nat by lia.
  replace (p + _ - 1) with (p + len l1 + len l2 - 1) by lia. rewrite H2 by done. now apply H1.
Qed.

Lemma balanced_app l1 l2 : balanced l1 → balanced l2 → balanced (l1 ++ l2).
Proof using.
  intros H1 H2 ty p n c [Hl1 Hl2]%laid_app Hc. rewrite length_app, <- Nat.add_assoc, H1, H2 by done. f_equal. lia.
Qed.

Lemma passed_app k l1 l2 : passed k l1 → passed k l2 → passed k (l1 ++ l2).
Proof using.
  intros H1 H2 ty p n r pri [Hl1 Hl2]%laid_app. rewrite length_app.
  replace (length l1 + length l2 + n)%nat with (length l2 + (length l1 + n))%nat by lia.
  replace (p + _ - 1) with (p + len l1 + len l2 - 1) by lia.
  destruct (H2 ty _ (length l1 + n)%nat r pri Hl2) as (r2 & pri2 & -> & Hb2 & He2).
  destruct (H1 ty p n r2 pri2 Hl1) as (r1 & pri1 & -> & Hb1 & He1).
  exists r1, pri1. split; [done|]. split; [lia|]. intros Hk. destruct (He2 Hk) as [-> ->]. now apply He1.
Qed.

Lemma skipped_tok x : is_paren (fst x) = false → skipped [x].
Proof using.
  intros Hx ty p n lvl r pri [Hp _]%laid_cons Hlvl. cbn [length Nat.add dominant_from].
  replace (p + Z.of_nat 1 - 1) with p by lia. rewrite Hp. unfold is_paren in Hx. apply orb_false_iff in Hx as [-> ->].
  replace (negb (lvl =? 0)) with true by lia. now rewrite !orb_true_r.
Qed.

Lemma balanced_tok x : is_paren (fst x) = false → balanced [x].
Proof using.
  intros Hx ty p n c [Hp _]%laid_cons Hc. cbn [length Nat.add parens_between]. rewrite Hp.
  unfold is_paren in Hx. apply orb_false_iff in Hx as [-> ->]. cbv zeta. now replace (c <? 0) with false by lia.
Qed.

Lemma skipped_parens l : skipped l → skipped (lpar :: l ++ [rpar]).
Proof using.
  intros H ty p n lvl r pri [Hp [Hl [Hq _]%laid_cons]%laid_app]%laid_cons Hlvl.
  cbn [length]. rewrite length_app. cbn [length]. set (m := length l) in *.
  replace (S (m + 1) + n)%nat with (S (m + S n)) by lia. cbn [dominant_from].
  replace (p + _ - 1) with (p + 1 + Z.of_nat m) by lia. rewrite Hq. cbn [fst rpar].
  change (chr ")" =? chr ")") with true. change (chr ")" =? chr "(") with false. cbv zeta iota.
  replace (negb (lvl + 1 =? 0)) with true by lia. rewrite !orb_true_r.
  rewrite (H ty (p + 1) (S n)) by (done || lia). cbn [dominant_from]. replace (p + 1 - 1) with p by lia. rewrite Hp.
  cbn [fst lpar]. change (chr "(" =? chr ")") with false. change (chr "(" =? chr "(") with true. cbv zeta iota.
  replace (lvl + 1 - 1) with lvl by lia. replace (negb (lvl =? 0)) with true by lia. now rewrite !orb_true_r.
Qed.

Lemma balanced_parens l : balanced l → balanced (lpar :: l ++ [rpar]).
Proof using.
  intros H ty p n c [Hp [Hl [Hq _]%laid_cons]%laid_app]%laid_cons Hc.
  cbn [length]. rewrite length_app. cbn [length]. set (m := length l) in *.
  replace (S (m + 1) + n)%nat with (S (m + S n)) by lia. cbn [parens_between]. rewrite Hp. cbn [fst lpar].
  change (chr "(" =? chr ")") with false. change (chr "(" =? chr "(") with true. cbv zeta iota.
  replace (c + 1 <? 0) with false by lia. rewrite (H ty (p + 1) (S n)) by (done || lia). cbn [parens_between].
  fold m. rewrite Hq. cbn [fst rpar]. change (chr ")" =? chr ")") with true. change (chr ")" =? chr "(") with false. cbv zeta iota.
  replace (c + 1 - 1) with c by lia. replace (c <? 0) with false by lia. f_equal. lia.
Qed.

Lemma passed_parens k l : skipped l → passed k (lpar :: l ++ [rpar]).
Proof using.
  intros H ty p n r pri [Hp [Hl [Hq _]%laid_cons]%laid_app]%laid_cons. exists r, pri. split; [|split; [lia|done]].
  cbn [length]. rewrite length_app. cbn [length]. set (m := length l) in *.
  replace (S (m + 1) + n)%nat with (S (m + S n)) by lia. cbn [dominant_from].
  replace (p + _ - 1) with (p + 1 + Z.of_nat m) by lia. rewrite Hq. cbn [fst rpar].
  change (chr ")" =? chr ")") with true. change (chr ")" =? chr "(") with false. cbv zeta iota.
  change (negb (0 + 1 =? 0)) with true. rewrite !orb_true_r.
  rewrite (H ty (p + 1) (S n)) by (done || lia). cbn [dominant_from]. replace (p + 1 - 1) with p by lia. now rewrite Hp.
Qed.

(** A number or a register; an operator. *)
Definition is_atom (t : Z) : bool := (t =? NUM) || (t =? HEXNUM) || (t =? REGISTER) || (t =? MARK).

Lemma passed_atom k x : is_atom (fst x) = true → is_paren (fst x) = false → passed k [x].
Proof using.
  intros Hx Hq ty p n r pri [Hp _]%laid_cons. exists r, pri. split; [|split; [lia|done]].
  cbn [length Nat.add dominant_from]. replace (p + Z.of_nat 1 - 1) with p by lia. rewrite Hp.
  unfold is_paren in Hq. apply orb_false_iff in Hq as [-> ->]. unfold is_atom in Hx. cbv zeta. now rewrite Hx.
Qed.

(** Comparisons of given token types, computed. *)
Ltac ty_eval := cbn [fst utok btok bprec]; repeat match goal with |- context [Z.eqb ?a ?b] =>
  let v := eval vm_compute in (Z.eqb a b) in lazymatch v with true => idtac | false => idtac end;
  change (Z.eqb a b) with v end; cbv beta zeta iota delta [negb orb andb].

(** Meeting an operator bare, from the right. *)
Lemma scan_unary o ty p n r pri : ty p = fst (utok o) →
  dominant_from (S n) p 0 r pri ty = dominant_from n (p - 1) 0 (if 4 <? pri then p else r) (if 4 <? pri then 4 else pri) ty.
Proof using. intros Hp. cbn [dominant_from]. rewrite Hp. destruct o; ty_eval; now destruct (4 <? pri). Qed.

Lemma scan_binary o ty p n r pri : ty p = fst (btok o) → 1 <= bprec o →
  dominant_from (S n) p 0 r pri ty =
  dominant_from n (p - 1) 0 (if bprec o <? pri then p else r) (if bprec o <? pri then bprec o else pri) ty.
Proof using.
  intros Hp Ho. cbn [dominant_from]. rewrite Hp.
  destruct o; try (cbn in Ho; lia); ty_eval; match goal with |- context [?a <? pri] => now destruct (a <? pri) end.
Qed.

Lemma scan_logic o ty p n r pri : ty p = fst (btok o) → bprec o = 0 → dominant_from (S n) p 0 r pri ty = p.
Proof using. intros Hp Ho. cbn [dominant_from]. rewrite Hp. destruct o; try discriminate Ho; now ty_eval. Qed.

Lemma passed_binary k o : 1 <= k <= bprec o → passed k [btok o].
Proof using.
  intros Hk ty p n r pri [Hp _]%laid_cons. cbn [length Nat.add]. replace (p + Z.of_nat 1 - 1) with p by lia.
  rewrite (scan_binary o) by (done || lia). do 2 eexists. split; [reflexivity|].
  split; [case_match; lia|]. intros Hpri. now replace (bprec o <? pri) with false by lia.
Qed.

Lemma passed_unary k o : 1 <= k <= 4 → passed k [utok o].
Proof using.
  intros Hk ty p n r pri [Hp _]%laid_cons. cbn [length Nat.add]. replace (p + Z.of_nat 1 - 1) with p by lia.
  rewrite (scan_unary o) by done. do 2 eexists. split; [reflexivity|].
  split; [case_match; lia|]. intros Hpri. now replace (4 <? pri) with false by lia.
Qed.

Lemma passed_mono k k' l : k' <= k → passed k l → passed k' l.
Proof using.
  intros Hk H ty p n r pri Hl. destruct (H ty p n r pri Hl) as (r' & pri' & E & Hb & He).
  exists r', pri'. split; [exact E|]. split; [lia|]. intros Hp. apply He. lia.
Qed.

(** The printed expressions have all three. *)
Lemma cons_app_tok {A} (x : A) l : x :: l = [x] ++ l.
Proof using. done. Qed.

Lemma utok_paren o : is_paren (fst (utok o)) = false.
Proof using. now destruct o. Qed.
Lemma btok_paren o : is_paren (fst (btok o)) = false.
Proof using. now destruct o. Qed.

Lemma toks_skipped e k : skipped (toks k e).
Proof using.
  revert k; induction e as [ds|ds|i|o a IH|o a IHa b IHb]; intros k; rewrite toks_body; unfold parens, body;
    (case_match; [apply skipped_parens|]).
  all: try (now apply skipped_tok).
  all: rewrite (cons_app_tok (_ o)); repeat apply skipped_app; auto using skipped_tok, utok_paren, btok_paren.
Qed.

Lemma toks_balanced e k : balanced (toks k e).
Proof using.
  revert k; induction e as [ds|ds|i|o a IH|o a IHa b IHb]; intros k; rewrite toks_body; unfold parens, body;
    (case_match; [apply balanced_parens|]).
  all: try (now apply balanced_tok).
  all: rewrite (cons_app_tok (_ o)); repeat apply balanced_app; auto using balanced_tok, utok_paren, btok_paren.
Qed.

Lemma prec_nonneg e : 0 <= prec e.
Proof using. destruct e as [| | | |[]]; cbn; lia. Qed.

Lemma toks_0 e : toks 0 e = body e.
Proof using. rewrite toks_body. pose proof (prec_nonneg e). now replace (prec e <? 0) with false by lia. Qed.

Lemma toks_passed e k : 1 <= k → passed k (toks k e).
Proof using.
  revert k; induction e as [ds|ds|i|o a IH|o a IHa b IHb]; intros k Hk; rewrite toks_body; unfold parens;
    match goal with |- context [prec ?x <? k] => destruct (Z.ltb_spec (prec x) k) as [Hp|Hp];
      [apply passed_parens; rewrite <- toks_0; apply toks_skipped|cbn [prec] in Hp] end.
  1-3: now apply passed_atom.
  - cbn [body]. rewrite (cons_app_tok (_ o)). apply passed_app; [apply passed_unary; lia|].
    apply (passed_mono 5); [lia|]. apply IH. lia.
  - cbn [body]. rewrite (cons_app_tok (_ o)). apply passed_app; [|apply passed_app].
    + apply (passed_mono (bprec o)); [lia|]. apply IHa. lia.
    + apply passed_binary. lia.
    + apply (passed_mono (bprec o + 1)); [lia|]. apply IHb. lia.
Qed.

(** * What [eval] finds in a printed expression *)
Lemma toks_length e k : (1 <= length (toks k e))%nat.
Proof using.
  rewrite toks_body. unfold parens. case_match; cbn [length]; [lia|]. destruct e; cbn; rewrite ?length_app; cbn; lia.
Qed.

(** The operator of the expression is found. *)
Lemma dominant_binary o a b ty p : laid ty p (body (Bin o a b)) →
  dominant_operator ty p (p + len (body (Bin o a b)) - 1) = p + len (toks (bprec o) a).
Proof using.
  intros [Ha [Ho Hb]%laid_cons]%laid_app. unfold dominant_operator. cbn [body]. rewrite length_app. cbn [length].
  set (la := length (toks (bprec o) a)) in *. set (lb := length (toks (bprec o + 1) b)) in *.
  replace (Z.to_nat _) with (lb + S la)%nat by lia.
  replace (p + _ - 1) with (p + Z.of_nat la + 1 + Z.of_nat lb - 1) by lia.
  destruct (toks_passed b (bprec o + 1) ltac:(destruct o; cbn; lia) ty _ (S la) p 100 Hb) as (r & pri & E & Hpri & _).
  unfold lb. rewrite E. replace (p + Z.of_nat la + 1 - 1) with (p + Z.of_nat la) by lia.
  assert (bprec o < pri) by (destruct o; cbn in *; lia).
  destruct (Z.eq_dec (bprec o) 0) as [H0|H0]; [now apply (scan_logic o)|].
  rewrite (scan_binary o) by (done || (destruct o; cbn in *; lia)).
  replace (bprec o <? pri) with true by lia.
  destruct (toks_passed a (bprec o) ltac:(destruct o; cbn in *; lia) ty p 0%nat (p + Z.of_nat la) (bprec o) Ha) as (r' & pri' & E' & _ & He).
  fold la in E'. rewrite Nat.add_0_r in E'. rewrite E'. cbn [dominant_from]. now apply He.
Qed.

Lemma dominant_unary o a ty p : laid ty p (body (Un o a)) →
  dominant_operator ty p (p + len (body (Un o a)) - 1) = p.
Proof using.
  intros [Ho Ha]%laid_cons. unfold dominant_operator. cbn [body length]. set (la := length (toks 5 a)) in *.
  replace (Z.to_nat _) with (la + 1)%nat by lia.
  replace (p + _ - 1) with (p + 1 + Z.of_nat la - 1) by lia.
  destruct (toks_passed a 5 ltac:(lia) ty _ 1%nat p 100 Ha) as (r & pri & E & Hpri & _). fold la in E. rewrite E.
  replace (p + 1 - 1) with p by lia. rewrite (scan_unary o) by done. now replace (4 <? pri) with true by lia.
Qed.

(** The parentheses around a whole expression are recognised. *)
Lemma check_parens l ty p : balanced l → laid ty p (lpar :: l ++ [rpar]) →
  check_parentheses ty p (p + len (lpar :: l ++ [rpar]) - 1) = true.
Proof using.
  intros H [Hp [Hl [Hq _]%laid_cons]%laid_app]%laid_cons. unfold check_parentheses. cbn [length].
  rewrite length_app. cbn [length].
  replace (p + _ - 1) with (p + 1 + len l) by lia. rewrite Hp, Hq. cbn [andb fst lpar rpar].
  change (chr "(" =? chr "(") with true. change (chr ")" =? chr ")") with true. cbn [andb].
  replace (Z.to_nat _) with (length l + 0)%nat by lia. now rewrite (H ty (p + 1)).
Qed.

(** How a printed expression begins. *)
Lemma toks_opens e k :
  (∃ x l, toks k e = x :: l ∧ (fst x =? chr "(") = false) ∨
  (∃ m rest, toks k e = lpar :: m ++ rpar :: rest ∧ balanced m).
Proof using.
  revert k; induction e as [ds|ds|i|o a IH|o a IHa b IHb]; intros k; rewrite toks_body; unfold parens;
    (case_match; [right; eexists _, []; split; [reflexivity|]; rewrite <- toks_0; apply toks_balanced|]).
  1-3: left; eexists _, _; split; reflexivity.
  - left; eexists _, _; split; [reflexivity|]. now destruct o.
  - cbn [body]. destruct (IHa (bprec o)) as [(x & l & E & Hx)|(m & rest & E & Hm)]; rewrite E.
    + left. eexists _, _. split; [reflexivity|done].
    + right. exists m. eexists. split; [|done]. cbn [app]. now rewrite <- app_assoc.
Qed.

Lemma check_bare l ty p m rest : balanced m → rest ≠ [] → l = lpar :: m ++ rpar :: rest → laid ty p l →
  check_parentheses ty p (p + len l - 1) = false.
Proof using.
  intros Hm Hr -> [Hp [Hl [Hq _]%laid_cons]%laid_app]%laid_cons. unfold check_parentheses. case_match; [|done].
  cbn [length]. rewrite length_app. cbn [length]. destruct rest as [|y rest]; [done|]. cbn [length].
  replace (Z.to_nat _) with (length m + S (length rest))%nat by lia. rewrite (Hm ty (p + 1)) by done.
  cbn [parens_between]. now rewrite Hq.
Qed.

Lemma check_binary o a b ty p : laid ty p (body (Bin o a b)) →
  check_parentheses ty p (p + len (body (Bin o a b)) - 1) = false.
Proof using.
  intros Hl. cbn [body] in *. destruct (toks_opens a (bprec o)) as [(x & l & E & Hx)|(m & rest & E & Hm)].
  - rewrite E in Hl. apply laid_cons in Hl as [Hp _]. unfold check_parentheses. now rewrite Hp, Hx.
  - eapply (check_bare _ _ _ m); [done| |rewrite E; cbn [app]; now rewrite <- app_assoc|exact Hl].
    intros E'. apply (f_equal length) in E'. rewrite length_app in E'. cbn in E'. lia.
Qed.

Lemma check_unary o a ty p q : laid ty p (body (Un o a)) → check_parentheses ty p q = false.
Proof using. intros [Hp _]%laid_cons. unfold check_parentheses. rewrite Hp. now destruct o. Qed.

(** * Evaluation *)
Definition at_tokens (T : arr Token) (p : Z) (l : list tokn) : Prop :=
  ∀ i x, l !! i = Some x → tk_type (aget T (p + Z.of_nat i)) = fst x ∧ tk_string (aget T (p + Z.of_nat i)) = Some (snd x).

Lemma at_laid T p l d : tokens d = T → at_tokens T p l → laid (tok d) p l.
Proof using. intros <- H i x Hi. now apply H. Qed.

Lemma at_app T p l1 l2 : at_tokens T p (l1 ++ l2) → at_tokens T p l1 ∧ at_tokens T (p + len l1) l2.
Proof using.
  intros H. split; intros i x Hi.
  - apply H. rewrite lookup_app_l; [done|]. now apply lookup_lt_Some in Hi.
  - rewrite <- Z.add_assoc, <- Nat2Z.inj_add. apply H. rewrite lookup_app_r by lia.
    now replace (length l1 + i - length l1)%nat with i by lia.
Qed.

Lemma at_cons T p x l : at_tokens T p (x :: l) →
  tk_type (aget T p) = fst x ∧ tk_string (aget T p) = Some (snd x) ∧ at_tokens T (p + 1) l.
Proof using.
  intros H. destruct (at_app T p [x] l H) as [_ H2]. destruct (H 0%nat x eq_refl) as [H3 H4].
  rewrite Z.add_0_r in H3, H4. done.
Qed.

Definition has_tokens (T : arr Token) (s : Machine) : Prop := tokens (debug s) = T.

Lemma has_tokens_stable T : mem_stable (has_tokens T).
Proof using. split; intros ? s H; exact H. Qed.

Lemma value_keeps T e : keeps (has_tokens T) (value e).
Proof using.
  induction e as [ds|ds|i|[] a IH|o a IHa b IHb]; cbn [value]; try apply keeps_ret; try apply keeps_gets.
  - apply keeps_bind; [exact IH|]. intros v. apply keeps_ret.
  - apply keeps_bind; [exact IH|]. intros v. apply keeps_swaddr_read, has_tokens_stable.
  - apply keeps_bind; [exact IH|]. intros v. apply keeps_ret.
  - apply keeps_bind; [exact IHa|]. intros v1. apply keeps_bind; [exact IHb|]. intros v2.
    case_match; [apply keeps_ret|apply keeps_fail].
Qed.

Lemma eval_atom p s t txt : at_tokens (tokens (debug s)) p [(t, txt)] → t ≠ MARK →
  eval_one p s = (if t =? HEXNUM then scanned (scan_x txt) else if t =? NUM then scanned (scan_u txt)
                  else if t =? REGISTER then eval_register txt else fail EAssert) s.
Proof using.
  intros (Ht & Hs & _)%at_cons Hm. unfold eval_one. rewrite (bind_Ok getS _ _ _ _ eq_refl). rewrite Hs, Ht. cbn [fst snd].
  now replace (t =? MARK) with false by lia.
Qed.

Lemma eval_register_ok i s : 0 <= i < 8 → eval_register (reg_name i) s = Ok (gpr_l i (cpu s)) s.
Proof using.
  intros Hi. assert (i = 0 ∨ i = 1 ∨ i = 2 ∨ i = 3 ∨ i = 4 ∨ i = 5 ∨ i = 6 ∨ i = 7) as Hc by lia.
  destruct Hc as [->|[->|[->|[->|[->|[->|[->| ->]]]]]]]; reflexivity.
Qed.

Lemma value_atom e s p : prec e = 5 → exp_ok e → at_tokens (tokens (debug s)) p (body e) → eval_one p s = value e s.
Proof using.
  intros He Hok Hat. destruct e as [ds|ds|i|o a|[] a b]; try discriminate He; cbn [body exp_ok value] in *;
    rewrite (eval_atom _ _ _ _ Hat) by done; ty_eval; unfold scanned.
  - destruct Hok as (_ & _ & H). now replace (2 ^ 32 <=? scan_u ds) with false by lia.
  - change (scan_x (bytes_of "0x" ++ ds)) with (scan_digits 16 is_xdigit 0 ds). destruct Hok as (_ & _ & H).
    now replace (2 ^ 32 <=? scan_digits 16 is_xdigit 0 ds) with false by lia.
  - now apply eval_register_ok.
Qed.

Lemma eval_unop_ok o v : eval_unop (fst (utok o)) v =
  match o with Neg => mret ((- v) mod 2 ^ 32) | Deref => swaddr_read v 4 3 | Not => mret (b2z (v =? 0)) end.
Proof using. unfold eval_unop. destruct o; ty_eval; [done|done|]. now destruct (v =? 0). Qed.

Lemma eval_binop_ok o v1 v2 : eval_binop (fst (btok o)) v1 v2 =
  match bin_val o v1 v2 with Some v => mret v | None => fail EUndefined end.
Proof using. unfold eval_binop. destruct o; ty_eval; try done. cbn [bin_val]. now destruct (v2 =? 0). Qed.

Lemma eval_parens fuel p l s : balanced l → at_tokens (tokens (debug s)) p (lpar :: l ++ [rpar]) → (1 <= length l)%nat →
  eval_n (S fuel) p (p + len (lpar :: l ++ [rpar]) - 1) s = eval_n fuel (p + 1) (p + 1 + len l - 1) s.
Proof using.
  intros Hb Hat Hlen. cbn [eval_n]. rewrite (bind_Ok getS _ _ _ _ eq_refl). cbv zeta.
  rewrite check_parens by (done || now apply (at_laid (tokens (debug s)))).
  cbn [length]. rewrite length_app. cbn [length]. replace (_ <? p) with false by lia. replace (p =? _) with false by lia.
  now replace (p + _ - 1 - 1) with (p + 1 + len l - 1) by lia.
Qed.

(** One step at an operator. *)
Lemma eval_un_step fuel p o a s : at_tokens (tokens (debug s)) p (body (Un o a)) →
  eval_n (S fuel) p (p + len (body (Un o a)) - 1) s =
  (v ← eval_n fuel (p + 1) (p + 1 + len (toks 5 a) - 1); eval_unop (fst (utok o)) v) s.
Proof using.
  intros Hat. cbn [eval_n]. rewrite (bind_Ok getS _ _ _ _ eq_refl). cbv zeta.
  pose proof (at_laid _ _ _ (debug s) eq_refl Hat) as Hl. pose proof (toks_length a 5).
  rewrite (check_unary o a), dominant_unary by done. pose proof Hl as [-> _]%laid_cons. cbn [body length].
  replace (_ <? p) with false by lia. replace (p =? p + _ - 1) with false by lia. rewrite Z.eqb_refl.
  now replace (p + Z.of_nat (S (length (toks 5 a))) - 1) with (p + 1 + len (toks 5 a) - 1) by lia.
Qed.

Lemma eval_bin_step fuel p o a b s : at_tokens (tokens (debug s)) p (body (Bin o a b)) →
  let m := p + len (toks (bprec o) a) in
  eval_n (S fuel) p (p + len (body (Bin o a b)) - 1) s =
  (v1 ← eval_n fuel p (m - 1); v2 ← eval_n fuel (m + 1) (m + 1 + len (toks (bprec o + 1) b) - 1);
   eval_binop (fst (btok o)) v1 v2) s.
Proof using.
  intros Hat m. cbn [eval_n]. rewrite (bind_Ok getS _ _ _ _ eq_refl). cbv zeta.
  pose proof (at_laid _ _ _ (debug s) eq_refl Hat) as Hl. pose proof (toks_length a (bprec o)).
  rewrite (check_binary o a b), dominant_binary by done. pose proof Hl as [_ [-> _]%laid_cons]%laid_app. fold m.
  cbn [body]. rewrite length_app. cbn [length].
  replace (_ <? p) with false by lia. replace (p =? p + _ - 1) with false by lia. replace (p =? m) with false by lia.
  now replace (p + Z.of_nat (length (toks (bprec o) a) + S (length (toks (bprec o + 1) b))) - 1)
    with (m + 1 + len (toks (bprec o + 1) b) - 1) by lia.
Qed.

(** [eval] on the tokens [l] of [e]. *)
Definition evals_to (e : exp) (l : list tokn) : Prop := ∀ p fuel s,
  at_tokens (tokens (debug s)) p l → (length l < fuel)%nat → eval_n fuel p (p + len l - 1) s = value e s.

Lemma evals_toks e k : evals_to e (body e) → evals_to e (toks k e).
Proof using.
  intros H p fuel s. rewrite toks_body. unfold parens. destruct (prec e <? k); [|apply H].
  destruct fuel as [|fuel]; [lia|]. intros Hat Hf. pose proof (toks_length e 0) as Hl. rewrite toks_0 in Hl.
  rewrite eval_parens; [|rewrite <- toks_0; apply toks_balanced|done..].
  apply H; [|cbn [length] in Hf; rewrite length_app in Hf; lia].
  apply at_cons in Hat as (_ & _ & Hat). now apply at_app in Hat.
Qed.

Lemma evals_body e : exp_ok e → evals_to e (body e).
Proof using.
  induction e as [ds|ds|i|o a IH|o a IHa b IHb]; intros Hok p [|fuel] s Hat Hf; try lia.
  1-3: cbn [body length eval_n]; rewrite (bind_Ok getS _ _ _ _ eq_refl); cbv zeta; replace (p + Z.of_nat 1 - 1) with p by lia;
    replace (p <? p) with false by lia; rewrite Z.eqb_refl; now apply value_atom.
  - rewrite eval_un_step by done. apply at_cons in Hat as (_ & _ & Ha). cbn [body length] in Hf.
    unfold mbind, M_bind. rewrite (evals_toks a 5) by (auto || lia). cbn [value].
    destruct o; cbn [value]; unfold mbind, M_bind; (destruct (value a s); [|done..]); now rewrite eval_unop_ok.
  - cbn [exp_ok] in Hok. destruct Hok as [Hoa Hob]. rewrite eval_bin_step by done.
    apply at_app in Hat as [Ha (_ & _ & Hb)%at_cons]. cbn [body] in Hf. rewrite length_app in Hf. cbn [length] in Hf.
    unfold mbind, M_bind. rewrite (evals_toks a (bprec o)) by (auto || lia). cbn [value]. unfold mbind, M_bind.
    pose proof (value_keeps (tokens (debug s)) a s eq_refl) as Hk. destruct (value a s) as [v1 s1| |]; [|done..].
    rewrite (evals_toks b (bprec o + 1)); [|auto|now rewrite Hk|lia]. destruct (value b s1); [|done..]. now rewrite eval_binop_ok.
Qed.
End Value.

(** * Reading the text *)

(** The characters of a token, and its type before [*] and [-] are told apart. *)
Definition source (x : tokn) : list Z := if fst x =? REGISTER then bytes_of "$" ++ snd x else snd x.
Definition raw (t : Z) : Z := if t =? MINUS then chr "-" else if t =? STAR then chr "*" else t.
Definition text (l : list tokn) : list Z := concat (map source l).

Lemma text_app l1 l2 : text (l1 ++ l2) = text l1 ++ text l2.
Proof. unfold text. now rewrite map_app, concat_app. Qed.

Lemma text_cons x l : text (x :: l) = source x ++ text l.
Proof. done. Qed.

(** What may follow a number or a name. *)
Definition follows (rest : list Z) : Prop := match rest with [] => True | c :: _ => is_word c = false end.

Definition lexes (x : tokn) (rest : list Z) : Prop :=
  match_rules rules (source x ++ rest) = Some (raw (fst x), length (source x)).

Lemma span_all p l rest : Forall (λ c, p c = true) l → match rest with [] => True | c :: _ => p c = false end →
  span p (l ++ rest) = length l.
Proof.
  intros Hl Hr. induction Hl as [|c l Hc _ IH]; cbn [app span].
  - destruct rest; [done|]. cbn. now rewrite Hr.
  - rewrite Hc. cbn. now rewrite IH.
Qed.

Lemma is_word_xdigit c : is_word c = false → is_xdigit c = false ∧ is_digit c = false ∧ is_alpha c = false.
Proof.
  unfold is_word, is_xdigit, is_alpha, is_digit, Expr.between.
  repeat match goal with |- context [chr ?x] => let v := eval vm_compute in (chr x) in change (chr x) with v end. lia.
Qed.

Lemma follows_span p rest : follows rest → (∀ c, is_word c = false → p c = false) →
  match rest with [] => True | c :: _ => p c = false end.
Proof. intros H Hp. destruct rest; [done|]. now apply Hp. Qed.

Lemma plus_match p t rs l rest : l ≠ [] → Forall (λ c, p c = true) l →
  match rest with [] => True | c :: _ => p c = false end →
  match_rules (([(p, true)], t) :: rs) (l ++ rest) = Some (t, length l).
Proof.
  intros Hn Hl Hr. cbn [match_rules regexec]. rewrite (span_all p l rest) by done.
  destruct l; [done|]. cbn [length]. cbn [fmap option_fmap option_map]. now rewrite Nat.add_0_r.
Qed.

Lemma skip_rule r t rs l : regexec r l = None → match_rules ((r, t) :: rs) l = match_rules rs l.
Proof. intros H. cbn [match_rules]. now rewrite H. Qed.

Lemma hit_rule r t rs l n : regexec r l = Some n → match_rules ((r, t) :: rs) l = Some (t, n).
Proof. intros H. cbn [match_rules]. now rewrite H. Qed.

(** A literal prefix, then a repeated class. *)
Lemma lit_plus s p l rest : l ≠ [] → Forall (λ c, p c = true) l →
  match rest with [] => True | c :: _ => p c = false end →
  regexec (lit s ++ [(p, true)]) ((bytes_of s ++ l) ++ rest) = Some (length (bytes_of s ++ l)).
Proof.
  intros Hn Hl Hr. unfold lit. induction (bytes_of s) as [|c b IH]; cbn [map app regexec length].
  - rewrite (span_all p l rest) by done. destruct l; [done|]. cbn. f_equal. lia.
  - rewrite Z.eqb_refl, IH. done.
Qed.

Lemma lit_skip s c l : (match bytes_of s with [] => false | x :: _ => negb (c =? x) end) = true → regexec (lit s) (c :: l) = None.
Proof.
  unfold lit. destruct (bytes_of s) as [|x b]; [done|]. cbn [map regexec]. intros H. now rewrite (proj1 (negb_true_iff _) H).
Qed.

Lemma digit_range c : is_digit c = true → 48 <= c <= 57.
Proof. unfold is_digit, Expr.between. change (chr "0") with 48. change (chr "9") with 57. lia. Qed.

Lemma lexes_num ds rest : ds ≠ [] → Forall (λ c, is_digit c = true) ds → follows rest → lexes (NUM, ds) rest.
Proof.
  intros Hn Hd Hr. unfold lexes, source. cbn [fst snd]. change (NUM =? REGISTER) with false. change (raw NUM) with NUM.
  destruct ds as [|c ds]; [done|]. pose proof (Forall_inv Hd) as Hc%digit_range.
  unfold rules. do 2 (rewrite skip_rule by (apply lit_skip; cbn; lia)).
  rewrite skip_rule; [apply plus_match; [done..|]; apply follows_span; [done|]; intros x Hx; now apply is_word_xdigit in Hx|].
  change (lit "0x" ++ ?l) with (((λ x, x =? 48), false) :: ((λ x, x =? 120), false) :: l). cbn [app regexec].
  destruct (c =? 48); [|done].
  assert (match ds ++ rest with [] => True | x :: _ => (x =? 120) = false end) as H.
  { destruct ds as [|d ds]; cbn [app].
    - apply follows_span; [done|]. intros x. unfold is_word, is_alpha, Expr.between.
      change (chr "a") with 97. change (chr "z") with 122. lia.
    - apply Forall_inv_tail, Forall_inv, digit_range in Hd. lia. }
  destruct (ds ++ rest); [done|]. now rewrite H.
Qed.

Lemma lexes_hex ds rest : ds ≠ [] → Forall (λ c, is_xdigit c = true) ds → follows rest →
  lexes (HEXNUM, bytes_of "0x" ++ ds) rest.
Proof.
  intros Hn Hd Hr. unfold lexes, source. cbn [fst snd]. change (HEXNUM =? REGISTER) with false. change (raw HEXNUM) with HEXNUM.
  unfold rules. do 2 (rewrite skip_rule by reflexivity). apply hit_rule, lit_plus; [done..|].
  apply follows_span; [done|]. intros x Hx. now apply is_word_xdigit in Hx.
Qed.

Lemma lexes_reg i rest : 0 <= i < 8 → follows rest → lexes (REGISTER, reg_name i) rest.
Proof.
  intros Hi Hr. unfold lexes, source. cbn [fst snd]. change (REGISTER =? REGISTER) with true. change (raw REGISTER) with REGISTER.
  assert (Forall (λ c, is_alpha c = true) (reg_name i) ∧ reg_name i ≠ []) as [Ha Hn].
  { assert (i = 0 ∨ i = 1 ∨ i = 2 ∨ i = 3 ∨ i = 4 ∨ i = 5 ∨ i = 6 ∨ i = 7) as Hc by lia.
    destruct Hc as [->|[->|[->|[->|[->|[->|[->| ->]]]]]]]; (split; [|done]); repeat constructor. }
  unfold rules. do 4 (rewrite skip_rule by reflexivity). apply hit_rule, lit_plus; [done..|].
  apply follows_span; [done|]. intros x Hx. now apply is_word_xdigit in Hx.
Qed.

Lemma lexes_binary o rest : lexes (btok o) rest.
Proof. destruct o; reflexivity. Qed.

Lemma lexes_parens rest : lexes lpar rest ∧ lexes rpar rest.
Proof. split; reflexivity. Qed.

Lemma lexes_unary o rest : match rest with [] => True | c :: _ => c ≠ chr "=" end → lexes (utok o) rest.
Proof.
  intros Hr. destruct o; try reflexivity. destruct rest as [|c rest]; [reflexivity|].
  unfold lexes, source, rules. cbn [utok fst snd]. change (chr "!" =? REGISTER) with false. cbn iota.
  change (bytes_of "!" ++ c :: rest) with (33 :: c :: rest). do 9 (rewrite skip_rule by reflexivity).
  rewrite skip_rule; [reflexivity|]. change (lit "!=") with [((λ x, x =? 33), false); ((λ x, x =? 61), false)].
  cbn [regexec]. change (33 =? 33) with true. cbn iota. change (chr "=") with 61 in Hr. now replace (c =? 61) with false by lia.
Qed.

(** * The tokens of a text *)

(** What [make_token] does with a token. *)
Definition put (d : Debug) (x : tokn) : Debug :=
  set_nr_token (nr_token d + 1)
    (set_tokens (aset (nr_token d) (mkToken (raw (fst x))
       (strncpy (length (snd x)) 0 (snd x) (tk_str (aget (tokens d) (nr_token d))))) (tokens d)) d).

Lemma strncpy_app n i src rest dst : (n <= length src)%nat → strncpy n i (src ++ rest) dst = strncpy n i src dst.
Proof.
  revert i src dst; induction n as [|n IH]; intros i [|c src] dst Hn; cbn in *; try lia; [now destruct rest|done|].
  apply IH. lia.
Qed.

Definition lexed (l : list tokn) (rest : list Z) : Prop := ∀ f d, (length (text l ++ rest) <= f)%nat →
  ∃ f', (length rest <= f')%nat ∧ make_token_from f (text l ++ rest) d = make_token_from f' rest (foldl put d l).

Lemma lexed_tok x rest : lexes x rest → source x ≠ [] → raw (fst x) ≠ NOTYPE → lexed [x] rest.
Proof.
  intros Hx Hn Ht f d. rewrite text_cons, app_nil_r. cbn [foldl]. unfold lexes in Hx.
  assert (∃ c l, source x ++ rest = c :: l) as (c & l & E) by (destruct (source x) as [|c l]; [done|now exists c, (l ++ rest)]).
  destruct f as [|f]; [rewrite E; cbn; lia|]. intros Hf. exists f.
  split; [rewrite length_app in Hf; destruct (source x); [done|]; cbn in Hf; lia|].
  cbn [make_token_from]. rewrite E. rewrite <- E, Hx. replace (raw (fst x) =? NOTYPE) with false by lia.
  rewrite drop_app_length. destruct (fst x =? REGISTER) eqn:Er.
  - replace (raw (fst x) =? REGISTER) with true by (apply Z.eqb_eq in Er as ->; done).
    unfold source. rewrite Er. rewrite length_app. change (length (bytes_of "$")) with 1%nat.
    change (tl ((bytes_of "$" ++ snd x) ++ rest)) with (snd x ++ rest).
    replace (1 + length (snd x) - 1)%nat with (length (snd x)) by lia.
    rewrite (bind_Ok (put_token _ _ _) _ _ tt (put d x)); [done|].
    unfold put_token, put. cbv zeta. now rewrite strncpy_app by lia.
  - replace (raw (fst x) =? REGISTER) with false.
    2:{ unfold raw. destruct (fst x =? MINUS); [done|]. destruct (fst x =? STAR); done. }
    rewrite (bind_Ok (put_token _ _ _) _ _ tt (put d x)); [done|].
    unfold source, put_token, put. rewrite Er. cbv zeta. now rewrite strncpy_app by lia.
Qed.

Lemma lexed_app l1 l2 rest : lexed l1 (text l2 ++ rest) → lexed l2 rest → lexed (l1 ++ l2) rest.
Proof.
  intros H1 H2 f d. rewrite text_app, <- app_assoc. intros Hf.
  destruct (H1 f d Hf) as (f1 & Hf1 & ->). destruct (H2 f1 (foldl put d l1) Hf1) as (f2 & Hf2 & ->).
  exists f2. split; [done|]. now rewrite foldl_app.
Qed.

(** The printed expressions. *)
Lemma text_start e k : exp_ok e → ∃ c l, text (toks k e) = c :: l ∧ c ≠ chr "=".
Proof.
  revert k; induction e as [ds|ds|i|o a IH|o a IHa b IHb]; intros k Hok; rewrite toks_body; unfold parens;
    (case_match; [eexists _, _; split; [reflexivity|done]|]); cbn [body exp_ok] in *.
  - destruct Hok as (Hn & Hd & _). destruct ds as [|c ds]; [done|]. eexists c, _. split; [reflexivity|].
    pose proof (Forall_inv Hd) as Hc%digit_range. change (chr "=") with 61. lia.
  - eexists _, _. split; [reflexivity|done].
  - eexists _, _. split; [reflexivity|done].
  - destruct o; eexists _, _; (split; [reflexivity|done]).
  - destruct (IHa (bprec o) (proj1 Hok)) as (c & l & E & Hc). rewrite text_app, E. eexists _, _. split; [reflexivity|done].
Qed.

Lemma follows_op o rest : follows (source (btok o) ++ rest) ∧ follows (source rpar ++ rest).
Proof. destruct o; done. Qed.

Lemma source_utok o : source (utok o) ≠ [] ∧ raw (fst (utok o)) ≠ NOTYPE.
Proof. destruct o; done. Qed.
Lemma source_btok o : source (btok o) ≠ [] ∧ raw (fst (btok o)) ≠ NOTYPE.
Proof. destruct o; done. Qed.

Lemma toks_lexed e k rest : exp_ok e → follows rest → lexed (toks k e) rest.
Proof.
  revert k rest; induction e as [ds|ds|i|o a IH|o a IHa b IHb]; intros k rest Hok Hr; rewrite toks_body; unfold parens.
  all: match goal with |- lexed (if _ then lpar :: ?l ++ _ else _) _ =>
    cut (∀ rest, follows rest → lexed l rest);
    [intros Hb; case_match; [|now apply Hb]; rewrite (cons_app_tok lpar);
     apply lexed_app; [apply lexed_tok; [apply lexes_parens|done..]|];
     apply lexed_app; [apply Hb; rewrite text_cons, <- app_assoc; apply (follows_op Add)|apply lexed_tok; [apply lexes_parens|done..]]|clear rest Hr; intros rest Hr] end.
  all: cbn [body exp_ok] in *.
  - destruct Hok as (? & ? & ?). apply lexed_tok; [now apply lexes_num|done|done].
  - destruct Hok as (? & ? & ?). apply lexed_tok; [now apply lexes_hex|done|done].
  - apply lexed_tok; [now apply lexes_reg|done|done].
  - rewrite (cons_app_tok (_ o)). apply lexed_app; [|now apply IH]. apply lexed_tok; [|apply source_utok..].
    apply lexes_unary. destruct (text_start a 5 Hok) as (c & l & E & Hc). rewrite E. exact Hc.
  - destruct Hok as [Hoa Hob]. rewrite (cons_app_tok (_ o)). apply lexed_app; [|apply lexed_app].
    + apply IHa; [done|]. rewrite text_app, text_cons, <- !app_assoc. apply follows_op.
    + apply lexed_tok; [apply lexes_binary|apply source_btok..].
    + now apply IHb.
Qed.

(** ** The strings kept for the tokens *)

(** [str\[32\]] holds the characters [l], then zeros. *)
Definition holds (str : arr Z) (l : list Z) : Prop := ∀ i : nat, (i < 32)%nat → aget str (Z.of_nat i) = nth i l 0.

Lemma aget_strncpy n i src dst j : (n <= length src)%nat →
  aget (strncpy n i src dst) j = if (i <=? j) && (j <? i + Z.of_nat n) then nth (Z.to_nat (j - i)) src 0 else aget dst j.
Proof.
  revert i src dst; induction n as [|n IH]; intros i [|c src] dst Hn; cbn [length] in Hn; try lia; cbn [strncpy].
  1,2: now replace ((i <=? j) && (j <? i + Z.of_nat 0)) with false by lia.
  rewrite IH, aget_aset by lia. destruct (Z.eqb_spec i j) as [->|Hne].
  - replace ((j + 1 <=? j) && _) with false by lia. replace ((j <=? j) && _) with true by lia. now rewrite Z.sub_diag.
  - destruct ((i + 1 <=? j) && (j <? i + 1 + Z.of_nat n)) eqn:E.
    + replace ((i <=? j) && (j <? i + Z.of_nat (S n))) with true by lia.
      now replace (Z.to_nat (j - i)) with (S (Z.to_nat (j - (i + 1)))) by lia.
    + now replace ((i <=? j) && (j <? i + Z.of_nat (S n))) with false by lia.
Qed.

(** A shorter text leaves the end of the longer one before it. *)
Lemma strncpy_holds b l str : holds str l → (length b <= 32)%nat →
  holds (strncpy (length b) 0 b str) (b ++ drop (length b) l).
Proof.
  intros H Hb i Hi. rewrite aget_strncpy by lia. destruct ((0 <=? Z.of_nat i) && _) eqn:E.
  - rewrite app_nth1 by lia. f_equal. lia.
  - rewrite app_nth2, H by lia. rewrite (nth_skipn (length b) l). f_equal. lia.
Qed.

Lemma tk_string_holds t str l : holds str l → Forall (λ c, c ≠ 0) l → (length l <= 31)%nat →
  tk_string (mkToken t str) = Some l.
Proof.
  intros H Hz Hl. unfold tk_string. cbn [tk_str].
  assert (map (λ i, aget str (Z.of_nat i)) (seq 0 32) = l ++ replicate (32 - length l) 0) as ->.
  { apply (nth_ext _ _ 0 0); [rewrite length_map, length_seq, length_app, length_replicate; lia|].
    rewrite length_map, length_seq. intros i Hi. rewrite (nth_indep _ 0 (aget str (Z.of_nat 0))) by (rewrite length_map, length_seq; lia).
    rewrite (map_nth (λ i, aget str (Z.of_nat i))), seq_nth by lia. rewrite Nat.add_0_l, H by lia.
    destruct (Nat.lt_ge_cases i (length l)); [now rewrite app_nth1|].
    rewrite app_nth2, nth_overflow by lia. symmetry.
    generalize (32 - length l)%nat. generalize (i - length l)%nat. intros j n. revert j.
    induction n as [|n IH]; intros [|j]; cbn; auto. }
  rewrite (span_all _ l); [|apply (Forall_impl _ _ _ Hz); intros c Hc; cbn; lia|].
  - replace (length l =? 32)%nat with false by lia. now rewrite take_app_length.
  - now replace (32 - length l)%nat with (S (31 - length l)) by lia.
Qed.

(** ** The array after [make_token] *)

(** All but the tokens and their number. *)
Definition same_rest (d d' : Debug) : Prop := symtab d' = symtab d ∧ wps d' = wps d.

Lemma put_all l d : let d' := foldl put d l in
  same_rest d d' ∧ nr_token d' = nr_token d + len l ∧
  (∀ i x, l !! i = Some x → aget (tokens d') (nr_token d + Z.of_nat i) =
     mkToken (raw (fst x)) (strncpy (length (snd x)) 0 (snd x) (tk_str (aget (tokens d) (nr_token d + Z.of_nat i))))) ∧
  (∀ j, j < nr_token d → aget (tokens d') j = aget (tokens d) j).
Proof.
  revert d; induction l as [|x l IH]; intros d; cbn [foldl].
  - split; [done|]. split; [cbn; lia|]. split; [intros i x Hi; now rewrite lookup_nil in Hi|done].
  - destruct (IH (put d x)) as (Hs & Hn & Ht & Hb). change (nr_token (put d x)) with (nr_token d + 1) in *.
    change (tokens (put d x)) with (aset (nr_token d) (mkToken (raw (fst x)) (strncpy (length (snd x)) 0 (snd x)
      (tk_str (aget (tokens d) (nr_token d))))) (tokens d)) in *.
    split; [exact Hs|]. split; [rewrite Hn; cbn [length]; lia|]. split.
    + intros [|i] y Hi; cbn in Hi.
      * injection Hi as <-. rewrite Z.add_0_r, Hb by lia. now rewrite aget_aset, Z.eqb_refl.
      * replace (nr_token d + Z.of_nat (S i)) with (nr_token d + 1 + Z.of_nat i) by lia. rewrite (Ht i y Hi).
        rewrite aget_aset. now replace (nr_token d =? _) with false by lia.
    + intros j Hj. rewrite Hb by lia. rewrite aget_aset. now replace (nr_token d =? j) with false by lia.
Qed.

(** ** Binary or unary *)

(** After [prev], [*] and [-] are unary. *)
Definition unary_after (prev : Z) : bool :=
  negb (prev =? NUM) && negb (prev =? HEXNUM) && negb (prev =? REGISTER) && negb (prev =? chr ")").

Fixpoint marked (prev : Z) (l : list tokn) : Prop :=
  match l with
  | [] => True
  | x :: l =>
    ((fst x = MINUS ∨ fst x = STAR) → unary_after prev = true) ∧
    ((fst x = chr "-" ∨ fst x = chr "*") → unary_after prev = false) ∧
    marked (fst x) l
  end.

Definition last_type (prev : Z) (l : list tokn) : Z := foldl (λ _ x, fst x) prev l.

Lemma marked_app prev l1 l2 : marked prev l1 → marked (last_type prev l1) l2 → marked prev (l1 ++ l2).
Proof. revert prev; induction l1 as [|x l1 IH]; intros prev H1 H2; cbn in *; [done|]. destruct H1 as (? & ? & ?). auto. Qed.

Lemma toks_last e k prev : unary_after (last_type prev (toks k e)) = false.
Proof.
  revert k prev; induction e as [ds|ds|i|o a IH|o a IHa b IHb]; intros k prev; rewrite toks_body; unfold parens, last_type;
    (case_match; [rewrite (cons_app_tok lpar), !foldl_app; reflexivity|]); cbn [body]; try reflexivity.
  - cbn [foldl]. apply IH.
  - rewrite foldl_app. cbn [foldl]. apply IHb.
Qed.

Lemma toks_marked e k prev : unary_after prev = true → marked prev (toks k e).
Proof.
  revert k prev; induction e as [ds|ds|i|o a IH|o a IHa b IHb]; intros k prev Hp; rewrite toks_body; unfold parens.
  all: match goal with |- marked _ (if _ then lpar :: ?l ++ _ else _) =>
    cut (∀ prev, unary_after prev = true → marked prev l);
    [intros Hb; case_match; [|now apply Hb]; split; [done|]; split; [cbn; intros [E|E]; discriminate E|];
     apply marked_app; [now apply Hb|split; [cbn; intros [E|E]; discriminate E|]; split; [cbn; intros [E|E]; discriminate E|done]]
    |clear prev Hp; intros prev Hp] end; cbn [body].
  1-3: split; [done|]; split; [cbn; intros [E|E]; discriminate E|done].
  - split; [done|]. split; [destruct o; cbn; intros [E|E]; discriminate E|]. apply IH. now destruct o.
  - apply marked_app; [now apply IHa|]. split; [destruct o; cbn; intros [E|E]; discriminate E|].
    split; [intros _; apply toks_last|]. apply IHb. now destruct o.
Qed.

(** One step of the loop that tells them apart. *)
Definition mark_step (d : Debug) (k : nat) : Debug :=
  let i := Z.of_nat k in
  let check := if 0 <? i then tok d (i - 1) else 0 in
  let un := (i =? 0) || (negb (check =? NUM) && negb (check =? HEXNUM) &&
                         negb (check =? REGISTER) && negb (check =? chr ")")) in
  let set t d := set_tokens (aset i (mkToken t (tk_str (aget (tokens d) i))) (tokens d)) d in
  let d := if (tok d i =? chr "*") && un then set STAR d else d in
  if (tok d i =? chr "-") && un then set MINUS d else d.

Definition same_but (i : Z) (d d' : Debug) : Prop :=
  same_rest d d' ∧ nr_token d' = nr_token d ∧ (∀ j, j ≠ i → aget (tokens d') j = aget (tokens d) j).

Lemma mark_step_ok d k t prev : tok d (Z.of_nat k) = raw t → (if 0 <? Z.of_nat k then tok d (Z.of_nat k - 1) = prev else prev = 0) →
  marked prev [(t, [])] →
  let d' := mark_step d k in
  same_but (Z.of_nat k) d d' ∧ tok d' (Z.of_nat k) = t ∧ tk_str (aget (tokens d') (Z.of_nat k)) = tk_str (aget (tokens d) (Z.of_nat k)).
Proof.
  intros Ht Hp (Hu & Hb & _). cbn [fst] in *. unfold mark_step. cbv zeta.
  set (un := (Z.of_nat k =? 0) || _). assert (un = unary_after prev) as ->.
  { unfold un, unary_after. destruct (Z.ltb_spec 0 (Z.of_nat k)) as [Hk|Hk]; [rewrite Hp; now replace (Z.of_nat k =? 0) with false by lia|].
    subst prev. now replace (Z.of_nat k =? 0) with true by lia. }
  rewrite Ht. unfold raw in *. destruct (Z.eqb_spec t MINUS) as [->|Hm].
  - rewrite Hu by (left; done). change (chr "-" =? chr "*") with false. cbn [andb]. rewrite Ht. change (chr "-" =? chr "-") with true.
    cbn [andb]. split; [split; [done|]; split; [done|]|].
    + intros j Hj. cbn [tokens set_tokens]. rewrite aget_aset. now replace (Z.of_nat k =? j) with false by lia.
    + unfold tok. cbn [tokens set_tokens]. now rewrite aget_aset, Z.eqb_refl.
  - destruct (Z.eqb_spec t STAR) as [->|Hs].
    + rewrite Hu by (right; done). change (chr "*" =? chr "*") with true. cbn [andb].
      set (d1 := set_tokens _ d). assert (tok d1 (Z.of_nat k) = STAR) as E.
      { unfold tok, d1. cbn [tokens set_tokens]. now rewrite aget_aset, Z.eqb_refl. }
      rewrite E. change (STAR =? chr "-") with false. cbn [andb]. split; [split; [done|]; split; [done|]|].
      * intros j Hj. unfold d1. cbn [tokens set_tokens]. rewrite aget_aset. now replace (Z.of_nat k =? j) with false by lia.
      * split; [exact E|]. unfold d1. cbn [tokens set_tokens]. now rewrite aget_aset, Z.eqb_refl.
    + assert ((t =? chr "*") && unary_after prev = false) as E1.
      { destruct (Z.eqb_spec t (chr "*")); [|done]. rewrite Hb; auto. }
      assert ((t =? chr "-") && unary_after prev = false) as E2.
      { destruct (Z.eqb_spec t (chr "-")); [|done]. rewrite Hb; auto. }
      rewrite E1, Ht. rewrite E2. split; [|split; [done|done]]. split; [done|]. split; done.
Qed.

Lemma mark_all l k prev d : (∀ i x, l !! i = Some x → tok d (Z.of_nat (k + i)) = raw (fst x)) →
  (if 0 <? Z.of_nat k then tok d (Z.of_nat k - 1) = prev else prev = 0) → marked prev l →
  let d' := foldl mark_step d (seq k (length l)) in
  same_rest d d' ∧ nr_token d' = nr_token d ∧ (∀ j, j < Z.of_nat k → aget (tokens d') j = aget (tokens d) j) ∧
  (∀ i x, l !! i = Some x → tok d' (Z.of_nat (k + i)) = fst x ∧
     tk_str (aget (tokens d') (Z.of_nat (k + i))) = tk_str (aget (tokens d) (Z.of_nat (k + i)))).
Proof.
  revert k prev d; induction l as [|x l IH]; intros k prev d Hr Hp Hm; cbn [length seq foldl].
  { split; [done|]. split; [done|]. split; [done|]. intros i y Hi. now rewrite lookup_nil in Hi. }
  pose proof (Hr 0%nat x eq_refl) as Hx. rewrite Nat.add_0_r in Hx. destruct Hm as (Hm1 & Hm2 & Hm).
  destruct (mark_step_ok d k (fst x) prev Hx Hp (conj Hm1 (conj Hm2 I))) as (((Hsy & Hwp) & Hn & Ho) & Ht & Hs).
  destruct (IH (S k) (fst x) (mark_step d k)) as ((Hsy' & Hwp') & Hn' & Hb & Ht').
  - intros i y Hi. unfold tok. rewrite Ho by lia. specialize (Hr (S i) y Hi). now replace (S k + i)%nat with (k + S i)%nat by lia.
  - replace (0 <? Z.of_nat (S k)) with true by lia. now replace (Z.of_nat (S k) - 1) with (Z.of_nat k) by lia.
  - exact Hm.
  - split; [split; congruence|]. split; [congruence|]. split.
    + intros j Hj. rewrite Hb by lia. apply Ho. lia.
    + intros [|i] y Hi; cbn in Hi.
      * injection Hi as <-. rewrite Nat.add_0_r. unfold tok. rewrite Hb by lia. now split.
      * replace (k + S i)%nat with (S k + i)%nat by lia. destruct (Ht' i y Hi) as [-> ->]. rewrite Ho by lia. done.
Qed.

Lemma mark_unary_steps d : mark_unary d = foldl mark_step d (seq 0 (Z.to_nat (nr_token d))).
Proof. reflexivity. Qed.

(** ** The state of the debugger when the tokens of [l] have been read over [d] *)
Definition read_tokens (l : list tokn) (d : Debug) : Debug := mark_unary (foldl put (set_nr_token 0 d) l).

Lemma read_tokens_ok l d : marked 0 l →
  let d' := read_tokens l d in
  same_rest d d' ∧ nr_token d' = len l ∧
  (∀ i x, l !! i = Some x → tok d' (Z.of_nat i) = fst x ∧
     tk_str (aget (tokens d') (Z.of_nat i)) = strncpy (length (snd x)) 0 (snd x) (tk_str (aget (tokens d) (Z.of_nat i)))).
Proof.
  intros Hm. unfold read_tokens. rewrite mark_unary_steps. pose proof (put_all l (set_nr_token 0 d)) as ((Hs & Hw) & Hn & Ht & _).
  set (d1 := foldl put (set_nr_token 0 d) l) in *. change (nr_token (set_nr_token 0 d)) with 0 in *. rewrite Hn.
  replace (Z.to_nat (0 + len l)) with (length l) by lia.
  destruct (mark_all l 0 0 d1) as ((Hs' & Hw') & Hn' & _ & Hf).
  - intros i x Hi. unfold tok. rewrite Nat.add_0_l. specialize (Ht i x Hi). rewrite Z.add_0_l in Ht. now rewrite Ht.
  - done.
  - exact Hm.
  - split; [split; [now rewrite Hs'|now rewrite Hw']|]. split; [rewrite Hn'; lia|].
    intros i x Hi. specialize (Hf i x Hi). rewrite Nat.add_0_l in Hf. destruct Hf as [Hf1 Hf2]. split; [exact Hf1|].
    rewrite Hf2. specialize (Ht i x Hi). rewrite Z.add_0_l in Ht. now rewrite Ht.
Qed.

(** [expr] up to the evaluation. *)
Lemma expr_reads `{HRand : !LibcRand, HJunk : !StackJunk} l s : lexed l [] → marked 0 l → (length (text l) <= 32)%nat →
  expr (text l) s = (v ← eval 0 (len l - 1); mret (Some v)) (set_debug (read_tokens l (debug s)) s).
Proof.
  intros Hl Hm Hlen. unfold expr. replace (32 <? len (text l)) with false by lia.
  assert (in_debug (make_token (text l)) s = Ok true (set_debug (foldl put (set_nr_token 0 (debug s)) l) s)) as E.
  { unfold in_debug, zoom, make_token. rewrite (bind_Ok (modify _) _ _ tt _ eq_refl).
    destruct (Hl (length (text l)) (set_nr_token 0 (debug s))) as (f' & _ & E); [now rewrite app_nil_r|].
    rewrite app_nil_r in E. rewrite E. now destruct f'. }
  rewrite (bind_Ok _ _ _ _ _ E). cbn [negb]. unfold in_debug, zoom, modify.
  rewrite (bind_Ok (λ s, _) _ _ tt (set_debug (read_tokens l (debug s)) s)) by reflexivity.
  rewrite (bind_Ok getS _ _ _ _ eq_refl). destruct (read_tokens_ok l (debug s) Hm) as (_ & Hn & _). cbn [debug set_debug].
  now rewrite Hn.
Qed.

(** Where the strings kept in the array before are empty, the tokens are those of [l]. *)
Definition fresh (d : Debug) : Prop := ∀ i, 0 <= i < 32 → holds (tk_str (aget (tokens d) i)) [].

Lemma read_at_tokens l d : fresh d → marked 0 l → (length l <= 32)%nat →
  (∀ x, x ∈ l → Forall (λ c, c ≠ 0) (snd x) ∧ (length (snd x) <= 31)%nat) → at_tokens (tokens (read_tokens l d)) 0 l.
Proof.
  intros Hf Hm Hlen Hx i x Hi. destruct (read_tokens_ok l d Hm) as (_ & _ & Ht). destruct (Ht i x Hi) as [Ht1 Ht2].
  destruct (Hx x) as [Hz Hs]; [now apply list_elem_of_lookup_2 in Hi|]. rewrite Z.add_0_l. split; [exact Ht1|].
  destruct (aget _ _) as [t str] eqn:E. cbn [tk_str] in Ht2. subst str. apply tk_string_holds; [|done..].
  apply lookup_lt_Some in Hi. rewrite <- (app_nil_r (snd x)) at 3. rewrite <- (drop_nil (A:=Z) (length (snd x))).
  apply strncpy_holds; [apply Hf; lia|lia].
Qed.

(** The text of a printed expression has no zero, and covers its tokens. *)
Lemma source_length x : (length (snd x) <= length (source x))%nat.
Proof. unfold source. case_match; [rewrite length_app; lia|lia]. Qed.

Lemma text_length l : (∀ x, x ∈ l → source x ≠ []) →
  (length l <= length (text l))%nat ∧ (∀ x, x ∈ l → (length (snd x) <= length (text l))%nat).
Proof.
  intros Hn. induction l as [|x l IH]; [split; [cbn; lia|intros x Hx; now apply not_elem_of_nil in Hx]|].
  destruct IH as [IH1 IH2]; [intros y Hy; apply Hn; now right|]. rewrite text_cons, length_app. cbn [length].
  pose proof (Hn x (list_elem_of_here _ _)). split; [destruct (source x); [done|cbn; lia]|].
  intros y Hy. apply elem_of_cons in Hy as [->|Hy]; [pose proof (source_length x); lia|]. specialize (IH2 y Hy). lia.
Qed.

Definition plain (x : tokn) : Prop := source x ≠ [] ∧ Forall (λ c, c ≠ 0) (snd x).

Lemma toks_plain e k : exp_ok e → Forall plain (toks k e).
Proof.
  assert (∀ o, plain (utok o)) as Hu by (intros []; (split; [done|repeat constructor; done])).
  assert (∀ o, plain (btok o)) as Hbt by (intros []; (split; [done|repeat constructor; done])).
  revert k; induction e as [ds|ds|i|o a IH|o a IHa b IHb]; intros k Hok; rewrite toks_body; unfold parens.
  all: match goal with |- Forall _ (if _ then lpar :: ?l ++ _ else _) =>
    cut (Forall plain l); [intros Hb; case_match; [|done];
      constructor; [split; [done|repeat constructor; done]|]; apply Forall_app; split; [done|];
      constructor; [split; [done|repeat constructor; done]|constructor]|] end; cbn [body exp_ok] in *.
  - destruct Hok as (Hn & Hd & _). constructor; [|constructor]. split; [done|]. cbn [snd]. eapply Forall_impl; [exact Hd|].
    intros c Hc%digit_range. lia.
  - destruct Hok as (Hn & Hd & _). constructor; [|constructor]. split; [done|]. cbn [snd]. apply Forall_app. split; [repeat constructor; done|].
    eapply Forall_impl; [exact Hd|]. intros c Hc ->. discriminate Hc.
  - assert (i = 0 ∨ i = 1 ∨ i = 2 ∨ i = 3 ∨ i = 4 ∨ i = 5 ∨ i = 6 ∨ i = 7) as Hc by lia.
    destruct Hc as [->|[->|[->|[->|[->|[->|[->| ->]]]]]]]; repeat constructor; done.
  - constructor; [apply Hu|]. now apply IH.
  - apply Forall_app. split; [now apply IHa|]. constructor; [apply Hbt|]. now apply IHb.
Qed.

(** ** What reading tokens leaves alone *)
Lemma mark_unary_frame d : same_rest d (mark_unary d) ∧ nr_token (mark_unary d) = nr_token d.
Proof.
  rewrite mark_unary_steps. generalize (seq 0 (Z.to_nat (nr_token d))). intros l.
  revert d; induction l as [|k l IH]; intros d; cbn [foldl]; [done|].
  assert (same_rest d (mark_step d k) ∧ nr_token (mark_step d k) = nr_token d) as [[H1 H2] H3].
  { unfold mark_step. cbv zeta. repeat case_match; done. }
  destruct (IH (mark_step d k)) as [[H4 H5] H6]. split; [split|]; congruence.
Qed.

Lemma keeps_make_token (P : Debug → Prop) e :
  (∀ n d, P d → P (set_nr_token n d)) → (∀ t d, P d → P (set_tokens t d)) → keeps P (make_token e).
Proof.
  intros Hn Ht. apply keeps_bind; [apply keeps_modify; auto|]. intros _. generalize (length e). intros f.
  revert e; induction f as [|f IH]; intros [|c e]; cbn [make_token_from];
    try (now apply keeps_ret); try (now apply keeps_fail).
  assert (∀ t src n, keeps P (put_token t src n)) as Hp by (intros t src n d Hd; apply Hn, Ht, Hd).
  destruct (match_rules _ _) as [[t n]|]; [|apply keeps_ret].
  apply keeps_bind; [|intros _; apply IH]. repeat first [apply Hp | keeps_step].
Qed.

(** * The recursion of [eval] *)

(** The operator is one of the tokens. *)
Lemma dominant_from_bounds n i lvl r pri ty lo hi : lo <= i - Z.of_nat n + 1 → i <= hi → lo <= r <= hi →
  lo <= dominant_from n i lvl r pri ty <= hi.
Proof.
  revert i lvl r pri; induction n as [|n IH]; intros i lvl r pri Hlo Hi Hr; cbn [dominant_from]; [done|]. cbv zeta.
  destruct (_ || _); [apply IH; lia|]. destruct (_ || _); [lia|].
  do 4 (destruct (_ && _); cbn [fst snd]); (apply IH; lia).
Qed.

Lemma dominant_bounds ty p q : p <= q → p <= dominant_operator ty p q <= q.
Proof. intros H. apply dominant_from_bounds; lia. Qed.

Section Recursion.
Context `{HRand : !LibcRand, HJunk : !StackJunk}.

(** Fuel beyond one call per token changes nothing. *)
Lemma eval_n_fuel n m p q s : (Z.to_nat (q - p + 1) < n)%nat → (Z.to_nat (q - p + 1) < m)%nat →
  eval_n n p q s = eval_n m p q s.
Proof using.
  revert m p q s; induction n as [|n IH]; intros [|m] p q s Hn Hm; try lia. cbn [eval_n].
  rewrite !(bind_Ok getS _ _ _ _ eq_refl). cbv zeta. destruct (Z.ltb_spec q p) as [|Hpq]; [done|].
  destruct (Z.eqb_spec p q) as [|Hne]; [done|]. destruct (check_parentheses _ p q); [apply IH; lia|].
  pose proof (dominant_bounds (tok (debug s)) p q Hpq) as Hop. set (op := dominant_operator _ _ _) in *.
  unfold mbind, M_bind. destruct (Z.eqb_spec p op) as [E|Hne'].
  - now rewrite (IH m) by lia.
  - rewrite (IH m) by lia. destruct (eval_n m p (op - 1) s); [|done..]. now rewrite (IH m) by lia.
Qed.

(** ** The reads of [eval] *)
Lemma no_fuel_tlb_update a h : no_fuel (tlb_update a h).
Proof using. intros s. unfold tlb_update. destruct (TLB_update _ _ _). discriminate. Qed.

Lemma no_fuel_hwaddr_read a len : len <= 4 → no_fuel (hwaddr_read a len).
Proof using.
  intros Hl. unfold hwaddr_read, in_caches, mmio_read, mmio_callback, in_vga, vga_vmem_io_handler.
  repeat (cbv zeta; first [apply (no_fuel_read1 1); lia | no_fuel_step]).
Qed.

Lemma no_fuel_page_translate a : no_fuel (page_translate a).
Proof using.
  unfold page_translate.
  repeat (cbv zeta; first [apply no_fuel_hwaddr_read; lia | apply no_fuel_tlb_update | no_fuel_step]).
Qed.

Lemma no_fuel_lnaddr_read a len : len <= 4 → no_fuel (lnaddr_read a len).
Proof using.
  intros Hl. pose proof (Z.mod_pos_bound a 4096 ltac:(lia)). unfold lnaddr_read. rewrite page_off.
  repeat (cbv zeta; first [apply no_fuel_hwaddr_read; lia | apply no_fuel_page_translate | no_fuel_step]).
Qed.

Lemma no_fuel_swaddr_read a len sr : len <= 4 → no_fuel (swaddr_read a len sr).
Proof using.
  intros Hl. unfold swaddr_read, seg_translate, get_cpu.
  repeat (cbv zeta; first [now apply no_fuel_lnaddr_read | no_fuel_step]).
Qed.

Lemma no_fuel_eval_one p : no_fuel (eval_one p).
Proof using.
  unfold eval_one, scanned, eval_register, reg_l, reg_w, reg_b, check_reg_index, get_cpu.
  repeat (cbv zeta; no_fuel_step).
Qed.

(** One call per token, and one more, is enough: no part of a run ends for want of calls. *)
Lemma no_fuel_eval_n n p q : (Z.to_nat (q - p + 1) < n)%nat → no_fuel (eval_n n p q).
Proof using.
  revert p q; induction n as [|n IH]; intros p q Hn; [lia|]. cbn [eval_n].
  intros s. rewrite bind_getS. cbv zeta. destruct (Z.ltb_spec q p) as [|Hpq]; [discriminate|].
  destruct (Z.eqb_spec p q) as [|Hne]; [apply no_fuel_eval_one|].
  destruct (check_parentheses _ p q); [apply IH; lia|].
  pose proof (dominant_bounds (tok (debug s)) p q Hpq) as Hop. set (op := dominant_operator _ _ _) in *.
  destruct (Z.eqb_spec p op) as [E|Hne'].
  - apply no_fuel_bind; [apply IH; lia|]. intros v. unfold eval_unop.
    repeat first [apply no_fuel_swaddr_read; lia | no_fuel_step].
  - apply no_fuel_bind; [apply IH; lia|]. intros v1. apply no_fuel_bind; [apply IH; lia|]. intros v2.
    unfold eval_binop. repeat no_fuel_step.
Qed.
End Recursion.

(** Every rule matches at least a character. *)
Lemma match_rules_pos l t n : match_rules rules l = Some (t, n) → (1 <= n)%nat.
Proof.
  assert (Forall (λ r, ∀ l n, regexec (fst r) l = Some n → (1 <= n)%nat) rules) as H.
  { assert (∀ p b r l n, regexec ((p, b) :: r) l = Some n → (1 <= n)%nat) as Hr.
    { intros p [] r l' n'; cbn [regexec].
      - destruct (span p l') as [|k]; [done|]. intros (m & _ & ->)%fmap_Some. lia.
      - destruct l' as [|c l']; [done|]. destruct (p c); [|done]. intros (m & _ & ->)%fmap_Some. lia. }
    unfold rules. repeat (constructor; [intros l' n'; cbn [fst app]; unfold lit; cbn [bytes_of map String.list_ascii_of_string app]; apply Hr|]).
    constructor. }
  induction H as [|[r t'] rs Hr _ IH]; cbn [match_rules]; [done|]. destruct (regexec r l) eqn:E; [|done].
  intros [= <- <-]. now apply Hr in E.
Qed.

(** [make_token] ends, with at most a token per character. *)
Lemma make_token_ends f l d : (length l <= f)%nat →
  ∃ b d', make_token_from f l d = Ok b d' ∧ nr_token d' <= nr_token d + len l.
Proof.
  revert l d; induction f as [|f IH]; intros [|c l] d Hl; cbn [length] in Hl; try lia;
    try (eexists _, _; split; [reflexivity|cbn; lia]).
  cbn [make_token_from]. destruct (match_rules rules (c :: l)) as [[t n]|] eqn:E; [|eexists _, _; split; [reflexivity|cbn [length]; lia]].
  apply match_rules_pos in E. destruct n as [|n]; [lia|]. cbn [drop].
  assert (length (drop n l) <= length l)%nat by (rewrite length_drop; lia).
  assert (∀ t src m, ∃ d1, put_token t src m d = Ok tt d1 ∧ nr_token d1 = nr_token d + 1) as Hp by (intros; eexists; now split).
  destruct (t =? NOTYPE).
  - destruct (IH (drop n l) d ltac:(lia)) as (b & d' & E' & Hn). exists b, d'. split; [exact E'|cbn [length]; lia].
  - destruct (t =? REGISTER).
    + destruct (Hp t (tl (c :: l)) (S n - 1)%nat) as (d1 & Ep & Hd1). rewrite (bind_Ok _ _ _ _ _ Ep).
      destruct (IH (drop n l) d1 ltac:(lia)) as (b & d' & E' & Hn). exists b, d'. split; [exact E'|cbn [length]; lia].
    + destruct (Hp t (c :: l) (S n)) as (d1 & Ep & Hd1). rewrite (bind_Ok _ _ _ _ _ Ep).
      destruct (IH (drop n l) d1 ltac:(lia)) as (b & d' & E' & Hn). exists b, d'. split; [exact E'|cbn [length]; lia].
Qed.

(** ** The whole of [expr] *)
Section Expr.
Context `{HRand : !LibcRand, HJunk : !StackJunk}.

Lemma make_token_run e d : ∃ b d', make_token e d = Ok b d' ∧ nr_token d' <= len e.
Proof using.
  unfold make_token. rewrite bind_modify.
  destruct (make_token_ends (length e) e (set_nr_token 0 d) (le_n _)) as (b & d' & E & Hn).
  exists b, d'. split; [exact E|exact Hn].
Qed.

Lemma no_fuel_expr e : no_fuel (expr e).
Proof using.
  intros s. unfold expr. destruct (Z.ltb_spec 32 (len e)); [discriminate|].
  destruct (make_token_run e (debug s)) as (b & d' & E & Hn).
  assert (in_debug (make_token e) s = Ok b (set_debug d' s)) as E' by (unfold in_debug, zoom; now rewrite E).
  rewrite (bind_Ok _ _ _ _ _ E'). destruct b; cbn [negb]; [|discriminate].
  unfold in_debug, zoom, modify. rewrite (bind_Ok (λ s, _) _ _ tt (set_debug (mark_unary d') (set_debug d' s))) by reflexivity.
  rewrite bind_getS. apply no_fuel_bind; [|intros; apply no_fuel_ret]. apply no_fuel_eval_n.
  cbn [debug set_debug]. rewrite (proj2 (mark_unary_frame d')). lia.
Qed.

(** What the evaluation keeps: it only reads the memory and writes the tokens. *)
Section Keeps.
Context (P : Machine → Prop) (HP : mem_stable P)
  (Hdebug : ∀ s d, P s → wps d = wps (debug s) → symtab d = symtab (debug s) → P (set_debug d s)).

Lemma keeps_eval_register l : keeps P (eval_register l).
Proof using.
  unfold eval_register, reg_l, reg_w, reg_b, check_reg_index, get_cpu. repeat keeps_step.
Qed.

Lemma keeps_eval_one p : keeps P (eval_one p).
Proof using.
  unfold eval_one, scanned. repeat (cbv zeta; first [apply keeps_eval_register | keeps_step]).
Qed.

Lemma keeps_eval_n n p q : keeps P (eval_n n p q).
Proof using HP.
  revert p q; induction n as [|n IH]; intros p q; cbn [eval_n]; [apply keeps_fail|].
  unfold eval_unop, eval_binop.
  repeat (cbv zeta; first [apply IH | apply keeps_eval_one | now apply keeps_swaddr_read | keeps_step]).
Qed.

Lemma keeps_expr e : keeps P (expr e).
Proof using All.
  unfold expr, eval. apply keeps_if; intros _; [apply keeps_fail|].
  apply keeps_bind.
  { apply keeps_zoom. intros s Hs.
    pose proof (keeps_make_token (λ d, wps d = wps (debug s) ∧ symtab d = symtab (debug s)) e ltac:(done) ltac:(done) (debug s)
      (conj eq_refl eq_refl)) as H.
    destruct (make_token e (debug s)); [now apply Hdebug|now apply Hdebug|done]. }
  intros ok. apply keeps_if; intros _; [apply keeps_ret|]. apply keeps_bind.
  { apply keeps_zoom. intros s Hs. destruct (mark_unary_frame (debug s)) as [[H1 H2] _]. now apply Hdebug. }
  intros _. repeat first [apply keeps_eval_n | keeps_step].
Qed.
End Keeps.
End Expr.

Section Claims.
Context `{HRand : !LibcRand, HJunk : !StackJunk}.

(** C32: the debugger's expressions mean what they say: the text of any expression tree over
    numbers, the 32-bit registers, unary minus, dereference and not, and the binary
    operators, printed with just the parentheses that the code's precedences (left
    association, && and || alike) require, in at most 31 characters and with an empty
    token array, evaluates on every machine to the tree's value: the same result, the
    same memory accesses in the same order, the same failures (a division by zero, a
    failed read), whatever the processor's state. *)
Theorem expr_value e s : exp_ok e → (length (text (toks 0 e)) <= 31)%nat → fresh (debug s) →
  ∃ d, symtab d = symtab (debug s) ∧ wps d = wps (debug s) ∧
    expr (text (toks 0 e)) s = (v ← value e; mret (Some v)) (set_debug d s).
Proof using.
  intros Hok Hlen Hf. pose proof (toks_plain e 0 Hok) as Hp. rewrite Forall_forall in Hp.
  destruct (text_length (toks 0 e)) as [Ht Hs]; [intros x Hx; apply (Hp x), Hx|].
  pose proof (toks_marked e 0 0 eq_refl) as Hm. set (l := toks 0 e) in *.
  exists (read_tokens l (debug s)). destruct (read_tokens_ok l (debug s) Hm) as ((H1 & H2) & _). split; [exact H1|]. split; [exact H2|].
  rewrite expr_reads; [|now apply toks_lexed|exact Hm|lia]. unfold mbind at 1, M_bind at 1.
  change (len l - 1) with (0 + len l - 1). unfold eval. rewrite (evals_toks e 0 (evals_body e Hok)).
  - reflexivity.
  - fold l. apply read_at_tokens; [done..|lia|]. intros x Hx. split; [apply (Hp x), Hx|]. specialize (Hs x Hx). lia.
  - fold l. lia.
Qed.

(** C33: evaluating an expression ends: whatever the text (at most 32 characters) and the
    machine, [make_token] returns with at most 32 tokens, and [eval] on the whole array, or
    on any part of it and in any state, returns, stops on an assertion or an undefined
    operation, or jumps, but never wants more nested calls than the 34 the model allows; a
    larger bound gives the same run.  So [expr] never runs out of fuel on any text. *)
Theorem eval_terminates e d : (length e <= 32)%nat →
  (∃ b d', make_token e d = Ok b d' ∧ nr_token d' <= 32 ∧
    ∀ n p q s, (34 <= n)%nat → 0 <= p → q < nr_token d' →
      eval p q s ≠ Fail_ EFuel ∧ eval_n n p q s = eval p q s) ∧
  ∀ s, expr e s ≠ Fail_ EFuel.
Proof using.
  intros Hlen. split; [|intros s; apply no_fuel_expr].
  destruct (make_token_run e d) as (b & d' & E & Hn). exists b, d'. split; [exact E|]. split; [lia|].
  intros n p q s Hf Hp Hq. split; [apply no_fuel_eval_n; lia|apply eval_n_fuel; lia].
Qed.

Lemma eval_n_one n p s : eval_n (S n) p p s = eval_one p s.
Proof using.
  cbn [eval_n]. rewrite (bind_Ok getS _ _ _ _ eq_refl). cbv zeta. replace (p <? p) with false by lia. now rewrite Z.eqb_refl.
Qed.

(** Numbers alone, over what the array holds. *)
Lemma expr_number ds l s : ds ≠ [] → Forall (λ c, is_digit c = true) (ds ++ drop (length ds) l) →
  (length (ds ++ drop (length ds) l) <= 31)%nat → holds (tk_str (aget (tokens (debug s)) 0)) l →
  scan_u (ds ++ drop (length ds) l) < 2 ^ 32 →
  ∃ s', expr ds s = Ok (Some (scan_u (ds ++ drop (length ds) l))) s' ∧
    holds (tk_str (aget (tokens (debug s')) 0)) (ds ++ drop (length ds) l).
Proof using.
  intros Hn Hd Hlen Hh Hv. pose proof Hd as [Hd1 _]%Forall_app. rewrite length_app in Hlen.
  assert (marked 0 [(NUM, ds)]) as Hm by (split; [done|]; split; [cbn; intros [E|E]; discriminate E|done]).
  destruct (read_tokens_ok [(NUM, ds)] (debug s) Hm) as (_ & _ & Ht). destruct (Ht 0%nat _ eq_refl) as [Ht1 Ht2].
  change (Z.of_nat 0) with 0 in *. cbn [fst snd] in *.
  pose proof (strncpy_holds ds l _ Hh ltac:(lia)) as Hh'. rewrite <- Ht2 in Hh'.
  set (s' := set_debug (read_tokens [(NUM, ds)] (debug s)) s). exists s'. split; [|exact Hh'].
  replace ds with (text [(NUM, ds)]) at 1 by (cbn; apply app_nil_r).
  rewrite expr_reads; [|apply lexed_tok; [now apply lexes_num|done|done]|exact Hm|cbn; rewrite app_nil_r; lia].
  fold s'. change (len [(NUM, ds)] - 1) with 0. unfold mbind, M_bind. unfold eval. rewrite (eval_n_one 33).
  rewrite (eval_atom 0 s' NUM (ds ++ drop (length ds) l)); [|  |done].
  - change (NUM =? HEXNUM) with false. change (NUM =? NUM) with true. cbn iota. unfold scanned. now replace (2 ^ 32 <=? _) with false by lia.
  - intros i x Hi. apply list_lookup_singleton_Some in Hi as [-> <-]. change (0 + Z.of_nat 0) with 0. cbn [fst snd].
    split; [exact Ht1|]. change (tokens (debug s')) with (tokens (read_tokens [(NUM, ds)] (debug s))).
    destruct (aget (tokens (read_tokens _ _)) 0) as [t str]. cbn [tk_str] in Hh'. apply tk_string_holds; [exact Hh'| |rewrite length_app; lia]. eapply Forall_impl; [exact Hd|]. intros c Hc%digit_range. lia.
Qed.

(** the token array is not cleared between expressions: after [p] of a number has
    been evaluated, [p] of a shorter one is read with the end of the first number behind
    its own digits, because [strncpy] of a token's characters writes no terminator; the
    value is right only where the second number is at least as long. *)
Theorem expr_stale_digits a b s : a ≠ [] → b ≠ [] → Forall (λ c, is_digit c = true) a → Forall (λ c, is_digit c = true) b →
  (length a <= 31)%nat → (length b <= 31)%nat → fresh (debug s) →
  scan_u a < 2 ^ 32 → scan_u (b ++ drop (length b) a) < 2 ^ 32 →
  ∃ s1 s2, expr a s = Ok (Some (scan_u a)) s1 ∧ expr b s1 = Ok (Some (scan_u (b ++ drop (length b) a))) s2.
Proof using.
  intros Ha Hb Hda Hdb Hla Hlb Hf Hva Hvb. pose proof (drop_nil (A:=Z) (length a)) as Hnil.
  destruct (expr_number a [] s) as (s1 & E1 & H1); rewrite ?Hnil, ?app_nil_r; [done..|apply Hf; lia|done|].
  rewrite Hnil, app_nil_r in E1, H1.
  destruct (expr_number b a s1) as (s2 & E2 & H2); [done| | |done|done|].
  - apply Forall_app. split; [done|]. now apply Forall_drop.
  - rewrite length_app, length_drop. lia.
  - exists s1, s2. now split.
Qed.
End Claims.

#[local] Existing Instance IsoRand.
#[local] Existing Instance ZeroJunk.

(** [12+-($eax*3)] on a machine with 5 in EAX, and [12] then [3]. *)
Definition demo_exp : exp :=
  Bin Add (Num (bytes_of "12")) (Un Neg (Bin Mul (Reg 0) (Num (bytes_of "3")))).
Definition expr_machine : Machine := demo_machine (set_gpr_l 0 5 cpu0) dram0.

Lemma expr_machine_fresh : fresh (debug expr_machine).
Proof. intros i _ j _. cbn. rewrite !aget_anew. now destruct j. Qed.

Lemma expr_value_witness : ∃ s, expr (bytes_of "12+-($eax*3)") expr_machine = Ok (Some (2 ^ 32 - 3)) s.
Proof.
  destruct (expr_value demo_exp expr_machine) as (d & _ & _ & E).
  - cbn. split_and!; try done; try (repeat constructor); lia.
  - vm_compute. lia.
  - exact expr_machine_fresh.
  - exists (set_debug d expr_machine). exact E.
Defined.

Lemma eval_terminates_witness : (∃ b d', make_token (bytes_of "(1)+2") (debug0 []) = Ok b d' ∧ nr_token d' <= 32) ∧
  expr (bytes_of "(1)+2") expr_machine ≠ Fail_ EFuel.
Proof.
  destruct (eval_terminates (bytes_of "(1)+2") (debug0 [])) as ((b & d' & E & H & _) & He); [cbn; lia|].
  split; [now exists b, d'|exact (He expr_machine)].
Defined.

Lemma expr_stale_digits_witness : ∃ s1 s2,
  expr (bytes_of "12") expr_machine = Ok (Some 12) s1 ∧ expr (bytes_of "3") s1 = Ok (Some 32) s2.
Proof.
  apply (expr_stale_digits (bytes_of "12") (bytes_of "3") expr_machine); try done; try (repeat constructor); try (cbn; lia).
  exact expr_machine_fresh.
Defined.

(** What the grammar of the code does not give: a unary operator directly behind another is
    taken for the operator of the expression and fails, and [&&] does not bind tighter than
    [||]. *)
Lemma expr_double_unary : outcome (expr (bytes_of "--3") expr_machine) = inr EAssert.
Proof. vm_compute. reflexivity. Qed.

Lemma expr_and_or : outcome (expr (bytes_of "1||0&&0") expr_machine) = inl (Some (Some 0)).
Proof. vm_compute. reflexivity. Qed.
