(* ===== verification/ElfTables.v ===== *)
(** The symbol and string tables of the executable: [load_elf_tables] of
    [nemu/src/monitor/debug/elf.c].

    Buffers of [malloc] and [fread] are the bytes read; an access past the end of one is
    undefined.  The record layouts are those of [elf.h]. *)
From S2P Require Import Prelude Dram Cache Tlb Cpu I8259 Mmio Vga WpPool Machine Devices Expr.
From stdpp Require Import strings.
#[local] Open Scope Z_scope.

(** * elf.h *)
Definition EHDR_SIZE : Z := 52.
Definition SHDR_SIZE : Z := 40.
Definition SYM_SIZE : Z := 16.
Definition ELFMAG : list Z := [0x7f; 0x45; 0x4c; 0x46].
Definition ELFCLASS32 : Z := 1.
Definition ELFDATA2LSB : Z := 1.
Definition EV_CURRENT : Z := 1.
Definition ELFOSABI_SYSV : Z := 0.
Definition ELFOSABI_LINUX : Z := 3.
Definition ET_EXEC : Z := 2.
Definition EM_386 : Z := 3.
Definition SHT_SYMTAB : Z := 2.
Definition SHT_STRTAB : Z := 3.

(** Byte, half-word and word [i] of a buffer. *)
Definition byte_at (b : list Z) (i : Z) : Z := nth (Z.to_nat i) b 0.
Definition half_at (b : list Z) (i : Z) : Z := le_load 2 (byte_at b) i.
Definition word_at (b : list Z) (i : Z) : Z := le_load 4 (byte_at b) i.

Definition e_type (b : list Z) : Z := half_at b 16.
Definition e_machine (b : list Z) : Z := half_at b 18.
Definition e_version (b : list Z) : Z := word_at b 20.
Definition e_shoff (b : list Z) : Z := word_at b 32.
Definition e_shentsize (b : list Z) : Z := half_at b 46.
Definition e_shnum (b : list Z) : Z := half_at b 48.
Definition e_shstrndx (b : list Z) : Z := half_at b 50.

Record Elf32_Shdr := mkShdr { sh_name : Z; sh_type : Z; sh_offset : Z; sh_size : Z }.
Definition shdr_at (b : list Z) : Elf32_Shdr :=
  mkShdr (word_at b 0) (word_at b 4) (word_at b 16) (word_at b 20).

Record Elf32_Sym := mkElfSym { sym_name : Z; sym_value : Z; sym_size : Z; sym_info : Z }.
Definition sym_at (b : list Z) : Elf32_Sym :=
  mkElfSym (word_at b 0) (word_at b 4) (word_at b 8) (byte_at b 12).

(** * Reading the file *)

(** [fread(buf, n, 1, fp); assert(ret == 1)] *)
Definition read_exact (n : Z) : M File (list Z) :=
  f ← getS;
  let '(ret, bytes, f) := fread n f in
  _ ← modify (λ _, f);
  _ ← cassert (ret =? 1);
  mret bytes.

Definition seek_set (p : Z) : M File unit := modify (fseek p).

(** [strcmp(b, s) == 0] for a string [s] of the program. *)
Fixpoint c_streq (b s : list Z) : option bool :=
  match b, s with
  | [], _ => None
  | c :: _, [] => Some (c =? 0)
  | c :: b, x :: s => if c =? x then c_streq b s else Some false
  end.

(** [sh\[i\]] *)
Definition section (sh : list Z) (i : Z) : M File Elf32_Shdr :=
  if (i + 1) * SHDR_SIZE <=? Z.of_nat (length sh)
  then mret (shdr_at (drop (Z.to_nat (i * SHDR_SIZE)) sh)) else fail EUndefined.

Definition section_named (shstrtab : list Z) (s : Elf32_Shdr) (name : string) : M File bool :=
  match c_streq (drop (Z.to_nat (sh_name s)) shstrtab) (bytes_of name) with
  | Some b => mret b
  | None => fail EUndefined
  end.

(** [symtab] and [strtab], NULL until their section is met. *)
Definition Tables : Type := option (list Elf32_Sym) * option (list Z).

Definition parse_syms (b : list Z) (n : Z) : list Elf32_Sym :=
  map (λ i, sym_at (drop (16 * i) b)) (seq 0 (Z.to_nat n)).

Definition load_section (shstrtab : list Z) (s : Elf32_Shdr) (t : Tables) : M File Tables :=
  is_sym ← (if sh_type s =? SHT_SYMTAB then section_named shstrtab s ".symtab" else mret false);
  if is_sym : bool then
    _ ← seek_set (sh_offset s);
    b ← read_exact (sh_size s);
    mret (Some (parse_syms b (sh_size s / SYM_SIZE)), snd t)
  else
    is_str ← (if sh_type s =? SHT_STRTAB then section_named shstrtab s ".strtab" else mret false);
    if is_str : bool then
      _ ← seek_set (sh_offset s);
      b ← read_exact (sh_size s);
      mret (fst t, Some b)
    else mret t.

Fixpoint load_sections (n : nat) (i : Z) (sh shstrtab : list Z) (t : Tables) : M File Tables :=
  match n with
  | O => mret t
  | S n =>
    s ← section sh i;
    t ← load_section shstrtab s t;
    load_sections n (i + 1) sh shstrtab t
  end.

(** The product of two 16-bit numbers is an [int]. *)
Definition load_tables : M File (list Elf32_Sym * list Z) :=
  elf ← read_exact EHDR_SIZE;
  _ ← cassert (streq (take 4 elf) ELFMAG);
  _ ← cassert (byte_at elf 4 =? ELFCLASS32);
  _ ← cassert (byte_at elf 5 =? ELFDATA2LSB);
  _ ← cassert (byte_at elf 6 =? EV_CURRENT);
  _ ← cassert ((byte_at elf 7 =? ELFOSABI_SYSV) || (byte_at elf 7 =? ELFOSABI_LINUX));
  _ ← cassert (byte_at elf 8 =? 0);
  _ ← cassert (e_type elf =? ET_EXEC);
  _ ← cassert (e_machine elf =? EM_386);
  _ ← cassert (e_version elf =? EV_CURRENT);
  let sz := e_shentsize elf * e_shnum elf in
  if 2 ^ 31 <=? sz then fail EUndefined else
  _ ← seek_set (e_shoff elf);
  sh ← read_exact sz;
  str ← section sh (e_shstrndx elf);
  _ ← seek_set (sh_offset str);
  shstrtab ← read_exact (sh_size str);
  t ← load_sections (Z.to_nat (e_shnum elf)) 0 sh shstrtab (None, None);
  match t with
  | (Some syms, Some strs) => mret (syms, strs)
  | _ => fail EAssert
  end.

(** [exec_file] is the file named by the argument, when it opens. *)
Definition load_elf_tables (argc : Z) (exec_file : option File) : result File (list Elf32_Sym * list Z) :=
  if negb (argc =? 2) then Fail_ EAssert else
  match exec_file with
  | None => Fail_ EAssert
  | Some f => load_tables f
  end.

(** * The names

    The debugger reads a name as the C string at [strtab + st_name]. *)
Definition c_string (b : list Z) : option (list Z) :=
  let n := span (λ c, negb (c =? 0)) b in
  if (n =? length b)%nat then None else Some (take n b).

Definition resolve (strtab : list Z) (s : Elf32_Sym) : option Sym :=
  name ← c_string (drop (Z.to_nat (sym_name s)) strtab);
  Some (mkSym name (sym_value s) (sym_size s) (sym_info s)).

(** The table the debugger's model uses; [None] when a name is not in [strtab]. *)
Definition symbols (t : list Elf32_Sym * list Z) : option (list Sym) := mapM (resolve (snd t)) (fst t).
