(* ===== verification/ElfSpec.v ===== *)
(** The loader of the debugger's symbol tables reads back what an executable's tables
    hold: a round trip from symbols through an ELF image. *)
From S2P Require Import Prelude Dram Cache Tlb Cpu I8259 Mmio Vga WpPool Machine Devices Expr ElfTables.
From stdpp Require Import strings.
#[local] Open Scope Z_scope.

#[local] Abbreviation len l := (Z.of_nat (length l)).

(** * Writing *)
Definition le (n : nat) (v : Z) : list Z := map (λ i, (v / 256 ^ Z.of_nat i) mod 256) (seq 0 n).

Definition enc_ehdr (shoff shnum shstrndx : Z) : list Z :=
  ELFMAG ++ [ELFCLASS32; ELFDATA2LSB; EV_CURRENT; ELFOSABI_SYSV; 0] ++ replicate 7 0 ++
  le 2 ET_EXEC ++ le 2 EM_386 ++ le 4 EV_CURRENT ++ le 4 0x100000 ++ le 4 0 ++ le 4 shoff ++ le 4 0 ++
  le 2 52 ++ le 2 32 ++ le 2 0 ++ le 2 40 ++ le 2 shnum ++ le 2 shstrndx.

Definition enc_shdr (h : Elf32_Shdr) : list Z :=
  le 4 (sh_name h) ++ le 4 (sh_type h) ++ replicate 8 0 ++ le 4 (sh_offset h) ++ le 4 (sh_size h) ++ replicate 16 0.

Definition enc_sym (s : Elf32_Sym) : list Z :=
  le 4 (sym_name s) ++ le 4 (sym_value s) ++ le 4 (sym_size s) ++ [sym_info s; 0; 0; 0].

(** The names, each with its terminator, after the empty name. *)
Definition enc_names (l : list Sym) : list Z := concat (map (λ s, st_name s ++ [0]) l).
Definition strtab_of (l : list Sym) : list Z := 0 :: enc_names l.

(** The entries, the first name at [pos]. *)
Fixpoint entries (pos : Z) (l : list Sym) : list Elf32_Sym :=
  match l with
  | [] => []
  | s :: l => mkElfSym pos (st_value s) (st_size s) (st_info s) :: entries (pos + len (st_name s) + 1) l
  end.
Definition symtab_of (l : list Sym) : list Z := concat (map enc_sym (entries 1 l)).

Definition shstrtab_of : list Z := 0 :: bytes_of ".symtab" ++ 0 :: bytes_of ".strtab" ++ 0 :: bytes_of ".shstrtab" ++ [0].

(** Header, strings, symbols, and four section headers. *)
Definition shdrs_of (l : list Sym) : list Elf32_Shdr :=
  [ mkShdr 0 0 0 0;
    mkShdr 1 SHT_SYMTAB (79 + len (strtab_of l)) (16 * len l);
    mkShdr 9 SHT_STRTAB 79 (len (strtab_of l));
    mkShdr 17 SHT_STRTAB 52 27 ].
Definition elf_image (l : list Sym) : list Z :=
  enc_ehdr (79 + len (strtab_of l) + 16 * len l) 4 3 ++ shstrtab_of ++ strtab_of l ++ symtab_of l ++
  concat (map enc_shdr (shdrs_of l)).

(** A file with the bytes [b], just opened. *)
Definition file_at (b : list Z) (pos : Z) : File :=
  mkFile (foldr (λ '(i, v) a, aset (Z.of_nat i) v a) (anew 0) (zip (seq 0 (length b)) b)) (len b) pos false.
Definition file_of (b : list Z) : File := file_at b 0.

(** * Reading back *)
Lemma le_length n v : length (le n v) = n.
Proof. unfold le. now rewrite length_map, length_seq. Qed.

Lemma le_load_le n v k : (k <= n)%nat → 0 <= v → 
  le_load (n - k) (byte_at (le n v)) (Z.of_nat k) = (v / 256 ^ Z.of_nat k) mod 256 ^ Z.of_nat (n - k).
Proof.
  intros Hk Hv. remember (n - k)%nat as m eqn:Hm. revert k Hk Hm. induction m as [|m IH]; intros k Hk Hm; cbn [le_load].
  - now rewrite Z.mod_1_r.
  - replace (Z.of_nat k + 1) with (Z.of_nat (S k)) by lia. rewrite IH by lia.
    assert (byte_at (le n v) (Z.of_nat k) = (v / 256 ^ Z.of_nat k) mod 256) as ->.
    { unfold byte_at, le. rewrite Nat2Z.id. rewrite (nth_indep _ 0 ((v / 256 ^ Z.of_nat 0) mod 256)) by (rewrite length_map, length_seq; lia).
      rewrite (map_nth (λ i, (v / 256 ^ Z.of_nat i) mod 256)). now rewrite seq_nth by lia. }
    assert (0 < 256 ^ Z.of_nat m ∧ 0 < 256 ^ Z.of_nat k) as [? ?] by (split; apply Z.pow_pos_nonneg; lia).
    rewrite !Nat2Z.inj_succ, !Z.pow_succ_r, (Z.mul_comm 256 (256 ^ Z.of_nat k)), <- Z.div_div by lia.
    rewrite (Z.rem_mul_r _ 256) by lia. reflexivity.
Qed.

Lemma word_le v : 0 <= v < 2 ^ 32 → word_at (le 4 v) 0 = v.
Proof.
  intros Hv. unfold word_at. pose proof (le_load_le 4 v 0 ltac:(lia) ltac:(lia)) as H.
  change (Z.of_nat 0) with 0 in H. change (4 - 0)%nat with 4%nat in H. rewrite H. change (256 ^ 0) with 1. rewrite Z.div_1_r. apply Z.mod_small. exact Hv.
Qed.

Lemma file_at_get b pos i : 0 <= i < len b → aget (f_data (file_at b pos)) i = byte_at b i.
Proof.
  intros Hi. unfold file_at, byte_at. cbn [f_data].
  assert (∀ k i, Z.of_nat k <= i < Z.of_nat k + len b →
    aget (foldr (λ '(i, v) a, aset (Z.of_nat i) v a) (anew 0) (zip (seq k (length b)) b)) i = nth (Z.to_nat (i - Z.of_nat k)) b 0) as H.
  { clear Hi i. induction b as [|x b IH]; intros k i Hi; cbn [length] in *; [lia|]. cbn [seq zip zip_with foldr].
    rewrite aget_aset. destruct (Z.eqb_spec (Z.of_nat k) i) as [->|Hne].
    - now rewrite Z.sub_diag.
    - rewrite IH by lia. now replace (Z.to_nat (i - Z.of_nat k)) with (S (Z.to_nat (i - Z.of_nat (S k)))) by lia. }
  rewrite (H 0%nat) by lia. f_equal. lia.
Qed.

(** A read of the middle of a file. *)
Lemma read_mid a b c n : n = len b → b ≠ [] →
  read_exact n (file_at (a ++ b ++ c) (len a)) = Ok b (file_at (a ++ b ++ c) (len a + n)).
Proof.
  intros -> Hb. unfold read_exact. rewrite (bind_Ok getS _ _ _ _ eq_refl). unfold fread. cbn [f_size f_pos file_at f_eof].
  rewrite !length_app. assert (0 < len b) by (destruct b; [done|cbn; lia]).
  replace (Z.max 0 (Z.min (len b) _)) with (len b) by lia. rewrite Z.eqb_refl. replace (0 <? len b) with true by lia.
  replace (len b <? len b) with false by lia. cbn [andb orb].
  rewrite (bind_Ok (modify _) _ _ tt _ eq_refl). change (1 =? 1) with true. rewrite (bind_Ok (cassert true) _ _ tt _ eq_refl).
  unfold mret, M_ret. f_equal.
  - apply (nth_ext _ _ 0 0); [rewrite length_map, length_seq; lia|]. rewrite length_map, length_seq, Nat2Z.id. intros i Hi.
    rewrite (nth_indep _ 0 (aget (f_data (file_at (a ++ b ++ c) (len a))) (len a + Z.of_nat 0))) by (rewrite length_map, length_seq; lia).
    rewrite (map_nth (λ i, aget (f_data (file_at (a ++ b ++ c) (len a))) (len a + Z.of_nat i))), seq_nth by lia.
    rewrite file_at_get by (rewrite !length_app; lia). unfold byte_at. rewrite app_nth2 by lia. rewrite app_nth1 by lia. f_equal. lia.
  - unfold file_at. rewrite !length_app. reflexivity.
Qed.

Lemma seek_file b p q : seek_set q (file_at b p) = Ok tt (file_at b q).
Proof. done. Qed.

(** The parts of the image, computed. *)
Lemma enc_shdr_at h rest : 0 <= sh_name h < 2 ^ 32 → 0 <= sh_type h < 2 ^ 32 → 0 <= sh_offset h < 2 ^ 32 → 0 <= sh_size h < 2 ^ 32 →
  shdr_at (enc_shdr h ++ rest) = h.
Proof.
  intros H1 H2 H3 H4. destruct h as [a b c d]. cbn [sh_name sh_type sh_offset sh_size] in *. unfold shdr_at.
  change (word_at (enc_shdr (mkShdr a b c d) ++ rest) 0) with (word_at (le 4 a) 0).
  change (word_at (enc_shdr (mkShdr a b c d) ++ rest) 4) with (word_at (le 4 b) 0).
  change (word_at (enc_shdr (mkShdr a b c d) ++ rest) 16) with (word_at (le 4 c) 0).
  change (word_at (enc_shdr (mkShdr a b c d) ++ rest) 20) with (word_at (le 4 d) 0).
  now rewrite !word_le.
Qed.

Lemma enc_sym_at s rest : 0 <= sym_name s < 2 ^ 32 → 0 <= sym_value s < 2 ^ 32 → 0 <= sym_size s < 2 ^ 32 →
  sym_at (enc_sym s ++ rest) = s.
Proof.
  intros H1 H2 H3. destruct s as [a b c d]. cbn [sym_name sym_value sym_size] in *. unfold sym_at.
  change (word_at (enc_sym (mkElfSym a b c d) ++ rest) 0) with (word_at (le 4 a) 0).
  change (word_at (enc_sym (mkElfSym a b c d) ++ rest) 4) with (word_at (le 4 b) 0).
  change (word_at (enc_sym (mkElfSym a b c d) ++ rest) 8) with (word_at (le 4 c) 0).
  now rewrite !word_le.
Qed.

(** * The round trip *)
Definition sym_ok (s : Sym) : Prop :=
  Forall (λ c, c ≠ 0) (st_name s) ∧ 0 <= st_value s < 2 ^ 32 ∧ 0 <= st_size s < 2 ^ 32.

Lemma c_string_name name rest : Forall (λ c, c ≠ 0) name → c_string (name ++ 0 :: rest) = Some name.
Proof.
  intros Hn. assert (span (λ c, negb (c =? 0)) (name ++ 0 :: rest) = length name) as E.
  { induction Hn as [|c l Hc _ IH]; cbn [app span]; [done|]. replace (negb (c =? 0)) with true by lia. now rewrite IH. }
  unfold c_string. rewrite E. rewrite length_app. cbn [length]. replace (_ =? _)%nat with false by lia. now rewrite take_app_length.
Qed.

Lemma resolve_name pre name rest b v z i : b = pre ++ name ++ 0 :: rest → Forall (λ c, c ≠ 0) name →
  resolve b (mkElfSym (len pre) v z i) = Some (mkSym name v z i).
Proof. intros -> Hn. unfold resolve. cbn [sym_name]. rewrite Nat2Z.id, drop_app_length, c_string_name by done. reflexivity. Qed.

(** Every entry's name is found in the string table. *)
Lemma resolve_entries pre l : Forall sym_ok l → 
  mapM (resolve (pre ++ enc_names l)) (entries (len pre) l) = Some l.
Proof.
  intros Hl. revert pre; induction Hl as [|s l (Hn & _) _ IH]; intros pre; [done|].
  cbn [entries mapM]. rewrite (resolve_name pre (st_name s) (enc_names l)); [|unfold enc_names; cbn [map concat]; now rewrite <- !app_assoc|exact Hn].
  cbn [mbind option_bind].
  specialize (IH (pre ++ st_name s ++ [0])). rewrite !length_app in IH. cbn [length] in IH.
  replace (pre ++ enc_names (s :: l)) with ((pre ++ st_name s ++ [0]) ++ enc_names l) by (unfold enc_names; cbn [map concat]; now rewrite <- !app_assoc).
  replace (len pre + len (st_name s) + 1) with (Z.of_nat (length pre + (length (st_name s) + 1))) by lia.
  rewrite IH. now destruct s.
Qed.

Lemma entries_length pos l : length (entries pos l) = length l.
Proof. revert pos; induction l as [|s l IH]; intros pos; cbn; [done|]. now rewrite IH. Qed.

Definition entry_ok (s : Elf32_Sym) : Prop := 0 <= sym_name s < 2 ^ 32 ∧ 0 <= sym_value s < 2 ^ 32 ∧ 0 <= sym_size s < 2 ^ 32.

Lemma enc_names_cons s l : len (enc_names (s :: l)) = len (st_name s) + 1 + len (enc_names l).
Proof. unfold enc_names. cbn [map concat]. rewrite !length_app. cbn [length]. lia. Qed.

Lemma entries_ok pos l : Forall sym_ok l → 0 <= pos → pos + len (enc_names l) <= 2 ^ 32 → Forall entry_ok (entries pos l).
Proof.
  intros Hl. revert pos; induction Hl as [|s l (_ & Hv & Hz) _ IH]; intros pos Hp Hb; [constructor|].
  rewrite enc_names_cons in Hb. cbn [entries]. constructor; [|apply IH; lia]. split_and!; cbn; lia.
Qed.

Lemma enc_sym_length s : length (enc_sym s) = 16%nat.
Proof. unfold enc_sym. rewrite !length_app, !le_length. done. Qed.

Lemma enc_syms_length l : length (concat (map enc_sym l)) = (16 * length l)%nat.
Proof. induction l as [|s l IH]; cbn [map concat length]; [done|]. rewrite length_app, enc_sym_length, IH. lia. Qed.

Lemma parse_enc l : Forall entry_ok l → parse_syms (concat (map enc_sym l)) (len l) = l.
Proof.
  intros Hl. unfold parse_syms. rewrite Nat2Z.id.
  induction Hl as [|s l (H1 & H2 & H3) _ IH]; [done|]. cbn [length seq map concat].
  f_equal; [now apply enc_sym_at|]. rewrite <- seq_shift, map_map. etransitivity; [|exact IH]. apply map_ext. intros i.
  f_equal. replace (16 * S i)%nat with (length (enc_sym s) + 16 * i)%nat by (rewrite enc_sym_length; lia).
  now rewrite drop_app_add.
Qed.

Section Image.
Context (l : list Sym) (Hl : Forall sym_ok l) (Hne : l ≠ []).
Context (Hsize : len (elf_image l) < 2 ^ 31).

#[local] Abbreviation ehdr := (enc_ehdr (79 + len (strtab_of l) + 16 * len l) 4 3).
#[local] Abbreviation shdrs := (concat (map enc_shdr (shdrs_of l))).

Lemma enc_shdr_length h : length (enc_shdr h) = 40%nat.
Proof using. unfold enc_shdr. rewrite !length_app, !le_length. done. Qed.

Lemma symtab_length : len (symtab_of l) = 16 * len l.
Proof using. unfold symtab_of. rewrite enc_syms_length, entries_length. lia. Qed.

Lemma image_length : len (elf_image l) = 52 + 27 + len (strtab_of l) + 16 * len l + 160.
Proof using.
  unfold elf_image. rewrite !length_app. cbn [shdrs_of map concat]. rewrite !length_app, !enc_shdr_length.
  pose proof symtab_length. change (length ehdr) with 52%nat. change (length shstrtab_of) with 27%nat. cbn [length]. lia.
Qed.

(** The section headers. *)
Lemma section_shdr i h : shdrs_of l !! i = Some h →
  section shdrs (Z.of_nat i) = mret h.
Proof using Hsize.
  rewrite image_length in Hsize. intros Hi. unfold section, SHDR_SIZE.
  assert (len shdrs = 160) as -> by (cbn [shdrs_of map concat]; rewrite !length_app, !enc_shdr_length; cbn [length]; lia).
  pose proof (lookup_lt_Some _ _ _ Hi) as Hlt. cbn [shdrs_of length] in Hlt. replace (_ <=? 160) with true by lia. f_equal.
  replace (Z.to_nat (Z.of_nat i * 40)) with (40 * i)%nat by lia. clear Hlt.
  assert (∀ h, h ∈ shdrs_of l → 0 <= sh_name h < 2 ^ 32 ∧ 0 <= sh_type h < 2 ^ 32 ∧ 0 <= sh_offset h < 2 ^ 32 ∧ 0 <= sh_size h < 2 ^ 32) as Hr.
  { intros h'. unfold shdrs_of. rewrite !elem_of_cons. intros [-> | [-> | [-> | [-> | []%not_elem_of_nil]]]];
      cbn [sh_name sh_type sh_offset sh_size]; unfold SHT_SYMTAB, SHT_STRTAB; lia. }
  revert i Hi. generalize dependent (shdrs_of l). intros hs Hr. induction hs as [|h' hs IH]; intros i Hi; [now rewrite lookup_nil in Hi|].
  cbn [map concat]. destruct i as [|i]; cbn in Hi.
  - injection Hi as ->. rewrite Nat.mul_0_r, drop_0. destruct (Hr h) as (? & ? & ? & ?); [apply list_elem_of_here|]. now apply enc_shdr_at.
  - replace (40 * S i)%nat with (length (enc_shdr h') + 40 * i)%nat by (rewrite enc_shdr_length; lia). rewrite drop_app_add.
    apply IH; [|exact Hi]. intros x Hx. apply Hr. now right.
Qed.

Lemma mret_bind {S A B} (a : A) (k : A → M S B) : mret a ≫= k = k a.
Proof using. done. Qed.

(** The parts of the image in turn. *)
#[local] Abbreviation img := (elf_image l).

Lemma read_ehdr : read_exact EHDR_SIZE (file_of img) = Ok ehdr (file_at img 52).
Proof using. exact (read_mid [] ehdr _ 52 eq_refl ltac:(done)). Qed.

Lemma read_shdrs : read_exact 160 (file_at img (79 + len (strtab_of l) + 16 * len l)) =
  Ok shdrs (file_at img (79 + len (strtab_of l) + 16 * len l + 160)).
Proof using.
  pose proof symtab_length as Hs.
  assert (img = (ehdr ++ shstrtab_of ++ strtab_of l ++ symtab_of l) ++ shdrs ++ []) as E.
  { unfold elf_image. rewrite app_nil_r, <- !app_assoc. reflexivity. }
  assert (len (ehdr ++ shstrtab_of ++ strtab_of l ++ symtab_of l) = 79 + len (strtab_of l) + 16 * len l) as Hlen.
  { rewrite !length_app. change (length ehdr) with 52%nat. change (length shstrtab_of) with 27%nat. lia. }
  pose proof (read_mid (ehdr ++ shstrtab_of ++ strtab_of l ++ symtab_of l) shdrs [] 160) as R.
  rewrite <- E, Hlen in R. apply R; [|done]. cbn [shdrs_of map concat]. rewrite !length_app, !enc_shdr_length. done.
Qed.

Lemma read_shstrtab : read_exact 27 (file_at img 52) = Ok shstrtab_of (file_at img 79).
Proof using. exact (read_mid ehdr shstrtab_of _ 27 eq_refl ltac:(done)). Qed.

Lemma read_strtab : read_exact (len (strtab_of l)) (file_at img 79) = Ok (strtab_of l) (file_at img (79 + len (strtab_of l))).
Proof using.
  assert (img = (ehdr ++ shstrtab_of) ++ strtab_of l ++ symtab_of l ++ shdrs) as -> by (unfold elf_image; now rewrite <- app_assoc).
  exact (read_mid (ehdr ++ shstrtab_of) (strtab_of l) _ _ eq_refl ltac:(done)).
Qed.

Lemma read_symtab : ∃ p, read_exact (16 * len l) (file_at img (79 + len (strtab_of l))) = Ok (symtab_of l) (file_at img p).
Proof using Hne.
  clear Hsize Hl. pose proof symtab_length as Hs.
  assert (img = (ehdr ++ shstrtab_of ++ strtab_of l) ++ symtab_of l ++ shdrs) as -> by (unfold elf_image; now rewrite <- !app_assoc).
  assert (len (ehdr ++ shstrtab_of ++ strtab_of l) = 79 + len (strtab_of l)) as Hlen.
  { rewrite !length_app. change (length ehdr) with 52%nat. change (length shstrtab_of) with 27%nat. lia. }
  assert (symtab_of l ≠ []) as Hn by (intros E; rewrite E in Hs; destruct l; [done|]; cbn [length] in Hs; lia).
  pose proof (read_mid (ehdr ++ shstrtab_of ++ strtab_of l) (symtab_of l) shdrs (16 * len l) ltac:(lia) Hn) as R.
  rewrite Hlen in R. eexists. exact R.
Qed.

(** The sections: the null header, the symbols, the names, and the section names. *)
Lemma load_section_null t p : load_section shstrtab_of (mkShdr 0 0 0 0) t (file_at img p) = Ok t (file_at img p).
Proof using. done. Qed.

Lemma load_section_symtab t p : ∃ p',
  load_section shstrtab_of (mkShdr 1 SHT_SYMTAB (79 + len (strtab_of l)) (16 * len l)) t (file_at img p) =
  Ok (Some (entries 1 l), snd t) (file_at img p').
Proof using Hl Hne Hsize.
  pose proof image_length as Hi. pose proof Hsize as Hsz. rewrite Hi in Hsz.
  assert (len (strtab_of l) = 1 + len (enc_names l)) as Hs by (unfold strtab_of; cbn [length]; lia).
  unfold load_section. cbn [sh_type sh_size sh_offset]. change (SHT_SYMTAB =? SHT_SYMTAB) with true. cbn iota.
  rewrite (bind_Ok (section_named _ _ _) _ _ true (file_at img p)) by reflexivity. rewrite (bind_Ok _ _ _ _ _ (seek_file _ _ _)).
  destruct read_symtab as (p' & R). rewrite (bind_Ok _ _ _ _ _ R). exists p'. unfold mret, M_ret. do 2 f_equal. f_equal.
  unfold symtab_of, SYM_SIZE. rewrite (Z.mul_comm 16), Z.div_mul by lia. rewrite <- (entries_length 1 l) at 1.
  apply parse_enc, entries_ok; [done|lia|lia].
Qed.

Lemma load_section_strtab t p : load_section shstrtab_of (mkShdr 9 SHT_STRTAB 79 (len (strtab_of l))) t (file_at img p) =
  Ok (fst t, Some (strtab_of l)) (file_at img (79 + len (strtab_of l))).
Proof using.
  unfold load_section. cbn [sh_type sh_size sh_offset]. change (SHT_STRTAB =? SHT_SYMTAB) with false. cbn iota.
  rewrite mret_bind. change (SHT_STRTAB =? SHT_STRTAB) with true. cbn iota.
  rewrite (bind_Ok (section_named _ _ _) _ _ true (file_at img p)) by reflexivity. rewrite (bind_Ok _ _ _ _ _ (seek_file _ _ _)).
  now rewrite (bind_Ok _ _ _ _ _ read_strtab).
Qed.

Lemma load_section_shstrtab t p : load_section shstrtab_of (mkShdr 17 SHT_STRTAB 52 27) t (file_at img p) = Ok t (file_at img p).
Proof using. reflexivity. Qed.

Lemma load_sections_run p : ∃ p',
  load_sections 4 (Z.of_nat 0) shdrs shstrtab_of (None, None) (file_at img p) =
  Ok (Some (entries 1 l), Some (strtab_of l)) (file_at img p').
Proof using Hl Hne Hsize.
  cbn [load_sections]. change (Z.of_nat 0 + 1) with (Z.of_nat 1). change (Z.of_nat 1 + 1) with (Z.of_nat 2).
  change (Z.of_nat 2 + 1) with (Z.of_nat 3).
  rewrite (section_shdr 0 _ eq_refl), mret_bind, (bind_Ok _ _ _ _ _ (load_section_null _ _)).
  destruct (load_section_symtab (None, None) p) as (p1 & E1).
  rewrite (section_shdr 1 _ eq_refl), mret_bind, (bind_Ok _ _ _ _ _ E1).
  rewrite (section_shdr 2 _ eq_refl), mret_bind, (bind_Ok _ _ _ _ _ (load_section_strtab _ _)).
  rewrite (section_shdr 3 _ eq_refl), mret_bind, (bind_Ok _ _ _ _ _ (load_section_shstrtab _ _)).
  eexists. reflexivity.
Qed.

Lemma load_tables_run : ∃ p, load_tables (file_of img) = Ok (entries 1 l, strtab_of l) (file_at img p).
Proof using Hl Hne Hsize.
  pose proof image_length as Hi. pose proof Hsize as Hsz. rewrite Hi in Hsz.
  unfold load_tables. rewrite (bind_Ok _ _ _ _ _ read_ehdr).
  do 9 (match goal with |- context [(cassert ?b ≫= ?k) ?s] => change ((cassert b ≫= k) s) with (k tt s) end; cbv beta). cbv zeta.
  change (e_shentsize ehdr * e_shnum ehdr) with 160. change (2 ^ 31 <=? 160) with false. cbn iota.
  change (e_shoff ehdr) with (word_at (le 4 (79 + len (strtab_of l) + 16 * len l)) 0). rewrite word_le by lia.
  rewrite (bind_Ok _ _ _ _ _ (seek_file _ _ _)), (bind_Ok _ _ _ _ _ read_shdrs).
  change (e_shstrndx ehdr) with (Z.of_nat 3). rewrite (section_shdr 3 _ eq_refl), mret_bind. cbn [sh_offset sh_size].
  rewrite (bind_Ok _ _ _ _ _ (seek_file _ _ _)), (bind_Ok _ _ _ _ _ read_shstrtab).
  change (Z.to_nat (e_shnum ehdr)) with 4%nat. destruct (load_sections_run 79) as (p & E). change 0 with (Z.of_nat 0) at 1.
  rewrite (bind_Ok _ _ _ _ _ E). now exists p.
Qed.
End Image.

(** C34: the loader of the debugger's tables reads back what was written: for every list of
    symbols (values and sizes of 32 bits, names of non-zero characters, any number of
    them but none, as long as the image is shorter than 2^31 bytes), the image of an executable that holds them in a .symtab and a .strtab
    section is accepted, and the names, values, sizes and kinds the debugger then looks
    up are those of the list, in order. *)
Theorem elf_round_trip l : l ≠ [] → Forall sym_ok l → len (elf_image l) < 2 ^ 31 →
  ∃ t f, load_elf_tables 2 (Some (file_of (elf_image l))) = Ok t f ∧ symbols t = Some l.
Proof.
  intros Hne Hl Hsize. destruct (load_tables_run l Hl Hne Hsize) as (p & E). do 2 eexists. split; [exact E|].
  unfold symbols. exact (resolve_entries [0] l Hl).
Qed.

Definition demo_syms : list Sym :=
  [mkSym (bytes_of "main") 0x800000 32 2; mkSym (bytes_of "") 0 0 0; mkSym (bytes_of "buf") 0x804000 4 1].

Lemma elf_round_trip_witness :
  ∃ t f, load_elf_tables 2 (Some (file_of (elf_image demo_syms))) = Ok t f ∧ symbols t = Some demo_syms.
Proof.
  apply elf_round_trip; [done| |vm_compute; reflexivity].
  repeat constructor; cbn; try done; lia.
Defined.
