(* ===== verification/CpuExec.v ===== *)
(** The main loop and the start-up: [cpu_exec] of [nemu/src/monitor/cpu-exec.c], the
    timer signal and the event polling of [nemu/src/device/sdl.c], and [restart] of
    [nemu/src/monitor/monitor.c].

    What the host does between two instructions is an input of the loop: how many times
    the timer's signal handler runs and what SDL's event queue then holds.  A
    [longjmp] of [raise_intr] restarts the [for] loop without [n --]. *)
From S2P Require Import Prelude Dram Cache Tlb Cpu I8259 Mmio Vga WpPool Machine Memory.
From S2P Require Import Devices Decode DataMov SysIO Exec Expr.

(** * Keys: [nemu/src/device/sdl.h] *)

(** The scan codes of SDL's key symbols 0 to 127 and 256 to 383. *)
Definition sym2scancode_0 : list Z := [
  0; 0; 0; 0; 0; 0; 0; 0;
  14; 15; 0; 0; 0; 28; 0; 0;
  0; 0; 0; 0; 0; 0; 0; 0;
  0; 0; 0; 1; 0; 0; 0; 0;
  57; 0; 0; 0; 0; 0; 0; 40;
  0; 0; 0; 0; 51; 12; 52; 53;
  11; 2; 3; 4; 5; 6; 7; 8;
  9; 10; 0; 39; 0; 13; 0; 0;
  0; 0; 0; 0; 0; 0; 0; 0;
  0; 0; 0; 0; 0; 0; 0; 0;
  0; 0; 0; 0; 0; 0; 0; 0;
  0; 0; 0; 26; 43; 27; 0; 0;
  41; 30; 48; 46; 32; 18; 33; 34;
  35; 23; 36; 37; 38; 50; 49; 24;
  25; 16; 19; 31; 20; 22; 47; 17;
  45; 21; 44; 0; 0; 0; 0; 83].
Definition sym2scancode_1 : list Z := [
  0; 0; 0; 0; 0; 0; 0; 0;
  0; 0; 0; 0; 0; 0; 0; 0;
  0; 72; 80; 77; 75; 82; 71; 79;
  73; 81; 59; 60; 61; 62; 63; 64;
  65; 66; 67; 68; 87; 88; 0; 0;
  0; 0; 0; 0; 69; 58; 70; 54;
  42; 29; 29; 56; 56; 0; 0; 0;
  0; 0; 0; 0; 0; 0; 0; 0].

(** [sym2scancode\[sym >> 8\]\[sym & 0xff\]], [uint8_t\[2\]\[128\]]; the initialiser's
    missing elements are 0. *)
Definition sym2scancode (sym : Z) : option Z :=
  let col := Z.to_nat (Z.land sym 0xff) in
  if 128 <=? Z.land sym 0xff then None
  else if Z.shiftr sym 8 =? 0 then Some (nth col sym2scancode_0 0)
  else if Z.shiftr sym 8 =? 1 then Some (nth col sym2scancode_1 0)
  else None.

(** What [SDL_PollEvent] returns; [sym] is [event.key.keysym.sym], 32 bits. *)
Inductive SDL_Event := SDL_KEYDOWN (sym : Z) | SDL_KEYUP (sym : Z) | SDL_QUIT | SDL_OTHER.

(** Between two instructions: the number of timer signals, and the events queued. *)
Definition HostInput : Type := nat * list SDL_Event.

Definition TIMER_HZ : Z := 100.
Definition VGA_HZ : Z := 25.

Section CpuExec.
Context `{HRand : !LibcRand, HJunk : !StackJunk}.

Definition mod_sdl (f : Sdl → Sdl) : NEMU unit := modify (λ s, set_sdl (f (sdl s)) s).

(** * The timer signal *)
Definition timer_sig_handler : NEMU unit :=
  _ ← mod_sdl (λ d, mkSdl (u64 (jiffy d + 1)) (device_update_flag d) (update_screen_flag d));
  _ ← timer_intr;
  _ ← mod_sdl (λ d, mkSdl (jiffy d) true (update_screen_flag d));
  s ← getS;
  if jiffy (sdl s) mod (TIMER_HZ / VGA_HZ) =? 0
  then mod_sdl (λ d, mkSdl (jiffy d) (device_update_flag d) true)
  else mret tt.

Fixpoint timer_signals (n : nat) : NEMU unit :=
  match n with
  | O => mret tt
  | S n => _ ← timer_sig_handler; timer_signals n
  end.

(** * device_update *)

(** Byte [vmem\[i\]\[j\]] of the frame buffer, in the pool of the memory bus. *)
Definition vmem_byte (s : Machine) (i j : Z) : Z :=
  aget (mmio_space_pool (mmio s)) (vmem_base (vga s) + i * CTR_COL + j).

(** The key event's code; a symbol outside the table is read out of bounds. *)
Definition key_event (sym flags : Z) : NEMU unit :=
  match sym2scancode sym with
  | Some c => keyboard_intr (Z.lor c flags)
  | None => fail EUndefined
  end.

Fixpoint poll_events (events : list SDL_Event) : NEMU unit :=
  match events with
  | [] => mret tt
  | e :: events =>
    _ ← match e with
        | SDL_KEYDOWN sym => key_event sym 0
        | SDL_KEYUP sym => key_event sym 0x80
        | SDL_QUIT => fail EExit
        | SDL_OTHER => mret tt
        end;
    poll_events events
  end.

(** [events] is the queue when it is polled. *)
Definition device_update (events : list SDL_Event) : NEMU unit :=
  s ← getS;
  if negb (device_update_flag (sdl s)) then mret tt else
  _ ← mod_sdl (λ d, mkSdl (jiffy d) false (update_screen_flag d));
  s ← getS;
  _ ← (if update_screen_flag (sdl s) then
         _ ← in_vga (update_screen (vmem_byte s));
         mod_sdl (λ d, mkSdl (jiffy d) (device_update_flag d) false)
       else mret tt);
  poll_events events.

(** * cpu_exec *)

(** [print_bin_instr] fetches the instruction again, byte by byte. *)
Definition print_bin_instr (eip len : Z) : NEMU unit :=
  for_ (Z.to_nat len) 0 (λ i, _ ← instr_fetch (u32 (eip + i)) 1; mret tt).

(** One round of the loop, up to [n --]; [false] is its [return].  [fuel] bounds [exec]. *)
Definition cpu_exec_round (fuel : nat) (h : HostInput) : NEMU bool :=
  eip_temp ← get_cpu eip;
  instr_len ← exec fuel eip_temp;
  _ ← mod_cpu (λ c, set_eip (u32 (eip c + instr_len)) c);
  _ ← print_bin_instr eip_temp instr_len;
  key ← check_WP;
  _ ← (if negb key then modify (set_nemu_state STOP) else mret tt);
  _ ← timer_signals (fst h);
  _ ← device_update (snd h);
  s ← getS;
  if negb (nemu_state s =? RUNNING) then mret false
  else if INTR (pic s) && nz (IF_ (cpu s)) then
    intr_no ← in_pic i8259_query_intr;
    _ ← in_pic i8259_ack_intr;
    raise_intr intr_no
  else mret true.

(** [setjmp(jbuf); for(; n > 0; n --) ...]: at most [rounds] rounds, each with the next
    input of the host. *)
Fixpoint cpu_exec_loop (rounds fuel : nat) (n : Z) (host : nat → HostInput) : NEMU unit :=
  if 0 <? n then
    match rounds with
    | O => fail EFuel
    | S rounds => λ s,
      match cpu_exec_round fuel (host O) s with
      | Ok true s => cpu_exec_loop rounds fuel (n - 1) (λ i, host (S i)) s
      | Ok false s => Ok tt s
      | Jump s => cpu_exec_loop rounds fuel n (λ i, host (S i)) s
      | Fail_ e => Fail_ e
      end
    end
  else
    s ← getS;
    if nemu_state s =? RUNNING then modify (set_nemu_state STOP) else mret tt.

(** [n] is a [uint32_t]; [cpu_exec(-1)] runs 2^32 - 1 rounds. *)
Definition cpu_exec (rounds fuel : nat) (n : Z) (host : nat → HostInput) : NEMU unit :=
  s ← getS;
  if nemu_state s =? END then mret tt else
  _ ← modify (set_nemu_state RUNNING);
  cpu_exec_loop rounds fuel (u32 n) host.

(** * restart *)
Definition ENTRY_START : Z := 0x100000.
Definition EFLAGS_INITIAL_VALUE : Z := 0x00000002.

(** [entry] is the contents of the file [entry], if it can be opened. *)
Definition load_entry (entry : option (list Z)) : NEMU unit :=
  match entry with
  | None => fail EAssert
  | Some entry =>
    _ ← hw_store ENTRY_START entry;
    cassert (0 <? Z.of_nat (length entry))
  end.

Definition init_TLB_ : NEMU unit := modify (λ s, set_tlb (init_TLB (tlb s)) s).

(** What the host grants at the start: the log file, SDL, its window, the signal handler and
    the timer. *)
Record HostStart := mkHost { log_opens : bool; sdl_starts : bool; has_window : bool; has_handler : bool; has_timer : bool }.

(** The window's format is read without a test.  What SDL draws is the [pixels] of [Vga];
    the handler installed is [timer_sig_handler]. *)
Definition init_sdl (h : HostStart) : NEMU unit :=
  _ ← cassert (sdl_starts h);
  _ ← (if has_window h then mret tt else fail EUndefined);
  _ ← cassert (has_handler h);
  cassert (has_timer h).

Definition restart (h : HostStart) (entry : option (list Z)) (disk : option File) : NEMU unit :=
  _ ← load_entry entry;
  _ ← in_caches init_cache;
  _ ← init_TLB_;
  _ ← mod_cpu (λ c, set_cr0 (set_bitfield (cr0 c) 0 1 0) c);
  _ ← mod_cpu (λ c, set_cr0 (set_bitfield (cr0 c) 31 1 0) c);
  _ ← mod_cpu (DataMov.set_base_15_0 SR_cs 0);
  _ ← mod_cpu (DataMov.set_base_23_16 SR_cs 0);
  _ ← mod_cpu (DataMov.set_base_31_24 SR_cs 0);
  _ ← mod_cpu (DataMov.set_limit_15_0 SR_cs 0xffff);
  _ ← mod_cpu (DataMov.set_limit_19_16 SR_cs 0xf);
  _ ← mod_cpu (set_eip ENTRY_START);
  _ ← mod_cpu (set_eflags EFLAGS_INITIAL_VALUE);
  _ ← init_device disk;
  _ ← init_sdl h;
  in_caches (in_dram init_ddr3).
End CpuExec.
