(* ===== verification/Ui.v ===== *)
(** The debugger's command line: [nemu/src/monitor/debug/ui.c].

    A line is split by [strtok]; the model passes to a handler the rest of the line, from
    which [strtok(NULL, " ")] takes the next word, and which is also [args] (NULL when it
    is empty).  A handler returns what the C function returns and what it prints, one
    [Out] per [printf]; reading lines is an input, as is what the host does while
    [cpu_exec] runs ([CpuExec.HostInput]): the [k]-th call of [cpu_exec] gets [host k]. *)
From S2P Require Import Prelude Dram Cache Tlb Cpu I8259 Mmio Vga WpPool Machine Memory.
From S2P Require Import Expr ElfTables CpuExec.
From stdpp Require Import strings.
#[local] Open Scope Z_scope.

(** * Words: [strtok], [sscanf("%d")] *)
Definition is_blank (c : Z) : bool := c =? chr " ".

(** [strtok(s, " ")]: the word and what is left for [strtok(NULL, " ")]. *)
Definition strtok (s : list Z) : option (list Z * list Z) :=
  let s := drop (span is_blank s) s in
  let n := span (λ c, negb (is_blank c)) s in
  match n with
  | O => None
  | _ => Some (take n s, drop (S n) s)
  end.

Definition isspace (c : Z) : bool := (c =? 32) || ((9 <=? c) && (c <=? 13)).

(** [sscanf(s, "%d", &i)]: without a number [i] keeps its indeterminate value, and one that
    does not fit is undefined. *)
Definition sscanf_d (s : list Z) : option Z :=
  let s := drop (span isspace s) s in
  let '(neg, ds) :=
    match s with
    | c :: s' => if c =? chr "-" then (true, s') else if c =? chr "+" then (false, s') else (false, s)
    | [] => (false, [])
    end in
  match ds with
  | c :: _ =>
    if is_digit c then
      let v := if neg then - scan_u ds else scan_u ds in
      if (- 2 ^ 31 <=? v) && (v <? 2 ^ 31) then Some v else None
    else None
  | [] => None
  end.

(** * What is printed *)
Inductive Out :=
  | O_invalid
  | O_help (i : nat) | O_unknown (cmd : list Z)
  | O_gdtr (base limit : Z) | O_cr0 (v : Z)
  | O_reg (name : string) (v : Z) | O_flag (name : string) (v : Z)
  | O_wp_header | O_wp (no : Z) (str : list Z) (val : Z)
  | O_result (v : Z) | O_expr_wrong
  | O_set_wp (no : Z) (str : list Z) (val : Z)
  | O_mem (addr v : Z) | O_page (addr v : Z)
  | O_frame (j : nat) (ret : Z) (name : list Z) (args : option (list Z)).

(** [cmd_table], the names in order. *)
Definition cmd_names : list string :=
  ["help"; "c"; "q"; "si"; "info"; "x"; "p"; "w"; "d"; "bt"; "page"]%string.

(** A frame as [read_ebp] reads it. *)
Record PartOfStackFrame := mkFrame { prev_ebp : Z; ret_addr : Z; args : list Z }.

Section Ui.
Context `{HRand : !LibcRand, HJunk : !StackJunk}.
(** The bounds of [cpu_exec] and of the walk along the frames. *)
Context (rounds fuel frames : nat) (host : nat → nat → HostInput).

(** What a handler returns, prints, and how many calls of [cpu_exec] there have been. *)
Definition handler : Type := list Z → nat → NEMU (Z * list Out * nat).
Definition done_ (out : list Out) (k : nat) : NEMU (Z * list Out * nat) := mret (0, out, k).

Definition cmd_c : handler := λ _ k, _ ← cpu_exec rounds fuel (-1) (host k); done_ [] (S k).
Definition cmd_q : handler := λ _ k, mret (-1, [], k).

(** [for(; i > 0; i--) cpu_exec(1);] *)
Fixpoint si_loop (i : nat) (k : nat) : NEMU nat :=
  match i with
  | O => mret k
  | S i => _ ← cpu_exec rounds fuel 1 (host k); si_loop i (S k)
  end.

Definition cmd_si : handler := λ rest k,
  match strtok rest with
  | None => _ ← cpu_exec rounds fuel 1 (host k); done_ [] (S k)
  | Some (arg, _) =>
    match sscanf_d arg with
    | None => fail EUndefined
    | Some i => k ← si_loop (Z.to_nat i) k; done_ [] k
    end
  end.

(** [print_wp]: the list in use, at most [walk_fuel] nodes. *)
Fixpoint print_wp_from (n : nat) (h : option wptr) : M WpState (list Out) :=
  match h with
  | None => mret []
  | Some p =>
    match n with
    | O => fail EFuel
    | S n =>
      w ← deref p;
      l ← print_wp_from n (next w);
      mret (O_wp (NO w) (wp_str w) (wp_val w) :: l)
    end
  end.
Definition print_wp : NEMU (list Out) := in_wps (s ← getS; print_wp_from walk_fuel (WpPool.head s)).

Definition cmd_info : handler := λ rest k,
  match strtok rest with
  | None => done_ [O_invalid] k
  | Some (arg, _) =>
    if (2 <? Z.of_nat (length arg)) || (negb (nth 0 arg 0 =? chr "r") && negb (nth 0 arg 0 =? chr "w"))
    then done_ [O_invalid] k
    else
      s ← getS;
      let c := cpu s in
      if streq arg (bytes_of "rs") then done_ [O_gdtr (gdtr_base c) (gdtr_limit c)] k
      else if streq arg (bytes_of "rc") then done_ [O_cr0 (cr0 c)] k
      else if streq arg (bytes_of "r") then
        done_ [O_reg "eax" (gpr_l R_EAX c); O_reg "ecx" (gpr_l R_ECX c); O_reg "edx" (gpr_l R_EDX c);
               O_reg "ebx" (gpr_l R_EBX c); O_reg "esp" (gpr_l R_ESP c); O_reg "ebp" (gpr_l R_EBP c);
               O_reg "esi" (gpr_l R_ESI c); O_reg "edi" (gpr_l R_EDI c); O_reg "eip" (eip c)] k
      else if streq arg (bytes_of "rf") then
        done_ [O_flag "CF" (CF c); O_flag "OF" (OF c); O_flag "ZF" (ZF c);
               O_flag "PF" (PF c); O_flag "SF" (SF c); O_flag "DF" (DF c)] k
      else if streq arg (bytes_of "w") then l ← print_wp; done_ (O_wp_header :: l) k
      else done_ [] k
  end.

Definition cmd_p : handler := λ rest k,
  match rest with
  | [] => done_ [O_invalid] k
  | _ =>
    v ← expr rest;
    done_ [match v with Some num => O_result num | None => O_expr_wrong end] k
  end.

Definition cmd_d : handler := λ rest k,
  match strtok rest with
  | None => fail EUndefined
  | Some (arg, _) =>
    match sscanf_d arg with
    | None => fail EUndefined
    | Some num =>
      suc ← in_wps (delete_wp num);
      _ ← cassert (negb (suc =? 0));
      done_ [] k
    end
  end.

(** [strcpy(w->str, args)] into [char\[32\]], before the expression is evaluated. *)
Definition cmd_w : handler := λ rest k,
  match rest with
  | [] => done_ [O_invalid] k
  | _ =>
    w ← in_wps new_wp;
    if 32 <=? Z.of_nat (length rest) then fail EUndefined else
    _ ← in_wps (update w (set_wp_str rest));
    v ← expr rest;
    match v with
    | None => cassert false ≫= λ _, done_ [] k
    | Some v =>
      _ ← in_wps (update w (set_wp_val v));
      w ← in_wps (deref w);
      done_ [O_set_wp (NO w) (wp_str w) (wp_val w)] k
    end
  end.

(** [for (; num > 0; num--)]: the words from [result + i]. *)
Fixpoint x_loop (num : nat) (result i : Z) : NEMU (list Out) :=
  match num with
  | O => mret []
  | S num =>
    digit ← swaddr_read (u32 (result + i)) 4 3;
    l ← x_loop num result (i + 4);
    mret (O_mem (u32 (result + i)) digit :: l)
  end.

(** [expr] of the next word of the line; a NULL pointer is undefined. *)
Definition expr_word (rest : list Z) : NEMU (option Z) :=
  match strtok rest with
  | None => fail EUndefined
  | Some (str, _) => expr str
  end.

Definition cmd_x : handler := λ rest k,
  match rest with
  | [] => done_ [O_invalid] k
  | _ =>
    match strtok rest with
    | None => fail EUndefined
    | Some (arg, rest) =>
      match sscanf_d arg with
      | None => fail EUndefined
      | Some num =>
        v ← expr_word rest;
        match v with
        | None => done_ [O_expr_wrong] k
        | Some result => l ← x_loop (Z.to_nat num) result 0; done_ l k
        end
      end
    end
  end.

Definition cmd_page : handler := λ rest k,
  match rest with
  | [] => done_ [O_invalid] k
  | _ =>
    v ← expr_word rest;
    match v with
    | None => done_ [O_expr_wrong] k
    | Some result =>
      result ← page_translate result;
      digit ← hwaddr_read result 4;
      done_ [O_page result digit] k
    end
  end.

(** * bt *)
Fixpoint read_args (n : nat) (addr : Z) : NEMU (list Z) :=
  match n with
  | O => mret []
  | S n => v ← swaddr_read (u32 addr) 4 3; l ← read_args n (addr + 4); mret (v :: l)
  end.

Definition read_ebp (addr : Z) : NEMU PartOfStackFrame :=
  p ← swaddr_read addr 4 3;
  r ← swaddr_read (u32 (addr + 4)) 4 3;
  l ← read_args 4 (addr + 8);
  mret (mkFrame p r l).

(** The first function whose extent holds the address. *)
Definition find_function (l : list Sym) (ret : Z) : option Sym :=
  list_find (λ s, (st_value s <=? ret) && (ret <=? u32 (st_value s + st_size s)) &&
                  (Z.land (st_info s) 0xf =? STT_FUNC)) l ≫= λ r, Some (snd r).

(** [tmp\[32\]] keeps the last name found; it is indeterminate at first, and a longer name
    overruns it. *)
Definition bt_name (syms : list Sym) (ret : Z) (tmp : option (list Z)) : NEMU (list Z) :=
  match find_function syms ret with
  | Some f => if 32 <=? Z.of_nat (length (st_name f)) then fail EUndefined else mret (st_name f)
  | None => match tmp with Some t => mret t | None => fail EUndefined end
  end.

Fixpoint bt_loop (n j : nat) (addr ret : Z) (tmp : option (list Z)) : NEMU (list Out) :=
  if addr =? 0 then mret [] else
  match n with
  | O => fail EFuel
  | S n =>
    s ← getS;
    name ← bt_name (symtab (debug s)) ret tmp;
    f ← read_ebp addr;
    l ← bt_loop n (S j) (prev_ebp f) (ret_addr f) (Some name);
    mret (O_frame j ret name (if streq name (bytes_of "main") then None else Some (args f)) :: l)
  end.

Definition cmd_bt : handler := λ _ k,
  addr ← reg_l R_EBP;
  ret ← get_cpu eip;
  l ← bt_loop frames 0 addr ret None;
  done_ l k.

(** * help and the loop *)
Fixpoint find_cmd (l : list string) (cmd : list Z) (i : nat) : option nat :=
  match l with
  | [] => None
  | n :: l => if streq cmd (bytes_of n) then Some i else find_cmd l cmd (S i)
  end.

Definition cmd_help : handler := λ rest k,
  match strtok rest with
  | None => done_ (map O_help (seq 0 (length cmd_names))) k
  | Some (arg, _) =>
    match find_cmd cmd_names arg 0 with
    | Some i => done_ [O_help i] k
    | None => done_ [O_unknown arg] k
    end
  end.

Definition cmd_table : list handler :=
  [cmd_help; cmd_c; cmd_q; cmd_si; cmd_info; cmd_x; cmd_p; cmd_w; cmd_d; cmd_bt; cmd_page].

(** One line: the handler of its first word. *)
Definition ui_line (str : list Z) (k : nat) : NEMU (Z * list Out * nat) :=
  match strtok str with
  | None => done_ [] k
  | Some (cmd, rest) =>
    match find_cmd cmd_names cmd 0 with
    | Some i => nth i cmd_table cmd_q rest k
    | None => done_ [O_unknown cmd] k
    end
  end.

(** The lines typed; at the end of input [readline] returns NULL, which [strlen] is given. *)
Fixpoint ui_mainloop (lines : list (list Z)) (k : nat) : NEMU (list Out) :=
  match lines with
  | [] => fail EUndefined
  | str :: lines =>
    '(r, out, k) ← ui_line str k;
    if r <? 0 then mret out
    else out' ← ui_mainloop lines k; mret (out ++ out')
  end.

(** * main: [nemu/src/main.c] *)

(** [init_monitor]: the log file, the tables of [exec_file], which the debugger then reads, and the
    watchpoint pool.  A table with a name outside the string table is undefined here, though
    the program fails only when it reads that name. *)
Definition init_log (h : HostStart) : NEMU unit := cassert (log_opens h).

Definition init_monitor (h : HostStart) (argc : Z) (exec_file : option File) : NEMU unit :=
  _ ← init_log h;
  match load_elf_tables argc exec_file with
  | Ok t _ =>
    match symbols t with
    | Some syms => _ ← in_debug (modify (λ d, mkDebug (tokens d) (nr_token d) syms (wps d))); in_wps init_wp_pool
    | None => fail EUndefined
    end
  | Jump _ => fail EUndefined
  | Fail_ e => fail e
  end.

(** [reg_test] on the machine's registers and the host's generator, [srand(time(0))] first;
    [sample\[8\]] is written before it is read. *)
Definition run_reg_test (time : Z) : NEMU unit :=
  zoom (λ s, mkRegTest (cpu s) (anew 0) (libc_srand time))
       (λ t s, set_caches (mkCaches (L1 (caches s)) (L2 (caches s)) (cdram (caches s)) (rt_rand t)) (set_cpu (rt_cpu t) s))
       reg_test.

(** [exec_file] is opened for its tables and, as the disk, by [init_ide]. *)
Definition nemu_main (h : HostStart) (argc time : Z) (exec_file : option File) (entry : option (list Z)) (lines : list (list Z)) : NEMU (list Out) :=
  _ ← init_monitor h argc exec_file;
  _ ← run_reg_test time;
  _ ← restart h entry exec_file;
  ui_mainloop lines 0.
End Ui.
