(* ===== verification/StackSpec.v ===== *)
(** The stack over any data memory: push and pop, pusha and popa, call and ret, interrupt
    entry and iret are inverse to each other. *)
From S2P Require Import Prelude Dram Cache L2Facts CacheFacts CacheSpec WorkingSet.
From S2P Require Import Tlb Cpu I8259 Mmio Vga WpPool Machine Memory MemFacts DemoMachine PageSpec.
From S2P Require Import SegMem Devices Decode Arith DataMov ConTran SysIO StringOps Logic Exec.

Lemma load_store_same f a len v : 0 <= len → 0 <= v < 256 ^ len →
  le_load (Z.to_nat len) (flat_store f a len v) a = v.
Proof.
  intros Hl Hv. pose proof (le_load_flat_store (Z.to_nat len) f a v) as H.
  rewrite Z2Nat.id in H by done. rewrite H. now apply Z.mod_small.
Qed.

(** Two stores at one place: the last one stays. *)
Lemma store_store f a len v w x : flat_store (flat_store f a len v) a len w x = flat_store f a len w x.
Proof. unfold flat_store. now destruct (_ && _). Qed.

Lemma load_store_other f a len v b n : b + n <= a ∨ a + len <= b → 0 <= n →
  le_load (Z.to_nat n) (flat_store f a len v) b = le_load (Z.to_nat n) f b.
Proof. intros H Hn. apply le_load_ext. intros k Hk. apply flat_store_out. lia. Qed.

Section Stack.
Context `{HRand : !LibcRand, HJunk : !StackJunk} {DInv : (Z → Z) → Machine → Prop}
  {dok : Z → Z → Z → Prop} `{HData : !DataMem DInv dok}.

(** * push, pop *)
Lemma wp_write_reg J w op v (Q : unit → Machine → Prop) s :
  op_type (operand op (ops_decoded s)) = OP_TYPE_REG → 
  wp J (set_REG w (op_u (operand op (ops_decoded s))) (DATA_TYPE w v)) Q s →
  wp J (write_operand w op v) Q s.
Proof.
  intros Ht HQ. unfold write_operand. repeat wp_step. unfold id. rewrite Ht, Z.eqb_refl. exact HQ.
Qed.

Lemma opcode_reg o r : 0 <= r < 8 → o mod 8 = 0 → Z.land (o + r) 7 = r.
Proof. intros Hr Ho. change 7 with (2 ^ 3 - 1). rewrite land_ones_mod by lia. change (2 ^ 3) with 8. lia. Qed.

Lemma push_pop_run J f s e1 e2 r1 r2 (Q : Z → Machine → Prop) :
  let sp := gpr_l 4 (cpu s) in
  DInv f s → cpu_ok (cpu s) → opcode (ops_decoded s) = 0x50 + r1 → 0 <= r1 < 8 → 0 <= r2 < 8 → r2 ≠ 4 →
  dok 2 (sp - 4) 4 → dok (op_sreg (src (ops_decoded s))) (sp - 4) 4 →
  (∀ s', (∀ i, gpr_l i (cpu s') = if i =? r2 then gpr_l r1 (cpu s) else gpr_l i (cpu s)) →
    cpu s' = set_gpr (gpr (cpu s')) (cpu s) → DInv (flat_store f (sp - 4) 4 0) s' → Q 1 s') →
  wp J (_ ← push_r WL e1; _ ← put_opcode (0x58 + r2); pop_r WL e2) Q s.
Proof using HData.
  intros sp Hs Hc Hop Hr1 Hr2 Hne Hok1 Hok2 HQ. pose proof (dm_ok _ _ _ Hok1) as (Hp & Hle & _).
  pose proof (ok_gpr _ Hc 4) as Hsp. fold sp in Hsp.
  unfold push_r, make_instr_helper, idex, decode_r, decode_r_internal, REG, do_push. cbn [DATA_BYTE Z.eqb Pos.eqb].
  repeat wp_step. rewrite Hop, opcode_reg, (wrap_small 32 r1) by lia.
  repeat wp_step. fold sp. rewrite gpr_l_set_l_eq, (wrap_small 32 (sp - 4)) by lia.
  wp_store Hok1.
  repeat wp_step. unfold put_opcode. repeat wp_step.
  unfold pop_r, make_instr_helper, idex, decode_r, decode_r_internal, REG, do_pop.
  repeat wp_step.
  replace (Z.land (u32 (88 + r2)) 7) with r2 by (rewrite wrap_small, opcode_reg by lia; done).
  rewrite (wrap_small 32 r2) by lia. repeat wp_step. rewrite gpr_l_set_l_eq, (wrap_small 32 (sp - 4)) by lia.
  unfold MEM_R. wp_load Hok2.
  pose proof (ok_gpr _ Hc r1) as Hv. rewrite load_store_same, (wrap_small 32 (gpr_l r1 _)) by (rewrite ?wrap_small; lia).
  apply wp_bind, wp_write_reg; [reflexivity|]. unfold set_REG. wp_norm.
  rewrite (wrap_small 32 r2) by lia. repeat wp_step.
  rewrite gpr_l_set_l_ne, gpr_l_set_l_eq, (wrap_small 32 (sp - 4)) by lia. unfold MEM_W. wp_store Hok1.
  repeat wp_step. apply HQ.
  - intros i. mproj. rewrite !gpr_l_set_l. fold sp. cbn [DATA_BYTE]. unfold DATA_TYPE, bits; cbn [DATA_BYTE Z.mul Pos.mul].
    rewrite !(wrap_small 32 (gpr_l r1 _)), (wrap_small 32 (sp - 4)) by (done || lia).
    replace (r2 =? 4) with false by lia. rewrite Z.eqb_refl, (Z.eqb_sym i r2).
    destruct (Z.eqb_spec 4 i) as [<-|]; [|done]. replace (r2 =? 4) with false by lia.
    rewrite wrap_small by lia. fold sp. lia.
  - reflexivity.
  - refine (dm_ext _ _ _ _ _); [intros b _; apply store_store|]. data.
Qed.

(** pushing a 32-bit register and popping into another (not ESP) copies the one to the
    other and leaves every other register, ESP among them, and the rest of the CPU as it
    was; in memory the slot is left zero ([pop.c] clears it). *)
Theorem push_pop f s e1 e2 r1 r2 :
  let sp := gpr_l R_ESP (cpu s) in
  DInv f s → cpu_ok (cpu s) → opcode (ops_decoded s) = 0x50 + r1 → 0 <= r1 < 8 → 0 <= r2 < 8 → r2 ≠ R_ESP →
  dok 2 (sp - 4) 4 → dok (op_sreg (src (ops_decoded s))) (sp - 4) 4 →
  ∃ s', (_ ← push_r WL e1; _ ← put_opcode (0x58 + r2); pop_r WL e2) s = Ok 1 s' ∧
    (∀ i, gpr_l i (cpu s') = if i =? r2 then gpr_l r1 (cpu s) else gpr_l i (cpu s)) ∧
    cpu s' = set_gpr (gpr (cpu s')) (cpu s) ∧ DInv (flat_store f (sp - 4) 4 0) s'.
Proof using HData.
  intros sp Hs Hc Hop Hr1 Hr2 Hne Hok1 Hok2.
  apply wp_elim_val, (push_pop_run _ f s e1 e2 r1); done.
Qed.

(** * call, ret *)
Lemma call_run J f s pc (Q : Z → Machine → Prop) :
  let sp := gpr_l 4 (cpu s) in let disp := s32 (le_load 4 f (u32 (pc + 1))) in
  DInv f s → eip (cpu s) = pc → dok 1 (u32 (pc + 1)) 4 → dok 1 (sp - 4) 4 →
  (∀ s', cpu s' = set_eip (u32 (pc + disp)) (set_gpr_l 4 (sp - 4) (cpu s)) →
    DInv (flat_store f (sp - 4) 4 (u32 (pc + 4))) s' → same_rest s s' → Q 5 s') →
  wp J (call_i WL pc) Q s.
Proof using HData.
  intros sp disp Hs Hpc Hok1 Hok2 HQ. pose proof (dm_ok _ _ _ Hok2) as (Hp & Hle & _).
  pose proof (dm_ok _ _ _ Hok1) as (Hp1 & Hle1 & _). unfold call_i, decode_i, instr_fetch, get_eip, put_eip.
  repeat wp_step. cbn [DATA_BYTE]. wp_load Hok1. repeat wp_step. fold sp. cbn [DATA_BYTE].
  rewrite gpr_l_set_l_eq, (wrap_small 32 (sp - 4)) by lia. wp_store Hok2.
  repeat wp_step. cbn [eip set_gpr_l set_gpr] in Hd0. rewrite Hpc in Hd0. apply HQ; [|data|done].
  mproj. cbn [eip set_gpr_l set_gpr]. unfold DATA_TYPE_S, bits. cbn [DATA_BYTE Z.mul Pos.mul].
  rewrite !sgn_wrap, Hpc by lia. reflexivity.
Qed.

Lemma ret_run J f s pc (Q : Z → Machine → Prop) :
  let sp := gpr_l 4 (cpu s) in
  DInv f s → dok 1 sp 4 →
  (∀ s', cpu s' = set_gpr_l 4 (sp + 4) (set_eip (le_load 4 f sp) (cpu s)) → DInv f s' → same_rest s s' → Q 1 s') →
  wp J (ret_o WL pc) Q s.
Proof using HData.
  intros sp Hs Hok HQ. pose proof (dm_ok _ _ _ Hok) as (Hp & Hle & _).
  unfold ret_o, put_eip, MEM_R. repeat wp_step. fold sp. cbn [DATA_BYTE]. wp_load Hok.
  repeat wp_step. apply HQ; [|data|done].
  mproj. rewrite wrap_small; [reflexivity|].
  apply (le_load_range_in 4). intros k Hk. apply (dm_bytes f s); [done|lia].
Qed.

(** A near call pushes the address of the next instruction and goes to its target (the
    main loop adds the 5 it returns to EIP), and whatever the called code does, a near
    return at the same ESP with the slot intact goes to the next instruction (the main loop
    adds 1) and restores ESP. *)
Lemma call_returns f s pc :
  let sp := gpr_l R_ESP (cpu s) in
  DInv f s → cpu_ok (cpu s) → eip (cpu s) = pc → dok 1 (u32 (pc + 1)) 4 → dok 1 (sp - 4) 4 →
  ∃ s1, call_i WL pc s = Ok 5 s1 ∧ DInv (flat_store f (sp - 4) 4 (u32 (pc + 4))) s1 ∧
    u32 (eip (cpu s1) + 5) = u32 (pc + 5 + s32 (le_load 4 f (u32 (pc + 1)))) ∧
    gpr_l R_ESP (cpu s1) = sp - 4 ∧
    ∀ g s2, DInv g s2 → gpr_l R_ESP (cpu s2) = sp - 4 →
      (∀ b, sp - 4 <= b < sp → g b = flat_store f (sp - 4) 4 (u32 (pc + 4)) b) →
      ∃ s3, ret_o WL (eip (cpu s2)) s2 = Ok 1 s3 ∧ DInv g s3 ∧
        u32 (eip (cpu s3) + 1) = u32 (pc + 5) ∧ gpr_l R_ESP (cpu s3) = sp ∧
        ∀ i, i ≠ R_ESP → gpr_l i (cpu s3) = gpr_l i (cpu s2).
Proof using HData.
  intros sp Hs Hc Hpc Hok1 Hok2. pose proof (dm_ok _ _ _ Hok2) as (Hp & Hle & _).
  pose proof (ok_gpr _ Hc 4) as Hsp. fold sp in Hsp.
  apply wp_elim_val, (call_run _ f s pc); try done. intros s1 E1 H1 _. rewrite E1. split; [done|].
  change (gpr_l 4 (cpu s)) with sp. split; [exact H1|]. change (gpr_l R_ESP (set_eip ?e ?c)) with (gpr_l R_ESP c).
  rewrite gpr_l_set_l_eq, (wrap_small 32 (sp - 4)) by lia. split; [|split; [done|]].
  { cbn [eip set_eip]. rewrite wrap_add_l. f_equal. lia. }
  intros g s2 Hg Hsp2 Heq. change R_ESP with 4 in *. apply wp_elim_val, (ret_run _ g s2); try done.
  { now rewrite Hsp2. }
  intros s3 E3 H3 _. split; [done|]. split; [done|]. rewrite E3, Hsp2.
  rewrite gpr_l_set_l_eq. replace (sp - 4 + 4) with sp by lia. rewrite (wrap_small 32 sp) by done.
  split; [|split; [done|intros i Hi; now rewrite gpr_l_set_l_ne]].
  cbn [eip set_eip set_gpr_l set_gpr].
  rewrite (le_load_ext 4 g _ (sp - 4)) by (intros k Hk; apply Heq; lia).
  rewrite (load_store_same f (sp - 4) 4) by (try apply (wrap_range 32); lia).
  rewrite wrap_add_l. f_equal. lia.
Qed.
(** * pusha, popa *)

(** The registers of [c] before number [n] have been pushed below [sp] onto [f]. *)
Definition pushed (f : Z → Z) (c : CPU_state) (sp n : Z) (g : Z → Z) : Prop :=
  (∀ i, 0 <= i < n → le_load 4 g (sp - 4 * (i + 1)) = gpr_l i c) ∧
  ∀ b, b < sp - 4 * n ∨ sp <= b → g b = f b.

Lemma pushed_0 f c sp : pushed f c sp 0 f.
Proof using. split; [lia|done]. Qed.

Lemma pushed_S f c sp n g : cpu_ok c → 0 <= n → pushed f c sp n g →
  pushed f c sp (n + 1) (flat_store g (sp - 4 * (n + 1)) 4 (gpr_l n c)).
Proof using.
  intros Hc Hn [Hg Ho]. split.
  - intros i Hi. destruct (Z.eqb_spec i n) as [->|].
    + apply (load_store_same g _ 4); [lia|apply Hc].
    + rewrite (load_store_other g _ 4 _ _ 4) by lia. apply Hg. lia.
  - intros b Hb. rewrite flat_store_out by lia. apply Ho. lia.
Qed.

(** The CPU [c] but for ESP. *)
Definition with_esp (c : CPU_state) (sp : Z) (c' : CPU_state) : Prop :=
  c' = set_gpr (gpr c') c ∧ ∀ i, gpr_l i c' = if i =? 4 then sp else gpr_l i c.

Lemma with_esp_set c c' sp v : with_esp c sp c' → 0 <= v < 2 ^ 32 → with_esp c v (set_gpr_l 4 v c').
Proof using.
  intros [-> H] Hv. split; [reflexivity|]. intros i. rewrite gpr_l_set_l, wrap_small, (Z.eqb_sym i 4) by done.
  destruct (Z.eqb_spec 4 i) as [|Hi]; [done|]. rewrite H. now replace (i =? 4) with false by lia.
Qed.

Lemma pusha_one_run J f g c sp n v s (Q : unit → Machine → Prop) :
  DInv g s → cpu_ok c → pushed f c sp n g → with_esp c (sp - 4 * n) (cpu s) →
  0 <= n → sp < 2 ^ 32 → dok 2 (sp - 4 * (n + 1)) 4 →
  (∀ s', with_esp c (sp - 4 * (n + 1)) (cpu s') → v s' = Ok (gpr_l n c) s') →
  (∀ g s', DInv g s' → pushed f c sp (n + 1) g → with_esp c (sp - 4 * (n + 1)) (cpu s') → Q tt s') →
  wp J (pusha_one WL v) Q s.
Proof using HData.
  intros Hs Hc Hp He Hn Hsp Hok Hv HQ. pose proof (dm_ok _ _ _ Hok) as (Hlo & Hhi & _).
  unfold pusha_one, get_esp, set_esp. repeat wp_step. cbn [DATA_BYTE].
  pose proof (proj2 He 4) as H4. cbn in H4. rewrite H4. replace (sp - 4 * n - 4) with (sp - 4 * (n + 1)) by lia.
  pose proof (with_esp_set c (cpu s) (sp - 4 * n) (sp - 4 * (n + 1)) He ltac:(lia)) as He'.
  eapply wp_Ok; [apply Hv; exact He'|]. unfold MEM_W. rewrite gpr_l_set_l_eq, (wrap_small 32 (sp - _)) by lia.
  wp_store Hok. unfold DATA_TYPE in Hd. rewrite wrap_small in Hd by (apply Hc).
  eapply HQ; [data|apply pushed_S; (done || lia)|exact He'].
Qed.

Lemma reg_push c sp i s : with_esp c sp (cpu s) → 0 <= i < 8 → i ≠ 4 → REG WL i s = Ok (gpr_l i c) s.
Proof using.
  intros [_ H] Hi Hne. unfold REG, reg_l, check_reg_index. rewrite bind_bind, bind_cassert by lia.
  rewrite bind_ret. unfold get_cpu, gets. rewrite H. now replace (i =? 4) with false by lia.
Qed.

Ltac pusha_step Hok Hc :=
  apply wp_bind; eapply pusha_one_run;
  [eassumption|exact Hc|eassumption|eassumption|lia|lia|apply Hok; lia
  |intros; first [reflexivity | eapply reg_push; (eassumption || lia)]
  |let H := fresh in let H' := fresh in intros ? ? ? H H'].

Lemma pusha_run J f s e (Q : Z → Machine → Prop) :
  let sp := gpr_l 4 (cpu s) in
  DInv f s → cpu_ok (cpu s) → (∀ k, 1 <= k <= 8 → dok 2 (sp - 4 * k) 4) →
  (∀ g s', DInv g s' → pushed f (cpu s) sp 8 g → with_esp (cpu s) (sp - 32) (cpu s') → Q 1 s') →
  wp J (pusha WL e) Q s.
Proof using HData.
  intros sp Hs Hc Hok HQ. pose proof (ok_gpr _ Hc 4) as Hsp. fold sp in Hsp. unfold pusha.
  apply wp_bind, wp_get_cpu. cbv beta zeta. change (DATA_TYPE WL (gpr_l R_ESP (cpu s))) with (u32 sp).
  rewrite (wrap_small 32 sp) by done.
  assert (with_esp (cpu s) (sp - 4 * 0) (cpu s)) as H0.
  { split; [now destruct (cpu s)|]. intros i. destruct (Z.eqb_spec i 4) as [->|]; [unfold sp; lia|done]. }
  pose proof (pushed_0 f (cpu s) sp) as Hp0.
  do 8 pusha_step Hok Hc.
  apply wp_ret. eapply HQ; eassumption.
Qed.

(** The registers from number [n] on have been loaded from [g] below [sp]. *)
Definition popped (g : Z → Z) (c : CPU_state) (sp n : Z) (c' : CPU_state) : Prop :=
  c' = set_gpr (gpr c') c ∧ gpr_l 4 c' = sp - 4 * n ∧
  ∀ i, i ≠ 4 → gpr_l i c' = if (n <=? i) && (i <? 8) then le_load 4 g (sp - 4 * (i + 1)) else gpr_l i c.

Lemma popa_one_run J g c sp n i s (Q : unit → Machine → Prop) :
  DInv g s → popped g c sp n (cpu s) → i = n - 1 → 0 <= i < 8 → i ≠ 4 → sp < 2 ^ 32 →
  dok 2 (sp - 4 * n) 4 →
  (∀ s', DInv g s' → popped g c sp i (cpu s') → Q tt s') → wp J (popa_one WL i) Q s.
Proof using HData.
  intros Hs (Hc & H4 & Hr) Hi Hi8 Hne Hsp Hok HQ. pose proof (dm_ok _ _ _ Hok) as (Hlo & Hhi & _).
  unfold popa_one, get_esp, set_esp, set_REG, MEM_R. repeat wp_step. cbn [DATA_BYTE]. rewrite H4.
  wp_load Hok. repeat wp_step. cbn [DATA_BYTE]. rewrite gpr_l_set_l_ne, H4 by lia. apply HQ; [data|].
  assert (0 <= le_load 4 g (sp - 4 * n) < 2 ^ 32) as Hv.
  { apply (le_load_range_in 4). intros k Hk. apply (dm_bytes g s); [done|lia]. }
  mproj. split; [|split].
  - rewrite Hc. reflexivity.
  - rewrite gpr_l_set_l_eq, wrap_small by lia. lia.
  - intros j Hj. rewrite !gpr_l_set_l. replace (4 =? j) with false by lia.
    destruct (Z.eqb_spec i j) as [<-|Hij].
    + replace (_ && _) with true by lia. change (Z.to_nat 4) with 4%nat.
      replace (sp - 4 * (i + 1)) with (sp - 4 * n) by lia. apply (wrap_small 32). exact Hv.
    + rewrite Hr by done. now replace (i <=? j) with (n <=? j) by lia.
Qed.

(** The slot of ESP is skipped. *)
Lemma popped_skip g c sp c' : popped g c sp 5 c' → 0 <= sp - 16 < 2 ^ 32 →
  popped g c sp 4 (set_gpr_l 4 (gpr_l 4 c' + 4) c').
Proof using.
  intros (-> & H4 & Hr) Hsp. split; [reflexivity|]. split.
  - rewrite gpr_l_set_l_eq, H4, wrap_small; lia.
  - intros i Hi. rewrite gpr_l_set_l_ne, Hr by done. now replace (4 <=? i) with (5 <=? i) by lia.
Qed.


Ltac popa_step Hok :=
  apply wp_bind; eapply popa_one_run;
  [eassumption|eassumption|reflexivity|lia|lia|lia|apply (Hok _); lia
  |let H := fresh in let H' := fresh in intros ? H H'; cbn [cpu set_cpu] in H'].

Lemma popa_run J g s sp e (Q : Z → Machine → Prop) :
  DInv g s → gpr_l 4 (cpu s) = sp - 32 → sp < 2 ^ 32 → (∀ k, 1 <= k <= 8 → dok 2 (sp - 4 * k) 4) →
  (∀ s', DInv g s' → popped g (cpu s) sp 0 (cpu s') → Q 1 s') →
  wp J (popa WL e) Q s.
Proof using HData.
  intros Hs H4 Hsp Hok HQ. unfold popa.
  assert (popped g (cpu s) sp 8 (cpu s)) as H0.
  { split; [now destruct (cpu s)|]. split; [lia|]. intros i Hi. now replace (_ && _) with false by lia. }
  pose proof (dm_ok _ _ _ (Hok 8 ltac:(lia))) as (Hlo & _).
  do 3 popa_step Hok. apply wp_bind, wp_get_cpu, wp_bind, wp_mod_cpu.
  match goal with H : popped _ _ _ 5 _ |- _ => apply popped_skip in H; [|lia] end.
  match goal with |- wp _ _ _ ?s' => assert (DInv g s') by data end.
  do 4 popa_step Hok. apply wp_ret, HQ; assumption.
Qed.

(** [pusha] stores the eight registers in the 32 bytes below ESP and nothing else, and
    whatever the code in between does, [popa] at the same ESP with those bytes intact
    restores every register, ESP included (its saved copy is skipped). *)
Theorem pusha_popa f s e :
  let sp := gpr_l R_ESP (cpu s) in
  DInv f s → cpu_ok (cpu s) → (∀ k, 1 <= k <= 8 → dok 2 (sp - 4 * k) 4) →
  ∃ g s1, pusha WL e s = Ok 1 s1 ∧ DInv g s1 ∧
    (∀ b, b < sp - 32 ∨ sp <= b → g b = f b) ∧
    (∀ i, gpr_l i (cpu s1) = if i =? R_ESP then sp - 32 else gpr_l i (cpu s)) ∧
    ∀ h s2 e2, DInv h s2 → gpr_l R_ESP (cpu s2) = sp - 32 → (∀ b, sp - 32 <= b < sp → h b = g b) →
      ∃ s3, popa WL e2 s2 = Ok 1 s3 ∧ DInv h s3 ∧ cpu s3 = set_gpr (gpr (cpu s3)) (cpu s2) ∧
        ∀ i, 0 <= i < 8 → gpr_l i (cpu s3) = gpr_l i (cpu s).
Proof using HData.
  intros sp Hs Hc Hok. pose proof (ok_gpr _ Hc 4) as Hsp. change (gpr_l 4 (cpu s)) with sp in Hsp.
  destruct (wp_elim (pusha WL e) (λ a s1, a = 1 ∧ ∃ g, DInv g s1 ∧ pushed f (cpu s) sp 8 g ∧
    with_esp (cpu s) (sp - 32) (cpu s1)) s) as (a & s1 & Hrun & -> & g & Hg & [Hl Ho] & [_ He]).
  { apply (pusha_run _ f s); try done. intros g s' ? ? ?. split; [done|now exists g]. }
  exists g, s1. split; [done|]. split; [done|]. split; [exact Ho|]. split; [exact He|].
  intros h s2 e2 Hh Hsp2 Heq. apply wp_elim_val, (popa_run _ h s2 sp); try (done || lia).
  intros s3 Hh3 (Hc3 & H4 & Hr). split; [done|]. split; [done|]. split; [done|]. intros i Hi.
  destruct (Z.eqb_spec i 4) as [->|Hne]; [rewrite H4; unfold sp, R_ESP; lia|].
  rewrite Hr by done. replace (_ && _) with true by lia. rewrite <- Hl by done.
  apply le_load_ext. intros k Hk. apply Heq. lia.
Qed.
End Stack.

(** * The theorems on a machine *)
#[local] Existing Instance IsoRand.
#[local] Existing Instance ZeroJunk.

(** ESP = 4096, EIP = 512, EBX = 3735928559, in real mode. *)
Definition stack_cpu : CPU_state :=
  set_eip 512 (set_gpr_l 4 4096 (set_gpr_l 3 3735928559 cpu0)).

(** [call] with displacement 256 at 512. *)
Definition stack_dram : Dram := demo_dram 512 [232; 0; 1; 0; 0] dram0.

(** [push %ebx] is being decoded. *)
Definition stack_machine : Machine :=
  set_ops (mkOperands 0x53 false operand0 operand0 operand0) (demo_machine stack_cpu stack_dram).

Definition push_machine : Machine :=
  set_ops (mkOperands 0x53 false (mkOperand 0 0 0 2 0) operand0 operand0) stack_machine.

Lemma stack_cpu_ok : cpu_ok stack_cpu.
Proof.
  split; [|unfold stack_cpu; cbn; lia..|].
  - intros i. unfold stack_cpu, set_eip, gpr_l; cbn. rewrite !aget_aset, aget_anew.
    repeat (destruct (_ =? _)); unfold wrap; lia.
  - intros i. unfold stack_cpu; cbn. rewrite aget_anew. cbn. lia.
Qed.

Lemma stack_machine_inv : demo_data (hw_get stack_dram) stack_machine.
Proof.
  apply data_ops, demo_data_inv; [|now apply flat_segs_real].
  apply demo_dram_cold; [apply cold_dram0|]. repeat constructor; lia.
Qed.

Lemma push_slot_ok sr : 0 <= sr < 4 → demo_dok sr (gpr_l 4 (cpu stack_machine) - 4) 4.
Proof. change (gpr_l 4 (cpu stack_machine)) with 4096. intros. apply demo_data_ok; lia. Qed.

Lemma push_pop_witness :
  ∃ s', (_ ← push_r WL 0; _ ← put_opcode (0x58 + 1); pop_r WL 1) push_machine = Ok 1 s' ∧
    gpr_l R_ECX (cpu s') = 3735928559.
Proof.
  destruct (push_pop (DInv := demo_data) (dok := demo_dok) (hw_get stack_dram) push_machine 0 1 3 1
    (data_ops _ _ _ stack_machine_inv) stack_cpu_ok eq_refl ltac:(lia) ltac:(lia) ltac:(discriminate)
    (push_slot_ok 2 ltac:(lia)) (push_slot_ok 2 ltac:(lia))) as (s' & H & Hr & _).
  exists s'. split; [exact H|]. refine (eq_trans (Hr R_ECX) _). reflexivity.
Defined.

Lemma call_returns_witness : ∃ s1 s3, call_i WL 512 stack_machine = Ok 5 s1 ∧ u32 (eip (cpu s1) + 5) = 773 ∧
  ret_o WL (eip (cpu s1)) s1 = Ok 1 s3 ∧ u32 (eip (cpu s3) + 1) = 517.
Proof.
  destruct (call_returns (DInv := demo_data) (dok := demo_dok) (hw_get stack_dram) stack_machine 512
    stack_machine_inv stack_cpu_ok eq_refl (demo_data_ok 1 513 4 ltac:(lia) ltac:(lia) ltac:(lia) ltac:(lia))
    (push_slot_ok 1 ltac:(lia))) as (s1 & H1 & Hd & He & Hsp & Hret).
  destruct (Hret _ s1 Hd Hsp (λ _ _, eq_refl)) as (s3 & H3 & _ & He3 & _).
  exists s1, s3. split; [exact H1|]. split; [exact He|]. split; [exact H3|]. exact He3.
Defined.

Lemma pusha_popa_witness : ∃ s1 s3, pusha WL 0 stack_machine = Ok 1 s1 ∧ popa WL 1 s1 = Ok 1 s3 ∧
  gpr_l R_EBX (cpu s3) = 3735928559.
Proof.
  destruct (pusha_popa (DInv := demo_data) (dok := demo_dok) (hw_get stack_dram) stack_machine 0)
    as (g & s1 & H1 & Hg & _ & Hr & Hpop); [exact stack_machine_inv|exact stack_cpu_ok| |].
  - intros k Hk. change (gpr_l R_ESP (cpu stack_machine)) with 4096. apply demo_data_ok; lia.
  - destruct (Hpop g s1 1 Hg (Hr R_ESP) (λ _ _, eq_refl)) as (s3 & H3 & _ & _ & Hr3).
    exists s1, s3. split; [exact H1|]. split; [exact H3|].
    refine (eq_trans (Hr3 R_EBX _) _); [unfold R_EBX; lia|reflexivity].
Defined.
