(* ===== verification/IntrSpec.v ===== *)
(** Interrupt entry and return, over a flat memory without paging: [raise_intr] saves
    EFLAGS, CS and EIP and goes where the gate says; [iret] undoes it. *)
From S2P Require Import Prelude Dram Cache L2Facts CacheFacts CacheSpec WorkingSet.
From S2P Require Import Tlb Cpu I8259 Mmio Vga WpPool Machine Memory MemFacts DemoMachine PageSpec.
From S2P Require Import SegMem Devices Decode Arith DataMov ConTran SysIO StringOps Logic Exec StackSpec.

Section Intr.
Context `{HRand : !LibcRand, HJunk : !StackJunk} {Inv : (Z → Z) → Machine → Prop} {ok : Z → Z → Prop}.
Context `{HMem : !FlatMemory Inv ok}.

Abbreviation dinv := (flat_inv (Inv := Inv)).
Abbreviation dok := (flat_ok (ok := ok)).

Lemma wp_lnaddr_read J a len f (Q : Z → Machine → Prop) s : dok 0 a len → Inv f s → paged (cpu s) = false →
  (∀ t c, Inv f (set_tlb t (set_caches c s)) →
     Q (le_load (Z.to_nat len) f a) (set_tlb t (set_caches c s))) →
  wp J (lnaddr_read a len) Q s.
Proof using HMem.
  intros Hok Hs Hp HQ. destruct (flat_lnaddr_read f s 0 a len Hs Hp Hok) as (s' & Hrun & Hs' & Ho).
  eapply wp_Ok; [exact Hrun|]. rewrite Ho in Hs' |- *. now apply HQ.
Qed.

(** * Descriptors *)

(** The 8 bytes at [d] of a descriptor table can be read. *)
Definition desc_ok (d : Z) : Prop := ∀ k n, 0 <= k → k + n <= 8 → (n = 1 ∨ n = 2 ∨ n = 4) → dok 0 (d + k) n.

Definition desc_base (f : Z → Z) (d : Z) : Z :=
  Z.lor (Z.lor (le_load 2 f (d + 2)) (Z.shiftl (le_load 1 f (d + 4)) 16)) (Z.shiftl (le_load 1 f (d + 7)) 24).

(** The cached descriptor after the five fields are loaded. *)
Definition loaded (b0 b1 b2 l0 l1 old : Z) : Z :=
  set_bitfield (set_bitfield (set_bitfield (set_bitfield (set_bitfield old 16 16 b0) 32 8 b1) 56 8 b2)
    0 16 l0) 48 4 l1.

Lemma loaded_base b0 b1 b2 l0 l1 old sel : 0 <= b0 < 2 ^ 16 → 0 <= b1 < 2 ^ 8 → 0 <= b2 < 2 ^ 8 →
  seg_base (mkSegReg sel (loaded b0 b1 b2 l0 l1 old)) = Z.lor (Z.lor b0 (Z.shiftl b1 16)) (Z.shiftl b2 24).
Proof using.
  intros H0 H1 H2. unfold seg_base, loaded, SegDesc_base_15_0, SegDesc_base_23_16, SegDesc_base_31_24.
  cbn [seg_cache].
  rewrite !(bitfield_set_other _ 48 4), !(bitfield_set_other _ 0 16) by lia.
  rewrite !(bitfield_set_other _ 56 8 _ 16 16), !(bitfield_set_other _ 56 8 _ 32 8) by lia.
  rewrite (bitfield_set_other _ 32 8 _ 16 16) by lia.
  rewrite !bitfield_set_same by lia. now rewrite !Z.mod_small by lia.
Qed.

(** The segment register after [load_cs]. *)
Definition loaded_cs (f : Z → Z) (d sel old : Z) : SegReg :=
  mkSegReg (u16 sel) (loaded (le_load 2 f (d + 2)) (le_load 1 f (d + 4)) (le_load 1 f (d + 7))
    (le_load 2 f d) (Z.land (le_load 1 f (d + 6)) 0xf) old).

Lemma set_sreg_twice i r r' c : set_sreg i r (set_sreg i r' c) = set_sreg i r c.
Proof using. unfold set_sreg, aset; cbn. now rewrite insert_insert_eq. Qed.

Lemma load_desc_u32 d k c r : desc_ok d → 0 <= k → k <= 7 → u32 (gdtr_base c + 8 * INDEX r) = d →
  u32 (gdtr_base c + 8 * INDEX r + k) = d + k.
Proof using.
  intros Hok Hk Hk7 <-. rewrite <- wrap_add_l. apply wrap_small.
  destruct (Hok k 1) as (_ & ? & ? & _); lia.
Qed.

Lemma set_seg_cache_sreg lo m v q x c :
  set_seg_cache 1 lo m v (set_sreg 1 (mkSegReg q x) c) = set_sreg 1 (mkSegReg q (set_bitfield x lo m v)) c.
Proof using.
  unfold set_seg_cache. cbn [sreg set_sreg]. rewrite aget_aset_eq. apply set_sreg_twice.
Qed.

Lemma inv_set_cpu f s c : Inv f s → Inv f (set_cpu c s).
Proof using HMem. apply fm_frame. now split. Qed.

Lemma read_desc_run J f s c q x d off n (Q : Z → Machine → Prop) :
  Inv f s → paged c = false → u32 (gdtr_base c + 8 * bitfield q 3 13) = d → desc_ok d →
  0 <= off → off + n <= 8 → (n = 1 ∨ n = 2 ∨ n = 4) →
  (∀ t k, let s' := set_cpu (set_sreg 1 (mkSegReg q x) c) (set_tlb t (set_caches k s)) in
     Inv f s' → Q (le_load (Z.to_nat n) f (d + off)) s') →
  wp J (read_desc 1 off n) Q (set_cpu (set_sreg 1 (mkSegReg q x) c) s).
Proof using HMem.
  intros Hs Hp Hd Hok Ho Hon Hn HQ. unfold read_desc. repeat wp_step. wp_norm. cbn [gdtr_base set_sreg sreg].
  rewrite aget_aset_eq. rewrite (load_desc_u32 d) by (done || lia).
  apply (wp_lnaddr_read _ _ _ f); [apply Hok; (done || lia)|now apply inv_set_cpu|exact Hp|].
  intros t k H. apply HQ. exact H.
Qed.

Ltac mem :=
  match goal with
  | H : ?I ?f ?s |- ?I ?f ?s' => refine (fm_frame f s s' _ H); split; reflexivity
  end.

Ltac desc_step f s c :=
  apply wp_bind; eapply (read_desc_run _ f _ c); [mem|eassumption|eassumption|eassumption|lia|lia|lia|];
  cbv zeta; intros ? ? ?; try apply wp_bind; apply wp_mod_cpu;
  unfold set_base_15_0, set_base_23_16, set_base_31_24, set_limit_15_0, set_limit_19_16;
  mproj; rewrite set_seg_cache_sreg; collapse.

Lemma load_cs_run J f s sel d (Q : unit → Machine → Prop) :
  Inv f s → paged (cpu s) = false → u32 (gdtr_base (cpu s) + 8 * bitfield (u16 sel) 3 13) = d → desc_ok d →
  (∀ t c, let s' := set_cpu (set_sreg 1 (loaded_cs f d sel (seg_cache (aget (sreg (cpu s)) 1))) (cpu s))
      (set_tlb t (set_caches c s)) in Inv f s' → Q tt s') →
  wp J (load_cs sel) Q s.
Proof using HMem.
  intros Hs Hp Hd Hok HQ. unfold load_cs.
  apply wp_bind, wp_mod_cpu. unfold set_selector.
  do 5 desc_step f s (cpu s).
  rewrite Z.add_0_r in *. eapply HQ. mem.
Qed.
Lemma desc_load_range g s d k n : Inv g s → desc_ok d → 0 <= k → k + n <= 8 → (n = 1 ∨ n = 2 ∨ n = 4) →
  0 <= le_load (Z.to_nat n) g (d + k) < 256 ^ n.
Proof using HMem.
  intros Hg Hd Hk Hkn Hn. destruct (Hd k n Hk Hkn Hn) as (_ & Hlo & Hhi & _).
  replace (256 ^ n) with (256 ^ Z.of_nat (Z.to_nat n)) by (f_equal; lia). apply le_load_range_in. intros b Hb. apply (fm_bytes g s Hg). lia.
Qed.


Lemma desc_base_loaded f s d sel old : Inv f s → desc_ok d → seg_base (loaded_cs f d sel old) = desc_base f d.
Proof using HMem.
  intros Hs Hd. pose proof (λ k n, desc_load_range f s d k n Hs Hd) as Hr. unfold loaded_cs.
  apply loaded_base; [apply (Hr 2 2); lia | apply (Hr 4 1); lia | apply (Hr 7 1); lia].
Qed.

(** * Entry *)
Lemma set_gpr_l_twice i v w c : set_gpr_l i v (set_gpr_l i w c) = set_gpr_l i v c.
Proof using. unfold set_gpr_l, set_gpr, aset; cbn. now rewrite insert_insert_eq. Qed.

Lemma intr_push_run J f s sp g x (Q : unit → Machine → Prop) :
  dinv f s → gpr_l 4 (cpu s) = sp → dok 2 (sp - 4) 4 → sp < 2 ^ 32 →
  (∀ v, g (set_gpr_l 4 v (cpu s)) = x) →
  (∀ s', cpu s' = set_gpr_l 4 (sp - 4) (cpu s) → dinv (flat_store f (sp - 4) 4 x) s' → same_rest s s' → Q tt s') →
  wp J (intr_push (get_cpu g)) Q s.
Proof using HMem.
  intros Hs H4 Hok Hsp Hg HQ. pose proof (dm_ok _ _ _ Hok) as (Hlo & Hhi & _).
  unfold intr_push, get_esp, set_esp. repeat wp_step. rewrite H4.
  rewrite gpr_l_set_l_eq, (wrap_small 32 (sp - 4)) by lia. wp_store Hok.
  rewrite Hg in Hd. apply HQ; [reflexivity|data|done].
Qed.

(** The frame an interrupt leaves at [sp - 12]: EIP, CS, EFLAGS. *)
Definition intr_frame (f : Z → Z) (c : CPU_state) : Z → Z :=
  let sp := gpr_l 4 c in
  flat_store (flat_store (flat_store f (sp - 4) 4 (eflags c)) (sp - 8) 4 (selector (aget (sreg c) 1)))
    (sp - 12) 4 (eip c).

(** Where the gate at [d] of the IDT leads. *)
Definition gate_offset (f : Z → Z) (d : Z) : Z := Z.lor (Z.shiftl (le_load 2 f (d + 6)) 16) (le_load 2 f d).

Lemma idt_u32 d k c no : desc_ok d → 0 <= k → k <= 7 → u32 (idtr_base c + 8 * no) = d →
  u32 (idtr_base c + 8 * no + k) = d + k.
Proof using.
  intros Hok Hk Hk7 <-. rewrite <- wrap_add_l. apply wrap_small.
  destruct (Hok k 1) as (_ & ? & ? & _); lia.
Qed.

Lemma raise_intr_run {A} f s no d e (J : Machine → Prop) :
  let sp := gpr_l 4 (cpu s) in let g := intr_frame f (cpu s) in let sel := le_load 2 g (d + 2) in
  dinv f s → 0 <= sp < 2 ^ 32 → 0 <= no < 256 →
  dok 2 (sp - 4) 4 → dok 2 (sp - 8) 4 → dok 2 (sp - 12) 4 →
  u32 (idtr_base (cpu s) + 8 * no) = d → desc_ok d →
  u32 (gdtr_base (cpu s) + 8 * bitfield sel 3 13) = e → desc_ok e →
  (∀ s', Inv g s' → same_rest s s' →
     cpu s' = set_eip (u32 (desc_base g e + gate_offset g d))
       (set_sreg 1 (loaded_cs g e sel (seg_cache (aget (sreg (cpu s)) 1))) (set_gpr_l 4 (sp - 12) (cpu s))) →
     J s') →
  wp J (raise_intr (A := A) no) (λ _ _, False) s.
Proof using HMem.
  intros sp g sel Hs Hsp Hno Hok1 Hok2 Hok3 Hd Hdok He Heok HJ.
  pose proof (dm_ok _ _ _ Hok3) as (Hlo & _ & _). unfold raise_intr. cbv zeta. rewrite (wrap_small 8 no) by lia.
  apply wp_bind, (intr_push_run _ f _ sp _ (eflags (cpu s))); try done; [lia|]. intros s1 E1 H1 R1.
  apply wp_bind, (intr_push_run _ _ _ (sp - 4) _ (selector (aget (sreg (cpu s)) 1)) _ H1).
  { rewrite E1, gpr_l_set_l_eq. apply wrap_small. lia. }
  { now replace (sp - 4 - 4) with (sp - 8) by lia. }
  { lia. }
  { intros v. now rewrite E1. }
  replace (sp - 4 - 4) with (sp - 8) by lia. rewrite E1, set_gpr_l_twice. intros s2 E2 H2 R2.
  apply wp_bind, (intr_push_run _ _ _ (sp - 8) _ (eip (cpu s)) _ H2).
  { rewrite E2, gpr_l_set_l_eq. apply wrap_small. lia. }
  { now replace (sp - 8 - 4) with (sp - 12) by lia. }
  { lia. }
  { intros v. now rewrite E2. }
  replace (sp - 8 - 4) with (sp - 12) by lia. rewrite E2, set_gpr_l_twice. intros s3 E3 H3 R3.
  fold (intr_frame f (cpu s)) in H3. change (dinv g s3) in H3. destruct H3 as [H3 [Hp3 _]].
  apply wp_bind, wp_get_cpu. cbv beta.
  assert (idtr_base (cpu s3) = idtr_base (cpu s)) as Ei by now rewrite E3.
  assert (∀ k, 0 <= k <= 7 → u32 (idtr_base (cpu s3) + 8 * no + k) = d + k) as Ek.
  { intros k Hk. apply idt_u32; (lia || congruence || done). }
  rewrite (Ek 2), (Ek 6) by lia. replace (u32 (idtr_base (cpu s3) + 8 * no)) with d by congruence.
  apply wp_bind, (wp_lnaddr_read _ _ _ g); [apply Hdok; lia|done|done|]. intros t c H4.
  change (le_load (Z.to_nat 2) g (d + 2)) with sel.
  pose proof (desc_load_range g _ d 2 2 H4 Hdok ltac:(lia) ltac:(lia) ltac:(lia)) as Hsel.
  change (le_load (Z.to_nat 2) g (d + 2)) with sel in Hsel.
  apply wp_bind, (load_cs_run _ g _ _ e); [exact H4|exact Hp3| |exact Heok|].
  { mproj. rewrite E3. cbn [gdtr_base set_gpr_l set_gpr]. now rewrite (wrap_small 16) by lia. }
  cbv zeta. intros t1 c1 H5. mproj_in H5. mproj. collapse.
  apply wp_bind, wp_get_cpu. mproj. cbn [sreg set_sreg]. rewrite aget_aset_eq. unfold loaded_cs at 1.
  pose proof (λ k n, desc_load_range g _ e k n H5 Heok) as Hr.
  rewrite loaded_base by (first [apply (Hr 2 2); lia | apply (Hr 4 1); lia | apply (Hr 7 1); lia]).
  fold (desc_base g e).
  apply wp_bind, (wp_lnaddr_read _ _ _ g).
  { replace d with (d + 0) by lia. apply Hdok; lia. }
  { mem. }
  { exact Hp3. }
  intros t2 c2 H6. apply wp_bind, (wp_lnaddr_read _ _ _ g); [apply Hdok; lia|mem|exact Hp3|].
  intros t3 c3 H7. apply wp_bind, wp_mod_cpu, wp_longjmp. apply HJ; [mem|destruct (same_rest_trans _ _ _ R1 (same_rest_trans _ _ _ R2 R3)); split; assumption|].
  mproj. rewrite E3. reflexivity.
Qed.

(** * Return *)
Lemma flat_selector g s v : dinv g s → dinv g (set_cpu (set_selector 1 v (cpu s)) s).
Proof using HMem.
  intros [Hs [Hp Hb]]. split; [mem|]. split; [exact Hp|]. intros Hpe sr Hsr. unfold set_selector.
  mproj. cbn [sreg set_sreg]. destruct (Z.eqb_spec sr 1) as [->|Hne].
  - rewrite aget_aset_eq. exact (Hb Hpe 1 Hsr).
  - rewrite aget_aset_ne by congruence. exact (Hb Hpe sr Hsr).
Qed.

Lemma iret_run J g s p pc (Q : Z → Machine → Prop) :
  dinv g s → gpr_l 4 (cpu s) = p → p + 12 <= 2 ^ 32 → dok 2 p 4 → dok 2 (p + 4) 4 → dok 2 (p + 8) 4 →
  (∀ s', dinv g s' → eip (cpu s') = le_load 4 g p → eflags (cpu s') = le_load 4 g (p + 8) →
     selector (aget (sreg (cpu s')) 1) = u16 (le_load 4 g (p + 4)) →
     (∀ i, gpr_l i (cpu s') = if i =? 4 then u32 (p + 12) else gpr_l i (cpu s)) → same_rest s s' →
     gdtr_base (cpu s') = gdtr_base (cpu s) ∧ idtr_base (cpu s') = idtr_base (cpu s) → Q 0 s') →
  wp J (iret pc) Q s.
Proof using HMem.
  intros Hs H4 Hp Hok1 Hok2 Hok3 HQ. pose proof (dm_ok _ _ _ Hok1) as (Hlo & Hhi & _).
  unfold iret, get_esp, set_esp, put_eip. repeat wp_step. rewrite H4. wp_load Hok1.
  repeat wp_step. change (gpr_l 4 (set_eip ?e ?c)) with (gpr_l 4 c). rewrite H4.
  rewrite gpr_l_set_l_eq, (wrap_small 32 (p + 4)) by lia. 
  wp_load Hok2.
  apply wp_bind, wp_mod_cpu. apply (flat_selector _ _ (le_load (Z.to_nat 4) g (p + 4))) in Hd0.
  repeat wp_step. change (gpr_l 4 (set_selector 1 ?v ?c)) with (gpr_l 4 c).
  rewrite !gpr_l_set_l_eq, !(wrap_small 32 (p + 4)), (wrap_small 32 (p + 4 + 4)) by lia.
  replace (p + 4 + 4) with (p + 8) by lia. wp_load Hok3. repeat wp_step.
  assert (∀ a, 0 < a → a + 4 <= 2 ^ 32 → 0 <= le_load 4 g a < 2 ^ 32) as Hr.
  { intros a Ha1 Ha2. apply (le_load_range_in 4). intros b Hb. apply (dm_bytes g s Hs). lia. }
  apply HQ; mproj; cbn [eip eflags sreg set_gpr_l set_gpr set_eflags set_selector set_sreg set_eip].
  - data.
  - change (Z.to_nat 4) with 4%nat. apply wrap_small, Hr; lia.
  - reflexivity.
  - rewrite aget_aset_eq. reflexivity.
  - intros i. rewrite gpr_l_set_l. change (gpr_l ?i (set_eflags ?v ?c)) with (gpr_l i c).
    rewrite gpr_l_set_l_eq, (wrap_small 32 (p + 8)), (Z.eqb_sym i 4) by lia.
    destruct (Z.eqb_spec 4 i) as [_|Hi]; [f_equal; lia|]. rewrite gpr_l_set_l_ne by done.
    change (gpr_l ?i (set_selector 1 ?v ?c)) with (gpr_l i c). now rewrite gpr_l_set_l_ne.
  - done.
  - done.
Qed.

(** What the frame holds. *)
Lemma intr_frame_loads f c : 0 <= selector (aget (sreg c) 1) < 2 ^ 16 → 0 <= eflags c < 2 ^ 32 → 0 <= eip c < 2 ^ 32 →
  let sp := gpr_l 4 c in let g := intr_frame f c in
  le_load 4 g (sp - 12) = eip c ∧ le_load 4 g (sp - 8) = selector (aget (sreg c) 1) ∧
  le_load 4 g (sp - 4) = eflags c.
Proof using.
  intros Hsel Hef Hip sp g. unfold g, intr_frame. fold sp.
  rewrite (load_store_other _ (sp - 12) 4 _ (sp - 8) 4), !(load_store_other _ (sp - 12) 4 _ (sp - 4) 4),
    !(load_store_other _ (sp - 8) 4 _ (sp - 4) 4) by lia.
  rewrite !(load_store_same _ _ 4) by (try change (256 ^ 4) with (2 ^ 32); lia). done.
Qed.

(** C16: an interrupt saves EFLAGS, CS and EIP below ESP, loads CS from the gate and its
    descriptor, and goes to the gate's offset in that segment, leaving EFLAGS (IF included)
    as it was; and whatever the handler does, [iret] at the same ESP with the frame intact
    restores EIP, the CS selector, EFLAGS and ESP. *)
Theorem raise_intr_iret f s no d e :
  let sp := gpr_l R_ESP (cpu s) in let g := intr_frame f (cpu s) in let sel := le_load 2 g (d + 2) in
  dinv f s → cpu_ok (cpu s) → 0 <= no < 256 →
  dok 2 (sp - 4) 4 → dok 2 (sp - 8) 4 → dok 2 (sp - 12) 4 →
  u32 (idtr_base (cpu s) + 8 * no) = d → desc_ok d →
  u32 (gdtr_base (cpu s) + 8 * bitfield sel 3 13) = e → desc_ok e →
  ∃ s1, raise_intr (A := unit) no s = Jump s1 ∧ Inv g s1 ∧
    eip (cpu s1) = u32 (desc_base g e + gate_offset g d) ∧
    selector (aget (sreg (cpu s1)) 1) = u16 sel ∧ seg_base (aget (sreg (cpu s1)) 1) = desc_base g e ∧
    (∀ i, i ≠ 1 → aget (sreg (cpu s1)) i = aget (sreg (cpu s)) i) ∧ cr0 (cpu s1) = cr0 (cpu s) ∧
    eflags (cpu s1) = eflags (cpu s) ∧ gpr_l R_ESP (cpu s1) = sp - 12 ∧
    ∀ h s2, dinv h s2 → gpr_l R_ESP (cpu s2) = sp - 12 → (∀ b, sp - 12 <= b < sp → h b = g b) →
      ∃ s3, iret (eip (cpu s2)) s2 = Ok 0 s3 ∧ dinv h s3 ∧ eip (cpu s3) = eip (cpu s) ∧
        eflags (cpu s3) = eflags (cpu s) ∧
        selector (aget (sreg (cpu s3)) 1) = selector (aget (sreg (cpu s)) 1) ∧
        gpr_l R_ESP (cpu s3) = sp ∧ ∀ i, i ≠ R_ESP → gpr_l i (cpu s3) = gpr_l i (cpu s2).
Proof using HMem.
  intros sp g sel Hs Hc Hno Hok1 Hok2 Hok3 Hd Hdok He Heok.
  pose proof (dm_ok _ _ _ Hok3) as (Hlo & _ & _). pose proof (ok_gpr _ Hc 4) as Hsp.
  change (gpr_l 4 (cpu s)) with sp in Hsp. destruct (intr_frame_loads f (cpu s) (ok_sel _ Hc 1) (ok_eflags _ Hc) (ok_eip _ Hc)) as (L1 & L2 & L3).
  change (intr_frame f (cpu s)) with g in L1, L2, L3. change (gpr_l 4 (cpu s)) with sp in L1, L2, L3.
  apply wp_elim_jump, (raise_intr_run f s no d e); try done. intros s1 H1 _ E1. split; [done|].
  rewrite E1. change (gpr_l R_ESP ?c) with (gpr_l 4 c).
  change (gpr_l 4 (set_eip _ (set_sreg _ _ ?c))) with (gpr_l 4 c). rewrite gpr_l_set_l_eq.
  change (gpr_l 4 (cpu s)) with sp. rewrite (wrap_small 32 (sp - 12)) by lia.
  cbn [eip eflags sreg cr0 set_eip set_sreg set_gpr_l set_gpr]. rewrite aget_aset_eq.
  split; [done|]. split; [done|]. split; [|split; [intros i Hi; now rewrite aget_aset_ne by congruence|]].
  { now apply (desc_base_loaded g s1). }
  split; [done|]. split; [done|]. split; [done|]. intros h s2 Hh H4 Heq.
  assert (∀ a, sp - 12 <= a → a + 4 <= sp → le_load 4 h a = le_load 4 g a) as El.
  { intros a ? ?. apply le_load_ext. intros b Hb. apply Heq. lia. }
  apply wp_elim_val, (iret_run _ h s2 (sp - 12)); try done; [lia|..].
  { now replace (sp - 12 + 4) with (sp - 8) by lia. }
  { now replace (sp - 12 + 8) with (sp - 4) by lia. }
  replace (sp - 12 + 4) with (sp - 8) by lia. replace (sp - 12 + 8) with (sp - 4) by lia.
  intros s3 Hs3 E3 F3 S3 R3 _ _. split; [done|]. split; [done|]. rewrite E3, F3, S3, !El, L1, L2, L3 by lia.
  split; [done|]. split; [done|]. rewrite (wrap_small 16) by apply Hc. split; [done|]. split.
  - rewrite R3. change (4 =? 4) with true. cbv iota. rewrite (wrap_small 32) by lia. lia.
  - intros i Hi. rewrite R3. now replace (i =? 4) with false by (unfold R_ESP in Hi; lia).
Qed.
End Intr.

(** * The theorem on a machine *)
#[local] Existing Instance IsoRand.
#[local] Existing Instance ZeroJunk.

(** The gate of interrupt 2 at 1040 leads to offset 1536 of the segment described at 2056. *)
Definition intr_dram : Dram :=
  demo_dram 1040 [0; 6; 8; 0; 0; 142; 0; 0] (demo_dram 2056 [255; 255; 0; 0; 0; 154; 207; 0] dram0).

Definition intr_machine : Machine :=
  demo_machine (set_cr0 1 (set_gdtr 15 2048 (set_idtr 2047 1024 (set_eflags 514 stack_cpu)))) intr_dram.

Lemma intr_machine_inv : demo_data (hw_get intr_dram) intr_machine.
Proof.
  apply demo_data_inv; [|split; [reflexivity|]; intros _ sr _; cbn; rewrite aget_anew; reflexivity].
  apply demo_dram_cold; [apply demo_dram_cold; [apply cold_dram0|]|]; repeat constructor; lia.
Qed.

Lemma intr_cpu_ok : cpu_ok (cpu intr_machine).
Proof.
  destruct stack_cpu_ok as [Hg He Hi Hs]. split; [exact Hg|cbn; lia|exact Hi|exact Hs].
Qed.

Lemma demo_desc_ok d : 0 < d < 2 ^ 20 → desc_ok (ok := cached_ok (window 0) []) d.
Proof. intros Hd k n Hk Hkn Hn. apply demo_data_ok; lia. Qed.

Lemma raise_intr_iret_witness : ∃ s1 s3, raise_intr (A := unit) 2 intr_machine = Jump s1 ∧
  eip (cpu s1) = 1536 ∧ iret (eip (cpu s1)) s1 = Ok 0 s3 ∧ eip (cpu s3) = 512.
Proof.
  destruct (raise_intr_iret (Inv := cached_inv (window 0) []) (ok := cached_ok (window 0) []) (hw_get intr_dram)
    intr_machine 2 1040 2056 intr_machine_inv intr_cpu_ok ltac:(lia)
    (push_slot_ok 2 ltac:(lia)) (demo_data_ok 2 4088 4 ltac:(lia) ltac:(lia) ltac:(lia) ltac:(lia))
    (demo_data_ok 2 4084 4 ltac:(lia) ltac:(lia) ltac:(lia) ltac:(lia)) eq_refl (demo_desc_ok 1040 ltac:(lia)))
    as (s1 & H1 & Hi & He & Hsel & Hb & Hsr & Hcr0 & _ & Hsp & Hret); [vm_compute; reflexivity|apply demo_desc_ok; lia|].
  assert (demo_data (intr_frame (hw_get intr_dram) (cpu intr_machine)) s1) as Hd1.
  { split; [exact Hi|]. unfold flat_segs, paged, paging, protect_enable. rewrite Hcr0. split; [reflexivity|].
    intros _ sr _. destruct (Z.eqb_spec sr 1) as [->|Hne]; [|rewrite Hsr by done; cbn; now rewrite aget_anew].
    refine (eq_trans Hb _). vm_compute. reflexivity. }
  destruct (Hret _ s1 Hd1 Hsp (λ _ _, eq_refl)) as (s3 & H3 & _ & He3 & _).
  exists s1, s3. split; [exact H1|]. split; [|split; [exact H3|exact He3]].
  refine (eq_trans He _). vm_compute. reflexivity.
Defined.
