(* ===== verification/ArithSpec.v ===== *)
(** Integer arithmetic computes what it should: results, and the flags as carries, signs,
    overflows and parities; and the comparison conditions of the conditional jumps. *)
From S2P Require Import Prelude Dram Cache Tlb Cpu I8259 Mmio Vga WpPool Machine Memory Decode.
From S2P Require Import MemFacts DemoMachine PageSpec SegMem Arith Logic DataMov ConTran.

(** * Words of an operand size *)
Lemma bits_cases w : bits w = 8 ∨ bits w = 16 ∨ bits w = 32.
Proof. destruct w; unfold bits, DATA_BYTE; lia. Qed.

Lemma bits_pow w : 2 ^ bits w = 2 * 2 ^ (bits w - 1) ∧ 0 < 2 ^ (bits w - 1).
Proof. destruct w; vm_compute; done. Qed.

Definition in_width (w : width) (x : Z) : Prop := 0 <= x < 2 ^ bits w.

Lemma DATA_TYPE_range w x : in_width w (DATA_TYPE w x).
Proof. apply wrap_range. pose proof (bits_cases w); lia. Qed.

Lemma DATA_TYPE_small w x : in_width w x → DATA_TYPE w x = x.
Proof. apply wrap_small. Qed.

Lemma MSB_eq w x : in_width w x → MSB w x = b2z (2 ^ (bits w - 1) <=? x).
Proof.
  intros Hx. unfold MSB. rewrite DATA_TYPE_small by done.
  replace (Z.shiftl (DATA_BYTE w) 3 - 1) with (bits w - 1) by (destruct w; reflexivity).
  rewrite Z.shiftr_div_pow2 by (pose proof (bits_cases w); lia).
  unfold in_width in Hx. destruct (bits_pow w) as [E Hp]. destruct (Z.leb_spec (2 ^ (bits w - 1)) x); cbn [b2z].
  - symmetry. apply (Z.div_unique _ _ 1 (x - 2 ^ (bits w - 1))); lia.
  - apply Z.div_small. lia.
Qed.

Lemma DATA_TYPE_S_eq w x : in_width w x →
  DATA_TYPE_S w x = if 2 ^ (bits w - 1) <=? x then x - 2 ^ bits w else x.
Proof.
  intros Hx. unfold DATA_TYPE_S, sgn. fold (wrap (bits w) x). rewrite wrap_small by exact Hx. bsplit; lia.
Qed.

(** A number a signed word holds. *)
Definition fits (w : width) (x : Z) : bool := (- 2 ^ (bits w - 1) <=? x) && (x <? 2 ^ (bits w - 1)).

(** * Parity *)

(** Bits 0 to 7 of [x] hold an even number of ones. *)
Definition even_parity (x : Z) : bool :=
  negb (fold_right xorb false (map (Z.testbit x) [0; 1; 2; 3; 4; 5; 6; 7])).

Lemma testbit_DATA_TYPE w x i : 0 <= i < 8 → Z.testbit (DATA_TYPE w x) i = Z.testbit x i.
Proof. intros Hi. unfold DATA_TYPE, wrap. apply Z.mod_pow2_bits_low. pose proof (bits_cases w); lia. Qed.

Lemma land_1 x : Z.land x 1 = b2z (Z.testbit x 0).
Proof.
  change 1 with (2 ^ 1 - 1) at 1. rewrite land_ones_mod by lia. rewrite Z.bit0_mod. now destruct (Z.testbit x 0).
Qed.

Lemma pf_of_parity w x : pf_of w x = b2z (even_parity x).
Proof.
  unfold pf_of, even_parity. cbv zeta. rewrite land_1.
  repeat (rewrite testbit_DATA_TYPE by lia; rewrite Z.lxor_spec, !Z.shiftr_spec by lia).
  change (0 + 1 + 2 + 4) with 7. change (0 + 1 + 2) with 3. change (0 + 1 + 4) with 5. change (0 + 2 + 4) with 6.
  change (0 + 1) with 1. change (0 + 2) with 2. change (0 + 4) with 4. cbn [map foldr].
  do 8 (match goal with |- context [Z.testbit x ?i] => destruct (Z.testbit x i) end);
    reflexivity.
Qed.

(** * Flags *)

(** [c'] is [c] with CF, SF, ZF, OF and PF set for a result [r] of operand size [w], a
    carry and an overflow; the registers and the other flags are kept. *)
Record flags_set (w : width) (r : Z) (carry ovf : bool) (c c' : CPU_state) : Prop := {
  fs_rest : c' = set_eflags (eflags c') c;
  fs_CF : CF c' = b2z carry;
  fs_ZF : ZF c' = b2z (r =? 0);
  fs_SF : SF c' = b2z (2 ^ (bits w - 1) <=? r);
  fs_OF : OF c' = b2z ovf;
  fs_PF : PF c' = b2z (even_parity r);
  fs_other : ∀ n, 0 <= n → n ∉ [0; 2; 6; 7; 11] → flag n c' = flag n c
}.

Ltac flag_get := repeat first
  [ rewrite flag_set_flag_eq by lia | rewrite flag_set_flag_ne by lia | rewrite b2z_mod2 ].

Lemma update_flags_set w r carry ovf c : in_width w r →
  flags_set w r carry (ovf (b2z (2 ^ (bits w - 1) <=? r))) c (update_flags w r (b2z carry) ovf c).
Proof.
  intros Hr. unfold update_flags. cbv zeta. rewrite MSB_eq, pf_of_parity by done.
  split; [reflexivity|flag_get; reflexivity..|].
  intros n Hn Hl. rewrite !not_elem_of_cons in Hl. destruct Hl as (? & ? & ? & ? & ? & _). now flag_get.
Qed.

(** Sums and differences of words. *)
Lemma add_carry w d s k : in_width w d → in_width w s → 0 <= k <= 1 →
  ¬ (k = 1 ∧ s = 2 ^ bits w - 1) → (DATA_TYPE w (d + s + k) <? d) = (2 ^ bits w <=? d + s + k).
Proof.
  unfold in_width, DATA_TYPE, wrap. intros Hd Hs Hk Hn. generalize dependent (2 ^ bits w). intros m Hd Hs Hn.
  destruct (Z.leb_spec m (d + s + k)).
  - rewrite <- (Z.mod_unique (d + s + k) m 1 (d + s + k - m)); lia.
  - rewrite Z.mod_small; lia.
Qed.

Lemma sub_borrow w d s k : in_width w d → in_width w s → 0 <= k <= 1 → ¬ (k = 1 ∧ s = 2 ^ bits w - 1) →
  (d <? DATA_TYPE w (s + k)) = (d <? s + k).
Proof.
  unfold in_width, DATA_TYPE, wrap. intros Hd Hs Hk Hn. generalize dependent (2 ^ bits w). intros m Hd Hs Hn.
  rewrite Z.mod_small; lia.
Qed.

Lemma add_overflow w d s k : in_width w d → in_width w s → 0 <= k <= 1 →
  (MSB w d =? MSB w s) && negb (b2z (2 ^ (bits w - 1) <=? DATA_TYPE w (d + s + k)) =? MSB w d) =
  negb (fits w (DATA_TYPE_S w d + DATA_TYPE_S w s + k)).
Proof.
  intros Hd Hs Hk. rewrite !MSB_eq, !DATA_TYPE_S_eq by done. unfold in_width, DATA_TYPE, wrap, fits in *.
  destruct (bits_pow w) as [E Hp]. rewrite E in *. clear E. revert Hd Hs Hp. generalize (2 ^ (bits w - 1)). intros h Hd Hs Hp.
  destruct (Z.leb_spec (2 * h) (d + s + k)).
  - rewrite <- (Z.mod_unique (d + s + k) (2 * h) 1 (d + s + k - 2 * h)) by lia. bsplit; cbn in *; lia.
  - rewrite Z.mod_small by lia. bsplit; cbn in *; lia.
Qed.

Lemma sub_overflow w d s k : in_width w d → in_width w s → 0 <= k <= 1 →
  negb (MSB w d =? MSB w s) && (b2z (2 ^ (bits w - 1) <=? DATA_TYPE w (d - (s + k))) =? MSB w s) =
  negb (fits w (DATA_TYPE_S w d - DATA_TYPE_S w s - k)).
Proof.
  intros Hd Hs Hk. rewrite !MSB_eq, !DATA_TYPE_S_eq by done. unfold in_width, DATA_TYPE, wrap, fits in *.
  destruct (bits_pow w) as [E Hp]. rewrite E in *. clear E. revert Hd Hs Hp. generalize (2 ^ (bits w - 1)). intros h Hd Hs Hp.
  destruct (Z.leb_spec 0 (d - (s + k))).
  - rewrite Z.mod_small by lia. bsplit; cbn in *; lia.
  - rewrite <- (Z.mod_unique (d - (s + k)) (2 * h) (-1) (d - (s + k) + 2 * h)) by lia. bsplit; cbn in *; lia.
Qed.

(** * add, sub, cmp, adc, sbb *)
Section ArithOps.
Context `{HRand : !LibcRand, HJunk : !StackJunk}.

Abbreviation src_of s := (op_val (src (ops_decoded s))).
Abbreviation dest_of s := (op_val (dest (ops_decoded s))).

Lemma write_operand_ops o w r v : keeps (λ s, ops_decoded s = o) (write_operand w r v).
Proof using.
  unfold write_operand, get_op, set_REG, set_reg_b, set_reg_w, set_reg_l, check_reg_index, mod_cpu.
  repeat (keeps_step; cbv zeta); try (now apply keeps_modify). now apply keeps_swaddr_write.
Qed.

(** C17: [add] of two words writes their sum modulo the word size; CF is set exactly when the
    unsigned sum overflows, OF exactly when the signed sum does, and ZF, SF, PF describe the
    result (PF: an even number of ones in its low byte); no other flag or register changes
    besides the destination. *)
Theorem add_flags w s s' : in_width w (dest_of s) → in_width w (src_of s) →
  let d := dest_of s in let v := src_of s in
  write_operand w op_dest (DATA_TYPE w (d + v)) s = Ok tt s' →
  ∃ c', do_add w s = Ok tt (set_cpu c' s') ∧
    flags_set w (DATA_TYPE w (d + v)) (2 ^ bits w <=? d + v)
      (negb (fits w (DATA_TYPE_S w d + DATA_TYPE_S w v))) (cpu s') c'.
Proof using.
  intros Hd Hv d v Hw. unfold do_add, get_op. rewrite !bind_gets. cbn [operand]. fold d v.
  rewrite <- (Z.add_0_r (d + v)) in Hw |- *. rewrite <- (Z.add_0_r (_ + DATA_TYPE_S w v)).
  rewrite <- add_carry, <- add_overflow by (done || lia).
  rewrite Z.add_0_r in *. rewrite (bind_Ok _ _ _ _ _ Hw).
  eexists. split; [reflexivity|].
  apply (update_flags_set w _ _ (λ sf, (MSB w d =? MSB w v) && negb (sf =? MSB w d))), DATA_TYPE_range.
Qed.

(** [sub] writes the difference modulo the word size and [cmp] writes nothing; both set
    CF exactly when the unsigned difference borrows, OF exactly when the signed one
    overflows, and ZF, SF, PF for the difference. *)
Theorem sub_cmp_flags w s s' : in_width w (dest_of s) → in_width w (src_of s) →
  let d := dest_of s in let v := src_of s in
  let set := flags_set w (DATA_TYPE w (d - v)) (d <? v)
    (negb (fits w (DATA_TYPE_S w d - DATA_TYPE_S w v))) in
  (∃ c', do_cmp w s = Ok tt (set_cpu c' s) ∧ set (cpu s) c') ∧
  (write_operand w op_dest (DATA_TYPE w (d - v)) s = Ok tt s' →
   ∃ c', do_sub w s = Ok tt (set_cpu c' s') ∧ set (cpu s') c').
Proof using.
  intros Hd Hv d v set. unfold set.
  rewrite <- (Z.sub_0_r (_ - DATA_TYPE_S w v)), <- sub_overflow by (done || lia). rewrite Z.add_0_r.
  split; [|intros Hw]; unfold do_cmp, do_sub, get_op; rewrite !bind_gets; cbn [operand]; fold d v.
  - eexists. split; [reflexivity|].
    apply (update_flags_set w _ _ (λ sf, negb (MSB w d =? MSB w v) && (sf =? MSB w v))), DATA_TYPE_range.
  - rewrite (bind_Ok _ _ _ _ _ Hw).
    eexists. split; [reflexivity|].
    apply (update_flags_set w _ _ (λ sf, negb (MSB w d =? MSB w v) && (sf =? MSB w v))), DATA_TYPE_range.
Qed.

(** [adc] and [sbb] set CF for the sum and difference with the incoming carry, except
    when the source is all ones and CF is set: the code's comparison then sees no carry. *)
Theorem adc_sbb_carry w s s1 s2 : in_width w (dest_of s) → in_width w (src_of s) →
  let d := dest_of s in let v := src_of s in let k := CF (cpu s) in
  let edge := (k =? 1) && (v =? 2 ^ bits w - 1) in
  op_size (src (ops_decoded s)) ≠ 1 →
  write_operand w op_dest (DATA_TYPE w (d + v + k)) s = Ok tt s1 →
  write_operand w op_dest (DATA_TYPE w (d - (v + k))) s = Ok tt s2 →
  (∃ c', do_adc w s = Ok tt (set_cpu c' s1) ∧
     flags_set w (DATA_TYPE w (d + v + k)) (if edge then false else 2 ^ bits w <=? d + v + k)
       (negb (fits w (DATA_TYPE_S w d + DATA_TYPE_S w v + k))) (cpu s1) c') ∧
  (∃ c', do_sbb w s = Ok tt (set_cpu c' s2) ∧
     flags_set w (DATA_TYPE w (d - (v + k))) (if edge then false else d <? v + k)
       (negb (fits w (DATA_TYPE_S w d - DATA_TYPE_S w v - k))) (cpu s2) c').
Proof using.
  intros Hd Hv d v k edge Hsz Hw1 Hw2. pose proof (flag_range 0 (cpu s) ltac:(lia)) as Hk. fold k in Hk.
  assert (edge = true → v = 2 ^ bits w - 1 ∧ k = 1) as He by (unfold edge; lia).
  assert (edge = false → ¬ (k = 1 ∧ v = 2 ^ bits w - 1)) as He' by (unfold edge; lia). clearbody edge.
  unfold in_width in Hd, Hv. split.
  - unfold do_adc, get_op, get_cpu. rewrite !bind_gets. cbn [operand]. fold d v k.
    rewrite (bind_Ok _ _ _ _ _ Hw1). eexists. split; [reflexivity|].
    rewrite <- add_overflow by (done || lia).
    replace (if edge then false else 2 ^ bits w <=? d + v + k) with (DATA_TYPE w (d + v + k) <? d).
    { apply (update_flags_set w _ _ (λ sf, (MSB w d =? MSB w v) && negb (sf =? MSB w d))), DATA_TYPE_range. }
    destruct edge; [|apply add_carry; (done || lia || auto)]. destruct (He eq_refl) as [-> ->].
    replace (d + (2 ^ bits w - 1) + 1) with (d + 1 * 2 ^ bits w) by lia.
    unfold DATA_TYPE, wrap. rewrite Z_mod_plus_full, Z.mod_small by done. lia.
  - pose proof (keeps_Ok _ _ _ _ _ (write_operand_ops (ops_decoded s) _ _ _) Hw2 eq_refl) as Ho.
    unfold do_sbb, get_op, get_cpu. rewrite !bind_gets. cbn [operand]. fold v.
    replace (_ && _) with false by lia. rewrite bind_ret, !bind_gets. fold d k.
    rewrite (DATA_TYPE_small w v) by done.
    replace (DATA_TYPE w (d - DATA_TYPE w (v + k))) with (DATA_TYPE w (d - (v + k)))
      by (unfold DATA_TYPE; now rewrite wrap_sub_r).
    rewrite (bind_Ok _ _ _ _ _ Hw2), bind_gets, Ho. cbn [operand]. fold v.
    eexists. split; [reflexivity|]. rewrite <- sub_overflow by (done || lia).
    replace (if edge then false else d <? v + k) with (d <? DATA_TYPE w (v + k)).
    { apply (update_flags_set w _ _ (λ sf, negb (MSB w d =? MSB w v) && (sf =? MSB w v))), DATA_TYPE_range. }
    destruct edge; [|apply sub_borrow; (done || lia || auto)]. destruct (He eq_refl) as [-> ->].
    replace (2 ^ bits w - 1 + 1) with (1 * 2 ^ bits w) by lia. unfold DATA_TYPE, wrap. rewrite Z.mod_mul; lia.
Qed.

(** * mul, div *)

(** The accumulator of an operand size, and its double: AX, DX:AX, EDX:EAX. *)
Definition acc (w : width) (c : CPU_state) : Z :=
  match w with WB => gpr_b R_AL c | WW => gpr_w R_AX c | WL => gpr_l R_EAX c end.
Definition wide_acc (w : width) (c : CPU_state) : Z :=
  match w with
  | WB => gpr_w R_AX c
  | WW => gpr_w R_DX c * 2 ^ 16 + gpr_w R_AX c
  | WL => gpr_l R_EDX c * 2 ^ 32 + gpr_l R_EAX c
  end.

Lemma gpr_w_set_w i j v c : gpr_w j (set_gpr_w i v c) = if i =? j then u16 v else gpr_w j c.
Proof using.
  unfold gpr_w at 1. rewrite gpr_l_set_w. destruct (Z.eqb_spec i j) as [->|]; [|done].
  now rewrite bitfield_set_same by lia.
Qed.

Lemma gpr_w_range i c : 0 <= gpr_w i c < 2 ^ 16.
Proof using. now apply (bitfield_range _ 0 16). Qed.

Lemma gpr_b_range i c : 0 <= i → 0 <= gpr_b i c < 2 ^ 8.
Proof using. intros Hi. apply (bitfield_range _ _ 8); [|lia]. pose proof (Z.shiftr_nonneg i 2). lia. Qed.

Lemma acc_range w c : cpu_ok c → in_width w (acc w c).
Proof using. intros Hc. destruct w; [now apply gpr_b_range|apply gpr_w_range|apply Hc]. Qed.

Lemma reg_acc w s : REG w R_EAX s = Ok (acc w (cpu s)) s.
Proof using. now destruct w. Qed.

(** [mul] leaves the exact product of the accumulator and its operand in AX, DX:AX or
    EDX:EAX. *)
Theorem mul_exact w s : cpu_ok (cpu s) → in_width w (src_of s) →
  ∃ s', do_mul w s = Ok tt s' ∧ s' = set_cpu (set_gpr (gpr (cpu s')) (cpu s)) s ∧
    wide_acc w (cpu s') = acc w (cpu s) * src_of s.
Proof using.
  intros Hc Hv. pose proof (acc_range w _ Hc) as Ha. unfold in_width in *.
  unfold do_mul, get_op. rewrite bind_gets, (bind_Ok _ _ _ _ _ (reg_acc w s)). cbn [operand].
  set (v := src_of s) in *. set (a := acc w (cpu s)) in *.
  assert (0 <= a * v < 2 ^ bits w * 2 ^ bits w) as Hp by nia.
  rewrite (wrap_small 64) by (destruct w; unfold bits, DATA_BYTE in Hp; lia).
  destruct w; eexists; (split; [reflexivity|]; split; [reflexivity|]); cbn [cpu set_cpu wide_acc].
  all: unfold bits, DATA_BYTE in *; regs; rewrite ?gpr_w_set_w, ?gpr_l_set_l; cbn [Z.eqb Pos.eqb];
    rewrite ?gpr_w_set_w, ?gpr_l_set_l; cbn [Z.eqb Pos.eqb].
  - apply wrap_small. lia.
  - rewrite Z.shiftr_div_pow2 by lia. change 65535 with (2 ^ 16 - 1). rewrite land_ones_mod, !wrap_small; lia.
  - rewrite Z.shiftr_div_pow2 by lia. change 4294967295 with (2 ^ 32 - 1). rewrite land_ones_mod, !wrap_small; lia.
Qed.

(** Where [div] leaves the remainder: at one byte the code writes DL, not AH. *)
Definition div_rem (w : width) (c : CPU_state) : Z :=
  match w with WB => gpr_b R_DL c | WW => gpr_w R_DX c | WL => gpr_l R_EDX c end.

Lemma gpr_b_set_other v c : gpr_b R_AL (set_gpr_b R_DL v c) = gpr_b R_AL c.
Proof using.
  unfold gpr_b, set_gpr_b, gpr_l, set_gpr. cbn [gpr].
  change (Z.land R_AL 3) with 0. change (Z.land R_DL 3) with 2. now rewrite aget_aset_ne by lia.
Qed.

Lemma wide_acc_nonneg w c : cpu_ok c → 0 <= wide_acc w c.
Proof using.
  intros Hc. destruct w; cbn [wide_acc].
  - apply gpr_w_range.
  - pose proof (gpr_w_range R_DX c). pose proof (gpr_w_range R_AX c). lia.
  - pose proof (ok_gpr _ Hc R_EDX). pose proof (ok_gpr _ Hc R_EAX). lia.
Qed.

Lemma lor_pair d a n : n = 16 ∨ n = 32 → 0 <= d < 2 ^ n → 0 <= a < 2 ^ n →
  Z.lor (u64 (Z.shiftl d n)) a = d * 2 ^ n + a.
Proof using.
  intros Hn Hd Ha. rewrite wrap_small, lor_shiftl_add by (rewrite ?Z.shiftl_mul_pow2; destruct Hn as [-> | ->]; lia).
  reflexivity.
Qed.

(** C18: [div] by a non-zero operand, when the quotient fits, leaves the quotient of the
    double accumulator in the accumulator and the remainder in DL, DX or EDX; division by
    zero is not handled: it traps in the emulator itself. *)
Theorem div_exact w s : cpu_ok (cpu s) → in_width w (src_of s) →
  let n := wide_acc w (cpu s) in let v := src_of s in
  (v = 0 → do_div w s = Fail_ EUndefined) ∧
  (v ≠ 0 → n / v < 2 ^ bits w →
   ∃ s', do_div w s = Ok tt s' ∧ s' = set_cpu (set_gpr (gpr (cpu s')) (cpu s)) s ∧
     acc w (cpu s') = n / v ∧ div_rem w (cpu s') = n mod v ∧ n = acc w (cpu s') * v + div_rem w (cpu s')).
Proof using.
  intros Hc Hv n v. unfold in_width in Hv. fold v in Hv.
  assert (do_div w s = (if v =? 0 then fail EUndefined else
    _ ← set_REG w R_EAX (n / v); set_REG w R_EDX (n mod v)) s) as ->.
  { unfold do_div, get_op. rewrite bind_gets. cbn [operand]. fold v. rewrite (DATA_TYPE_small w v) by exact Hv.
    destruct w; [reflexivity| |]; unfold n, wide_acc, REG, reg_w, reg_l, check_reg_index, get_cpu;
      rewrite !bind_bind, bind_cassert, bind_ret, bind_gets, !bind_bind, bind_cassert, bind_ret, bind_gets by (regs; lia).
    - change (bits WW) with 16. now rewrite bind_ret, lor_pair by first [lia | apply gpr_w_range].
    - change (bits WL) with 32. now rewrite bind_ret, lor_pair by first [lia | apply Hc]. }
  assert (0 <= n) as Hn by now apply wide_acc_nonneg.
  clearbody n. split; [intros ->; reflexivity|]. intros Hv0 Hq. replace (v =? 0) with false by lia.
  assert (0 <= n / v ∧ 0 <= n mod v < v ∧ n = n / v * v + n mod v) as (Hq0 & Hr & En).
  { pose proof (Z.div_mod n v). pose proof (Z.mod_pos_bound n v). pose proof (Z.div_pos n v). lia. }
  revert Hq Hq0 Hr En. generalize (n / v) (n mod v). intros q r Hq Hq0 Hr En. subst n.
  destruct w; eexists; (split; [reflexivity|]; split; [reflexivity|]); cbn [cpu set_cpu acc div_rem];
    unfold bits, DATA_BYTE in *.
  - change R_EDX with R_DL. change R_EAX with R_AL.
    rewrite gpr_b_set_other, !gpr_b_set_b, !(wrap_small 8) by (unfold R_DL, R_AL; lia). done.
  - regs. rewrite !gpr_w_set_w. cbn [Z.eqb Pos.eqb].
    rewrite !(wrap_small 16) by lia. done.
  - regs. rewrite !gpr_l_set_l. cbn [Z.eqb Pos.eqb].
    rewrite !(wrap_small 32) by lia. done.
Qed.
End ArithOps.

(** * The theorems on a machine *)
#[local] Existing Instance IsoRand.
#[local] Existing Instance ZeroJunk.

(** Operands [v] and register ECX holding [d]. *)
Definition arith_machine (c : CPU_state) (v d : Z) : Machine :=
  set_ops (mkOperands 0 false (mkOperand 2 4 v 0 v) (mkOperand 0 4 1 0 d) operand0) (demo_machine c dram0).

Lemma in_width_WL x : 0 <= x < 2 ^ 32 → in_width WL x.
Proof. done. Qed.

Lemma write_ecx c v d r : in_width WL r → write_operand WL op_dest r (arith_machine c v d) =
  Ok tt (set_cpu (set_gpr_l 1 r c) (arith_machine c v d)).
Proof.
  intros Hr. unfold write_operand, get_op. rewrite bind_gets, DATA_TYPE_small by done. reflexivity.
Qed.

Lemma add_flags_witness : ∃ c', do_add WL (arith_machine cpu0 1 (2 ^ 32 - 1)) =
  Ok tt (set_cpu c' (set_cpu (set_gpr_l 1 0 cpu0) (arith_machine cpu0 1 (2 ^ 32 - 1)))) ∧ CF c' = 1 ∧ OF c' = 0.
Proof.
  destruct (add_flags WL (arith_machine cpu0 1 (2 ^ 32 - 1)) _ (in_width_WL (2 ^ 32 - 1) ltac:(lia))
    (in_width_WL 1 ltac:(lia)) (write_ecx cpu0 1 (2 ^ 32 - 1) 0 (in_width_WL 0 ltac:(lia)))) as (c' & H & Hf).
  exists c'. split; [exact H|]. rewrite (fs_CF _ _ _ _ _ _ Hf), (fs_OF _ _ _ _ _ _ Hf). vm_compute. done.
Defined.

Lemma sub_cmp_flags_witness :
  (∃ c', do_cmp WL (arith_machine cpu0 1 0) = Ok tt (set_cpu c' (arith_machine cpu0 1 0)) ∧ CF c' = 1) ∧
  (∃ c', do_sub WL (arith_machine cpu0 1 0) = Ok tt (set_cpu c' (set_cpu (set_gpr_l 1 (2 ^ 32 - 1) cpu0)
     (arith_machine cpu0 1 0))) ∧ SF c' = 1).
Proof.
  destruct (sub_cmp_flags WL (arith_machine cpu0 1 0) (set_cpu (set_gpr_l 1 (2 ^ 32 - 1) cpu0)
    (arith_machine cpu0 1 0)) (in_width_WL 0 ltac:(lia)) (in_width_WL 1 ltac:(lia))) as [(c1 & H1 & F1) Hsub].
  destruct (Hsub (write_ecx cpu0 1 0 (2 ^ 32 - 1) (in_width_WL (2 ^ 32 - 1) ltac:(lia)))) as (c2 & H2 & F2).
  split.
  - exists c1. split; [exact H1|]. rewrite (fs_CF _ _ _ _ _ _ F1). reflexivity.
  - exists c2. split; [exact H2|]. rewrite (fs_SF _ _ _ _ _ _ F2). reflexivity.
Defined.

(** With CF set and an all-ones source, neither instruction reports the carry. *)
Lemma adc_sbb_carry_witness :
  let s := arith_machine (set_CF 1 cpu0) (2 ^ 32 - 1) 7 in
  (∃ c' s', do_adc WL s = Ok tt (set_cpu c' s') ∧ CF c' = 0) ∧
  (∃ c' s', do_sbb WL s = Ok tt (set_cpu c' s') ∧ CF c' = 0).
Proof.
  intros s. destruct (adc_sbb_carry WL s _ _ (in_width_WL 7 ltac:(lia)) (in_width_WL (2 ^ 32 - 1) ltac:(lia))
    ltac:(discriminate) (write_ecx (set_CF 1 cpu0) (2 ^ 32 - 1) 7 7 (in_width_WL 7 ltac:(lia)))
    (write_ecx (set_CF 1 cpu0) (2 ^ 32 - 1) 7 7 (in_width_WL 7 ltac:(lia)))) as [(c1 & H1 & F1) (c2 & H2 & F2)].
  split.
  - eexists c1, _. split; [exact H1|]. rewrite (fs_CF _ _ _ _ _ _ F1). vm_compute. reflexivity.
  - eexists c2, _. split; [exact H2|]. rewrite (fs_CF _ _ _ _ _ _ F2). vm_compute. reflexivity.
Defined.

Lemma cpu0_ok : cpu_ok cpu0.
Proof.
  split; [|cbn; lia..|].
  - intros i. unfold gpr_l; cbn. rewrite aget_anew. lia.
  - intros i. cbn. rewrite aget_anew. cbn. lia.
Qed.

Lemma cpu_ok_set_gpr i v c : cpu_ok c → cpu_ok (set_gpr_l i v c).
Proof.
  intros [Hg ? ? ?]. split; [|done..]. intros j. rewrite gpr_l_set_l.
  destruct (_ =? _); [apply (wrap_range 32); lia|apply Hg].
Qed.

Lemma mul_exact_witness : ∃ s', do_mul WL (arith_machine (set_gpr_l 0 65537 cpu0) 65537 0) = Ok tt s' ∧
  wide_acc WL (cpu s') = 4295098369.
Proof.
  destruct (mul_exact WL (arith_machine (set_gpr_l 0 65537 cpu0) 65537 0)
    (cpu_ok_set_gpr 0 65537 cpu0 cpu0_ok) (in_width_WL 65537 ltac:(lia))) as (s' & H & _ & E).
  exists s'. split; [exact H|]. refine (eq_trans E _). vm_compute. reflexivity.
Defined.

Lemma div_exact_witness : ∃ s', do_div WL (arith_machine (set_gpr_l 0 17 cpu0) 5 0) = Ok tt s' ∧
  acc WL (cpu s') = 3 ∧ div_rem WL (cpu s') = 2.
Proof.
  destruct (div_exact WL (arith_machine (set_gpr_l 0 17 cpu0) 5 0)
    (cpu_ok_set_gpr 0 17 cpu0 cpu0_ok) (in_width_WL 5 ltac:(lia))) as [_ H].
  destruct H as (s' & H & _ & E1 & E2 & _); [discriminate|reflexivity|].
  exists s'. split; [exact H|]. rewrite E1, E2. vm_compute. done.
Defined.
