(* ===== verification/BranchSpec.v ===== *)
(** Compare and branch: after a comparison every conditional jump of the opcode tables goes
    to its target exactly when the unsigned or signed relation it names holds. *)
From S2P Require Import Prelude Dram Cache L2Facts CacheFacts CacheSpec WorkingSet.
From S2P Require Import Tlb Cpu I8259 Mmio Vga WpPool Machine Memory MemFacts DemoMachine PageSpec.
From S2P Require Import SegMem Decode Arith Logic DataMov ConTran ArithSpec.

Lemma b2z_eq1 b : (b2z b =? 1) = b.
Proof. now destruct b. Qed.

Lemma b2z_eq0 b : (b2z b =? 0) = negb b.
Proof. now destruct b. Qed.

Lemma b2z_eqb a b : (b2z a =? b2z b) = Bool.eqb a b.
Proof. now destruct a, b. Qed.

(** * Conditions *)
Section Conditions.
Context (w : width) (d v : Z) (Hd : in_width w d) (Hv : in_width w v).

Abbreviation diff := (DATA_TYPE w (d - v)).
Abbreviation compared := (flags_set w diff (d <? v) (negb (fits w (DATA_TYPE_S w d - DATA_TYPE_S w v)))).

Lemma diff_cases : diff = if d <? v then d - v + 2 ^ bits w else d - v.
Proof using Hd Hv.
  pose proof Hd as Hd'. pose proof Hv as Hv'. unfold in_width in Hd', Hv'. unfold DATA_TYPE, wrap.
  revert Hd' Hv'. generalize (2 ^ bits w). intros m Hd' Hv'. destruct (Z.ltb_spec d v).
  - rewrite <- (Z.mod_unique (d - v) m (-1) (d - v + m)); lia.
  - apply Z.mod_small. lia.
Qed.

Lemma compared_ZF c c' : compared c c' → (ZF c' =? 1) = (d =? v).
Proof using Hd Hv.
  intros H. rewrite (fs_ZF _ _ _ _ _ _ H), diff_cases, b2z_eq1.
  pose proof Hd as Hd'. pose proof Hv as Hv'. unfold in_width in *. bsplit; lia.
Qed.

Lemma compared_CF c c' : compared c c' → (CF c' =? 1) = (d <? v).
Proof using. intros H. rewrite (fs_CF _ _ _ _ _ _ H). now destruct (d <? v). Qed.

Lemma compared_less c c' : compared c c' → (SF c' =? OF c') = (DATA_TYPE_S w v <=? DATA_TYPE_S w d).
Proof using Hd Hv.
  intros H. rewrite (fs_SF _ _ _ _ _ _ H), (fs_OF _ _ _ _ _ _ H), diff_cases, b2z_eqb.
  rewrite !DATA_TYPE_S_eq by done. pose proof Hd as Hd'. pose proof Hv as Hv'. unfold fits, in_width in Hd', Hv' |- *.
  destruct (bits_pow w) as [E Hp]. rewrite E in *. clear E. revert Hd' Hv' Hp.
  generalize (2 ^ (bits w - 1)). intros h Hd' Hv' Hp.
  destruct (Z.leb_spec h d), (Z.leb_spec h v); bsplit; cbn; lia.
Qed.

End Conditions.

Lemma DATA_TYPE_S_inj w d v : in_width w d → in_width w v →
  (d =? v) = (DATA_TYPE_S w d =? DATA_TYPE_S w v).
Proof.
  intros Hd Hv. rewrite !DATA_TYPE_S_eq by done. unfold in_width in *. destruct (bits_pow w) as [E Hp].
  rewrite E in *. clear E. revert Hd Hv Hp. generalize (2 ^ (bits w - 1)). intros h Hd Hv Hp.
  destruct (Z.leb_spec h d), (Z.leb_spec h v); lia.
Qed.

Lemma flag_eq0 n c : 0 <= n → (flag n c =? 0) = negb (flag n c =? 1).
Proof. intros Hn. destruct (flag_cases n c Hn) as [-> | ->]; reflexivity. Qed.

(** * Jumps *)

(** The conditional jumps of the opcode tables with the relation each names. *)
Definition cmp_jumps `{HRand : !LibcRand, HJunk : !StackJunk} (w : width) (d v : Z) :
    list ((width → helper) * bool) :=
  let sd := DATA_TYPE_S w d in let sv := DATA_TYPE_S w v in
  [(jcc_e, d =? v); (jcc_ne, negb (d =? v));
   (jcc_b, d <? v); (jcc_ae, v <=? d); (jcc_be, d <=? v); (jcc_a, v <? d);
   (jcc_l, sd <? sv); (jcc_ge, sv <=? sd); (jcc_le, sd <=? sv); (jcc_g, sv <? sd)].

Section Jumps.
Context `{HRand : !LibcRand, HJunk : !StackJunk} {DInv : (Z → Z) → Machine → Prop}
  {dok : Z → Z → Z → Prop} `{HData : !DataMem DInv dok}.

Lemma next_addr_si n e : n = WB ∨ n = WL → next_addr n e =
  (_ ← decode_si n (u32 (e + 1)); simm ← get_op op_src op_u; mret (u32 (e + 1 + DATA_BYTE n + simm)) : NEMU Z).
Proof using. intros [-> | ->]; reflexivity. Qed.

(** A jump of one or four bytes, at [pc] or, after the escape byte, at [pc + 1]. *)
Lemma jcc_run J f s (cond : CPU_state → bool) n pc (Q : Z → Machine → Prop) :
  n = WB ∨ n = WL → let e := u32 (pc + for_2_bit n) in
  let disp := DATA_TYPE_S n (le_load (Z.to_nat (DATA_BYTE n)) f (u32 (e + 1))) in
  DInv f s → dok 1 (u32 (e + 1)) (DATA_BYTE n) →
  eip (cpu s) = pc →
  (∀ s', u32 (eip (cpu s') + (DATA_BYTE n + 1) + for_2_bit n) =
       u32 (pc + for_2_bit n + 1 + DATA_BYTE n + if cond (cpu s) then disp else 0) →
     cpu s' = set_eip (eip (cpu s')) (cpu s) → DInv f s' → same_rest s s' → Q (DATA_BYTE n + 1) s') →
  wp J (jcc cond n e) Q s.
Proof using HData.
  intros Hn e disp Hs Hok Hpc HQ. unfold jcc. 
  apply wp_bind. rewrite next_addr_si by done.
  unfold decode_si, instr_fetch. repeat wp_step. wp_load Hok. repeat wp_step.
  destruct (cond _) eqn:Hc; unfold put_eip; repeat wp_step; (apply HQ; [|mproj; now destruct (cpu s)|data|done]);
    mproj; cbn [eip set_eip]; fold disp.
  - set (k := for_2_bit n). set (b := DATA_BYTE n). clearbody disp.
    rewrite <- Z.add_assoc, wrap_add_l.
    replace (u32 (e + 1 + b + u32 disp) - (1 + b) - k + (b + 1 + k)) with (u32 (e + 1 + b + u32 disp)) by lia.
    rewrite wrap_wrap, wrap_add_r by lia. unfold e. fold k.
    replace (u32 (pc + k) + 1 + b + disp) with (u32 (pc + k) + (1 + b + disp)) by lia.
    rewrite wrap_add_l. f_equal. lia.
  - rewrite Hpc. f_equal. lia.
Qed.

(** C19: after [cmp] of two words, each of the ten conditional jumps of the one-byte and the
    two-byte opcode tables leads (the main loop adds the length to EIP) to its target when
    the relation it names holds between the unsigned or signed words, and to the next
    instruction otherwise. *)
Theorem cmp_then_jump f s w n pc h b :
  let d := op_val (dest (ops_decoded s)) in let v := op_val (src (ops_decoded s)) in
  let e := u32 (pc + for_2_bit n) in
  let disp := DATA_TYPE_S n (le_load (Z.to_nat (DATA_BYTE n)) f (u32 (e + 1))) in
  in_width w d → in_width w v → DInv f s → eip (cpu s) = pc →
  n = WB ∨ n = WL → dok 1 (u32 (e + 1)) (DATA_BYTE n) → In (h, b) (cmp_jumps w d v) →
  ∃ s1 s2, do_cmp w s = Ok tt s1 ∧ h n e s1 = Ok (DATA_BYTE n + 1) s2 ∧ DInv f s2 ∧
    u32 (eip (cpu s2) + (DATA_BYTE n + 1) + for_2_bit n) =
      u32 (pc + for_2_bit n + 1 + DATA_BYTE n + if b then disp else 0).
Proof using HData.
  intros d v e disp Hd Hv Hs Hpc Hn Hok Hin.
  destruct (sub_cmp_flags w s s Hd Hv) as [(c' & Hrun & Hf) _]. fold d v in Hf.
  assert (DInv f (set_cpu c' s)) as Hs1.
  { rewrite (fs_rest _ _ _ _ _ _ Hf). now apply data_cpu. }
  assert (∀ cond, cond c' = b → jcc cond = h → ∃ s1 s2, do_cmp w s = Ok tt s1 ∧
    h n e s1 = Ok (DATA_BYTE n + 1) s2 ∧ DInv f s2 ∧
    u32 (eip (cpu s2) + (DATA_BYTE n + 1) + for_2_bit n) =
      u32 (pc + for_2_bit n + 1 + DATA_BYTE n + if b then disp else 0)) as Hjump.
  { intros cond Hb <-. exists (set_cpu c' s).
    destruct (wp_elim_val (jcc cond n e) (DATA_BYTE n + 1) (λ s2, DInv f s2 ∧
      u32 (eip (cpu s2) + (DATA_BYTE n + 1) + for_2_bit n) =
      u32 (pc + for_2_bit n + 1 + DATA_BYTE n + if b then disp else 0)) (set_cpu c' s)) as (s2 & H2 & H).
    - apply (jcc_run _ f _ cond n pc); [done|done|done| |].
      + mproj. rewrite (fs_rest _ _ _ _ _ _ Hf). exact Hpc.
      + mproj. rewrite Hb. intros s' He _ Hd' _. done.
    - exists s2. split; [exact Hrun|]. split; [exact H2|exact H]. }
  pose proof (compared_ZF w d v Hd Hv _ _ Hf) as HZ. pose proof (compared_CF w d v _ _ Hf) as HC.
  pose proof (compared_less w d v Hd Hv _ _ Hf) as HL.
  pose proof (DATA_TYPE_S_inj w d v Hd Hv) as HS.
  assert (HZ0 : (ZF c' =? 0) = negb (d =? v)) by now rewrite flag_eq0, HZ.
  assert (HC0 : (CF c' =? 0) = negb (d <? v)) by now rewrite flag_eq0, HC.
  unfold cmp_jumps in Hin. cbn [In] in Hin.
  repeat destruct Hin as [[= <- <-]|Hin]; try done; (eapply Hjump; [|reflexivity]); cbv beta;
    rewrite ?HZ, ?HC, ?HL, ?HZ0, ?HC0, ?HS; lia.
Qed.
End Jumps.

(** * The theorem on a machine *)
#[local] Existing Instance IsoRand.
#[local] Existing Instance ZeroJunk.

(** -1 is compared with 5; the jump at 512 has displacement 16. *)
Definition jump_dram : Dram := demo_dram 513 [16] dram0.
Definition jump_machine : Machine :=
  set_ops (mkOperands 0x39 false (mkOperand 0 0 0 0 5) (mkOperand 0 0 0 0 (2 ^ 32 - 1)) operand0)
    (demo_machine (set_eip 512 cpu0) jump_dram).

Lemma jump_machine_inv : demo_data (hw_get jump_dram) jump_machine.
Proof.
  apply data_ops, demo_data_inv; [|now apply flat_segs_real].
  apply demo_dram_cold; [apply cold_dram0|]. repeat constructor; lia.
Qed.

(** As signed words -1 is less; as unsigned ones it is not. *)
Lemma cmp_then_jump_witness :
  (∃ s1 s2, do_cmp WL jump_machine = Ok tt s1 ∧ jcc_l WB 512 s1 = Ok 2 s2 ∧ u32 (eip (cpu s2) + 2 + 0) = 530) ∧
  (∃ s1 s2, do_cmp WL jump_machine = Ok tt s1 ∧ jcc_b WB 512 s1 = Ok 2 s2 ∧ u32 (eip (cpu s2) + 2 + 0) = 514).
Proof.
  assert (demo_dok 1 513 1) as Hok by (apply demo_data_ok; lia).
  assert (in_width WL 5 ∧ in_width WL (2 ^ 32 - 1)) as [H5 H1] by (unfold in_width, bits, DATA_BYTE; lia).
  split.
  - destruct (cmp_then_jump (DInv := demo_data) (hw_get jump_dram) jump_machine WL WB 512 jcc_l true
      H1 H5 jump_machine_inv eq_refl (or_introl eq_refl) Hok) as (s1 & s2 & Hc & Hj & _ & He).
    + do 6 right. left. reflexivity.
    + exists s1, s2. split; [exact Hc|]. split; [exact Hj|]. refine (eq_trans He _). vm_compute. reflexivity.
  - destruct (cmp_then_jump (DInv := demo_data) (hw_get jump_dram) jump_machine WL WB 512 jcc_b false
      H1 H5 jump_machine_inv eq_refl (or_introl eq_refl) Hok) as (s1 & s2 & Hc & Hj & _ & He).
    + do 2 right. left. reflexivity.
    + exists s1, s2. split; [exact Hc|]. split; [exact Hj|]. refine (eq_trans He _). vm_compute. reflexivity.
Defined.
