(* ===== verification/DecodeSpec.v ===== *)
(** Operand decoding reads back every encoding of a memory operand: ModR/M, SIB and
    displacement bytes ([nemu/src/cpu/decode/modrm.c]). *)
From S2P Require Import Prelude Dram Cache L2Facts CacheFacts CacheSpec WorkingSet.
From S2P Require Import Tlb Cpu I8259 Mmio Vga WpPool Machine Memory MemFacts DemoMachine PageSpec.
From S2P Require Import SegMem Decode.

#[local] Abbreviation len l := (Z.of_nat (length l)).

(** * Encodings *)

(** A memory operand: base register, index register with the logarithm of its scale, and
    displacement. *)
Record Mem := mkMem { m_base : option Z; m_index : option (Z * Z); m_disp : Z }.

(** The fields of an encoding; [e_b] is the base field, of the SIB byte if there is one.
    [e_index] is the index and scale fields of the SIB byte, where index 4 stands for no
    index register, whatever the scale; [None] is that index with scale 0, or no SIB byte. *)
Record Encoding := mkEnc { e_mod : Z; e_reg : Z; e_sib : bool; e_b : Z; e_index : option (Z * Z); e_disp : Z }.

Definition disp_size (e : Encoding) : Z :=
  if e_mod e =? 0 then (if e_b e =? R_EBP then 4 else 0) else if e_mod e =? 1 then 1 else 4.

Record enc_ok (e : Encoding) : Prop := {
  ok_mod : 0 <= e_mod e < 3;
  ok_reg : 0 <= e_reg e < 8;
  ok_b : 0 <= e_b e < 8;
  ok_no_sib : e_sib e = false → e_index e = None ∧ e_b e ≠ R_ESP;
  ok_index : ∀ i s, e_index e = Some (i, s) → 0 <= i < 8 ∧ 0 <= s < 4;
  ok_disp : if disp_size e =? 0 then e_disp e = 0 else - 2 ^ (8 * disp_size e - 1) <= e_disp e < 2 ^ (8 * disp_size e - 1)
}.

Definition modrm_byte (e : Encoding) : Z := (if e_sib e then R_ESP else e_b e) + 8 * e_reg e + 64 * e_mod e.
Definition sib_byte (e : Encoding) : Z :=
  match e_index e with Some (i, s) => e_b e + 8 * i + 64 * s | None => e_b e + 8 * R_ESP end.
Definition enc_bytes (e : Encoding) : list Z :=
  modrm_byte e :: (if e_sib e then [sib_byte e] else []) ++ ((λ k, byte_of (e_disp e) (Z.of_nat k)) <$> seq 0 (Z.to_nat (disp_size e))).

(** The operand encoded. *)
Definition enc_index (e : Encoding) : option (Z * Z) :=
  match e_index e with Some (i, s) => if i =? R_ESP then None else Some (i, s) | None => None end.
Definition enc_mem (e : Encoding) : Mem :=
  mkMem (if (e_mod e =? 0) && (e_b e =? R_EBP) then None else Some (e_b e)) (enc_index e) (e_disp e).

(** Its address. *)
Definition effective (m : Mem) (c : CPU_state) : Z :=
  u32 (match m_base m with Some b => gpr_l b c | None => 0 end +
       match m_index m with Some (i, s) => gpr_l i c * 2 ^ s | None => 0 end + m_disp m).

(** ** The fields of a byte *)
Lemma byte_fields a b c : 0 <= a < 8 → 0 <= b < 8 → 0 <= c < 4 →
  bitfield (a + 8 * b + 64 * c) 0 3 = a ∧ bitfield (a + 8 * b + 64 * c) 3 3 = b ∧ bitfield (a + 8 * b + 64 * c) 6 2 = c.
Proof.
  intros Ha Hb Hc. rewrite !bitfield_eq by done. change (2 ^ 0) with 1. change (2 ^ 3) with 8. change (2 ^ 6) with 64. change (2 ^ 2) with 4.
  split; [|split]; lia.
Qed.

Section Encoding.
Context (e : Encoding) (He : enc_ok e).

Lemma modrm_fields : ModR_M_R_M (modrm_byte e) = (if e_sib e then R_ESP else e_b e) ∧
  ModR_M_reg (modrm_byte e) = e_reg e ∧ ModR_M_mod (modrm_byte e) = e_mod e.
Proof using He.
  destruct He as [Hm Hr Hb _ _ _]. apply byte_fields; [|lia|lia]. destruct (e_sib e); [done|lia].
Qed.

Lemma sib_fields : SIB_base (sib_byte e) = e_b e ∧
  SIB_index (sib_byte e) = match e_index e with Some (i, _) => i | None => R_ESP end ∧
  (∀ i s, e_index e = Some (i, s) → SIB_ss (sib_byte e) = s).
Proof using He.
  destruct He as [_ _ Hb _ Hi _]. unfold sib_byte, SIB_base, SIB_index, SIB_ss. destruct (e_index e) as [[i s]|].
  - destruct (Hi i s eq_refl) as (? & ?). destruct (byte_fields (e_b e) i s) as (-> & -> & E); [lia..|].
    split; [done|]. split; [done|]. intros ? ? [= <- <-]. exact E.
  - destruct (byte_fields (e_b e) R_ESP 0) as (E1 & E2 & _); [lia|done|lia|]. rewrite Z.mul_0_r, Z.add_0_r in E1, E2.
    split; [exact E1|]. split; [exact E2|]. discriminate.
Qed.

Lemma enc_index_ok i s : enc_index e = Some (i, s) → e_index e = Some (i, s) ∧ 0 <= i < 8 ∧ i ≠ R_ESP ∧ 0 <= s < 4.
Proof using He.
  unfold enc_index. destruct (e_index e) as [[j t]|] eqn:E; [|discriminate].
  destruct (Z.eqb_spec j R_ESP); [discriminate|]. intros [= -> ->]. pose proof (ok_index e He i s E). tauto.
Qed.

Lemma disp_size_cases : disp_size e = 0 ∨ disp_size e = 1 ∨ disp_size e = 4.
Proof using. unfold disp_size. destruct (e_mod e =? 0), (e_b e =? R_EBP), (e_mod e =? 1); auto. Qed.

Lemma enc_length : len (enc_bytes e) = (if e_sib e then 2 else 1) + disp_size e.
Proof using.
  unfold enc_bytes. cbn [length]. rewrite length_app, length_fmap, length_seq. pose proof disp_size_cases.
  destruct (e_sib e); cbn [length]; lia.
Qed.
End Encoding.

(** * Decoding *)
Section Decoding.
Context `{HRand : !LibcRand, HJunk : !StackJunk} {DInv : (Z → Z) → Machine → Prop}
  {dok : Z → Z → Z → Prop} `{HData : !DataMem DInv dok}.

(** The bytes [bs] are at [a], and may be fetched one at a time and four at a time. *)
Record code (f : Z → Z) (a : Z) (bs : list Z) : Prop := {
  code_bytes : ∀ k b, bs !! k = Some b → f (u32 (a + Z.of_nat k)) = b;
  code_ok : ∀ k n, 0 <= k → n = 1 ∨ n = 4 → k + n <= len bs → dok 1 (u32 (a + k)) n
}.

Lemma enc_lookup_disp e k : (k < Z.to_nat (disp_size e))%nat →
  enc_bytes e !! ((if e_sib e then 2 else 1) + k)%nat = Some (byte_of (e_disp e) (Z.of_nat k)).
Proof using.
  intros Hk. transitivity (((λ k, byte_of (e_disp e) (Z.of_nat k)) <$> seq 0 (Z.to_nat (disp_size e))) !! k);
    [unfold enc_bytes; now destruct (e_sib e)|]. now rewrite list_lookup_fmap, lookup_seq_lt by done.
Qed.

(** The displacement as fetched, extended as [load_addr] extends it. *)
Lemma fetch_disp f a e : enc_ok e → code f a (enc_bytes e) → disp_size e ≠ 0 →
  let d := le_load (Z.to_nat (disp_size e)) f (u32 (a + if e_sib e then 2 else 1)) in
  (if disp_size e =? 1 then s8 d else s32 d) = e_disp e.
Proof using HData.
  intros He [Hb Hok] Hn d. pose proof (disp_size_cases e) as Hc. pose proof (enc_length e) as Hl.
  set (off := if e_sib e then 2 else 1) in *. assert (0 <= off) by (unfold off; destruct (e_sib e); lia).
  assert (dok 1 (u32 (a + off)) (disp_size e)) as Hd by (apply Hok; lia). apply dm_ok in Hd as (Ha & Hs & _).
  assert (d = e_disp e mod 256 ^ disp_size e) as ->.
  { unfold d. rewrite (le_load_bytes _ _ _ (e_disp e)); [now rewrite Z2Nat.id by lia|]. intros k Hk. rewrite Z2Nat.id in Hk by lia.
    assert (enc_bytes e !! Z.to_nat (off + k) = Some (byte_of (e_disp e) k)) as El.
    { pose proof (enc_lookup_disp e (Z.to_nat k) ltac:(lia)) as E. rewrite Z2Nat.id in E by lia. rewrite <- E. f_equal.
      unfold off. destruct (e_sib e); lia. }
    apply Hb in El. rewrite Z2Nat.id in El by lia. rewrite <- El. f_equal. rewrite Z.add_assoc, <- (wrap_add_l 32 (a + off) k).
    symmetry. apply wrap_small. lia. }
  pose proof (ok_disp e He) as Hr. replace (disp_size e =? 0) with false in Hr by lia.
  destruct Hc as [Hc|[Hc|Hc]]; [done| |]; rewrite Hc in *.
  - change (256 ^ 1) with (2 ^ 8). change (e_disp e mod 2 ^ 8) with (wrap 8 (e_disp e)). cbv iota. change (1 =? 1) with true. cbv iota.
    rewrite sgn_wrap by done. now apply sgn_small.
  - change (256 ^ 4) with (2 ^ 32). change (e_disp e mod 2 ^ 32) with (wrap 32 (e_disp e)). change (4 =? 1) with false. cbv iota.
    rewrite sgn_wrap by done. now apply sgn_small.
Qed.

Lemma load_addr_sib_run J f s a e Q : enc_ok e → code f a (enc_bytes e) → DInv f s →
  (∀ t c ss, DInv f (set_tlb t (set_caches c s)) → (∀ i x, enc_index e = Some (i, x) → ss = x) →
    Q (e_b e, match enc_index e with Some (i, _) => i | None => -1 end, ss, if e_sib e then 2 else 1) (set_tlb t (set_caches c s))) →
  wp J (load_addr_sib a (ModR_M_R_M (modrm_byte e))) Q s.
Proof using HData.
  intros He [Hb Hok] Hs HQ. destruct (modrm_fields e He) as (-> & _ & _). unfold load_addr_sib, instr_fetch.
  destruct (e_sib e) eqn:Es.
  - change (R_ESP =? R_ESP) with true. cbv iota.
    assert (dok 1 (u32 (a + 1)) 1) as Hd.
    { apply Hok; [lia|now left|]. rewrite enc_length, Es. pose proof (disp_size_cases e). lia. }
    apply wp_bind. wp_load Hd. apply wp_ret.
    assert (le_load (Z.to_nat 1) f (u32 (a + 1)) = sib_byte e) as ->.
    { change (Z.to_nat 1) with 1%nat. cbn [le_load]. rewrite Z.mul_0_r, Z.add_0_r. apply (Hb 1%nat). unfold enc_bytes. now rewrite Es. }
    destruct (sib_fields e He) as (-> & -> & Hss).
    assert (∀ i x, enc_index e = Some (i, x) → SIB_ss (sib_byte e) = x) as Hss'
      by (intros i x Ei; apply (Hss i x), (enc_index_ok e He i x Ei)).
    assert ((if negb (match e_index e with Some (i, _) => i | None => R_ESP end =? R_ESP)
             then match e_index e with Some (i, _) => i | None => R_ESP end else -1) =
            match enc_index e with Some (i, _) => i | None => -1 end) as ->.
    { unfold enc_index. destruct (e_index e) as [[i x]|]; [now destruct (i =? R_ESP)|done]. }
    now apply HQ.
  - destruct (ok_no_sib e He Es) as [Ei' Hne]. assert (enc_index e = None) as Ei by (unfold enc_index; now rewrite Ei'). replace (e_b e =? R_ESP) with false by lia. apply wp_ret.
    specialize (HQ (tlb s) (caches s) 0). rewrite Ei in HQ. destruct s. apply HQ; [exact Hs|discriminate].
Qed.

Definition to_mem (a : Z) (o : Operand) : Operand := set_op_u a (set_op_type OP_TYPE_MEM o).

Lemma set_operand_twice r g h o : set_operand r g (set_operand r h o) = set_operand r (λ x, g (h x)) o.
Proof using. now destruct r. Qed.

Lemma u32_u32_add x y : u32 (u32 x + y) = u32 (x + y).
Proof using. apply wrap_add_l. Qed.

(** The three steps of the address: the displacement, the base, the index. *)
Lemma add_disp_run J f s a e (Q : Z * Z → Machine → Prop) : enc_ok e → code f a (enc_bytes e) → DInv f s →
  (∀ t c, DInv f (set_tlb t (set_caches c s)) → Q (len (enc_bytes e), u32 (e_disp e)) (set_tlb t (set_caches c s))) →
  wp J (if negb (disp_size e =? 0) then
      d ← instr_fetch (u32 (a + if e_sib e then 2 else 1)) (disp_size e);
      mret ((if e_sib e then 2 else 1) + disp_size e, u32 (0 + if disp_size e =? 1 then s8 d else s32 d))
    else mret ((if e_sib e then 2 else 1), 0)) Q s.
Proof using HData.
  intros He Hcode Hd HQ. rewrite enc_length in HQ. destruct (Z.eqb_spec (disp_size e) 0) as [E|E]; cbn [negb].
  - apply wp_ret. pose proof (ok_disp e He) as Hz. rewrite E in Hz. change (0 =? 0) with true in Hz. cbv iota in Hz.
    specialize (HQ (tlb s) (caches s)). rewrite Hz, E, Z.add_0_r in HQ. destruct s. apply HQ. exact Hd.
  - apply wp_bind. unfold instr_fetch.
    assert (dok 1 (u32 (a + if e_sib e then 2 else 1)) (disp_size e)) as Hok.
    { apply (code_ok _ _ _ Hcode); [destruct (e_sib e); lia|pose proof (disp_size_cases e); tauto|rewrite enc_length; lia]. }
    eapply (wp_swaddr_read _ _ _ _ _ _ _ Hok); [exact Hd|]. intros t c Hd'. apply wp_ret.
    pose proof (fetch_disp f a e He Hcode E) as Ed. cbv zeta in Ed. rewrite Ed. apply HQ, Hd'.
Qed.

Lemma add_base_run J e x s (Q : Z → Machine → Prop) : enc_ok e → let b := m_base (enc_mem e) in
  Q (u32 (match b with Some b => gpr_l b (cpu s) | None => 0 end + x)) s →
  wp J (if negb (match b with Some b => b | None => -1 end =? -1) then
      r ← reg_l (match b with Some b => b | None => -1 end); mret (u32 (u32 x + r)) else mret (u32 x)) Q s.
Proof using.
  intros He b. pose proof (ok_b e He) as Hb. unfold b, enc_mem. cbn [m_base]. intros HQ. destruct ((e_mod e =? 0) && (e_b e =? R_EBP)).
  - apply wp_ret, HQ.
  - replace (e_b e =? -1) with false by lia. cbn [negb]. apply wp_bind, wp_reg_l; [lia|]. apply wp_ret.
    rewrite u32_u32_add, Z.add_comm. exact HQ.
Qed.

Lemma add_index_run J e x ss s (Q : Z → Machine → Prop) : enc_ok e → (∀ i x, enc_index e = Some (i, x) → ss = x) →
  Q (u32 (x + match enc_index e with Some (i, s') => gpr_l i (cpu s) * 2 ^ s' | None => 0 end)) s →
  wp J (if negb (match enc_index e with Some (i, _) => i | None => -1 end =? -1) then
      r ← reg_l (match enc_index e with Some (i, _) => i | None => -1 end); mret (u32 (u32 x + u32 (Z.shiftl r ss))) else mret (u32 x)) Q s.
Proof using.
  intros He Hss HQ. destruct (enc_index e) as [[i s']|] eqn:Ei.
  - destruct (enc_index_ok e He i s' Ei) as (_ & Hi & _ & Hs'). rewrite (Hss i s' eq_refl). replace (i =? -1) with false by lia. cbn [negb].
    apply wp_bind, wp_reg_l; [lia|]. apply wp_ret. rewrite u32_u32_add, wrap_add_r, Z.shiftl_mul_pow2 by lia. exact HQ.
  - apply wp_ret. now rewrite Z.add_0_r in HQ.
Qed.

Lemma load_addr_run J f s a e rm Q : enc_ok e → code f a (enc_bytes e) → DInv f s →
  (∀ t c, DInv f (set_tlb t (set_caches c s)) →
    Q (len (enc_bytes e)) (set_ops (set_operand rm (to_mem (effective (enc_mem e) (cpu s))) (ops_decoded s)) (set_tlb t (set_caches c s)))) →
  wp J (load_addr a (modrm_byte e) rm) Q s.
Proof using HData.
  intros He Hcode Hs HQ. unfold load_addr. destruct (modrm_fields e He) as (_ & _ & ->). pose proof (ok_mod e He) as Hmod.
  apply wp_bind, wp_cassert; [lia|]. apply wp_bind. apply (load_addr_sib_run J f s a e); [done..|]. intros t c ss Hd Hss.
  assert ((if e_mod e =? 0 then if e_b e =? R_EBP then (-1, 4) else (e_b e, 0) else if e_mod e =? 1 then (e_b e, 1) else (e_b e, 4)) =
    (match m_base (enc_mem e) with Some b => b | None => -1 end, disp_size e)) as ->.
  { unfold enc_mem, disp_size. cbn [m_base]. destruct (e_mod e =? 0), (e_b e =? R_EBP), (e_mod e =? 1); reflexivity. }
  cbv zeta. apply wp_bind. apply (add_disp_run J f _ a e); [done..|]. intros t2 c2 Hd2.
  apply wp_bind. apply add_base_run; [done|]. apply wp_bind. apply add_index_run; [done..|].
  repeat wp_step. rewrite set_operand_twice.
  match goal with |- context [set_op_u ?x _] => replace x with (effective (enc_mem e) (cpu s)) end.
  - apply HQ, Hd2.
  - unfold effective. cbn [enc_mem m_index m_disp]. f_equal. lia.
Qed.

Lemma operand_same r g o : operand r (set_operand r g o) = g (operand r o).
Proof using. now destruct r. Qed.
Lemma operand_other r r' g o : r ≠ r' → operand r (set_operand r' g o) = operand r o.
Proof using. intros H. destruct r, r'; done. Qed.

Lemma loaded_small f s sr a n : DInv f s → dok sr a n → 0 <= le_load (Z.to_nat n) f a < 2 ^ 32.
Proof using HData.
  intros Hs Hok. apply dm_ok in Hok as (H0 & H1 & Hn). assert (0 <= le_load (Z.to_nat n) f a < 256 ^ Z.of_nat (Z.to_nat n)) as H.
  { apply le_load_range_in. intros k Hk. apply (dm_bytes f s); [done|lia]. }
  destruct Hn as [->|[->| ->]]; [change (256 ^ Z.of_nat (Z.to_nat 1)) with 256 in H|change (256 ^ Z.of_nat (Z.to_nat 2)) with 65536 in H|
    change (256 ^ Z.of_nat (Z.to_nat 4)) with (2 ^ 32) in H]; lia.
Qed.

(** The segment [read_ModR_M] chooses. *)
Definition modrm_segment (reg : Z) : Z := if (reg =? 5) || (reg =? 4) then 2 else 3.

(** What is left in the decoder's operands. *)
Definition with_mem (e : Encoding) (ea v : Z) (o : Operand) : Operand :=
  mkOperand OP_TYPE_MEM (op_size o) ea (modrm_segment (e_reg e)) v.
Definition with_reg (r : Z) (o : Operand) : Operand := set_op_u r (set_op_type OP_TYPE_REG o).

Lemma set_operand_ext r g h o : g (operand r o) = h (operand r o) → set_operand r g o = set_operand r h o.
Proof using. intros H. destruct r; cbn in *; now rewrite H. Qed.

Lemma read_ModR_M_run J f s a e rm reg (Q : Z → Machine → Prop) :
  let m := operand rm (ops_decoded s) in let ea := effective (enc_mem e) (cpu s) in
  rm ≠ reg → enc_ok e → 0 <= a < 2 ^ 32 → code f a (enc_bytes e) → DInv f s → dok (modrm_segment (e_reg e)) ea (op_size m) →
  (∀ t c, DInv f (set_tlb t (set_caches c s)) → Q (len (enc_bytes e)) (set_ops
    (set_operand rm (with_mem e ea (le_load (Z.to_nat (op_size m)) f ea)) (set_operand reg (with_reg (e_reg e)) (ops_decoded s)))
    (set_tlb t (set_caches c s)))) →
  wp J (read_ModR_M a rm reg) Q s.
Proof using HData.
  intros m ea Hne He Ha Hcode Hs Hok HQ. unfold read_ModR_M, instr_fetch.
  assert (dok 1 a 1) as Hfetch.
  { pose proof (code_ok _ _ _ Hcode 0 1) as H. rewrite Z.add_0_r, wrap_small in H by lia. apply H; [lia|now left|].
    rewrite enc_length. pose proof (disp_size_cases e). destruct (e_sib e); lia. }
  apply wp_bind. eapply (wp_swaddr_read _ _ _ _ _ _ _ Hfetch); [exact Hs|]. intros t c Hd.
  assert (le_load (Z.to_nat 1) f a = modrm_byte e) as ->.
  { change (Z.to_nat 1) with 1%nat. cbn [le_load]. rewrite Z.mul_0_r, Z.add_0_r. pose proof (code_bytes _ _ _ Hcode 0%nat _ eq_refl) as H.
    now rewrite Z.add_0_r, wrap_small in H by lia. }
  destruct (modrm_fields e He) as (_ & Ereg & Emod). pose proof (ok_reg e He) as Hreg. pose proof (ok_mod e He) as Hmod.
  repeat (apply wp_bind; first [apply wp_mod_op|apply wp_get_op]). rewrite Ereg, Emod. replace (e_mod e =? 3) with false by lia.
  mproj. rewrite !operand_same. cbn [op_u set_op_u]. rewrite (wrap_small 32 (e_reg e)) by lia. fold (modrm_segment (e_reg e)).
  apply wp_bind. apply (load_addr_run _ f _ a e); [done|done|data|]. intros t2 c2 Hd2. mproj. fold ea.
  apply wp_bind, wp_get_op. unfold id. mproj.
  set (o := set_operand rm (to_mem ea) _). assert (operand rm o = with_mem e ea (op_val m) m) as Eo.
  { unfold o. rewrite !operand_same, !operand_other by done. unfold to_mem, set_op_u, set_op_type, set_op_sreg. cbn [op_size op_val op_sreg].
    unfold with_mem. fold m. f_equal; [apply wrap_small; apply wrap_range; lia|unfold modrm_segment; now destruct (_ || _)]. }
  rewrite Eo. cbn [op_u op_size op_sreg with_mem]. apply wp_bind. eapply (wp_swaddr_read _ _ _ _ _ _ _ Hok); [data|]. intros t3 c3 Hd3.
  apply wp_bind, wp_mod_op, wp_ret. mproj.
  match goal with |- Q _ (set_ops ?x _) => replace x with
    (set_operand rm (with_mem e ea (le_load (Z.to_nat (op_size m)) f ea)) (set_operand reg (with_reg (e_reg e)) (ops_decoded s))) end.
  - apply (HQ t3 c3). data.
  - rewrite (set_operand_ext rm (set_op_val _) (with_mem e ea (le_load (Z.to_nat (op_size m)) f ea))).
    + unfold o. rewrite !set_operand_twice. reflexivity.
    + rewrite Eo. unfold set_op_val, with_mem. cbn [op_type op_size op_u op_sreg].
      now rewrite (wrap_small 32) by exact (loaded_small f s _ _ _ Hs Hok).
Qed.

(** C14: [read_ModR_M] reads back every encoding of a memory operand, with or without SIB
    byte, index register (also the SIB bytes with no index and any scale) and displacement:
    it returns the number of bytes of the encoding; the operand's type is memory, its
    address base plus scaled index plus displacement modulo 2^32, its segment the one the
    code chooses, its value the bytes there; the other operand's type and number are those
    of the register of the reg field.  The final state is given in full: the other fields of
    both operands, the third operand, the opcode and every other part of the machine are as
    before, but for the TLB and the caches, which still represent the same memory. *)
Theorem modrm_memory_operand f s a e rm reg :
  let m := operand rm (ops_decoded s) in let ea := effective (enc_mem e) (cpu s) in
  rm ≠ reg → enc_ok e → 0 <= a < 2 ^ 32 → code f a (enc_bytes e) → DInv f s → dok (modrm_segment (e_reg e)) ea (op_size m) →
  ∃ t c, let s' := set_ops
      (set_operand rm (λ o, mkOperand OP_TYPE_MEM (op_size o) ea (modrm_segment (e_reg e)) (le_load (Z.to_nat (op_size m)) f ea))
        (set_operand reg (λ o, mkOperand OP_TYPE_REG (op_size o) (e_reg e) (op_sreg o) (op_val o)) (ops_decoded s)))
      (set_tlb t (set_caches c s)) in
    read_ModR_M a rm reg s = Ok (len (enc_bytes e)) s' ∧ DInv f s'.
Proof using HData.
  intros m ea Hne He Ha Hcode Hs Hok. set (v := le_load _ _ _).
  assert (∃ s', read_ModR_M a rm reg s = Ok (len (enc_bytes e)) s' ∧ ∃ t c,
    DInv f (set_tlb t (set_caches c s)) ∧ s' = set_ops (set_operand rm (with_mem e ea v)
      (set_operand reg (with_reg (e_reg e)) (ops_decoded s))) (set_tlb t (set_caches c s))) as (s' & E & t & c & Hd & ->).
  { apply wp_elim_val, (read_ModR_M_run _ f s a e rm reg); try done. intros t c Hd. split; [done|]. now exists t, c. }
  exists t, c. cbv zeta. split; [|data]. rewrite E. pose proof (ok_reg e He).
  rewrite (set_operand_ext reg (with_reg (e_reg e)) (λ o, mkOperand OP_TYPE_REG (op_size o) (e_reg e) (op_sreg o) (op_val o))).
  - reflexivity.
  - unfold with_reg, set_op_u, set_op_type. cbn [op_size op_sreg op_val]. now rewrite wrap_small by lia.
Qed.
End Decoding.

(** Every operand has an encoding. *)
Lemma operand_encoded m reg : 0 <= reg < 8 → (∀ b, m_base m = Some b → 0 <= b < 8) →
  (∀ i s, m_index m = Some (i, s) → 0 <= i < 8 ∧ i ≠ R_ESP ∧ 0 <= s < 4) → - 2 ^ 31 <= m_disp m < 2 ^ 31 →
  ∃ e, enc_ok e ∧ e_reg e = reg ∧ enc_mem e = m.
Proof.
  intros Hr Hb Hi Hd. destruct m as [b i d]; cbn [m_base m_index m_disp] in *.
  assert (∀ mo k, enc_index (mkEnc mo reg true k i d) = i) as Hidx.
  { intros mo k. unfold enc_index. cbn [e_index]. destruct i as [[i s]|]; [|done].
    destruct (Hi i s eq_refl) as (_ & Hne & _). now replace (i =? R_ESP) with false by lia. }
  assert (∀ j s, i = Some (j, s) → 0 <= j < 8 ∧ 0 <= s < 4) as Hi' by (intros j s E; specialize (Hi j s E); tauto).
  destruct b as [b|].
  - exists (mkEnc 2 reg true b i d). split; [split; cbn [e_mod e_reg e_b e_sib e_index e_disp]; try done; now apply Hb|].
    split; [done|]. unfold enc_mem. now rewrite Hidx.
  - exists (mkEnc 0 reg true R_EBP i d). split; [split; cbn [e_mod e_reg e_b e_sib e_index e_disp]; try done|].
    split; [done|]. unfold enc_mem. now rewrite Hidx.
Qed.

(** * The theorem on a machine *)
#[local] Existing Instance IsoRand.
#[local] Existing Instance ZeroJunk.

(** [ebx + ecx * 4 + 16], with the register field 0. *)
Definition demo_enc : Encoding := mkEnc 1 0 true 3 (Some (1, 2)) 16.
Definition modrm_dram : Dram := demo_dram 512 (enc_bytes demo_enc) (demo_dram 0x61c [0x78; 0x56; 0x34; 0x12] dram0).
Definition modrm_machine : Machine :=
  set_ops (mkOperands 0x8b false (mkOperand 0 4 0 0 0) (mkOperand 0 4 0 0 0) operand0)
    (demo_machine (set_gpr_l 3 0x600 (set_gpr_l 1 3 cpu0)) modrm_dram).

Lemma modrm_machine_inv : demo_data (hw_get modrm_dram) modrm_machine.
Proof.
  apply data_ops, demo_data_inv; [|now apply flat_segs_real].
  unfold modrm_dram. repeat (apply demo_dram_cold; [|vm_compute; repeat constructor; congruence]). apply cold_dram0.
Qed.

Lemma demo_code : code (dok := demo_dok) (hw_get modrm_dram) 512 (enc_bytes demo_enc).
Proof.
  split.
  - intros k b Hk. do 3 (destruct k as [|k]; [vm_compute in Hk |- *; congruence|]). vm_compute in Hk. discriminate.
  - intros k n Hk Hn Hl. change (len (enc_bytes demo_enc)) with 3 in Hl. rewrite wrap_small by lia. apply demo_data_ok; lia.
Qed.

Lemma modrm_memory_operand_witness : ∃ s', read_ModR_M 512 op_src op_dest modrm_machine = Ok 3 s' ∧
  op_u (src (ops_decoded s')) = 0x61c ∧ op_val (src (ops_decoded s')) = 0x12345678 ∧ cpu s' = cpu modrm_machine.
Proof.
  destruct (modrm_memory_operand (DInv := demo_data) (hw_get modrm_dram) modrm_machine 512 demo_enc op_src op_dest) as
    (t & c & E & _).
  - discriminate.
  - split; try done. intros i s [= <- <-]. done.
  - lia.
  - exact demo_code.
  - exact modrm_machine_inv.
  - apply demo_data_ok; vm_compute; intuition congruence.
  - eexists. split; [exact E|]. split; [vm_compute; reflexivity|]. split; [vm_compute; reflexivity|reflexivity].
Defined.

(** An SIB byte without index and with scale 8 encodes the address ESP + 8. *)
Example no_index_any_scale : let e := mkEnc 1 0 true R_ESP (Some (R_ESP, 3)) 8 in
  enc_ok e ∧ enc_bytes e = [0x44; 0xe4; 8] ∧ enc_mem e = mkMem (Some R_ESP) None 8.
Proof. split; [|split; reflexivity]. split; try done. intros i s [= <- <-]. done. Qed.
