(* ===== verification/Isa.v ===== *)
(** An abstract 32-bit processor: registers, five flags and a flat memory, with the
    instructions of a small i386 subset as the manual describes them and their machine
    code.  [IsaSpec] shows that the emulator implements it. *)
From S2P Require Import Prelude Dram Cache L2Facts CacheFacts CacheSpec WorkingSet.
From S2P Require Import Tlb Cpu I8259 Mmio Vga WpPool Machine Memory MemFacts DemoMachine PageSpec.
From S2P Require Import SegMem Decode Arith Logic DataMov ConTran ArithSpec DecodeSpec.

(** * State *)
Record Flags := mkFlags { f_cf : bool; f_zf : bool; f_sf : bool; f_of : bool; f_pf : bool }.

(** [i_regs] has the eight registers in the order of their codes. *)
Record Isa := mkIsa { i_regs : arr Z; i_flags : Flags; i_pc : Z; i_mem : Z → Z }.

Definition i_set_reg (r v : Z) (a : Isa) : Isa := mkIsa (aset r (u32 v) (i_regs a)) (i_flags a) (i_pc a) (i_mem a).
Definition i_set_flags (f : Flags) (a : Isa) : Isa := mkIsa (i_regs a) f (i_pc a) (i_mem a).
Definition i_goto (pc : Z) (a : Isa) : Isa := mkIsa (i_regs a) (i_flags a) (u32 pc) (i_mem a).
Definition i_store (ea v : Z) (a : Isa) : Isa := mkIsa (i_regs a) (i_flags a) (i_pc a) (flat_store (i_mem a) ea 4 v).

(** * Instructions *)
Inductive alu := Add | Sub | Cmp | And | Or | Xor | Test.

(** Displacements are relative to the next instruction; an [Encoding] is a memory operand
    together with the register of the instruction.  [Jcc n] tests condition [n] of the
    manual's sixteen.  [AluS], [JmpS] and [JccS] have a signed byte for the immediate or
    the displacement.  [Raw] stands for bytes that no run executes. *)
Inductive instr :=
| MovI (r v : Z)
| Mov (d s : Z)
| Load (e : Encoding)
| Store (e : Encoding)
| Lea (e : Encoding)
| Alu (op : alu) (d s : Z)
| AluI (op : alu) (d v : Z)
| AluS (op : alu) (d v : Z)
| Inc (r : Z)
| Dec (r : Z)
| Push (r : Z)
| PushI (v : Z)
| PushM (e : Encoding)
| Pop (r : Z)
| Jmp (disp : Z)
| JmpS (disp : Z)
| Jcc (n disp : Z)
| JccS (n disp : Z)
| Call (disp : Z)
| Ret
| Nop
| Raw (bs : list Z)
| Trap.

(** ** Machine code *)
Definition le4 (v : Z) : list Z := [byte_of v 0; byte_of v 1; byte_of v 2; byte_of v 3].

Definition alu_opcode (op : alu) : Z :=
  match op with Add => 0x01 | Sub => 0x29 | Cmp => 0x39 | And => 0x21 | Or => 0x09 | Xor => 0x31 | Test => 0x85 end.

(** The field of the ModR/M byte that selects the operation on an immediate, in group 1, or
    group 3 for [Test]. *)
Definition alu_group (op : alu) : Z :=
  match op with Add => 0 | Sub => 5 | Cmp => 7 | And => 4 | Or => 1 | Xor => 6 | Test => 0 end.
Definition alu_imm_opcode (op : alu) : Z := match op with Test => 0xf7 | _ => 0x81 end.

(** The ModR/M byte of two registers. *)
Definition modrm_regs (d s : Z) : Z := d + 8 * s + 64 * 3.

Definition encode (i : instr) : list Z :=
  match i with
  | MovI r v => (0xb8 + r) :: le4 v
  | Mov d s => [0x89; modrm_regs d s]
  | Load e => 0x8b :: enc_bytes e
  | Store e => 0x89 :: enc_bytes e
  | Lea e => 0x8d :: enc_bytes e
  | Alu op d s => [alu_opcode op; modrm_regs d s]
  | AluI op d v => alu_imm_opcode op :: modrm_regs d (alu_group op) :: le4 v
  | AluS op d v => [0x83; modrm_regs d (alu_group op); byte_of v 0]
  | Inc r => [0x40 + r]
  | Dec r => [0x48 + r]
  | Push r => [0x50 + r]
  | PushI v => 0x68 :: le4 v
  | PushM e => 0xff :: enc_bytes e
  | Pop r => [0x58 + r]
  | Jmp d => 0xe9 :: le4 d
  | JmpS d => [0xeb; byte_of d 0]
  | JccS n d => [0x70 + n; byte_of d 0]
  | Jcc n d => 0x0f :: (0x80 + n) :: le4 d
  | Call d => 0xe8 :: le4 d
  | Ret => [0xc3]
  | Nop => [0x90]
  | Raw bs => bs
  | Trap => [0xd6]
  end.

Definition size (i : instr) : Z := Z.of_nat (length (encode i)).

Definition reg_ok (r : Z) : Prop := 0 <= r < 8.
Definition disp_ok (d : Z) : Prop := - 2 ^ 31 <= d < 2 ^ 31.

Definition byte_ok (d : Z) : Prop := - 2 ^ 7 <= d < 2 ^ 7.

Definition instr_ok (i : instr) : Prop :=
  match i with
  | MovI r v | AluI _ r v => reg_ok r ∧ 0 <= v < 2 ^ 32
  | Mov d s | Alu _ d s => reg_ok d ∧ reg_ok s
  | Load e | Store e | Lea e => enc_ok e
  | AluS op d v => op ≠ Test ∧ reg_ok d ∧ byte_ok v
  | PushM e => enc_ok e ∧ e_reg e = 6
  | PushI v => 0 <= v < 2 ^ 32
  | Inc r | Dec r | Push r => reg_ok r
  | Pop r => reg_ok r ∧ r ≠ R_ESP
  | Jmp d | Call d => disp_ok d
  | JmpS d => byte_ok d
  | Jcc n d => 0 <= n < 16 ∧ disp_ok d
  | JccS n d => 0 <= n < 16 ∧ byte_ok d
  | Raw bs => bs ≠ []
  | Ret | Nop | Trap => True
  end.

(** * Semantics *)

(** The number [x] as an unsigned result: zero, sign and parity. *)
Definition flags_of (r : Z) (carry ovf : bool) : Flags :=
  mkFlags carry (r =? 0) (2 ^ 31 <=? r) ovf (even_parity r).

Definition alu_result (op : alu) (d v : Z) : Z :=
  match op with
  | Add => u32 (d + v)
  | Sub | Cmp => u32 (d - v)
  | And | Test => Z.land d v
  | Or => Z.lor d v
  | Xor => Z.lxor d v
  end.

(** [s32 x] does not fit in a signed word. *)
Definition overflows (x : Z) : bool := negb ((- 2 ^ 31 <=? x) && (x <? 2 ^ 31)).

Definition alu_flags (op : alu) (d v : Z) : Flags :=
  let r := alu_result op d v in
  match op with
  | Add => flags_of r (2 ^ 32 <=? d + v) (overflows (s32 d + s32 v))
  | Sub | Cmp => flags_of r (d <? v) (overflows (s32 d - s32 v))
  | _ => flags_of r false false
  end.

Definition writes (op : alu) : bool := match op with Cmp | Test => false | _ => true end.

(** The manual's conditions: the odd ones negate the even ones. *)
Definition cond_even (k : Z) (f : Flags) : bool :=
  if k =? 0 then f_of f
  else if k =? 1 then f_cf f
  else if k =? 2 then f_zf f
  else if k =? 3 then f_cf f || f_zf f
  else if k =? 4 then f_sf f
  else if k =? 5 then f_pf f
  else if k =? 6 then xorb (f_sf f) (f_of f)
  else f_zf f || xorb (f_sf f) (f_of f).
Definition condition (n : Z) (f : Flags) : bool := xorb (Z.odd n) (cond_even (n / 2) f).

(** The address of a memory operand. *)
Definition address (m : Mem) (a : Isa) : Z :=
  u32 (match m_base m with Some b => aget (i_regs a) b | None => 0 end +
       match m_index m with Some (i, s) => aget (i_regs a) i * 2 ^ s | None => 0 end + m_disp m).

Section Semantics.

(** The memory the program may load from and store to. *)
Context (lo hi : Z).

Definition in_data (ea : Z) : bool := (lo <=? ea) && (ea + 4 <=? hi).

(** The result of an instruction: the next state, or the last one of a halted machine.
    Nothing is said of an access outside the data or of a trap with EAX = 2 (the
    emulator's service for output).  [inc] and [dec] set CF as an addition or subtraction
    of one does; [pop] leaves the slot zero: both as the emulator has it, where the
    manual keeps CF and the slot. *)
Definition load_at (ea : Z) (a : Isa) : option Z :=
  if in_data ea then Some (le_load 4 (i_mem a) ea) else None.
Definition store_at (ea v : Z) (a : Isa) : option Isa :=
  if in_data ea then Some (i_store ea v a) else None.

Definition alu_step (op : alu) (r d v : Z) (a : Isa) : Isa :=
  i_set_flags (alu_flags op d v) (if writes op then i_set_reg r (alu_result op d v) a else a).

Definition push_step (next v : Z) (a : Isa) : option Isa :=
  let sp := aget (i_regs a) R_ESP in
  (λ a', i_goto next (i_set_reg R_ESP (sp - 4) a')) <$> store_at (sp - 4) v a.

Definition step_instr (i : instr) (a : Isa) : option Isa :=
  let reg r := aget (i_regs a) r in
  let next := i_pc a + size i in
  match i with
  | MovI r v => Some (i_goto next (i_set_reg r v a))
  | Mov d s => Some (i_goto next (i_set_reg d (reg s) a))
  | Load e => v ← load_at (address (enc_mem e) a) a; Some (i_goto next (i_set_reg (e_reg e) v a))
  | Store e => i_goto next <$> store_at (address (enc_mem e) a) (reg (e_reg e)) a
  | Lea e => Some (i_goto next (i_set_reg (e_reg e) (address (enc_mem e) a) a))
  | Alu op d s => Some (i_goto next (alu_step op d (reg d) (reg s) a))
  | AluI op d v => Some (i_goto next (alu_step op d (reg d) v a))
  | AluS op d v => Some (i_goto next (alu_step op d (reg d) (u32 v) a))
  | Inc r => Some (i_goto next (alu_step Add r (reg r) 1 a))
  | Dec r => Some (i_goto next (alu_step Sub r (reg r) 1 a))
  | Push r => push_step next (reg r) a
  | PushI v => push_step next v a
  | PushM e => v ← load_at (address (enc_mem e) a) a; push_step next v a
  | Pop r =>
    v ← load_at (reg R_ESP) a;
    (λ a', i_goto next (i_set_reg R_ESP (reg R_ESP + 4) (i_set_reg r v a'))) <$> store_at (reg R_ESP) 0 a
  | Jmp d | JmpS d => Some (i_goto (next + d) a)
  | Jcc n d | JccS n d => Some (i_goto (if condition n (i_flags a) then next + d else next) a)
  | Call d => (λ a', i_goto (next + d) (i_set_reg R_ESP (reg R_ESP - 4) a')) <$> store_at (reg R_ESP - 4) (u32 (next - 1)) a
  | Ret => v ← load_at (reg R_ESP) a; Some (i_goto (v + 1) (i_set_reg R_ESP (reg R_ESP + 4) a))
  | Nop => Some (i_goto next a)
  | Raw _ => None
  | Trap => if reg R_EAX =? 2 then None else Some (i_goto next a)
  end.

(** ** Programs *)
Context (base : Z) (prog : list instr).

Definition code_bytes_of (p : list instr) : list Z := concat (encode <$> p).

Fixpoint fetch_from (b : Z) (p : list instr) (pc : Z) : option instr :=
  match p with
  | [] => None
  | i :: p => if pc =? b then Some i else fetch_from (b + size i) p pc
  end.
Definition fetch : Z → option instr := fetch_from base prog.

Definition is_trap (i : instr) : bool := match i with Trap => true | _ => false end.

(** [n] instructions, or fewer when the machine halts; with the state, whether it halted. *)
Fixpoint run (n : nat) (a : Isa) : option (Isa * bool) :=
  match n with
  | O => Some (a, false)
  | S n =>
    i ← fetch (i_pc a);
    a' ← step_instr i a;
    if is_trap i then Some (a', true) else run n a'
  end.
End Semantics.
