(* ===== verification/IsaSpec.v ===== *)
(** The executor implements the abstract processor of [Isa]: [exec] fetches, decodes and
    executes the machine code of each of its instructions as the abstract machine steps.
    [RunSpec] lifts this to programs. *)
From S2P Require Import Prelude Dram Cache L2Facts CacheFacts CacheSpec WorkingSet.
From S2P Require Import Tlb Cpu I8259 Mmio Vga WpPool Machine Memory MemFacts DemoMachine PageSpec.
From S2P Require Import SegMem Devices Decode Arith Logic DataMov ConTran StringOps SysIO Exec.
From S2P Require Import Expr CpuExec StackSpec ArithSpec BranchSpec DecodeSpec Isa.

#[local] Abbreviation len l := (Z.of_nat (length l)).

(** * Machine code in memory *)
Section Code.
Context `{HRand : !LibcRand, HJunk : !StackJunk} {DInv : (Z → Z) → Machine → Prop}
  {dok : Z → Z → Z → Prop} `{HData : !DataMem DInv dok}.

Abbreviation code := (code (dok := dok)).

Lemma code_app f a xs ys zs : code f a (xs ++ ys ++ zs) → code f (u32 (a + len xs)) ys.
Proof using.
  intros [Hb Hok]. split.
  - intros k b Hk. rewrite wrap_add_l, <- Z.add_assoc, <- Nat2Z.inj_add. apply Hb.
    rewrite lookup_app_r by lia. rewrite lookup_app_l by (apply lookup_lt_Some in Hk; lia). rewrite <- Hk. f_equal. lia.
  - intros k n Hk Hn Hl. rewrite wrap_add_l, <- Z.add_assoc. apply Hok; [lia|done|]. rewrite !length_app. lia.
Qed.

Lemma code_cons f a x ys : code f a (x :: ys) → code f (u32 (a + 1)) ys.
Proof using. intros H. apply (code_app f a [x] ys []). now rewrite app_nil_r. Qed.

Lemma code_head f a x ys : code f a (x :: ys) → 0 <= a < 2 ^ 32 → f a = x ∧ dok 1 a 1.
Proof using.
  intros [Hb Hok] Ha. specialize (Hb 0%nat x eq_refl). specialize (Hok 0 1 ltac:(lia) ltac:(auto)).
  rewrite Z.add_0_r, wrap_small in Hb, Hok by done. split; [exact Hb|]. apply Hok. cbn [length]. lia.
Qed.

Lemma code_le4 f a v : code f a (le4 v) → 0 <= a < 2 ^ 32 → le_load 4 f a = u32 v ∧ dok 1 a 4.
Proof using HData.
  intros [Hb Hok] Ha. specialize (Hok 0 4 ltac:(lia) ltac:(auto) ltac:(cbn; lia)).
  rewrite Z.add_0_r, wrap_small in Hok by done. pose proof (dm_ok _ _ _ Hok) as (? & ? & _). split; [|done].
  rewrite (le_load_bytes 4 f a v); [reflexivity|]. intros k Hk.
  specialize (Hb (Z.to_nat k) (byte_of v k)). rewrite Z2Nat.id, wrap_small in Hb by lia. apply Hb.
  assert (k = 0 ∨ k = 1 ∨ k = 2 ∨ k = 3) as [->|[->|[->| ->]]] by lia; reflexivity.
Qed.

Lemma load_byte f a : le_load (Z.to_nat 1) f a = f a.
Proof using. change (Z.to_nat 1) with 1%nat. cbn [le_load]. lia. Qed.

(** A signed byte. *)
Lemma code_byte f a v bs : code f a (byte_of v 0 :: bs) → 0 <= a < 2 ^ 32 → byte_ok v →
  s8 (le_load (Z.to_nat 1) f a) = v ∧ dok 1 a 1.
Proof using.
  intros Hc Ha Hv. destruct (code_head _ _ _ _ Hc Ha) as [Hb Hok]. split; [|exact Hok].
  rewrite load_byte, Hb, byte_of_0. change (v mod 256) with (wrap 8 v). rewrite sgn_wrap by done. now apply sgn_small.
Qed.

(** Stores elsewhere leave the code. *)
Lemma code_store f a bs ea v : 0 <= a → a + len bs <= 2 ^ 32 → a + len bs <= ea ∨ ea + 4 <= a →
  code f a bs → code (flat_store f ea 4 v) a bs.
Proof using.
  intros Ha Hl Hsep [Hb Hok]. split; [|exact Hok]. intros k b Hk. rewrite <- (Hb k b Hk). apply flat_store_out.
  apply lookup_lt_Some in Hk. rewrite wrap_small by lia. lia.
Qed.
End Code.

(** ** The instruction at an address *)
Lemma fetch_from_code p b pc i : fetch_from b p pc = Some i →
  ∃ xs zs, code_bytes_of p = xs ++ encode i ++ zs ∧ pc = b + len xs ∧ i ∈ p.
Proof.
  revert b; induction p as [|j p IH]; intros b; cbn [fetch_from]; [discriminate|].
  unfold code_bytes_of in *. rewrite fmap_cons. cbn [concat]. destruct (Z.eqb_spec pc b) as [->|].
  - intros [= ->]. exists [], (concat (encode <$> p)). split; [done|]. split; [cbn; lia|left].
  - intros (xs & zs & -> & -> & Hin)%IH. exists (encode j ++ xs), zs. split; [now rewrite app_assoc|].
    split; [rewrite length_app; unfold size; lia|now right].
Qed.

(** * The simulation relation *)
Record shows_flags (c : CPU_state) (f : Flags) : Prop := {
  sf_cf : CF c = b2z (f_cf f);
  sf_zf : ZF c = b2z (f_zf f);
  sf_sf : SF c = b2z (f_sf f);
  sf_of : OF c = b2z (f_of f);
  sf_pf : PF c = b2z (f_pf f)
}.

Record shows_regs (c : CPU_state) (r : arr Z) : Prop := {
  sr_regs : ∀ i, 0 <= i < 8 → gpr_l i c = aget r i;
  sr_range : ∀ i, 0 <= i < 8 → 0 <= aget r i < 2 ^ 32
}.

(** The decoder between two instructions: no operand-size prefix, and the segment of the
    operand [src], which [pop] uses, is one of the first four. *)
Record decoder_ok (o : Operands) : Prop := {
  do_16 : is_operand_size_16 o = false;
  do_sreg : 0 <= op_sreg (src o) < 4
}.

Lemma shows_set_reg c r i v : 0 <= i < 8 → shows_regs c r → shows_regs (set_gpr_l i v c) (aset i (u32 v) r).
Proof.
  intros Hi [H1 H2]. split; intros j Hj; rewrite ?gpr_l_set_l, aget_aset; destruct (i =? j); auto. apply wrap_range. lia.
Qed.


Lemma shows_set_reg_u32 c r i v : 0 <= i < 8 → shows_regs c r → shows_regs (set_gpr_l i (u32 v) c) (aset i (u32 v) r).
Proof. intros Hi Hs. rewrite <- (wrap_wrap 32 32 v) at 2 by done. now apply shows_set_reg. Qed.

(** ** EFLAGS: the status flags CF, PF, ZF, SF and OF, and the others *)
Definition STATUS_FLAGS : Z := 0x8c5.
Definition kept_flags (c : CPU_state) : Z := Z.ldiff (eflags c) STATUS_FLAGS.
Definition status_word (f : Flags) : Z :=
  b2z (f_cf f) + 4 * b2z (f_pf f) + 64 * b2z (f_zf f) + 128 * b2z (f_sf f) + 2048 * b2z (f_of f).

Lemma flag_testbit n c : 0 <= n → flag n c = b2z (Z.testbit (eflags c) n).
Proof. intros Hn. unfold flag. rewrite bitfield_eq by lia. change (2 ^ 1) with 2. rewrite <- Z.testbit_spec' by lia. reflexivity. Qed.

Lemma status_bit n : 0 <= n → Z.testbit STATUS_FLAGS n = bool_decide (n ∈ [0; 2; 6; 7; 11]).
Proof.
  intros Hn. destruct (Z.lt_ge_cases n 12) as [H|H].
  - assert (n = 0 ∨ n = 1 ∨ n = 2 ∨ n = 3 ∨ n = 4 ∨ n = 5 ∨ n = 6 ∨ n = 7 ∨ n = 8 ∨ n = 9 ∨ n = 10 ∨ n = 11) as Hc by lia.
    repeat (destruct Hc as [->|Hc]; [reflexivity|]). now subst n.
  - rewrite Z.bits_above_log2 by (first [done|change (Z.log2 STATUS_FLAGS) with 11; lia]).
    symmetry. apply bool_decide_eq_false. rewrite !elem_of_cons. intros [|[|[|[|[|[]%elem_of_nil]]]]]; lia.
Qed.

Lemma kept_flags_eq c c' : (∀ n, 0 <= n → n ∉ [0; 2; 6; 7; 11] → flag n c' = flag n c) → kept_flags c' = kept_flags c.
Proof.
  intros H. unfold kept_flags. apply Z.bits_inj'. intros n Hn. rewrite !Z.ldiff_spec, status_bit by done.
  case_bool_decide as Hin; [now rewrite !andb_false_r|]. specialize (H n Hn Hin). rewrite !flag_testbit in H by done.
  now destruct (Z.testbit (eflags c') n), (Z.testbit (eflags c) n).
Qed.

Lemma kept_flags_bit n c c' : kept_flags c' = kept_flags c → 0 <= n → n ∉ [0; 2; 6; 7; 11] → flag n c' = flag n c.
Proof.
  intros H Hn Hin. rewrite !flag_testbit by done. apply (f_equal (λ x, Z.testbit x n)) in H. unfold kept_flags in H.
  rewrite !Z.ldiff_spec, status_bit, bool_decide_eq_false_2, !andb_true_r in H by done. now rewrite H.
Qed.

Lemma eflags_split c f : shows_flags c f → eflags c = Z.lor (kept_flags c) (status_word f).
Proof.
  intros [H1 H2 H3 H4 H5]. rewrite !flag_testbit in * by done. unfold kept_flags.
  assert (Z.land (eflags c) STATUS_FLAGS = status_word f) as <-; [|rewrite Z.lor_comm; apply Z.bits_inj'; intros n Hn;
    rewrite Z.lor_spec, Z.land_spec, Z.ldiff_spec; now destruct (Z.testbit _ n), (Z.testbit _ n)].
  apply Z.bits_inj'. intros n Hn. rewrite Z.land_spec, status_bit by done. case_bool_decide as Hin.
  - rewrite andb_true_r. rewrite !elem_of_cons, elem_of_nil in Hin.
    destruct f as [[] [] [] [] []], Hin as [->|[->|[->|[->|[->|[]]]]]]; cbn [f_cf f_zf f_sf f_of f_pf] in *;
      match goal with H : b2z (Z.testbit ?x ?n) = _ |- Z.testbit ?x ?n = _ => destruct (Z.testbit x n); (reflexivity || discriminate) end.
  - rewrite andb_false_r. symmetry. pose proof (status_bit n Hn) as Hb. rewrite bool_decide_eq_false_2 in Hb by done.
    assert (status_word f = Z.land (status_word f) STATUS_FLAGS) as -> by now destruct f as [[] [] [] [] []].
    now rewrite Z.land_spec, Hb, andb_false_r.
Qed.

(** What the instructions of [Isa] never write: the other flags, the tables' registers, the
    control registers and the segment registers. *)
Definition system (c : CPU_state) : Z * (Z * Z) * (Z * Z) * arr SegReg :=
  (kept_flags c, (gdtr_base c, idtr_base c), (cr0 c, cr3 c), sreg c).

Lemma system_IF c c' : system c' = system c → IF_ c' = IF_ c.
Proof.
  intros [= H _ _ _ _ _]. apply kept_flags_bit; [done..|]. rewrite !not_elem_of_cons. split_and!; [done..|apply not_elem_of_nil].
Qed.

Section Instr.
Context `{HRand : !LibcRand, HJunk : !StackJunk} {DInv : (Z → Z) → Machine → Prop}
  {dok : Z → Z → Z → Prop} `{HData : !DataMem DInv dok}.
Context (lo hi : Z) (Hdata : ∀ sr ea, 0 <= sr < 4 → in_data lo hi ea = true → dok sr ea 4).

Abbreviation code := (code (dok := dok)).

(** The machine [s] is in the abstract state [a]. *)
Record shows (a : Isa) (s : Machine) : Prop := {
  sh_data : DInv (i_mem a) s;
  sh_pc : eip (cpu s) = i_pc a;
  sh_regs : shows_regs (cpu s) (i_regs a);
  sh_flags : shows_flags (cpu s) (i_flags a);
  sh_ops : decoder_ok (ops_decoded s)
}.

(** The instruction [i] has taken the machine from [s] to [s'], which is in the state [a']
    once the main loop has added the length [l] to EIP. *)
Record executed (s : Machine) (i : instr) (a' : Isa) (l : Z) (s' : Machine) : Prop := {
  ex_len : l = size i;
  ex_data : DInv (i_mem a') s';
  ex_pc : u32 (eip (cpu s') + l) = i_pc a';
  ex_regs : shows_regs (cpu s') (i_regs a');
  ex_flags : shows_flags (cpu s') (i_flags a');
  ex_ops : decoder_ok (ops_decoded s');
  ex_system : system (cpu s') = system (cpu s);
  ex_state : nemu_state s' = if is_trap i then END else nemu_state s;
  ex_rest : debug s' = debug s ∧ pic s' = pic s
}.

(** ** The opcode *)
Lemma wp_exec J f s m pc o bs (Q : Z → Machine → Prop) : DInv f s → 0 <= pc < 2 ^ 32 → code f pc (o :: bs) → 0 <= o < 256 →
  (∀ t c, let d := ops_decoded s in
    let s' := set_ops (mkOperands o (is_operand_size_16 d) (src d) (dest d) (src2 d)) (set_tlb t (set_caches c s)) in
    DInv f s' → wp J (nth (Z.to_nat o) (opcode_table (exec m) m) inv pc) Q s') →
  wp J (exec (S m) pc) Q s.
Proof using HData.
  intros Hs Hpc Hc Ho HQ. apply code_head in Hc as [Hb Hok]; [|done]. cbn [exec]. unfold instr_fetch.
  apply wp_bind. wp_load Hok. assert (le_load (Z.to_nat 1) f pc = o) as ->.
  { change (Z.to_nat 1) with 1%nat. cbn [le_load]. lia. }
  apply wp_bind. unfold put_opcode. apply wp_modify. rewrite wrap_small by lia. apply HQ. data.
Qed.

(** The opcodes with a register in the low bits. *)
Lemma table_reg e m b r : existsb (Z.eqb b) [0x40; 0x48; 0x50; 0x58; 0xb8] = true → reg_ok r →
  nth (Z.to_nat (b + r)) (opcode_table e m) inv = nth (Z.to_nat b) (opcode_table e m) inv.
Proof using.
  unfold reg_ok. intros Hb Hr. assert (r = 0 ∨ r = 1 ∨ r = 2 ∨ r = 3 ∨ r = 4 ∨ r = 5 ∨ r = 6 ∨ r = 7) as Hc by lia.
  assert (b = 0x40 ∨ b = 0x48 ∨ b = 0x50 ∨ b = 0x58 ∨ b = 0xb8) as Hb' by (cbn [existsb] in Hb; lia). clear Hb Hr.
  destruct Hb' as [->|[->|[->|[->| ->]]]]; repeat (destruct Hc as [->|Hc]; [reflexivity|]); subst r; reflexivity.
Qed.

Lemma wp_helper_v J h s (Q : Z → Machine → Prop) pc : is_operand_size_16 (ops_decoded s) = false →
  wp J (h WL pc) Q s → wp J (make_helper_v h pc) Q s.
Proof using. intros H HQ. unfold make_helper_v. apply wp_bind, wp_getS. now rewrite H. Qed.

Lemma wp_write_operand_reg J op v (Q : unit → Machine → Prop) s r : op_type (operand op (ops_decoded s)) = OP_TYPE_REG →
  op_u (operand op (ops_decoded s)) = r → reg_ok r → Q tt (set_cpu (set_gpr_l r v (cpu s)) s) → wp J (write_operand WL op v) Q s.
Proof using.
  intros Ht Hu Hr HQ. apply wp_write_reg; [exact Ht|]. rewrite Hu. unfold set_REG. apply wp_set_reg_l; [exact Hr|].
  replace (set_gpr_l r (DATA_TYPE WL v) (cpu s)) with (set_gpr_l r v (cpu s)); [exact HQ|].
  unfold set_gpr_l. change (DATA_TYPE WL v) with (u32 v). now rewrite (wrap_wrap 32 32) by done.
Qed.

(** ** Register operands *)
Definition reg_operand (r v : Z) (o : Operand) : Operand := mkOperand OP_TYPE_REG (op_size o) r (op_sreg o) v.

Lemma shown_reg c regs r : shows_regs c regs → reg_ok r → gpr_l r c = aget regs r ∧ u32 (aget regs r) = aget regs r.
Proof using. intros [H1 H2] Hr. split; [now apply H1|]. apply wrap_small, H2, Hr. Qed.

Lemma decode_r_run J op s e b r regs (Q : Z → Machine → Prop) : opcode (ops_decoded s) = b + r → b mod 8 = 0 → reg_ok r →
  shows_regs (cpu s) regs →
  Q 0 (set_ops (set_operand op (reg_operand r (aget regs r)) (ops_decoded s)) s) → wp J (decode_r_internal WL e op) Q s.
Proof using.
  intros Ho Hb Hr Hs HQ. destruct (shown_reg _ _ _ Hs Hr) as [Eg Es]. unfold reg_ok in Hr. unfold decode_r_internal, REG.
  apply wp_bind, wp_mod_op, wp_bind, wp_gets, wp_bind, wp_mod_op, wp_bind, wp_get_op. mproj.
  rewrite operand_same. assert (opcode (set_operand op (set_op_type OP_TYPE_REG) (ops_decoded s)) = b + r) as -> by (destruct op; exact Ho).
  rewrite opcode_reg by done. cbn [op_u set_op_u]. rewrite (wrap_small 32 r) by lia.
  apply wp_bind, wp_reg_l; [done|]. apply wp_bind, wp_mod_op, wp_ret. mproj. rewrite !set_operand_twice, Eg.
  match goal with |- Q 0 (set_ops ?x _) => replace x with (set_operand op (reg_operand r (aget regs r)) (ops_decoded s)) end.
  - exact HQ.
  - apply set_operand_ext. unfold reg_operand, set_op_val, set_op_u, set_op_type. cbn [op_type op_size op_u op_sreg op_val].
    now rewrite Es, (wrap_small 32 r) by lia.
Qed.

Lemma decode_regs_run J f s e d r bs regs rm reg (Q : Z → Machine → Prop) : rm ≠ reg → DInv f s → code f e (modrm_regs d r :: bs) →
  0 <= e < 2 ^ 32 → reg_ok d → reg_ok r → shows_regs (cpu s) regs →
  (∀ t c x, let o := set_operand reg (reg_operand r (aget regs r))
      (set_operand rm (λ _, mkOperand OP_TYPE_REG 4 d x (aget regs d)) (ops_decoded s)) in
    let s' := set_ops o (set_tlb t (set_caches c s)) in DInv f s' → Q 1 s') →
  wp J (decode_rm_internal WL e rm reg) Q s.
Proof using HData.
  intros Hne Hs Hc He Hd Hr Hsr HQ. apply code_head in Hc as [Hb Hok]; [|done].
  destruct (shown_reg _ _ _ Hsr Hd) as [Ed Ed']. destruct (shown_reg _ _ _ Hsr Hr) as [Er Er']. unfold reg_ok in Hd, Hr.
  destruct (byte_fields d r 3) as (F1 & F2 & F3); [lia..|].
  unfold decode_rm_internal, read_ModR_M, instr_fetch, REG. cbn [DATA_BYTE]. apply wp_bind, wp_mod_op, wp_bind, wp_bind. wp_load Hok.
  assert (le_load (Z.to_nat 1) f e = modrm_regs d r) as ->.
  { change (Z.to_nat 1) with 1%nat. cbn [le_load]. lia. }
  unfold ModR_M_reg, ModR_M_mod, ModR_M_R_M, modrm_regs. rewrite F1, F2, F3. change (3 =? 3) with true. cbv iota.
  destruct rm, reg; try done; repeat wp_step; change (u32 4) with 4; change (4 =? 1) with false; change (4 =? 2) with false;
    change (4 =? 4) with true; cbv iota; repeat wp_step; rewrite (wrap_small 32 r) by lia; repeat wp_step;
    unfold set_op_val, set_op_u, set_op_type, set_op_sreg, set_op_size; cbn [op_type op_size op_u op_sreg op_val];
    rewrite Ed, Er, Ed', Er', (wrap_small 32 d), (wrap_small 32 r) by lia;
    match goal with |- context [mkOperand OP_TYPE_REG 4 d ?x _] => apply (HQ _ _ x); data end.
Qed.

Lemma modrm_segment_range r : 0 <= modrm_segment r < 4.
Proof using. unfold modrm_segment. destruct (_ || _); lia. Qed.

(** What the conclusion [executed] of an instruction leaves to show. *)
Lemma pc_next c l p n : eip c = p → l = n → u32 (eip c + l) = u32 (p + n).
Proof using. now intros -> ->. Qed.

Lemma flags_kept c c' f : shows_flags c f → eflags c' = eflags c → shows_flags c' f.
Proof using. intros [H1 H2 H3 H4 H5] E. unfold flag in *. split; unfold flag; rewrite E; assumption. Qed.

Lemma regs_kept c c' r : shows_regs c r → gpr c' = gpr c → shows_regs c' r.
Proof using. intros [H1 H2] E. unfold gpr_l in *. split; [unfold gpr_l; rewrite E; exact H1|exact H2]. Qed.

Ltac data_kept :=
  match goal with
  | H : DInv _ ?s |- DInv _ ?s' => refine (dm_frame _ s s' _ H); repeat split; first [reflexivity|assumption]
  end.
Ltac pc_kept := match goal with H : eip ?c = _, H' : eip _ = ?p |- eip ?c = ?p => exact (eq_trans H H') end.
Ltac regs_shown := repeat (apply shows_set_reg; [first [assumption|done]|]); first [assumption|eapply regs_kept; [eassumption|reflexivity]].
Ltac size_eq := first [reflexivity|unfold size; cbn [encode length]; lia].
Ltac exec_done := split; mproj; cbn [i_mem i_pc i_regs i_flags i_goto i_set_reg i_set_flags i_store is_trap];
  [try size_eq|try first [data|data_kept]|try (eapply pc_next; [first [eassumption|pc_kept]|size_eq])|try regs_shown|
   try (eapply flags_kept; [eassumption|reflexivity])|split; [assumption|first [assumption|apply modrm_segment_range]]|try first [reflexivity|assumption]|reflexivity|done].

Definition simulates (i : instr) : Prop := ∀ J s m a a', shows a s → code (i_mem a) (i_pc a) (encode i) → 0 <= i_pc a < 2 ^ 32 →
  instr_ok i → step_instr lo hi i a = Some a' → wp J (exec (S m) (i_pc a)) (executed s i a') s.

Ltac sim_start := intros J s m a a' [Hd Hpc Hr Hf [H16 Hsr]] Hc Hp Hi Hstep.
Ltac sim_opcode Hd1 := eapply wp_exec; [eassumption..|repeat match goal with H : reg_ok _ |- _ => unfold reg_ok in H end; lia|]; intros ? ?; cbv zeta; intros Hd1.
(** The bytes after the opcode. *)
Ltac sim_rest H Hp1 := match goal with Hc : code _ ?pc (encode _) |- _ =>
  pose proof (code_cons _ _ _ _ Hc) as H; assert (0 <= u32 (pc + 1) < 2 ^ 32) as Hp1 by (apply wrap_range; lia) end.

Lemma sim_movi r v : simulates (MovI r v).
Proof using HData.
  sim_start. destruct Hi as [Hrr Hv]. sim_rest Hrest Hp1. apply code_le4 in Hrest as [Hl Hok]; [|done]. injection Hstep as <-.
  sim_opcode Hd1. rewrite (table_reg _ _ 0xb8) by done. change (nth _ _ _) with mov_i2r_v. apply wp_helper_v; [exact H16|].
  unfold mov_i2r, make_instr_helper, idex, decode_i2r, decode_i, instr_fetch.
  apply wp_bind, wp_bind, (decode_r_run _ _ _ _ 0xb8 r (i_regs a)); [done..|exact Hr|].
  cbn [DATA_BYTE]. repeat wp_step. wp_load Hok. change (Z.to_nat 4) with 4%nat. rewrite Hl. unfold do_mov. repeat wp_step.
  apply (wp_write_operand_reg _ _ _ _ _ r); [reflexivity..|done|]. repeat wp_step. rewrite !(wrap_wrap 32 32), wrap_small by done.
  exec_done.
Qed.

Lemma sim_mov d r : simulates (Mov d r).
Proof using HData.
  sim_start. destruct Hi as [Hd' Hr']. sim_rest Hrest Hp1. injection Hstep as <-.
  sim_opcode Hd1. change (nth _ _ _) with mov_r2rm_v. apply wp_helper_v; [exact H16|].
  unfold mov_r2rm, make_instr_helper, idex, do_mov. apply wp_bind.
  apply (decode_regs_run _ _ _ _ d r [] (i_regs a) op_dest op_src _ ltac:(done) Hd1 Hrest); [done..|exact Hr|].
  intros t2 c2 x. cbv zeta. intros Hd2. repeat wp_step.
  apply (wp_write_operand_reg _ _ _ _ _ d); [reflexivity..|done|]. repeat wp_step. cbn [op_val reg_operand]. exec_done.
Qed.

(** ** Memory operands *)
Lemma address_effective a c e : enc_ok e → shows_regs c (i_regs a) → effective (enc_mem e) c = address (enc_mem e) a.
Proof using.
  intros He Hs. pose proof (ok_b e He) as Hb. unfold effective, address, enc_mem. cbn [m_base m_index m_disp].
  do 3 f_equal.
  - destruct (_ && _); [done|]. now apply (sr_regs _ _ Hs).
  - destruct (enc_index e) as [[i x]|] eqn:E; [|done]. destruct (enc_index_ok e He i x E) as (_ & Hi & _). now rewrite (sr_regs _ _ Hs).
Qed.

Lemma decode_mem_run J s pc e regs f rm reg (Q : Z → Machine → Prop) : rm ≠ reg → DInv f s → code f pc (enc_bytes e) →
  0 <= pc < 2 ^ 32 → enc_ok e → shows_regs (cpu s) regs → let ea := effective (enc_mem e) (cpu s) in
  in_data lo hi ea = true →
  (∀ t c, let o := set_operand reg (reg_operand (e_reg e) (aget regs (e_reg e))) (set_operand rm (λ x,
      mkOperand OP_TYPE_MEM 4 ea (modrm_segment (e_reg e)) (le_load 4 f ea)) (ops_decoded s)) in
    let s' := set_ops o (set_tlb t (set_caches c s)) in
    DInv f s' → Q (len (enc_bytes e)) s') →
  wp J (decode_rm_internal WL pc rm reg) Q s.
Proof using HData Hdata.
  intros Hne Hs Hc Hp He Hr ea Hin HQ. pose proof (ok_reg e He) as Hreg.
  destruct (shown_reg _ _ _ Hr Hreg) as [Er Er']. 
  unfold decode_rm_internal, REG. cbn [DATA_BYTE]. apply wp_bind, wp_mod_op.
  assert (operand rm (set_operand rm (set_op_size 4) (ops_decoded s)) = set_op_size 4 (operand rm (ops_decoded s))) as Eo by apply operand_same.
  apply wp_bind. apply (read_ModR_M_run J f _ pc e rm reg); [done..|data| |]; mproj; rewrite Eo; cbn [op_size set_op_size]; change (u32 4) with 4.
  { apply Hdata; [apply modrm_segment_range|exact Hin]. }
  intros t c Hd. apply wp_bind, wp_get_op. mproj. rewrite operand_other, operand_same by done.
  unfold with_reg at 1. cbn [op_u set_op_u]. rewrite (wrap_small 32 (e_reg e)) by lia.
  apply wp_bind, wp_reg_l; [done|]. apply wp_bind, wp_mod_op, wp_ret. mproj. rewrite Er.
  match goal with |- Q _ (set_ops ?o _) => replace o with (set_operand reg (reg_operand (e_reg e) (aget regs (e_reg e))) (set_operand rm (λ x,
    mkOperand OP_TYPE_MEM 4 ea (modrm_segment (e_reg e)) (le_load 4 f ea)) (ops_decoded s))) end.
  - apply (HQ t c). data.
  - assert (∀ o, set_op_val (aget regs (e_reg e)) (with_reg (e_reg e) o) = reg_operand (e_reg e) (aget regs (e_reg e)) o) as E1.
    { intros o. unfold set_op_val, with_reg, set_op_u, reg_operand. cbn [op_type op_size op_u op_sreg]. now rewrite Er', (wrap_small 32) by lia. }
    destruct rm, reg; try done; cbn [set_operand src dest src2 opcode is_operand_size_16]; now rewrite E1.
Qed.

Lemma sim_load e : simulates (Load e).
Proof using HData Hdata.
  sim_start. cbn [instr_ok] in Hi. sim_rest Hrest Hp1. cbn [step_instr] in Hstep. unfold load_at in Hstep.
  destruct (in_data _ _ _) eqn:Hin; [|discriminate]. injection Hstep as <-. rewrite <- (address_effective a (cpu s) e Hi Hr) in Hin |- *.
  sim_opcode Hd1. change (nth _ _ _) with mov_rm2r_v. apply wp_helper_v; [exact H16|].
  unfold mov_rm2r, make_instr_helper, idex, do_mov, decode_rm2r. apply wp_bind.
  apply (decode_mem_run _ _ _ e (i_regs a) _ op_src op_dest _ ltac:(done) Hd1 Hrest); [done..|exact Hr|exact Hin|].
  intros t2 c2. cbv zeta. mproj. intros Hd2. repeat wp_step.
  pose proof (ok_reg e Hi) as Hreg. apply (wp_write_operand_reg _ _ _ _ _ (e_reg e)); [reflexivity..|done|]. repeat wp_step. exec_done.
Qed.

Lemma sim_store e : simulates (Store e).
Proof using HData Hdata.
  sim_start. cbn [instr_ok] in Hi. sim_rest Hrest Hp1. cbn [step_instr] in Hstep. unfold store_at in Hstep.
  destruct (in_data _ _ _) eqn:Hin; [|discriminate]. injection Hstep as <-. rewrite <- (address_effective a (cpu s) e Hi Hr) in Hin |- *.
  sim_opcode Hd1. change (nth _ _ _) with mov_r2rm_v. apply wp_helper_v; [exact H16|].
  unfold mov_r2rm, make_instr_helper, idex, do_mov, decode_r2rm. apply wp_bind.
  apply (decode_mem_run _ _ _ e (i_regs a) _ op_dest op_src _ ltac:(done) Hd1 Hrest); [done..|exact Hr|exact Hin|].
  intros t2 c2. cbv zeta. mproj. intros Hd2. repeat wp_step.
  unfold write_operand. repeat wp_step. unfold id. mproj. change (OP_TYPE_MEM =? OP_TYPE_REG) with false.
  change (OP_TYPE_MEM =? OP_TYPE_MEM) with true. cbv iota. 
  wp_store (Hdata _ _ (modrm_segment_range (e_reg e)) Hin). repeat wp_step.
  destruct (shown_reg _ _ _ Hr (ok_reg e Hi)) as [_ E]. 
  change (DATA_TYPE WL _) with (u32 (aget (i_regs a) (e_reg e))) in Hd0. rewrite E in Hd0. exec_done.
Qed.

Lemma sim_lea e : simulates (Lea e).
Proof using HData.
  sim_start. cbn [instr_ok] in Hi. sim_rest Hrest Hp1. injection Hstep as <-. rewrite <- (address_effective a (cpu s) e Hi Hr).
  sim_opcode Hd1. change (nth _ _ _) with lea. unfold lea, instr_fetch.
  destruct (code_head _ _ _ _ Hrest Hp1) as [Hb Hok]. apply wp_bind. wp_load Hok.
  assert (le_load (Z.to_nat 1) (i_mem a) (u32 (i_pc a + 1)) = modrm_byte e) as ->.
  { change (Z.to_nat 1) with 1%nat. cbn [le_load]. lia. }
  destruct (modrm_fields e Hi) as (_ & Ereg & _). pose proof (ok_reg e Hi) as Hreg. apply wp_bind.
  apply (load_addr_run _ (i_mem a) _ _ e); [done|done|data|]. intros t2 c2 Hd2. mproj. repeat wp_step. rewrite Ereg.
  repeat wp_step. unfold to_mem. cbn [op_u set_op_u]. exec_done. now apply shows_set_reg_u32.
Qed.

(** ** Arithmetic and logic *)
Lemma logic_flags_set w r c : in_width w r → flags_set w r false false c (logic_flags w r c).
Proof using.
  intros Hr. unfold logic_flags. cbv zeta. rewrite MSB_eq, pf_of_parity by done.
  split; [reflexivity|flag_get; reflexivity..|].
  intros n Hn Hl. rewrite !not_elem_of_cons in Hl. destruct Hl as (? & ? & ? & ? & ? & _). now flag_get.
Qed.

(** [c'] is [c] with the flags [f]. *)
Record flagged (f : Flags) (c c' : CPU_state) : Prop := {
  fl_rest : c' = set_eflags (eflags c') c;
  fl_flags : shows_flags c' f;
  fl_kept : kept_flags c' = kept_flags c
}.

Lemma flagged_set r carry ovf c c' : flags_set WL r carry ovf c c' → flagged (flags_of r carry ovf) c c'.
Proof using.
  intros [H1 H2 H3 H4 H5 H6 H7]. split; [exact H1|split; [exact H2|exact H3|exact H4|exact H5|exact H6]|].
  now apply kept_flags_eq.
Qed.

Definition alu_exec (op : alu) : width → NEMU unit :=
  match op with Add => do_add | Sub => do_sub | Cmp => do_cmp | And => do_and | Or => do_or | Xor => do_xor | Test => do_test end.

Lemma overflows_fits x : overflows x = negb (fits WL x).
Proof using. reflexivity. Qed.

Lemma add_flagged d v c : in_width WL d → in_width WL v → flagged (alu_flags Add d v) c
  (update_flags WL (u32 (d + v)) (b2z (u32 (d + v) <? d)) (λ sf, (MSB WL d =? MSB WL v) && negb (sf =? MSB WL d)) c).
Proof using.
  intros Hd Hv. unfold alu_flags, alu_result. change (overflows ?x) with (negb (fits WL x)).
  pose proof (add_carry WL d v 0 Hd Hv ltac:(lia) ltac:(lia)) as Ec. pose proof (add_overflow WL d v 0 Hd Hv ltac:(lia)) as Eo.
  rewrite Z.add_0_r in Ec. rewrite (Z.add_0_r (d + v)), (Z.add_0_r (DATA_TYPE_S WL d + _)) in Eo. change (2 ^ 32) with (2 ^ bits WL). rewrite <- Ec. 
  change (fits WL (s32 d + s32 v)) with (fits WL (DATA_TYPE_S WL d + DATA_TYPE_S WL v)). rewrite <- Eo.
  apply flagged_set. apply (update_flags_set WL _ _ (λ sf, (MSB WL d =? MSB WL v) && negb (sf =? MSB WL d))), DATA_TYPE_range.
Qed.

Lemma sub_flagged op d v c : op = Sub ∨ op = Cmp → in_width WL d → in_width WL v → flagged (alu_flags op d v) c
  (update_flags WL (u32 (d - v)) (b2z (d <? v)) (λ sf, negb (MSB WL d =? MSB WL v) && (sf =? MSB WL v)) c).
Proof using.
  intros Hop Hd Hv. pose proof (sub_overflow WL d v 0 Hd Hv ltac:(lia)) as Eo. rewrite Z.add_0_r, Z.sub_0_r in Eo.
  assert (alu_flags op d v = flags_of (u32 (d - v)) (d <? v) (negb (fits WL (DATA_TYPE_S WL d - DATA_TYPE_S WL v)))) as ->
    by (destruct Hop as [-> | ->]; reflexivity).
  rewrite <- Eo. apply flagged_set.
  apply (update_flags_set WL _ _ (λ sf, negb (MSB WL d =? MSB WL v) && (sf =? MSB WL v))), DATA_TYPE_range.
Qed.

Lemma logic_flagged op d v c : op = And ∨ op = Or ∨ op = Xor ∨ op = Test → in_width WL (alu_result op d v) →
  flagged (alu_flags op d v) c (logic_flags WL (alu_result op d v) c).
Proof using.
  intros Hop Hr. assert (alu_flags op d v = flags_of (alu_result op d v) false false) as ->
    by (destruct Hop as [->|[->|[->| ->]]]; reflexivity).
  now apply flagged_set, logic_flags_set.
Qed.

Lemma alu_result_range op d v : in_width WL d → in_width WL v → in_width WL (alu_result op d v).
Proof using.
  unfold in_width. change (bits WL) with 32. intros Hd Hv. destruct op; cbn [alu_result]; first [apply wrap_range|apply land_range|apply lor_range|apply lxor_range]; done || lia.
Qed.

(** [c'] is [c] with the result of an operation in register [r] and its flags set. *)
Record alu_after (op : alu) (r d v : Z) (regs : arr Z) (c c' : CPU_state) : Prop := {
  aa_regs : shows_regs c' (if writes op then aset r (u32 (alu_result op d v)) regs else regs);
  aa_flags : shows_flags c' (alu_flags op d v);
  aa_system : system c' = system c;
  aa_eip : eip c' = eip c;
  aa_cr0 : cr0 c' = cr0 c;
  aa_cr3 : cr3 c' = cr3 c;
  aa_sreg : sreg c' = sreg c
}.

Lemma flagged_after op r d v regs c c' : reg_ok r → shows_regs c regs →
  flagged (alu_flags op d v) (if writes op then set_gpr_l r (alu_result op d v) c else c) c' → alu_after op r d v regs c c'.
Proof using.
  intros Hr Hs [E Hf HI]. assert (shows_regs (if writes op then set_gpr_l r (alu_result op d v) c else c)
    (if writes op then aset r (u32 (alu_result op d v)) regs else regs)) as [H1 H2].
  { destruct (writes op); [now apply shows_set_reg|done]. }
  split; [|exact Hf|unfold system; rewrite HI, E|rewrite E..]; try (now destruct (writes op)). rewrite E. split; [exact H1|exact H2].
Qed.

(** The operation on a register: [d] and [v] are the operands' values. *)
Lemma alu_exec_run J op s r regs v (Q : unit → Machine → Prop) : let o := ops_decoded s in let d := aget regs r in
  op_type (dest o) = OP_TYPE_REG → op_u (dest o) = r → op_val (dest o) = d → op_val (src o) = v → reg_ok r →
  shows_regs (cpu s) regs → 0 <= v < 2 ^ 32 →
  (∀ c', alu_after op r d v regs (cpu s) c' → Q tt (set_cpu c' s)) → wp J (alu_exec op WL) Q s.
Proof using.
  intros o d Ht Hu Hd Hv Hr Hs Hvr HQ. assert (in_width WL d) as Hdw by (apply (sr_range _ _ Hs), Hr). 
  assert (in_width WL v) as Hvw by exact Hvr. pose proof (alu_result_range op d v Hdw Hvw) as Hres.
  pose proof (logic_flagged op d v) as Hl.
  destruct op; cbn [alu_exec alu_result] in *;
    [unfold do_add|unfold do_sub|unfold do_cmp|unfold do_and|unfold do_or|unfold do_xor|unfold do_test];
    apply wp_bind, wp_get_op, wp_bind, wp_get_op; cbn [operand]; fold o; rewrite Hd, Hv; cbv zeta;
    first [apply wp_bind; apply (wp_write_operand_reg _ _ _ _ _ r); [done..|]; apply wp_mod_cpu|apply wp_mod_cpu]; mproj; collapse;
    apply HQ, flagged_after; try done; cbn [writes];
    first [now apply add_flagged|apply sub_flagged; auto|rewrite (DATA_TYPE_small WL) by exact Hres; apply Hl; auto].
Qed.

(** [inc] and [dec] as additions and subtractions of one. *)
Lemma inc_exec_run J s r regs (Q : unit → Machine → Prop) : let o := ops_decoded s in let d := aget regs r in
  op_type (src o) = OP_TYPE_REG → op_u (src o) = r → op_val (src o) = d → reg_ok r → shows_regs (cpu s) regs →
  (∀ c', alu_after Add r d 1 regs (cpu s) c' → Q tt (set_cpu c' s)) → wp J (do_inc WL) Q s.
Proof using.
  intros o d Ht Hu Hd Hr Hs HQ. assert (in_width WL d) as Hdw by (apply (sr_range _ _ Hs), Hr). 
  unfold do_inc. apply wp_bind, wp_get_op. cbn [operand]. fold o. rewrite Hd. cbv zeta.
  apply wp_bind. apply (wp_write_operand_reg _ _ _ _ _ r); [done..|]. apply wp_mod_cpu. mproj. collapse.
  apply HQ, flagged_after; [done..|]. cbn [writes]. rewrite (Z.eqb_sym 0 (MSB WL d)). now apply add_flagged.
Qed.

Lemma dec_exec_run J s r regs (Q : unit → Machine → Prop) : let o := ops_decoded s in let d := aget regs r in
  op_type (src o) = OP_TYPE_REG → op_u (src o) = r → op_val (src o) = d → reg_ok r → shows_regs (cpu s) regs →
  (∀ c', alu_after Sub r d 1 regs (cpu s) c' → Q tt (set_cpu c' s)) → wp J (do_dec WL) Q s.
Proof using.
  intros o d Ht Hu Hd Hr Hs HQ. assert (in_width WL d) as Hdw by (apply (sr_range _ _ Hs), Hr). 
  unfold do_dec. apply wp_bind, wp_get_op. cbn [operand]. fold o. rewrite Hd. cbv zeta.
  apply wp_bind. apply (wp_write_operand_reg _ _ _ _ _ r); [done..|]. apply wp_mod_cpu. mproj. collapse.
  apply HQ, flagged_after; [done..|]. cbn [writes]. now apply sub_flagged; [left|..].
Qed.

Lemma table_alu e m op : nth (Z.to_nat (alu_opcode op)) (opcode_table e m) inv =
  make_helper_v (make_instr_helper decode_r2rm (alu_exec op)).
Proof using. now destruct op. Qed.

Lemma sim_alu op d r : simulates (Alu op d r).
Proof using HData.
  sim_start. destruct Hi as [Hd' Hr']. sim_rest Hrest Hp1. injection Hstep as <-.
  eapply wp_exec; [eassumption..|destruct op; cbn; lia|]. intros t c. cbv zeta. intros Hd1.
  rewrite table_alu. apply wp_helper_v; [exact H16|].
  unfold make_instr_helper, idex. apply wp_bind.
  apply (decode_regs_run _ _ _ _ d r [] (i_regs a) op_dest op_src _ ltac:(done) Hd1 Hrest); [done..|exact Hr|].
  intros t2 c2 x. cbv zeta. mproj. collapse. intros Hd2. apply wp_bind.
  apply (alu_exec_run _ _ _ d (i_regs a) (aget (i_regs a) r)); [reflexivity..|done|exact Hr|apply (sr_range _ _ Hr), Hr'|].
  intros c' [Hr2 Hf2 HI He H0 H3 Hsg]. apply wp_ret. wp_norm.
  unfold alu_step. destruct (writes op); exec_done.
Qed.

(** The groups of the operations on an immediate. *)
Lemma wp_group J f s pc b bs table h (Q : Z → Machine → Prop) : DInv f s → code f (u32 (pc + 1)) (b :: bs) →
  nth (Z.to_nat (ModR_M_opcode b)) table inv = h →
  (∀ t c, let s' := set_tlb t (set_caches c s) in DInv f s' → wp J (h pc) Q s') → wp J (make_group table pc) Q s.
Proof using HData.
  intros Hs Hc Hh HQ. apply code_head in Hc as [Hb Hok]; [|apply wrap_range; lia]. unfold make_group, instr_fetch. apply wp_bind. wp_load Hok.
  rewrite load_byte, Hb, Hh. apply HQ. data.
Qed.

Lemma opcode_regs d n : reg_ok d → reg_ok n → ModR_M_opcode (modrm_regs d n) = n.
Proof using. unfold reg_ok. intros Hd Hn. destruct (byte_fields d n 3) as (_ & F2 & _); [lia..|]. exact F2. Qed.

Definition alu_imm_table (op : alu) : list helper :=
  match op with
  | Test => [test_i2rm_v; inv; not_rm_v; neg_rm_v; mul_rm_v; imul_rm2a_v; div_rm_v; idiv_rm_v]
  | _ => [add_i2rm_v; or_i2rm_v; adc_i2rm_v; sbb_i2rm_v; and_i2rm_v; sub_i2rm_v; xor_i2rm_v; cmp_i2rm_v]
  end.

Lemma table_alu_imm e m op : nth (Z.to_nat (alu_imm_opcode op)) (opcode_table e m) inv = make_group (alu_imm_table op) ∧
  nth (Z.to_nat (alu_group op)) (alu_imm_table op) inv = make_helper_v (make_instr_helper decode_i2rm (alu_exec op)).
Proof using. now destruct op. Qed.

Lemma table_alu_sx op : op ≠ Test → nth (Z.to_nat (alu_group op)) [add_si2rm_v; or_si2rm_v; adc_si2rm_v; sbb_si2rm_v;
  and_si2rm_v; sub_si2rm_v; xor_si2rm_v; cmp_si2rm_v] inv = make_helper_v (make_instr_helper decode_si2rm (alu_exec op)).
Proof using. now destruct op. Qed.

Lemma alu_group_ok op : reg_ok (alu_group op).
Proof using. unfold reg_ok. destruct op; cbn; lia. Qed.

Lemma sim_alui op d v : simulates (AluI op d v).
Proof using HData.
  sim_start. destruct Hi as [Hd' Hv]. sim_rest Hrest Hp1. injection Hstep as <-.
  pose proof (alu_group_ok op) as Hg.
  assert (code (i_mem a) (u32 (u32 (i_pc a + 1) + 1)) (le4 v)) as Hl by exact (code_cons _ _ _ _ Hrest).
  apply code_le4 in Hl as [Hl Hok]; [|apply wrap_range; lia].
  eapply wp_exec; [eassumption..|destruct op; cbn; lia|]. intros t c. cbv zeta. intros Hd1.
  destruct (table_alu_imm (exec m) m op) as [-> Hh].
  rewrite <- (opcode_regs d _ Hd' Hg) in Hh. apply (wp_group _ _ _ _ _ _ _ _ _ Hd1 Hrest Hh). intros t1 c1. cbv zeta. intros Hd2. apply wp_helper_v; [exact H16|].
  unfold make_instr_helper, idex, decode_i2rm, decode_i, instr_fetch. apply wp_bind, wp_bind.
  apply (decode_regs_run _ _ _ _ d (alu_group op) (le4 v) (i_regs a) op_dest op_src2 _ ltac:(done) Hd2 Hrest); [done..|exact Hr|].
  intros t2 c2 x. cbv zeta. mproj. collapse. intros Hd3. cbn [DATA_BYTE]. repeat wp_step. wp_load Hok.
  change (Z.to_nat 4) with 4%nat. rewrite Hl. repeat wp_step.
  apply (alu_exec_run _ _ _ d (i_regs a) v); [reflexivity..| |done|exact Hr|exact Hv|].
  { mproj. cbn [op_val set_op_val]. rewrite !(wrap_wrap 32 32) by done. now apply wrap_small. }
  intros c' [Hr2 Hf2 HI He H0 H3 Hsg]. repeat wp_step.
  unfold alu_step. destruct (writes op); exec_done.
Qed.

Lemma sim_alus op d v : simulates (AluS op d v).
Proof using HData.
  sim_start. destruct Hi as (Hop & Hd' & Hv). sim_rest Hrest Hp1. injection Hstep as <-. pose proof (alu_group_ok op) as Hg.
  destruct (code_byte _ _ _ _ (code_cons _ _ _ _ Hrest) ltac:(apply wrap_range; lia) Hv) as [Hl Hok].
  sim_opcode Hd1. change (nth _ _ _) with group1_sx_v. pose proof (table_alu_sx op Hop) as Hh. rewrite <- (opcode_regs d _ Hd' Hg) in Hh.
  apply (wp_group _ _ _ _ _ _ _ _ _ Hd1 Hrest Hh). intros t1 c1. cbv zeta. intros Hd2. apply wp_helper_v; [exact H16|].
  unfold make_instr_helper, idex, decode_si2rm, decode_si, instr_fetch. apply wp_bind, wp_bind.
  apply (decode_regs_run _ _ _ _ d (alu_group op) _ (i_regs a) op_dest op_src2 _ ltac:(done) Hd2 Hrest); [done..|exact Hr|].
  intros t2 c2 x. cbv zeta. mproj. collapse. intros Hd3. cbn [DATA_BYTE]. repeat wp_step. wp_load Hok.
  change (DATA_TYPE_S WB ?x) with (s8 x). rewrite Hl. repeat wp_step.
  apply (alu_exec_run _ _ _ d (i_regs a) (u32 v)); [reflexivity..| |done|exact Hr|apply wrap_range; lia|].
  { mproj. cbn [op_val set_op_val]. now rewrite !(wrap_wrap 32 32). }
  intros c' [Hr2 Hf2 HI He H0 H3 Hsg]. repeat wp_step.
  unfold alu_step. destruct (writes op); exec_done.
Qed.

Lemma sim_inc r : simulates (Inc r).
Proof using HData.
  sim_start. cbn [instr_ok] in Hi. injection Hstep as <-. sim_opcode Hd1.
  rewrite (table_reg _ _ 0x40) by done. change (nth _ _ _) with inc_r_v. apply wp_helper_v; [exact H16|].
  unfold inc_r, make_instr_helper, idex, decode_r. apply wp_bind, (decode_r_run _ _ _ _ 0x40 r (i_regs a)); [done..|exact Hr|].
  mproj. collapse. apply wp_bind, (inc_exec_run _ _ r (i_regs a)); [reflexivity..|done|exact Hr|].
  intros c' [Hr2 Hf2 HI He H0 H3 Hsg]. apply wp_ret. wp_norm. exec_done.
Qed.

Lemma sim_dec r : simulates (Dec r).
Proof using HData.
  sim_start. cbn [instr_ok] in Hi. injection Hstep as <-. sim_opcode Hd1.
  rewrite (table_reg _ _ 0x48) by done. change (nth _ _ _) with dec_r_v. apply wp_helper_v; [exact H16|].
  unfold dec_r, make_instr_helper, idex, decode_r. apply wp_bind, (decode_r_run _ _ _ _ 0x48 r (i_regs a)); [done..|exact Hr|].
  mproj. collapse. apply wp_bind, (dec_exec_run _ _ r (i_regs a)); [reflexivity..|done|exact Hr|].
  intros c' [Hr2 Hf2 HI He H0 H3 Hsg]. apply wp_ret. wp_norm. exec_done.
Qed.

(** ** The stack *)
Lemma in_data_range ea : in_data lo hi ea = true → 0 < ea ∧ ea + 4 <= 2 ^ 32.
Proof using HData Hdata. intros Hin. destruct (dm_ok 0 ea 4 (Hdata 0 ea ltac:(lia) Hin)) as (? & ? & _). done. Qed.

Lemma push_step_some next v a a' : push_step lo hi next v a = Some a' → let sp := aget (i_regs a) R_ESP in
  in_data lo hi (sp - 4) = true ∧ a' = i_goto next (i_set_reg R_ESP (sp - 4) (i_store (sp - 4) v a)).
Proof using. unfold push_step, store_at. destruct (in_data _ _ _); [|discriminate]. now intros [= <-]. Qed.

Lemma do_push_run J f s regs v (Q : unit → Machine → Prop) : DInv f s → shows_regs (cpu s) regs → op_val (src (ops_decoded s)) = v →
  let sp := aget regs R_ESP in in_data lo hi (sp - 4) = true →
  (∀ t c, let s' := set_tlb t (set_caches c s) in DInv (flat_store f (sp - 4) 4 v) s' →
    Q tt (set_cpu (set_gpr_l 4 (sp - 4) (cpu s)) s')) →
  wp J (do_push WL) Q s.
Proof using HData Hdata.
  intros Hs Hr Hv sp Hin HQ. destruct (in_data_range _ Hin) as [Hlo Hhi].
  unfold do_push. change (DATA_BYTE WL =? 1) with false. cbv iota. repeat wp_step. mproj. rewrite gpr_l_set_l_eq, (sr_regs _ _ Hr), Hv by done.
  change (aget regs 4) with sp. rewrite (wrap_small 32 (sp - 4)) by lia. wp_store (Hdata 2 _ ltac:(lia) Hin).
  wp_norm. apply (HQ t c). data.
Qed.

Lemma sim_push r : simulates (Push r).
Proof using HData Hdata.
  sim_start. cbn [instr_ok] in Hi. apply push_step_some in Hstep as [Hin ->].
  sim_opcode Hd1. rewrite (table_reg _ _ 0x50) by done. change (nth _ _ _) with push_r_v. apply wp_helper_v; [exact H16|].
  unfold push_r, make_instr_helper, idex, decode_r. apply wp_bind, (decode_r_run _ _ _ _ 0x50 r (i_regs a)); [done..|exact Hr|].
  mproj. collapse. apply wp_bind, (do_push_run _ (i_mem a) _ (i_regs a) (aget (i_regs a) r)); [data|exact Hr|reflexivity|exact Hin|].
  intros t2 c2. cbv zeta. intros Hd2. apply wp_ret. wp_norm. exec_done.
Qed.

Lemma sim_pushi v : simulates (PushI v).
Proof using HData Hdata.
  sim_start. cbn [instr_ok] in Hi. apply push_step_some in Hstep as [Hin ->]. sim_rest Hrest Hp1.
  apply code_le4 in Hrest as [Hl Hok]; [|done]. sim_opcode Hd1. change (nth _ _ _) with push_i_v. apply wp_helper_v; [exact H16|].
  unfold push_i, make_instr_helper, idex, decode_i, instr_fetch. cbn [DATA_BYTE]. repeat wp_step. wp_load Hok.
  change (Z.to_nat 4) with 4%nat. rewrite Hl. repeat wp_step.
  apply (do_push_run _ (i_mem a) _ (i_regs a) v); [data|exact Hr| |exact Hin|].
  { mproj. cbn [op_val set_op_val]. rewrite !(wrap_wrap 32 32) by done. now apply wrap_small. }
  intros t2 c2. cbv zeta. intros Hd2. wp_norm. exec_done.
Qed.

Lemma sim_pushm e : simulates (PushM e).
Proof using HData Hdata.
  sim_start. destruct Hi as [Hi He]. sim_rest Hrest Hp1. cbn [step_instr] in Hstep. unfold load_at in Hstep.
  destruct (in_data _ _ (address _ _)) eqn:Hin; [|discriminate]. cbn [mbind option_bind] in Hstep. apply push_step_some in Hstep as [Hin2 ->].
  rewrite <- (address_effective a (cpu s) e Hi Hr) in Hin |- *.
  sim_opcode Hd1. change (nth _ _ _) with group5. destruct (modrm_fields e Hi) as (_ & Ereg & _).
  apply (wp_group _ _ _ _ _ _ _ push_rm_v _ Hd1 Hrest).
  { change (ModR_M_opcode (modrm_byte e)) with (ModR_M_reg (modrm_byte e)). rewrite Ereg, He. reflexivity. }
  intros t1 c1. cbv zeta. intros Hd2. apply wp_helper_v; [exact H16|].
  unfold push_rm, make_instr_helper, idex, decode_rm. apply wp_bind.
  apply (decode_mem_run _ _ _ e (i_regs a) _ op_src op_src2 _ ltac:(done) Hd2 Hrest); [done..|exact Hr|exact Hin|].
  intros t2 c2. cbv zeta. mproj. collapse. intros Hd3. apply wp_bind.
  eapply (do_push_run _ (i_mem a) _ (i_regs a)); [exact Hd3|exact Hr|reflexivity|exact Hin2|].
  intros t3 c3. cbv zeta. mproj. intros Hd4. apply wp_ret. wp_norm. exec_done.
Qed.

Lemma sim_pop r : simulates (Pop r).
Proof using HData Hdata.
  sim_start. destruct Hi as [Hrr Hne]. cbn [step_instr] in Hstep. unfold store_at, load_at in Hstep.
  destruct (in_data _ _ _) eqn:Hin; [|discriminate]. injection Hstep as <-. destruct (in_data_range _ Hin) as [Hlo Hhi].
  sim_opcode Hd1. rewrite (table_reg _ _ 0x58) by done. change (nth _ _ _) with pop_r_v. apply wp_helper_v; [exact H16|].
  unfold pop_r, make_instr_helper, idex, decode_r, do_pop. apply wp_bind, (decode_r_run _ _ _ _ 0x58 r (i_regs a)); [done..|exact Hr|].
  mproj. collapse. repeat wp_step. rewrite (sr_regs _ _ Hr) by done. cbn [op_sreg reg_operand]. change (aget (i_regs a) 4) with (aget (i_regs a) R_ESP).
  unfold MEM_R, MEM_W. cbn [DATA_BYTE]. wp_load (Hdata _ _ Hsr Hin). apply wp_bind. apply (wp_write_operand_reg _ _ _ _ _ r); [reflexivity..|done|].
  repeat wp_step. rewrite gpr_l_set_l_ne, (sr_regs _ _ Hr) by done. change (aget (i_regs a) 4) with (aget (i_regs a) R_ESP).
  wp_store (Hdata 2 _ ltac:(lia) Hin). repeat wp_step. rewrite gpr_l_set_l_ne, (sr_regs _ _ Hr) by done. exec_done.
Qed.

(** ** Control transfer *)
Lemma s32_disp d : disp_ok d → s32 (u32 d) = d.
Proof using. intros Hd. rewrite sgn_wrap by done. now apply sgn_small. Qed.

(** A run that is described by its CPU, its memory and what it leaves alone. *)
Lemma executed_rest s s1 s2 i a' l : same_rest s1 s2 → is_trap i = false → l = size i → DInv (i_mem a') s2 → u32 (eip (cpu s2) + l) = i_pc a' →
  shows_regs (cpu s2) (i_regs a') → shows_flags (cpu s2) (i_flags a') → system (cpu s2) = system (cpu s) →
  decoder_ok (ops_decoded s1) → nemu_state s1 = nemu_state s → debug s1 = debug s → pic s1 = pic s → executed s i a' l s2.
Proof using.
  intros [H1 H2 H3 H4 H5] Ht -> Hd Hp Hr Hf HI [H16 Hsr] Es Ed Ep. split; try done.
  - split; [now rewrite H4|now rewrite H5].
  - now rewrite Ht, H3.
  - split; congruence.
Qed.

(** What [do_jmp] does at the width of the displacement. *)
Lemma do_jmp_run J w s d pc (Q : unit → Machine → Prop) : op_type (src (ops_decoded s)) = OP_TYPE_IMM → op_val (src (ops_decoded s)) = DATA_TYPE w d →
  DATA_TYPE_S w d = d → eip (cpu s) = pc → Q tt (set_cpu (set_eip (u32 (pc + d)) (cpu s)) s) → wp J (do_jmp w) Q s.
Proof using.
  intros Ht Hv Hd Hpc HQ. unfold do_jmp, get_eip, put_eip. repeat wp_step. mproj. rewrite Ht.
  change ((OP_TYPE_IMM =? OP_TYPE_MEM) || (OP_TYPE_IMM =? OP_TYPE_REG)) with false. cbv iota. repeat wp_step. mproj. rewrite Hv, Hpc.
  replace (DATA_TYPE_S w (DATA_TYPE w (DATA_TYPE w d))) with d; [exact HQ|].
  unfold DATA_TYPE, DATA_TYPE_S in *. rewrite !sgn_wrap by (destruct w; done). now rewrite Hd.
Qed.

(** A run that changes EIP only. *)
Lemma branched s s1 s2 i a pc l : same_rest s1 s2 → cpu s2 = set_eip (eip (cpu s2)) (cpu s) →
  shows_regs (cpu s) (i_regs a) → shows_flags (cpu s) (i_flags a) → is_trap i = false → l = size i → DInv (i_mem a) s2 → u32 (eip (cpu s2) + l) = u32 pc →
  decoder_ok (ops_decoded s1) → nemu_state s1 = nemu_state s → debug s1 = debug s → pic s1 = pic s → executed s i (i_goto pc a) l s2.
Proof using.
  intros Hrest Ec Hr Hf Ht Hl Hd Hp Ho H1 H2 H3. apply (executed_rest _ s1); try done; rewrite Ec.
  - now apply (regs_kept (cpu s)).
  - now apply (flags_kept (cpu s)).
  - reflexivity.
Qed.

Lemma sim_jmp d : simulates (Jmp d).
Proof using HData.
  sim_start. cbn [instr_ok] in Hi. sim_rest Hrest Hp1. apply code_le4 in Hrest as [Hl Hok]; [|done]. injection Hstep as <-.
  sim_opcode Hd1. change (nth _ _ _) with jmp_i_v. apply wp_helper_v; [exact H16|].
  unfold jmp_i, make_instr_helper, idex, decode_i, instr_fetch. cbn [DATA_BYTE]. repeat wp_step. wp_load Hok.
  change (Z.to_nat 4) with 4%nat. rewrite Hl. repeat wp_step.
  apply (do_jmp_run _ WL _ d (i_pc a)); [reflexivity| | |exact Hpc|].
  { mproj. cbn [op_val set_op_val]. now rewrite !(wrap_wrap 32 32). }
  { rewrite <- (s32_disp d Hi) at 2. unfold DATA_TYPE_S. change (bits WL) with 32. now rewrite sgn_wrap. }
  repeat wp_step. exec_done. change (eip (set_eip ?e _)) with e. change (size (Jmp d)) with 5. rewrite wrap_add_l. f_equal. lia.
Qed.

Lemma sim_jmps d : simulates (JmpS d).
Proof using HData.
  sim_start. cbn [instr_ok] in Hi. sim_rest Hrest Hp1. injection Hstep as <-. destruct (code_head _ _ _ _ Hrest Hp1) as [Hb Hok].
  sim_opcode Hd1. change (nth _ _ _) with (jmp_i WB).
  unfold jmp_i, make_instr_helper, idex, decode_i, instr_fetch. cbn [DATA_BYTE]. repeat wp_step. wp_load Hok.
  rewrite load_byte, Hb, byte_of_0. change (d mod 256) with (wrap 8 d). repeat wp_step.
  apply (do_jmp_run _ WB _ d (i_pc a)); [reflexivity| | |exact Hpc|].
  { mproj. cbn [op_val set_op_val]. pose proof (wrap_range 8 d ltac:(lia)). now rewrite !(wrap_small 32 (wrap 8 d)) by lia. }
  { now apply sgn_small. }
  repeat wp_step. exec_done. change (eip (set_eip ?e _)) with e. change (size (JmpS d)) with 2. rewrite wrap_add_l. f_equal. lia.
Qed.

Lemma sim_raw bs : simulates (Raw bs).
Proof using. intros pc s n a a' _ _ _ _ [=]. Qed.

Lemma sim_nop : simulates Nop.
Proof using HData. sim_start. injection Hstep as <-. sim_opcode Hd1. change (nth _ _ _) with nop. apply wp_ret. wp_norm. exec_done. Qed.

Lemma sim_ret : simulates Ret.
Proof using HData Hdata.
  sim_start. cbn [step_instr] in Hstep. unfold load_at in Hstep.
  destruct (in_data _ _ _) eqn:Hin; [|discriminate]. injection Hstep as <-.
  sim_opcode Hd1. change (nth _ _ _) with ret_o_v. apply wp_helper_v; [exact H16|].
  apply (ret_run _ (i_mem a)); [exact Hd1|mproj; rewrite (sr_regs _ _ Hr) by done; exact (Hdata 1 _ ltac:(lia) Hin)|].
  intros s2 Ec Hd2 Hrest. mproj_in Ec. rewrite (sr_regs _ _ Hr) in Ec by done.
  apply (executed_rest _ _ _ _ _ _ Hrest); try done; rewrite ?Ec; cbn [i_mem i_regs i_flags i_pc i_goto i_set_reg]; try done.
  - regs_shown.
  - now apply (flags_kept (cpu s)).
Qed.

Lemma sim_call d : simulates (Call d).
Proof using HData Hdata.
  sim_start. cbn [instr_ok] in Hi. sim_rest Hrest Hp1. apply code_le4 in Hrest as [Hl Hok]; [|done].
  cbn [step_instr] in Hstep. unfold store_at in Hstep.
  destruct (in_data _ _ _) eqn:Hin; [|discriminate]. injection Hstep as <-.
  sim_opcode Hd1. change (nth _ _ _) with call_i_v. apply wp_helper_v; [exact H16|].
  apply (call_run _ (i_mem a)); [exact Hd1|exact Hpc|exact Hok|mproj; rewrite (sr_regs _ _ Hr) by done; exact (Hdata 1 _ ltac:(lia) Hin)|].
  intros s2 Ec Hd2 Hrest. mproj_in Ec. rewrite (sr_regs _ _ Hr), Hl, s32_disp in Ec by done.
  mproj_in Hd2. rewrite (sr_regs _ _ Hr) in Hd2 by done.
  apply (executed_rest _ _ _ _ _ _ Hrest); try done; rewrite ?Ec; cbn [i_mem i_regs i_flags i_pc i_goto i_set_reg i_store]; change (size (Call d)) with 5.
  - replace (i_pc a + 5 - 1) with (i_pc a + 4) by lia. exact Hd2.
  - change (eip (set_eip ?e _)) with e. rewrite wrap_add_l. f_equal. lia.
  - apply (regs_kept (set_gpr_l 4 (aget (i_regs a) 4 - 4) (cpu s))); [regs_shown|reflexivity].
  - now apply (flags_kept (cpu s)).
  - reflexivity.
Qed.

Lemma jcc_table n : 0 <= n < 16 → ∃ cond, nth (Z.to_nat (0x80 + n)) two_byte_opcode_table inv = make_helper_v (jcc cond) ∧
  (∀ e m, nth (Z.to_nat (0x70 + n)) (opcode_table e m) inv = jcc cond WB) ∧ ∀ c f, shows_flags c f → cond c = condition n f.
Proof using.
  intros Hn.
  assert (n = 0 ∨ n = 1 ∨ n = 2 ∨ n = 3 ∨ n = 4 ∨ n = 5 ∨ n = 6 ∨ n = 7 ∨ n = 8 ∨ n = 9 ∨ n = 10 ∨ n = 11 ∨ n = 12 ∨ n = 13 ∨ n = 14 ∨ n = 15)
    as Hc by lia.
  repeat (destruct Hc as [->|Hc]); [..|subst n];
    (eexists; split; [reflexivity|]; split; [reflexivity|]; intros c [[] [] [] [] []] [H1 H2 H3 H4 H5]; cbn [f_cf f_zf f_sf f_of f_pf b2z] in *;
     rewrite ?H1, ?H2, ?H3, ?H4, ?H5; reflexivity).
Qed.

Lemma sim_jcc n d : simulates (Jcc n d).
Proof using HData.
  sim_start. destruct Hi as [Hn Hdisp]. sim_rest Hrest Hp1. destruct (code_head _ _ _ _ Hrest Hp1) as [Hb Hok1].
  apply code_cons in Hrest. apply code_le4 in Hrest as [Hl Hok]; [|apply wrap_range; lia]. injection Hstep as <-.
  sim_opcode Hd1. change (nth _ _ _) with two_byte_esc. unfold two_byte_esc, instr_fetch, put_opcode. cbv zeta.
  apply wp_bind. wp_load Hok1. rewrite load_byte, Hb.
  repeat wp_step. destruct (jcc_table n Hn) as (cond & -> & _ & Hcond). apply wp_helper_v; [exact H16|].
  apply (jcc_run _ (i_mem a) _ cond WL (i_pc a)); [now right|data|exact Hok|exact Hpc|].
  intros s2 Epc Ec Hd2 Hrest. mproj_in Ec. mproj_in Epc. apply wp_ret. rewrite (Hcond _ _ Hf) in Epc.
  change (DATA_TYPE_S WL (le_load _ _ _)) with (s32 (le_load 4 (i_mem a) (u32 (u32 (i_pc a + 1) + 1)))) in Epc.
  change (for_2_bit WL) with 1 in Epc. change (DATA_BYTE WL) with 4 in *. rewrite Hl, s32_disp in Epc by done.
  apply (branched _ _ _ _ a _ _ Hrest Ec); try done.
  - change (4 + 1 + 1) with (5 + 1). rewrite Z.add_assoc. refine (eq_trans Epc _). change (size (Jcc n d)) with 6.
    destruct (condition n (i_flags a)); f_equal; lia.
Qed.

Lemma sim_jccs n d : simulates (JccS n d).
Proof using HData.
  sim_start. destruct Hi as [Hn Hdisp]. sim_rest Hrest Hp1. destruct (code_byte _ _ _ _ Hrest Hp1 Hdisp) as [Hl Hok]. injection Hstep as <-.
  sim_opcode Hd1. destruct (jcc_table n Hn) as (cond & _ & -> & Hcond).
  assert (u32 (i_pc a + 0) = i_pc a) as Ep by (rewrite Z.add_0_r; now apply wrap_small). rewrite <- Ep at 1.
  apply (jcc_run _ (i_mem a) _ cond WB (i_pc a)); [now left|data|change (for_2_bit WB) with 0; rewrite Ep; exact Hok|exact Hpc|].
  intros s2 Epc Ec Hd2 Hrst. mproj_in Ec. mproj_in Epc. rewrite (Hcond _ _ Hf) in Epc.
  change (for_2_bit WB) with 0 in Epc. change (DATA_BYTE WB) with 1 in *. change (DATA_TYPE_S WB ?x) with (s8 x) in Epc. rewrite Ep, Hl in Epc.
  apply (branched _ _ _ _ a _ _ Hrst Ec); try done.
  - rewrite Z.add_0_r in Epc. refine (eq_trans Epc _). change (size (JccS n d)) with 2.
    destruct (condition n (i_flags a)); f_equal; lia.
Qed.

Lemma sim_trap : simulates Trap.
Proof using HData.
  sim_start. cbn [step_instr] in Hstep. destruct (Z.eqb_spec (aget (i_regs a) R_EAX) 2); [discriminate|]. injection Hstep as <-.
  sim_opcode Hd1. change (nth _ _ _) with nemu_trap. unfold nemu_trap. repeat wp_step.
  rewrite (sr_regs _ _ Hr) by done. replace (aget (i_regs a) 0 =? 2) with false by (unfold R_EAX in *; lia). repeat wp_step. exec_done.
Qed.

Lemma sim_instr i : simulates i.
Proof using HData Hdata.
  destruct i; auto using sim_movi, sim_mov, sim_load, sim_store, sim_lea, sim_alu, sim_alui, sim_alus, sim_inc, sim_dec, sim_push, sim_pushi, sim_pushm, sim_pop,
    sim_jmp, sim_jmps, sim_jcc, sim_jccs, sim_nop, sim_raw, sim_call, sim_ret, sim_trap.
Qed.
End Instr.
