(* ===== verification/IsaIntr.v ===== *)
(** The abstract processor of [Isa] with interrupts: the timer's line, the interrupt flag,
    [hlt], [cli], [sti], [int] and [iret].  [IntrRunSpec] shows that the main loop
    implements it. *)
From S2P Require Import Prelude Dram Cache L2Facts CacheFacts CacheSpec WorkingSet.
From S2P Require Import Tlb Cpu I8259 Mmio Vga WpPool Machine Memory MemFacts DemoMachine PageSpec.
From S2P Require Import SegMem Decode Arith Logic DataMov ConTran ArithSpec BranchSpec DecodeSpec StackSpec Isa IsaSpec.

(** * State *)

(** [i_kept] is EFLAGS without the status flags, [i_cs] the selector in CS; [i_pend] says that
    the timer's interrupt is pending. *)
Record IState := mkI { i_isa : Isa; i_kept : Z; i_cs : Z; i_pend : bool }.

Definition i_with (a : Isa) (x : IState) : IState := mkI a (i_kept x) (i_cs x) (i_pend x).
Definition i_set_pend (b : bool) (x : IState) : IState := mkI (i_isa x) (i_kept x) (i_cs x) b.
Definition i_set_kept (k : Z) (x : IState) : IState := mkI (i_isa x) k (i_cs x) (i_pend x).
Definition i_IF (x : IState) : bool := Z.testbit (i_kept x) 9.
Definition i_eflags (x : IState) : Z := Z.lor (i_kept x) (status_word (i_flags (i_isa x))).

Definition flags_of_word (w : Z) : Flags :=
  mkFlags (Z.testbit w 0) (Z.testbit w 6) (Z.testbit w 7) (Z.testbit w 11) (Z.testbit w 2).

(** * Instructions: the bytes that [Isa] does not execute *)
Inductive sys := Hlt | Cli | Sti | Iret | Int (n : Z).

Definition sys_of (i : instr) : option sys :=
  match i with
  | Raw [b] => if b =? 0xf4 then Some Hlt else if b =? 0xfa then Some Cli else if b =? 0xfb then Some Sti
               else if b =? 0xcf then Some Iret else None
  | Raw [b; n] => if (b =? 0xcd) && (0 <=? n) && (n <? 256) then Some (Int n) else None
  | _ => None
  end.

(** * Semantics *)
Section Semantics.
Context (lo hi base : Z) (prog : list instr).

(** Where an interrupt goes: the offset and the selector of its gate. *)
Context (handler : Z → option (Z * Z)).

(** EFLAGS, CS and the program counter are saved; IF is kept, as the emulator does and the
    manual's interrupt gate does not. *)
Definition i_enter (v : Z) (x : IState) : option IState :=
  '(h, sel) ← handler v;
  let a := i_isa x in
  let sp := aget (i_regs a) R_ESP in
  if in_data lo hi (sp - 4) && in_data lo hi (sp - 8) && in_data lo hi (sp - 12) then
    Some (mkI (i_goto h (i_set_reg R_ESP (sp - 12)
        (i_store (sp - 12) (i_pc a) (i_store (sp - 8) (i_cs x) (i_store (sp - 4) (i_eflags x) a)))))
      (i_kept x) sel (i_pend x))
  else None.

Definition i_leave (x : IState) : option IState :=
  let a := i_isa x in
  let sp := aget (i_regs a) R_ESP in
  if in_data lo hi sp && in_data lo hi (sp + 4) && in_data lo hi (sp + 8) then
    let w := le_load 4 (i_mem a) (sp + 8) in
    Some (mkI (mkIsa (aset R_ESP (u32 (sp + 12)) (i_regs a)) (flags_of_word w) (le_load 4 (i_mem a) sp) (i_mem a))
      (Z.ldiff w STATUS_FLAGS) (u16 (le_load 4 (i_mem a) (sp + 4))) (i_pend x))
  else None.

(** A round of the loop: it ends normally, in a handler, or in the trap. *)
Inductive outcome := Done | Jumped | Halted.

(** The end of a round in which the timer ticks or not. *)
Definition deliver (tick : bool) (x : IState) : option (IState * outcome) :=
  let x := i_set_pend (i_pend x || tick) x in
  if i_pend x && i_IF x then (λ x', (x', Jumped)) <$> i_enter 32 (i_set_pend false x) else Some (x, Done).

(** [hlt] stays where it is until an interrupt is pending. *)
Definition step_sys (tick : bool) (s : sys) (x : IState) : option (IState * outcome) :=
  let a := i_isa x in
  match s with
  | Hlt => deliver tick (if i_pend x then i_with (i_goto (i_pc a + 1) a) x else x)
  | Cli => deliver tick (i_set_kept (Z.ldiff (i_kept x) 512) (i_with (i_goto (i_pc a + 1) a) x))
  | Sti => deliver tick (i_set_kept (Z.lor (i_kept x) 512) (i_with (i_goto (i_pc a + 1) a) x))
  | Iret => x' ← i_leave x; deliver tick x'
  | Int n => (λ x', (x', Jumped)) <$> i_enter n (i_with (i_goto (i_pc a + 2) a) x)
  end.

Definition iround (tick : bool) (x : IState) : option (IState * outcome) :=
  i ← fetch base prog (i_pc (i_isa x));
  match sys_of i with
  | Some s => step_sys tick s x
  | None =>
    a' ← step_instr lo hi i (i_isa x);
    if is_trap i then Some (i_with a' x, Halted) else deliver tick (i_with a' x)
  end.

(** [n] rounds that end normally, of at most [rounds]: a round that ends in a handler does
    not count.  [ticks] says in which rounds the timer ticks. *)
Fixpoint irun (rounds n : nat) (ticks : nat → bool) (x : IState) : option (IState * bool) :=
  match n, rounds with
  | O, _ => Some (x, false)
  | S _, O => None
  | S n', S rounds =>
    '(x', o) ← iround (ticks O) x;
    match o with
    | Done => irun rounds n' (λ i, ticks (S i)) x'
    | Jumped => irun rounds n (λ i, ticks (S i)) x'
    | Halted => Some (x', true)
    end
  end.
End Semantics.

(** * Entry and return *)

(** EFLAGS is its status flags and the others. *)
Lemma status_word_range f : 0 <= status_word f < 2 ^ 32.
Proof. destruct f as [[] [] [] [] []]; split; easy. Qed.

Lemma status_word_flags f : flags_of_word (status_word f) = f.
Proof. now destruct f as [[] [] [] [] []]. Qed.

Lemma status_word_kept f : Z.ldiff (status_word f) STATUS_FLAGS = 0.
Proof. now destruct f as [[] [] [] [] []]. Qed.

Lemma kept_bit k n : Z.land k STATUS_FLAGS = 0 → n ∈ [0; 2; 6; 7; 11] → Z.testbit k n = false.
Proof.
  intros Hk Hn. assert (0 <= n) as H0 by (rewrite !elem_of_cons, elem_of_nil in Hn; lia).
  apply (f_equal (λ x, Z.testbit x n)) in Hk. rewrite Z.land_spec, Z.bits_0, status_bit, bool_decide_eq_true_2, andb_true_r in Hk by done. exact Hk.
Qed.

Lemma eflags_word_split k f : Z.land k STATUS_FLAGS = 0 → let w := Z.lor k (status_word f) in
  flags_of_word w = f ∧ Z.ldiff w STATUS_FLAGS = k.
Proof.
  intros Hk w. split.
  - transitivity (flags_of_word (status_word f)); [|apply status_word_flags]. unfold flags_of_word, w. rewrite !Z.lor_spec.
    now rewrite !(kept_bit k) by (done || (rewrite !elem_of_cons; auto 9)).
  - assert (Z.ldiff w STATUS_FLAGS = Z.lor (Z.ldiff k STATUS_FLAGS) (Z.ldiff (status_word f) STATUS_FLAGS)) as ->.
    { apply Z.bits_inj'. intros n Hn. unfold w. rewrite Z.lor_spec, !Z.ldiff_spec, Z.lor_spec by done. apply andb_orb_distrib_l. }
    rewrite status_word_kept, Z.lor_0_r. apply Z.bits_inj'. intros n Hn. rewrite Z.ldiff_spec.
    apply (f_equal (λ x, Z.testbit x n)) in Hk. rewrite Z.land_spec, Z.bits_0 in Hk. now destruct (Z.testbit k n), (Z.testbit STATUS_FLAGS n).
Qed.

(** A handler that leaves ESP and the frame as it found them returns to what it
    interrupted: the program counter, the flags, CS and ESP are those of the entry. *)
Lemma leave_enter lo hi handler v x y z : i_enter lo hi handler v x = Some y →
  let sp := aget (i_regs (i_isa x)) R_ESP in
  0 <= i_pc (i_isa x) < 2 ^ 32 → 0 <= i_kept x < 2 ^ 32 → Z.land (i_kept x) STATUS_FLAGS = 0 → 0 <= i_cs x < 2 ^ 32 →
  12 <= sp < 2 ^ 32 → aget (i_regs (i_isa z)) R_ESP = sp - 12 → (∀ b, sp - 12 <= b < sp → i_mem (i_isa z) b = i_mem (i_isa y) b) →
  i_leave lo hi z = Some (mkI (mkIsa (aset R_ESP sp (i_regs (i_isa z))) (i_flags (i_isa x)) (i_pc (i_isa x)) (i_mem (i_isa z)))
    (i_kept x) (u16 (i_cs x)) (i_pend z)).
Proof.
  intros He sp Hpc Hk Hk0 Hcs Hsp Hz Hmem. unfold i_enter in He. fold sp in He.
  destruct (handler v) as [[h sel]|]; [|discriminate]. cbn [mbind option_bind] in He.
  destruct (in_data lo hi (sp - 4)) eqn:D1; [|discriminate]. destruct (in_data lo hi (sp - 8)) eqn:D2; [|discriminate].
  destruct (in_data lo hi (sp - 12)) eqn:D3; [|discriminate]. cbn [andb] in He. injection He as <-. cbn [i_isa i_mem i_goto i_set_reg i_store] in Hmem.
  unfold i_leave. rewrite Hz. replace (sp - 12 + 4) with (sp - 8) by lia. replace (sp - 12 + 8) with (sp - 4) by lia.
  replace (sp - 12 + 12) with sp by lia. rewrite D1, D2, D3. cbn [andb].
  pose proof (lor_range 32 _ _ ltac:(lia) Hk (status_word_range (i_flags (i_isa x)))) as Hw.
  assert (∀ a, sp - 12 <= a → a + 4 <= sp → le_load 4 (i_mem (i_isa z)) a = le_load 4 (flat_store (flat_store (flat_store (i_mem (i_isa x))
    (sp - 4) 4 (i_eflags x)) (sp - 8) 4 (i_cs x)) (sp - 12) 4 (i_pc (i_isa x))) a) as El.
  { intros a ? ?. apply le_load_ext. intros b Hb. apply Hmem. lia. }
  rewrite !El, (load_store_other _ (sp - 12) 4 _ (sp - 8) 4), !(load_store_other _ (sp - 12) 4 _ (sp - 4) 4),
    !(load_store_other _ (sp - 8) 4 _ (sp - 4) 4), !(load_store_same _ _ 4) by (try change (256 ^ 4) with (2 ^ 32); first [exact Hw|lia]).
  destruct (eflags_word_split (i_kept x) (i_flags (i_isa x)) Hk0) as [E1 E2]. cbv zeta in E1, E2. unfold i_eflags. rewrite E1, E2.
  now rewrite (wrap_small 32 sp) by lia.
Qed.

(** An interrupt that arrives while [hlt] waits returns to the [hlt]. *)
Lemma hlt_interrupted lo hi handler x y z : step_sys lo hi handler true Hlt x = Some (y, Jumped) → i_pend x = false →
  let sp := aget (i_regs (i_isa x)) R_ESP in
  0 <= i_pc (i_isa x) < 2 ^ 32 → 0 <= i_kept x < 2 ^ 32 → Z.land (i_kept x) STATUS_FLAGS = 0 → 0 <= i_cs x < 2 ^ 32 →
  12 <= sp < 2 ^ 32 → aget (i_regs (i_isa z)) R_ESP = sp - 12 → (∀ b, sp - 12 <= b < sp → i_mem (i_isa z) b = i_mem (i_isa y) b) →
  ∃ x', i_leave lo hi z = Some x' ∧ i_pc (i_isa x') = i_pc (i_isa x).
Proof.
  intros Hs Hp sp Hpc Hk Hk0 Hcs Hsp Hz Hmem. cbn [step_sys] in Hs. rewrite Hp in Hs. unfold deliver in Hs. rewrite Hp in Hs. cbn [orb i_pend i_set_pend] in Hs.
  destruct (_ && _); [|discriminate]. destruct (i_enter _ _ _ _ _) as [y'|] eqn:He; [|discriminate]. injection Hs as <-.
  eexists. split; [exact (leave_enter _ _ _ _ _ _ _ He Hpc Hk Hk0 Hcs Hsp Hz Hmem)|reflexivity].
Qed.
