(* ===== verification/RunSpec.v ===== *)
(** The main loop implements the abstract processor of [Isa]: [cpu_exec] runs the machine
    code of any program of it as the abstract machine runs the program, whatever timer
    signals and keys the host delivers while interrupts are masked. *)
From S2P Require Import Prelude Dram Cache L2Facts CacheFacts CacheSpec WorkingSet.
From S2P Require Import Tlb Cpu I8259 Mmio Vga WpPool Machine Memory MemFacts DemoMachine PageSpec.
From S2P Require Import SegMem Devices Decode Arith Logic DataMov ConTran StringOps SysIO Exec.
From S2P Require Import Expr CpuExec StackSpec ArithSpec BranchSpec DecodeSpec Isa IsaSpec.

#[local] Abbreviation len l := (Z.of_nat (length l)).

(** * The host between two instructions *)

(** No window is closed, and every key has a scan code. *)
Definition event_ok (e : SDL_Event) : Prop :=
  match e with
  | SDL_KEYDOWN sym | SDL_KEYUP sym => is_Some (sym2scancode sym)
  | SDL_QUIT => False
  | SDL_OTHER => True
  end.
Definition host_ok (h : HostInput) : Prop := Forall event_ok (snd h).

Section Host.
Context `{HRand : !LibcRand, HJunk : !StackJunk} (P : Pic → Prop).

(** What the host's signals and events leave alone; the interrupt controllers are left in [P]. *)
Record hosted (s s' : Machine) : Prop := {
  ho_cpu : cpu s' = cpu s;
  ho_ops : ops_decoded s' = ops_decoded s;
  ho_caches : caches s' = caches s;
  ho_tlb : tlb s' = tlb s;
  ho_mmio : mmio s' = mmio s;
  ho_state : nemu_state s' = nemu_state s;
  ho_debug : debug s' = debug s;
  ho_pic : P (pic s')
}.

Lemma hosted_refl s : P (pic s) → hosted s s.
Proof using. now split. Qed.

(** The run succeeds and leaves the same alone. *)
Definition stays (m : NEMU unit) : Prop := ∀ J s0 s, hosted s0 s → wp J m (λ _, hosted s0) s.

Lemma stays_bind m k : stays m → stays (k tt) → stays (m ≫= k).
Proof using. intros Hm Hk J s0 s Hs. apply wp_bind. eapply wp_mono, (Hm J s0 s Hs). intros [] s' Hs'. apply (Hk J s0 s' Hs'). Qed.

Lemma stays_ret : stays (mret tt).
Proof using. intros J s0 s Hs. now apply wp_ret. Qed.

Lemma stays_getS (k : Machine → NEMU unit) : (∀ s, stays (k s)) → stays (getS ≫= k).
Proof using. intros Hk J s0 s Hs. apply wp_bind, wp_getS. now apply Hk. Qed.

Lemma stays_modify f : (∀ s0 s, hosted s0 s → hosted s0 (f s)) → stays (modify f).
Proof using. intros Hf J s0 s Hs. apply wp_modify. now apply Hf. Qed.

Lemma stays_sdl f : stays (mod_sdl f).
Proof using. apply stays_modify. intros s0 s []. now split. Qed.

(** Line [n] can be raised in [P], and that stays in [P]. *)
Definition raises (n : Z) : Prop := ∀ p, P p → ∃ p', i8259_raise_intr n p = Ok tt p' ∧ P p'.

Lemma stays_raise n : raises n → stays (in_pic (i8259_raise_intr n)).
Proof using.
  intros Hn J s0 s [H1 H2 H3 H4 H5 H6 H7 Hp]. destruct (Hn _ Hp) as (p & Hrun & Hok).
  eapply wp_Ok; [unfold in_pic, zoom; rewrite Hrun; reflexivity|]. now split.
Qed.

Lemma stays_update_screen vmem : stays (in_vga (update_screen vmem)).
Proof using.
  intros J s0 s [H1 H2 H3 H4 H5 H6 H7 Hp]. assert (∃ v, update_screen vmem (vga s) = Ok tt v) as [v Hv].
  { unfold update_screen. rewrite bind_getS. destruct (vmem_dirty (vga s)); [|now exists (vga s)].
    destruct (update_lines_ok vmem (vga s)) as (v & Hrun & _). rewrite (bind_Ok _ _ _ _ _ Hrun). now eexists. }
  eapply wp_Ok; [unfold in_vga, zoom; rewrite Hv; reflexivity|]. now split.
Qed.

#[local] Hint Resolve stays_bind stays_ret stays_getS stays_sdl stays_raise stays_update_screen : core.

Lemma stays_timer n : raises TIMER_IRQ → stays (timer_signals n).
Proof using.
  intros Hr. induction n as [|n IH]; cbn [timer_signals]; [auto|]. apply stays_bind; [|exact IH].
  unfold timer_sig_handler, timer_intr. apply stays_bind; [auto|]. apply stays_bind.
  { apply stays_getS. intros s. destruct (_ =? _); auto. }
  apply stays_bind; [auto|]. apply stays_getS. intros s. destruct (_ =? 0); auto.
Qed.

Lemma stays_key c : raises KEYBOARD_IRQ → stays (keyboard_intr c).
Proof using.
  intros Hr. unfold keyboard_intr. apply stays_getS. intros s. destruct (_ && _); [|auto]. apply stays_bind.
  { apply stays_modify. intros s0 s1 []. now split. }
  apply stays_bind; [auto|]. apply stays_modify. intros s0 s1 []. now split.
Qed.

Lemma stays_events es : raises KEYBOARD_IRQ → Forall event_ok es → stays (poll_events es).
Proof using.
  intros Hr. induction 1 as [|e es He _ IH]; cbn [poll_events]; [auto|]. apply stays_bind; [|exact IH].
  destruct e as [sym|sym| |]; cbn [event_ok] in He; [destruct He as [c E]; unfold key_event; rewrite E; now apply stays_key..|done|auto].
Qed.

Lemma stays_update es : stays (poll_events es) → stays (device_update es).
Proof using.
  intros He. unfold device_update. apply stays_getS. intros s. destruct (negb _); [auto|]. apply stays_bind; [auto|].
  apply stays_getS. intros s1. apply stays_bind; [destruct (update_screen_flag _); auto|]. exact He.
Qed.

(** ** Nothing watched, the controllers in [P], and the interrupt flag at [v] *)
Record steady (v : Z) (s : Machine) : Prop := {
  st_IF : IF_ (cpu s) = v;
  st_wp : WpPool.head (wps (debug s)) = None;
  st_pic : P (pic s)
}.

Lemma steady_hosted v s s' : steady v s → hosted s s' → steady v s'.
Proof using. intros [H1 H2 _] [E1 _ _ _ _ _ E2 Hp]. split; [now rewrite E1|now rewrite E2|exact Hp]. Qed.

(** In [P], with the interrupt flag at [v], no host input of [H] leads to an interrupt. *)
Record peaceful (H : HostInput → Prop) (v : Z) : Prop := {
  pe_timer h : H h → stays (timer_signals (fst h));
  pe_update h : H h → stays (device_update (snd h));
  pe_free p : P p → INTR p && nz v = false
}.

Lemma check_WP_none s : WpPool.head (wps (debug s)) = None → check_WP s = Ok true s.
Proof using. intros H. unfold check_WP. rewrite bind_getS, H. reflexivity. Qed.
End Host.

Section Masked.
Context `{HRand : !LibcRand, HJunk : !StackJunk}.

(** Interrupts masked. *)
Definition masked : Machine → Prop := steady pic_ok 0.

Lemma raises_ok n : 0 <= n < 16 → n ≠ 2 → raises pic_ok n.
Proof using. intros Hn Hn2 p Hp. destruct (raise_ok p n Hp Hn Hn2) as (p' & Hr & Hok & _). now exists p'. Qed.

Lemma peaceful_masked : peaceful pic_ok host_ok 0.
Proof using.
  split.
  - intros h _. now apply stays_timer, raises_ok.
  - intros h Hh. apply stays_update, stays_events; [now apply raises_ok|exact Hh].
  - intros p _. apply andb_false_r.
Qed.
End Masked.

(** * Programs *)
Section Programs.
Context `{HRand : !LibcRand, HJunk : !StackJunk} {DInv : (Z → Z) → Machine → Prop}
  {dok : Z → Z → Z → Prop} `{HData : !DataMem DInv dok}.
Context (lo hi base : Z) (prog : list instr).

Abbreviation bytes := (code_bytes_of prog).
Abbreviation shows := (shows (DInv := DInv)).

(** The program is well formed, and its code, in [bytes] at [base], is apart from the data. *)
Record layout : Prop := {
  ly_base : 0 <= base;
  ly_end : base + len bytes <= 2 ^ 32;
  ly_apart : base + len bytes <= lo ∨ hi <= base;
  ly_instrs : Forall instr_ok prog;
  ly_data : ∀ sr ea, 0 <= sr < 4 → in_data lo hi ea = true → dok sr ea 4
}.

Context (HL : layout).

(** The code is in memory and may be fetched. *)
Definition loaded (a : Isa) : Prop := code (dok := dok) (i_mem a) base bytes.

Lemma fetched a pc i : loaded a → fetch base prog pc = Some i →
  code (dok := dok) (i_mem a) pc (encode i) ∧ 0 <= pc < 2 ^ 32 ∧ instr_ok i.
Proof using HL.
  intros Ha (xs & zs & E & -> & Hin)%fetch_from_code. unfold loaded in Ha. rewrite E in Ha.
  pose proof (proj1 (list.Forall_forall _ _) (ly_instrs HL) i Hin) as Hi.
  assert (0 < len (encode i)) as Hl by (destruct i as [| | | | | | | | | | | | | | | | | | | | |[]|]; cbn [encode length]; [..|done|lia|lia]; lia).
  pose proof (ly_base HL) as Hb. pose proof (ly_end HL) as He. rewrite E, !length_app in He.
  apply code_app in Ha. rewrite wrap_small in Ha by lia. split; [exact Ha|]. split; [lia|exact Hi].
Qed.

Lemma step_memory i a a' : step_instr lo hi i a = Some a' →
  i_mem a' = i_mem a ∨ ∃ ea v, in_data lo hi ea = true ∧ i_mem a' = flat_store (i_mem a) ea 4 v.
Proof using.
  destruct i; cbn [step_instr]; unfold push_step, store_at, load_at, alu_step;
    repeat match goal with |- context [if in_data ?l ?h ?x then _ else _] => destruct (in_data l h x) eqn:? end;
    cbn [mbind option_bind]; try (destruct (writes _)); try (destruct (_ =? 2)); intros [= <-]; cbn [i_mem i_goto i_set_reg i_set_flags i_store];
    first [now left|right; eexists _, _; split; [|reflexivity]; assumption].
Qed.

Lemma loaded_step i a a' : loaded a → step_instr lo hi i a = Some a' → loaded a'.
Proof using HL.
  intros Ha Hs. pose proof (ly_base HL) as Hb. pose proof (ly_end HL) as He. unfold loaded in *.
  destruct (step_memory i a a' Hs) as [->|(ea & v & Hin & ->)]; [exact Ha|].
  apply code_store; [done..| |exact Ha]. pose proof (ly_apart HL) as Hap. unfold in_data in Hin. lia.
Qed.

(** ** One round of the main loop *)
Lemma print_run J f pc bs n k s (Q : unit → Machine → Prop) : code (dok := dok) f pc bs → 0 <= k → k + Z.of_nat n <= len bs →
  (∀ g, DInv g s → (∀ t c, DInv g (set_tlb t (set_caches c s)) → Q tt (set_tlb t (set_caches c s))) →
  wp J (for_ n k (λ i, _ ← instr_fetch (u32 (pc + i)) 1; mret tt)) Q s).
Proof using HData.
  intros Hc. revert k s; induction n as [|n IH]; intros k s Hk Hl g Hg HQ; cbn [for_].
  - apply wp_ret. specialize (HQ (tlb s) (caches s)). destruct s. now apply HQ.
  - apply wp_bind, wp_bind. unfold instr_fetch. wp_load (code_ok _ _ _ Hc k 1 Hk (or_introl eq_refl) ltac:(lia)). apply wp_ret.
    apply (IH (k + 1)) with (g := g); [lia|lia|data|]. intros t2 c2 Hd2. apply (HQ t2 c2). data.
Qed.

Lemma shows_hosted P a s s' : shows a s → hosted P s s' → shows a s'.
Proof using HData.
  intros [H1 H2 H3 H4 H5] [E1 E2 E3 E4 E5 E6 E7 _]. split; [|now rewrite E1..|now rewrite E2].
  refine (dm_frame _ s s' _ H1). split; [split|..]; congruence.
Qed.

(** Adding the length to EIP, and printing the instruction. *)
Lemma shows_advanced s i a' l s' t c : executed (DInv := DInv) s i a' l s' →
  let s2 := set_tlb t (set_caches c (set_cpu (set_eip (u32 (eip (cpu s') + l)) (cpu s')) s')) in
  DInv (i_mem a') s2 → shows a' s2.
Proof using HData.
  intros [_ _ Hp Hr Hf Ho _ _ _] s2 Hd. split; [exact Hd|exact Hp|now apply (regs_kept (cpu s'))|now apply (flags_kept (cpu s'))|exact Ho].
Qed.

(** What follows the instruction in a round. *)
Definition round_end (h : HostInput) : NEMU bool :=
  _ ← timer_signals (fst h);
  _ ← device_update (snd h);
  s ← getS;
  if negb (nemu_state s =? RUNNING) then mret false
  else if INTR (pic s) && nz (IF_ (cpu s)) then
    intr_no ← in_pic i8259_query_intr;
    _ ← in_pic i8259_ack_intr;
    raise_intr intr_no
  else mret true.

(** An instruction has taken the machine from [s] to [s2]. *)
Record done_instr (s : Machine) (i : instr) (a' : Isa) (s2 : Machine) : Prop := {
  di_shows : shows a' s2;
  di_system : system (cpu s2) = system (cpu s);
  di_debug : debug s2 = debug s;
  di_pic : pic s2 = pic s;
  di_state : nemu_state s2 = if is_trap i then END else nemu_state s
}.

(** From the end of the instruction to [round_end]: nothing watched, and the [l] bytes printed are code. *)
Lemma round_after J m h s pc f bs (R : Z → Machine → Prop) Q : eip (cpu s) = pc → code (dok := dok) f pc bs → wp J (exec (S m) pc) R s →
  (∀ l s1, R l s1 → 0 <= l <= len bs ∧ WpPool.head (wps (debug s1)) = None ∧ ∃ g, DInv g s1 ∧ ∀ t c,
    let s2 := set_tlb t (set_caches c (set_cpu (set_eip (u32 (eip (cpu s1) + l)) (cpu s1)) s1)) in DInv g s2 → wp J (round_end h) Q s2) →
  wp J (cpu_exec_round (S m) h) Q s.
Proof using HData.
  intros Hpc Hc Hex HQ. unfold cpu_exec_round. apply wp_bind, wp_get_cpu. rewrite Hpc. apply wp_bind.
  eapply wp_mono; [|exact Hex]. intros l s1 (Hl & Hw & g & Hd & H)%HQ. apply wp_bind, wp_mod_cpu. apply wp_bind. unfold print_bin_instr.
  apply (print_run _ f pc bs) with (g := g); [exact Hc|done|lia|data|].
  intros t c Hd2. apply wp_bind. eapply wp_Ok; [now apply check_WP_none|].
  cbn [negb]. apply wp_bind, wp_ret, (H t c). exact Hd2.
Qed.

Lemma round_exec J m h s a a' i Q : shows a s → WpPool.head (wps (debug s)) = None → loaded a →
  fetch base prog (i_pc a) = Some i → step_instr lo hi i a = Some a' →
  (∀ s2, done_instr s i a' s2 → wp J (round_end h) Q s2) → wp J (cpu_exec_round (S m) h) Q s.
Proof using HData HL.
  intros Hs Hw Ha Hf Hstep HQ. destruct (fetched a _ i Ha Hf) as (Hc & Hp & Hi).
  eapply (round_after _ _ _ _ _ _ _ _ _ (sh_pc _ _ Hs) Hc (sim_instr lo hi (ly_data HL) i _ s m a a' Hs Hc Hp Hi Hstep)).
  intros l s1 He. destruct (ex_rest _ _ _ _ _ He) as [Edbg Epic]. split; [rewrite (ex_len _ _ _ _ _ He); unfold size; lia|].
  split; [now rewrite Edbg|]. exists (i_mem a'). split; [exact (ex_data _ _ _ _ _ He)|]. intros t c s2 Hd. apply HQ.
  split; [exact (shows_advanced _ _ _ _ _ t c He Hd)|exact (ex_system _ _ _ _ _ He)|exact Edbg|exact Epic|exact (ex_state _ _ _ _ _ He)].
Qed.

(** ** Rounds that no interrupt ends *)
Section Peace.
Context (P : Pic → Prop) (H : HostInput → Prop) (v : Z) (HP : peaceful P H v).

Lemma round_end_ok J h s0 s : steady P v s → H h → hosted P s0 s →
  wp J (round_end h) (λ b s', b = (nemu_state s =? RUNNING) ∧ hosted P s0 s') s.
Proof using HP.
  intros Hm Hh H0. apply wp_bind. eapply wp_mono; [|exact (pe_timer _ _ _ HP h Hh _ s s (hosted_refl _ _ (st_pic _ _ _ Hm)))]. intros [] s3 H3.
  apply wp_bind. eapply wp_mono; [|exact (pe_update _ _ _ HP h Hh _ s s3 H3)]. intros [] s4 H4.
  pose proof (steady_hosted _ _ _ _ Hm H4) as Hm4. apply wp_bind, wp_getS.
  rewrite (ho_state _ _ _ H4), (st_IF _ _ _ Hm4), (pe_free _ _ _ HP _ (st_pic _ _ _ Hm4)).
  assert (hosted P s0 s4) by (destruct H0, H4; split; (congruence || assumption)).
  destruct (nemu_state s =? RUNNING); now apply wp_ret.
Qed.

Lemma steady_done s i a' s2 : steady P v s → done_instr s i a' s2 → steady P v s2.
Proof using.
  intros [H1 H2 H3] [_ E1 E2 E3 _]. split; [now rewrite (system_IF _ _ E1)|now rewrite E2|now rewrite E3].
Qed.

Lemma round_ok m h s a a' i : shows a s → steady P v s → nemu_state s = RUNNING → H h → loaded a →
  fetch base prog (i_pc a) = Some i → step_instr lo hi i a = Some a' →
  ∃ s', cpu_exec_round (S m) h s = Ok (negb (is_trap i)) s' ∧ shows a' s' ∧ steady P v s' ∧ system (cpu s') = system (cpu s) ∧
    nemu_state s' = if is_trap i then END else RUNNING.
Proof using HData HL HP.
  intros Hs Hm Hrun Hh Ha Hf Hstep. apply wp_elim_val. apply (round_exec _ _ _ _ _ _ _ _ Hs (st_wp _ _ _ Hm) Ha Hf Hstep).
  intros s2 Hd. pose proof (steady_done _ _ _ _ Hm Hd) as Hm2. destruct Hd as [Hs2 Esys _ _ Est]. rewrite Hrun in Est.
  eapply wp_mono; [|exact (round_end_ok _ _ s2 _ Hm2 Hh (hosted_refl _ _ (st_pic _ _ _ Hm2)))]. cbv beta. intros b s4 [-> H4].
  rewrite Est. split; [now destruct (is_trap i)|]. split; [exact (shows_hosted _ _ _ _ Hs2 H4)|]. split; [exact (steady_hosted _ _ _ _ Hm2 H4)|].
  split; [now rewrite (ho_cpu _ _ _ H4)|now rewrite (ho_state _ _ _ H4)].
Qed.

(** ** The loop *)
Lemma loop_ok m n : ∀ rounds host s a a' halted, shows a s → steady P v s → nemu_state s = RUNNING → (∀ k, H (host k)) → loaded a →
  run lo hi base prog n a = Some (a', halted) → (n <= rounds)%nat →
  ∃ s', cpu_exec_loop rounds (S m) (Z.of_nat n) host s = Ok tt s' ∧ shows a' s' ∧ nemu_state s' = if halted : bool then END else STOP.
Proof using HData HL HP.
  induction n as [|n IH]; intros rounds host s a a' halted Hs Hm Hst Hh Ha Hrun Hr; cbn [run] in Hrun.
  - injection Hrun as <- <-. exists (set_nemu_state STOP s). split.
    + destruct rounds; cbn [cpu_exec_loop]; change (0 <? Z.of_nat 0) with false; cbv iota; rewrite bind_getS, Hst; reflexivity.
    + split; [|reflexivity]. destruct Hs as [Hd ? ? ? ?]. split; try done. data.
  - destruct (fetch base prog (i_pc a)) as [i|] eqn:Hf; [|discriminate]. cbn [mbind option_bind] in Hrun.
    destruct (step_instr lo hi i a) as [a1|] eqn:Hstep; [|discriminate]. cbn [mbind option_bind] in Hrun.
    destruct (round_ok m (host 0%nat) s a a1 i Hs Hm Hst (Hh _) Ha Hf Hstep) as (s1 & Hround & Hs1 & Hm1 & _ & Hst1).
    destruct rounds as [|rounds]; [lia|]. cbn [cpu_exec_loop]. replace (0 <? Z.of_nat (S n)) with true by lia. rewrite Hround.
    destruct (is_trap i); cbn [negb].
    + injection Hrun as <- <-. now exists s1.
    + replace (Z.of_nat (S n) - 1) with (Z.of_nat n) by lia.
      apply (IH rounds _ s1 a1 a'); try done; [now apply (loaded_step i a)|lia].
Qed.

(** A stretch of the loop that does not halt. *)
Lemma loop_steps m n : ∀ host s a a', shows a s → steady P v s → nemu_state s = RUNNING → (∀ k, (k < n)%nat → H (host k)) → loaded a →
  run lo hi base prog n a = Some (a', false) →
  ∃ s', shows a' s' ∧ steady P v s' ∧ nemu_state s' = RUNNING ∧ system (cpu s') = system (cpu s) ∧ loaded a' ∧
    ∀ rounds k, 0 <= k →
      cpu_exec_loop (n + rounds) (S m) (Z.of_nat n + k) host s = cpu_exec_loop rounds (S m) k (λ j, host (n + j)%nat) s'.
Proof using HData HL HP.
  induction n as [|n IH]; intros host s a a' Hs Hm Hst Hh Ha Hrun; cbn [run] in Hrun.
  - injection Hrun as <-. now exists s.
  - destruct (fetch base prog (i_pc a)) as [i|] eqn:Hf; [|discriminate]. cbn [mbind option_bind] in Hrun.
    destruct (step_instr lo hi i a) as [a1|] eqn:Hstep; [|discriminate]. cbn [mbind option_bind] in Hrun.
    destruct (round_ok m (host 0%nat) s a a1 i Hs Hm Hst (Hh 0%nat (Nat.lt_0_succ n)) Ha Hf Hstep) as (s1 & Hround & Hs1 & Hm1 & Esys & Hst1).
    destruct (is_trap i); [discriminate|]. cbn [negb] in Hround.
    destruct (IH (λ j, host (S j)) s1 a1 a') as (s' & Hs' & Hm' & Hst' & Esys' & Ha' & Hloop); try done.
    { intros k Hk. apply Hh. lia. }
    { now apply (loaded_step i a). }
    exists s'. split; [done|]. split; [done|]. split; [done|]. split; [congruence|]. split; [done|]. intros rounds k Hk.
    cbn [Nat.add cpu_exec_loop]. replace (0 <? Z.of_nat (S n) + k) with true by lia. rewrite Hround.
    replace (Z.of_nat (S n) + k - 1) with (Z.of_nat n + k) by lia. now apply Hloop.
Qed.
End Peace.

(** Entering the loop. *)
Lemma cpu_exec_enter m n rounds host s : nemu_state s ≠ END → 0 <= n < 2 ^ 32 →
  cpu_exec rounds m n host s = cpu_exec_loop rounds m n host (set_nemu_state RUNNING s).
Proof using. intros Hne Hn. unfold cpu_exec. rewrite bind_getS. apply Z.eqb_neq in Hne as ->. now rewrite bind_modify, wrap_small by lia. Qed.

Lemma shows_running a s : shows a s → shows a (set_nemu_state RUNNING s).
Proof using HData. intros [Hd ? ? ? ?]. split; try done. data. Qed.

(** C1: [cpu_exec] implements the abstract processor: from a machine in the abstract state
    [a] with a program's code in memory, apart from its data, interrupts masked and nothing
    watched, running the loop for [n] instructions (with any bound of at least [n] rounds)
    ends in the state [a'] the abstract machine reaches in [n] steps, stopped, or at the
    trap it halts at.  This holds whatever timer signals and keys arrive in between; a
    program of the abstract machine never meets an assertion, a fault or an endless loop
    of the emulator. *)
Theorem cpu_exec_runs m n rounds host s a a' halted : shows a s → masked s → nemu_state s ≠ END → (∀ k, host_ok (host k)) →
  loaded a → run lo hi base prog n a = Some (a', halted) → (n <= rounds)%nat → Z.of_nat n < 2 ^ 32 →
  ∃ s', cpu_exec rounds (S m) (Z.of_nat n) host s = Ok tt s' ∧ shows a' s' ∧ nemu_state s' = if halted : bool then END else STOP.
Proof using HData HL.
  intros Hs [HI Hw Hp] Hne Hh Ha Hrun Hr Hn. rewrite cpu_exec_enter by (done || lia).
  apply (loop_ok _ _ _ peaceful_masked m n _ _ _ a); try done; now apply shows_running.
Qed.
End Programs.

(** * The theorem on a machine *)
#[local] Existing Instance IsoRand.
#[local] Existing Instance ZeroJunk.

(** The loop of [testcase/src/sum.c], with [i] and [sum] in memory: the sum of 1 to 100. *)
Definition at_addr (r x : Z) : Encoding := mkEnc 0 r false R_EBP None x.
Definition var_i : Z := 0x1000.
Definition var_sum : Z := 0x1004.

Definition sum_prog : list instr := [
  MovI R_ECX 1; Store (at_addr R_ECX var_i);
  MovI R_EAX 0; Store (at_addr R_EAX var_sum);
  Load (at_addr R_ECX var_i); AluI Cmp R_ECX 100; Jcc 15 26;
  Load (at_addr R_EAX var_sum); Alu Add R_EAX R_ECX; Store (at_addr R_EAX var_sum);
  Inc R_ECX; Store (at_addr R_ECX var_i); Jmp (-44);
  Trap].

Definition sum_dram : Dram := demo_dram 512 (code_bytes_of sum_prog) dram0.
Definition sum_start : Isa := mkIsa (anew 0) (mkFlags false false false false false) 512 (hw_get sum_dram).
Definition sum_machine : Machine := demo_machine (set_eip 512 cpu0) sum_dram.

(** Between any two instructions the timer fires, and a key is pressed and released. *)
Definition sum_host (_ : nat) : HostInput := (1%nat, [SDL_KEYDOWN 97; SDL_KEYUP 97]).

Lemma sum_layout : layout (dok := demo_dok) 0x1000 0x2000 512 sum_prog.
Proof.
  split; [done|vm_compute; congruence|left; vm_compute; congruence| |].
  - repeat constructor; try (vm_compute; congruence); try discriminate; try lia.
  - intros sr ea Hsr Hin. unfold in_data in Hin. apply demo_data_ok; lia.
Qed.

Lemma sum_loaded : loaded (dok := demo_dok) 512 sum_prog sum_start.
Proof.
  split.
  - intros k b Hk. pose proof (lookup_lt_Some _ _ _ Hk) as Hl. change (length (code_bytes_of sum_prog)) with 67%nat in Hl.
    rewrite wrap_small by lia. now apply demo_dram_at.
  - intros k n Hk Hn Hl. change (Z.of_nat (length (code_bytes_of sum_prog))) with 67 in Hl. rewrite wrap_small by lia. apply demo_data_ok; lia.
Qed.

Lemma sum_shows : shows (DInv := demo_data) sum_start sum_machine.
Proof.
  split; [|reflexivity| |split; reflexivity|split; [reflexivity|done]].
  - apply demo_data_inv; [|now apply flat_segs_real]. unfold sum_dram. apply demo_dram_cold; [apply cold_dram0|].
    vm_compute. repeat constructor; congruence.
  - split; intros i _; cbn; [reflexivity|]. rewrite aget_anew. lia.
Qed.

Lemma sum_runs : match run 0x1000 0x2000 512 sum_prog 908 sum_start with
  | Some (a, halted) => aget (i_regs a) R_EAX = 5050 ∧ halted = true
  | None => False
  end.
Proof. vm_compute. split; reflexivity. Qed.

Lemma cpu_exec_runs_witness : ∃ s', cpu_exec 908 1 908 sum_host sum_machine = Ok tt s' ∧
  gpr_l R_EAX (cpu s') = 5050 ∧ nemu_state s' = END.
Proof.
  pose proof sum_runs as Hr. destruct (run 0x1000 0x2000 512 sum_prog 908 sum_start) as [[a []]|] eqn:E; [|easy|easy].
  destruct (cpu_exec_runs (DInv := demo_data) 0x1000 0x2000 512 sum_prog sum_layout 0 908 908 sum_host sum_machine sum_start a true)
    as (s' & Hrun & Hs & Hend).
  - exact sum_shows.
  - split; [reflexivity|reflexivity|exact pic0_ok].
  - discriminate.
  - intros k. repeat constructor; now eexists.
  - exact sum_loaded.
  - exact E.
  - lia.
  - reflexivity.
  - exists s'. split; [exact Hrun|]. split; [|exact Hend]. destruct Hs as [_ _ [Hg _] _ _].
    refine (eq_trans (Hg R_EAX _) (proj1 Hr)). vm_compute. split; congruence.
Defined.
