(* ===== verification/IntrRunSpec.v ===== *)
(** The main loop implements the abstract processor with interrupts of [IsaIntr]: whatever
    the timer does between the instructions, over a flat memory without paging. *)
From S2P Require Import Prelude Dram Cache L2Facts CacheFacts CacheSpec WorkingSet.
From S2P Require Import Tlb Cpu I8259 Mmio Vga WpPool Machine Memory MemFacts DemoMachine PageSpec.
From S2P Require Import SegMem Devices Decode Arith Logic DataMov ConTran StringOps SysIO Exec.
From S2P Require Import Expr CpuExec StackSpec IntrSpec ArithSpec BranchSpec DecodeSpec Isa IsaSpec IsaIntr RunSpec.

#[local] Abbreviation len l := (Z.of_nat (length l)).

(** * The timer's line *)

(** Only the timer's interrupt is pending, or none. *)
Record level (b : bool) (p : Pic) : Prop := { lv_ok : pic_ok p; lv_irr : IRR (master p) = b2z b }.

Lemma level_INTR b p : level b p → INTR p = b.
Proof. intros [Hp Hi]. rewrite (pic_intr _ Hp), Hi. now destruct b. Qed.

Lemma raise_level b p : level b p → ∃ p', i8259_raise_intr TIMER_IRQ p = Ok tt p' ∧ level true p'.
Proof.
  intros [Hp Hi]. destruct (raise_ok p TIMER_IRQ Hp) as (p' & Hr & Hp' & Hm & _); [done..|].
  exists p'. split; [exact Hr|]. split; [exact Hp'|]. rewrite Hm, Hi. now destruct b.
Qed.

Lemma ack_level p : level true p → intr_NO p = 32 ∧ ∃ p', i8259_ack_intr p = Ok tt p' ∧ level false p'.
Proof.
  intros Hl. pose proof (level_INTR _ _ Hl) as HI. destruct Hl as [Hp Hi].
  assert (intr_NO p = 32) as Hv by (rewrite (pic_vector _ Hp HI), Hi; reflexivity).
  split; [exact Hv|]. destruct (ack_ok p Hp HI) as (p' & Hr & Hp' & Hm & _). exists p'. split; [exact Hr|].
  split; [exact Hp'|]. rewrite Hm, Hi, Hv. reflexivity.
Qed.

(** No key is pressed. *)
Definition no_key (e : SDL_Event) : Prop := e = SDL_OTHER.

Section Timer.
Context `{HRand : !LibcRand, HJunk : !StackJunk}.

Lemma hosted_from (P P' : Pic → Prop) s0 s : hosted P s0 s → P' (pic s) → hosted P' s0 s.
Proof using. intros [] ?. now split. Qed.

Lemma stays_no_key P es : Forall no_key es → stays P (poll_events es).
Proof using. induction 1 as [|e es -> _ IH]; cbn [poll_events]; [apply stays_ret|]. apply stays_bind; [apply stays_ret|exact IH]. Qed.

(** The handler of a signal leaves the timer's interrupt pending. *)
Lemma signal_run J b s0 s : hosted (level b) s0 s → nemu_state s0 = RUNNING → wp J timer_sig_handler (λ _, hosted (level true) s0) s.
Proof using.
  intros H Hrun. unfold timer_sig_handler. apply wp_bind. eapply wp_mono; [|exact (stays_sdl _ _ J s0 s H)]. intros [] s1 H1.
  apply wp_bind. unfold timer_intr. apply wp_bind, wp_getS. rewrite (ho_state _ _ _ H1), Hrun. change (RUNNING =? RUNNING) with true. cbv iota.
  destruct (raise_level _ _ (ho_pic _ _ _ H1)) as (p & Hr & Hp). eapply wp_Ok; [unfold in_pic, zoom; rewrite Hr; reflexivity|].
  assert (hosted (level true) s0 (set_pic p s1)) as H2 by (destruct H1; now split). revert H2. generalize (set_pic p s1). intros s2 H2.
  apply wp_bind. eapply wp_mono; [|exact (stays_sdl _ _ J s0 s2 H2)]. intros [] s3 H3. apply wp_bind, wp_getS.
  destruct (_ =? 0); [exact (stays_sdl _ _ J s0 s3 H3)|now apply wp_ret].
Qed.

Lemma signals_run J n : ∀ b s0 s, hosted (level b) s0 s → nemu_state s0 = RUNNING →
  wp J (timer_signals n) (λ _, hosted (level (b || (0 <? n)%nat)) s0) s.
Proof using.
  induction n as [|n IH]; intros b s0 s H Hrun; cbn [timer_signals].
  - apply wp_ret. cbn. now rewrite orb_false_r.
  - apply wp_bind. eapply wp_mono; [|exact (signal_run J b s0 s H Hrun)]. intros [] s1 H1. cbn. rewrite orb_true_r. now apply (IH true).
Qed.
End Timer.

(** * The simulation *)
Section Machine.
Context `{HRand : !LibcRand, HJunk : !StackJunk} {Inv : (Z → Z) → Machine → Prop} {ok : Z → Z → Prop}.
Context `{HMem : !FlatMemory Inv ok}.

Abbreviation dinv := (flat_inv (Inv := Inv)).
Abbreviation dok := (flat_ok (ok := ok)).
Abbreviation shows := (shows (DInv := dinv)).
Abbreviation loaded := (loaded (dok := dok)).
Abbreviation layout := (layout (dok := dok)).
Abbreviation desc_ok := (desc_ok (ok := ok)).

Context (lo hi base : Z) (prog : list instr) (HL : layout lo hi base prog).

(** A descriptor apart from the data. *)
Definition apart (d : Z) : Prop := d + 8 <= lo ∨ hi <= d.

(** The memories differ in the data only. *)
Definition outside (f g : Z → Z) : Prop := ∀ b, b < lo ∨ hi <= b → g b = f b.

Lemma outside_refl f : outside f f.
Proof using. done. Qed.

Lemma outside_trans f g h : outside f g → outside g h → outside f h.
Proof using. intros H1 H2 b Hb. now rewrite H2, H1. Qed.

Lemma outside_store f ea v : in_data lo hi ea = true → outside f (flat_store f ea 4 v).
Proof using. unfold in_data. intros H b Hb. apply flat_store_out. lia. Qed.

Lemma load_outside f g n d k : outside f g → apart d → 0 <= k → k + Z.of_nat n <= 8 → le_load n g (d + k) = le_load n f (d + k).
Proof using. intros H [Hd|Hd] Hk Hn; apply le_load_ext; intros b Hb; apply H; lia. Qed.

(** The base addresses of the two descriptor tables. *)
Context (gdt idt : Z).

Definition gdt_entry (sel : Z) : Z := u32 (gdt + 8 * bitfield sel 3 13).
Definition idt_entry (v : Z) : Z := u32 (idt + 8 * v).

(** In the memory [f] the gate of [v] leads to the offset [h] of the segment that [sel]
    selects, which starts at 0; the two descriptors are not in the data. *)
Record gate (f : Z → Z) (v h sel : Z) : Prop := {
  gt_vector : 0 <= v < 256;
  gt_idt : desc_ok (idt_entry v) ∧ apart (idt_entry v);
  gt_gdt : desc_ok (gdt_entry sel) ∧ apart (gdt_entry sel);
  gt_sel : le_load 2 f (idt_entry v + 2) = sel;
  gt_off : gate_offset f (idt_entry v) = h;
  gt_base : desc_base f (gdt_entry sel) = 0
}.

Lemma gate_outside f g v h sel : outside f g → gate f v h sel → gate g v h sel.
Proof using.
  intros H [Hv [Hi Ai] [Hg Ag] Hs Ho Hb]. split; try done.
  - now rewrite (load_outside f).
  - unfold gate_offset in *. rewrite (load_outside f) by done.
    pose proof (load_outside f g 2 (idt_entry v) 0 H Ai) as E. rewrite Z.add_0_r in E. now rewrite E by done.
  - unfold desc_base in *. now rewrite !(load_outside f g) by (done || lia).
Qed.


(** ** The relation *)

(** The machine [s] is running in the state [x], with nothing watched. *)
Record good (x : IState) (s : Machine) : Prop := {
  gd_shows : shows (i_isa x) s;
  gd_kept : kept_flags (cpu s) = i_kept x;
  gd_cs : selector (aget (sreg (cpu s)) 1) = i_cs x;
  gd_gdt : gdtr_base (cpu s) = gdt;
  gd_idt : idtr_base (cpu s) = idt;
  gd_wp : WpPool.head (wps (debug s)) = None;
  gd_pic : level (i_pend x) (pic s);
  gd_state : nemu_state s = RUNNING
}.

Lemma good_hosted b x s s' : good x s → hosted (level b) s s' → good (i_set_pend b x) s'.
Proof using HMem.
  intros [Hs Hk Hc Hg Hi Hw _ Hst] H. pose proof (shows_hosted _ _ _ _ Hs H) as Hs'. destruct H as [E1 _ _ _ _ E2 E3 Hp].
  split; cbn [i_isa i_kept i_cs i_pend i_set_pend]; (assumption || congruence).
Qed.

(** A change of the caches and the TLB that the data survive. *)
Lemma good_mem x s t c : good x s → dinv (i_mem (i_isa x)) (set_tlb t (set_caches c s)) → good x (set_tlb t (set_caches c s)).
Proof using. intros [[] ? ? ? ? ? ? ?] Hd. split; done. Qed.

(** EFLAGS. *)
Lemma IF_shown x s : good x s → nz (IF_ (cpu s)) = i_IF x.
Proof using.
  intros H. unfold i_IF. rewrite <- (gd_kept _ _ H), flag_testbit by done. unfold kept_flags. rewrite Z.ldiff_spec. change (Z.testbit STATUS_FLAGS 9) with false.
  rewrite andb_true_r. now destruct (Z.testbit (eflags (cpu s)) 9).
Qed.

Lemma eflags_shown x s : good x s → eflags (cpu s) = i_eflags x.
Proof using. intros H. unfold i_eflags. rewrite <- (gd_kept _ _ H). apply eflags_split, gd_shows, H. Qed.


(** ** What an instruction leaves before the main loop adds its length *)
Definition advance (l : Z) (s : Machine) : Machine := set_cpu (set_eip (u32 (eip (cpu s) + l)) (cpu s)) s.

(** ** The instructions *)
Lemma kept_set_IF (b : bool) c : kept_flags (set_IF (b2z b) c) = if b then Z.lor (kept_flags c) 512 else Z.ldiff (kept_flags c) 512.
Proof using.
  apply Z.bits_inj'. intros n Hn.
  assert (Z.testbit (eflags (set_IF (b2z b) c)) n = if 9 =? n then b else Z.testbit (eflags c) n) as E.
  { pose proof (flag_set_flag n 9 (b2z b) c Hn ltac:(done)) as E. rewrite flag_testbit in E by done. destruct (9 =? n).
    - rewrite b2z_mod2 in E. now destruct (Z.testbit _ n), b.
    - rewrite flag_testbit in E by done. now destruct (Z.testbit _ n), (Z.testbit (eflags c) n). }
  unfold kept_flags. rewrite Z.ldiff_spec, E. change 512 with (2 ^ 9).
  destruct b; rewrite ?Z.lor_spec, !Z.ldiff_spec, Z.pow2_bits_eqb by done; (destruct (Z.eqb_spec 9 n) as [<-|]; [now rewrite ?orb_true_r, ?andb_false_r|]);
    now rewrite ?orb_false_r, ?andb_true_r.
Qed.

Lemma shows_set_IF b c f : shows_flags c f → shows_flags (set_IF (b2z b) c) f.
Proof using. intros [? ? ? ? ?]. split; rewrite flag_set_flag by done; assumption. Qed.

Lemma good_goto x s p : good x s → good (i_with (i_goto p (i_isa x)) x) (set_cpu (set_eip (u32 p) (cpu s)) s).
Proof using HMem.
  intros [[Hd Hpc Hr Hf Ho] ? ? ? ? ? ? ?]. split; try done. split; try done.
  - refine (dm_frame _ s _ _ Hd). now repeat split.
  - now apply (regs_kept (cpu s)).
  - now apply (flags_kept (cpu s)).
Qed.

Lemma goto_here x : 0 <= i_pc (i_isa x) < 2 ^ 32 → i_with (i_goto (i_pc (i_isa x)) (i_isa x)) x = x.
Proof using. intros H. unfold i_goto, i_with. rewrite wrap_small by done. now destruct x as [[] ? ? ?]. Qed.

Lemma good_set_IF (b : bool) x s : good x s →
  good (i_set_kept (if b then Z.lor (i_kept x) 512 else Z.ldiff (i_kept x) 512) x) (set_cpu (set_IF (b2z b) (cpu s)) s).
Proof using HMem.
  intros [[Hd Hpc Hr Hf Ho] Hk ? ? ? ? ? ?]. split; try done; [split; try done|].
  - refine (dm_frame _ s _ _ Hd). now repeat split.
  - now apply (regs_kept (cpu s)).
  - now apply shows_set_IF.
  - cbn [i_kept i_set_kept]. rewrite <- Hk. apply kept_set_IF.
Qed.

(** The opcode is fetched and the helper called. *)
Lemma sys_exec J m x s pc b bs Q : good x s → 0 <= pc < 2 ^ 32 → code (dok := dok) (i_mem (i_isa x)) pc (b :: bs) → 0 <= b < 256 →
  (∀ s1, good x s1 → wp J (nth (Z.to_nat b) (opcode_table (exec m) m) inv pc) Q s1) → wp J (exec (S m) pc) Q s.
Proof using HMem.
  intros [[Hd Hpc Hr Hf [Ho1 Ho2]] ? ? ? ? ? ? ?] Hp Hc Hb HQ. apply (wp_exec _ _ _ _ _ _ _ _ Hd Hp Hc Hb).
  intros t c d s' Hd'. apply HQ. split; try done.
Qed.

Lemma hlt_run J x s pc : good x s → 0 <= i_pc (i_isa x) < 2 ^ 32 →
  wp J (hlt pc) (λ l s1, 0 <= l <= 1 ∧ good (if i_pend x then i_with (i_goto (i_pc (i_isa x) + 1) (i_isa x)) x else x) (advance l s1)) s.
Proof using HMem.
  intros H Hp. pose proof (sh_pc _ _ (gd_shows _ _ H)) as Epc. unfold hlt. apply wp_bind, wp_getS. rewrite (level_INTR _ _ (gd_pic _ _ H)).
  destruct (i_pend x); cbn [negb].
  - apply wp_bind, wp_ret, wp_ret. split; [lia|]. unfold advance. rewrite Epc. now apply good_goto.
  - unfold get_eip, put_eip. repeat wp_step. split; [lia|]. rewrite Epc.
    assert (set_cpu (set_eip (u32 (u32 (i_pc (i_isa x) - 1) + 1)) (cpu s)) s = set_cpu (set_eip (u32 (i_pc (i_isa x))) (cpu s)) s) as E.
    { do 2 f_equal. rewrite wrap_add_l. f_equal. lia. }
    rewrite <- (goto_here x Hp) at 1. unfold advance.
    change (good (i_with (i_goto (i_pc (i_isa x)) (i_isa x)) x) (set_cpu (set_eip (u32 (u32 (i_pc (i_isa x) - 1) + 1)) (cpu s)) s)).
    rewrite E. now apply good_goto.
Qed.

Lemma set_IF_run J (b : bool) x s : good x s → wp J (_ ← mod_cpu (set_IF (b2z b)); mret 1) (λ l s1, 0 <= l <= 1 ∧
  good (i_set_kept (if b then Z.lor (i_kept x) 512 else Z.ldiff (i_kept x) 512) (i_with (i_goto (i_pc (i_isa x) + 1) (i_isa x)) x)) (advance l s1)) s.
Proof using HMem.
  intros H. apply wp_bind, wp_mod_cpu, wp_ret. split; [lia|]. pose proof (sh_pc _ _ (gd_shows _ _ H)) as Epc.
  apply (good_set_IF b), (good_goto _ _ (i_pc (i_isa x) + 1)) in H. unfold advance. mproj. cbn [eip set_flag set_eflags]. rewrite Epc. exact H.
Qed.

Lemma iret_good J x x1 s pc : good x s → i_leave lo hi x = Some x1 → wp J (iret pc) (λ l s1, 0 <= l <= 1 ∧ good x1 (advance l s1)) s.
Proof using HMem HL.
  intros H Hl. unfold i_leave in Hl. set (a := i_isa x) in *. set (sp := aget (i_regs a) R_ESP) in *.
  destruct (in_data lo hi sp) eqn:D1; [|discriminate]. destruct (in_data lo hi (sp + 4)) eqn:D2; [|discriminate].
  destruct (in_data lo hi (sp + 8)) eqn:D3; [|discriminate]. cbn [andb] in Hl. injection Hl as <-.
  destruct H as [[Hd Hpc Hregs Hf [Ho1 Ho2]] Hk Hcs Hgdt Hidt Hw Hp Hst].
  pose proof (ly_data _ _ _ _ HL 2 _ ltac:(lia) D1) as K1. pose proof (ly_data _ _ _ _ HL 2 _ ltac:(lia) D2) as K2.
  pose proof (ly_data _ _ _ _ HL 2 _ ltac:(lia) D3) as K3. destruct (dm_ok _ _ _ K1) as (? & _). destruct (dm_ok _ _ _ K3) as (_ & ? & _).
  assert (∀ e, 0 < e → e + 4 <= 2 ^ 32 → 0 <= le_load 4 (i_mem a) e < 2 ^ 32) as Hrange.
  { intros e He1 He2. apply (le_load_range_in 4). intros b Hb. apply (dm_bytes _ _ Hd). lia. }
  apply (iret_run _ (i_mem a) s sp); [exact Hd|now apply (sr_regs _ _ Hregs)|lia|done..|].
  intros s' Hd' E1 E2 E3 E4 [R1 R2 R3 R4 R5] [E5 E6]. split; [lia|].
  assert (shows_regs (cpu s') (aset R_ESP (u32 (sp + 12)) (i_regs a))) as Hregs'.
  { split; intros i Hi; rewrite ?E4, aget_aset, (Z.eqb_sym R_ESP i); change (i =? R_ESP) with (i =? 4); destruct (i =? 4);
      try apply wrap_range; try apply Hregs; done. }
  assert (∀ k, 0 <= k → flag k (cpu s') = b2z (Z.testbit (le_load 4 (i_mem a) (sp + 8)) k)) as Hfl.
  { intros k Hk'. rewrite flag_testbit by done. now rewrite E2. }
  split; cbn [i_isa i_kept i_cs i_pend]; try solve [unfold advance; mproj; cbn [gdtr_base idtr_base set_eip]; congruence].
  - split; cbn [i_mem i_pc i_regs i_flags advance].
    + refine (dm_frame _ s' _ _ Hd'). now repeat split.
    + change (u32 (eip (cpu s') + 0) = le_load 4 (i_mem a) sp). rewrite E1, Z.add_0_r. apply wrap_small, Hrange; lia.
    + now apply (regs_kept (cpu s')).
    + split; [apply (Hfl 0)|apply (Hfl 6)|apply (Hfl 7)|apply (Hfl 11)|apply (Hfl 2)]; done.
    + split; [exact (eq_trans R4 Ho1)|]. change (ops_decoded (advance 0 s')) with (ops_decoded s'). now rewrite R5.
  - change (Z.ldiff (eflags (cpu s')) STATUS_FLAGS = Z.ldiff (le_load 4 (i_mem a) (sp + 8)) STATUS_FLAGS). now rewrite E2.
  - exact E3.
Qed.

(** ** Handlers *)

(** Where the gates lead. *)
Context (handler : Z → option (Z * Z)).

(** The code and the gates are in memory. *)
Record ready (a : Isa) : Prop := {
  rd_code : loaded base prog a;
  rd_gates : ∀ v h sel, handler v = Some (h, sel) → gate (i_mem a) v h sel
}.

Lemma ready_outside a a' : outside (i_mem a) (i_mem a') → ready a → ready a'.
Proof using HL.
  intros Ho [[Hc Hok] Hg]. split; [|intros v h sel Hv; exact (gate_outside _ _ _ _ _ Ho (Hg v h sel Hv))].
  split; [|exact Hok]. intros k b Hk. rewrite <- (Hc k b Hk). apply Ho. apply lookup_lt_Some in Hk.
  pose proof (ly_base _ _ _ _ HL). pose proof (ly_end _ _ _ _ HL). pose proof (ly_apart _ _ _ _ HL). rewrite wrap_small; lia.
Qed.

Lemma ready_goto p a : ready a → ready (i_goto p a).
Proof using HL. now apply ready_outside. Qed.

(** ** Entering a handler *)
Lemma enter_run {A} J v x x' s : good x s → ready (i_isa x) → i_enter lo hi handler v x = Some x' →
  (∀ s', good x' s' → J s') → wp J (raise_intr (A := A) v) (λ _ _, False) s.
Proof using HMem HL.
  intros H Hr He HJ. unfold i_enter in He. destruct (handler v) as [[h sel]|] eqn:Hv; [|discriminate]. cbn [mbind option_bind] in He.
  set (a := i_isa x) in *. set (sp := aget (i_regs a) R_ESP) in *.
  destruct (in_data lo hi (sp - 4)) eqn:D1; [|discriminate]. destruct (in_data lo hi (sp - 8)) eqn:D2; [|discriminate].
  destruct (in_data lo hi (sp - 12)) eqn:D3; [|discriminate]. cbn [andb] in He. injection He as <-.
  pose proof H as [Hs Hk Hcs Hgdt Hidt Hw Hp Hst]. destruct Hs as [Hd Hpc Hregs Hf Hops].
  assert (gpr_l 4 (cpu s) = sp) as Esp by now apply (sr_regs _ _ Hregs).
  pose proof (sr_range _ _ Hregs 4 ltac:(lia)) as Hsp. change (aget (i_regs a) 4) with sp in Hsp.
  set (g := flat_store (flat_store (flat_store (i_mem a) (sp - 4) 4 (i_eflags x)) (sp - 8) 4 (i_cs x)) (sp - 12) 4 (i_pc a)) in *.
  assert (intr_frame (i_mem a) (cpu s) = g) as Eg by (unfold intr_frame; now rewrite Esp, (eflags_shown _ _ H), Hcs, Hpc).
  assert (outside (i_mem a) g) as Hog.
  { unfold g. repeat (eapply outside_trans; [|now apply outside_store]). apply outside_refl. }
  destruct (gate_outside _ _ _ _ _ Hog (rd_gates _ Hr v h sel Hv)) as [Hvec [Hi _] [Hg _] Esel Eoff Eb].
  assert (u32 (idtr_base (cpu s) + 8 * v) = idt_entry v) as Ei by now rewrite Hidt.
  assert (u32 (gdtr_base (cpu s) + 8 * bitfield sel 3 13) = gdt_entry sel) as Ee by now rewrite Hgdt.
  rewrite <- Esel in Ee at 1. rewrite <- Eg in Ee.
  apply (raise_intr_run (i_mem a) s v (idt_entry v) (gdt_entry sel)); rewrite ?Esp; try done;
    [now apply (ly_data _ _ _ _ HL); [lia|]..|].
  rewrite Eg, Esel, Eoff, Eb. intros s' Hd' [R1 R2 R3 R4 R5] Ec. apply HJ.
  pose proof (desc_load_range _ _ _ 2 2 Hd' Hi ltac:(lia) ltac:(lia) ltac:(lia)) as Hsel.
  change (Z.to_nat 2) with 2%nat in Hsel. rewrite Esel in Hsel.
  split; cbn [i_isa i_kept i_cs i_pend]; rewrite ?Ec; cbn [gdtr_base idtr_base sreg set_eip set_sreg set_gpr_l set_gpr]; try congruence.
  - split; cbn [i_mem i_pc i_regs i_flags i_goto i_set_reg i_store]; rewrite ?Ec.
    + destruct Hd as [_ [Hpg Hb]]. split; [exact Hd'|]. rewrite Ec. split; [exact Hpg|]. intros Hpe sr Hsr. specialize (Hb Hpe sr Hsr).
      cbn [sreg set_eip set_sreg set_gpr_l set_gpr]. destruct (Z.eqb_spec sr 1) as [->|Hne]; [|now rewrite aget_aset_ne by congruence].
      rewrite aget_aset_eq. rewrite (desc_base_loaded g s') by done. exact Eb.
    + reflexivity.
    + apply (regs_kept (set_gpr_l 4 (sp - 12) (cpu s))); [|reflexivity]. now apply shows_set_reg.
    + now apply (flags_kept (cpu s)).
    + destruct Hops as [? ?]. split; congruence.
  - exact Hk.
  - rewrite aget_aset_eq. unfold loaded_cs. cbn [selector]. now apply wrap_small.
Qed.

(** ** The end of a round *)
Lemma round_end_run h x x' o s : good x s → ready (i_isa x) → Forall no_key (snd h) →
  deliver lo hi handler (0 <? fst h)%nat x = Some (x', o) →
  wp (λ s', o = Jumped ∧ good x' s') (round_end h) (λ b s', b = true ∧ o = Done ∧ good x' s') s.
Proof using HMem HL.
  intros H Hr Hh Hd. unfold deliver in Hd. set (b := i_pend x || _) in *. set (y := i_set_pend b x) in *.
  unfold round_end. apply wp_bind. eapply wp_mono; [|exact (signals_run _ (fst h) _ s s (hosted_refl _ _ (gd_pic _ _ H)) (gd_state _ _ H))].
  intros [] s3 H3. apply wp_bind. eapply wp_mono; [|exact (stays_update _ _ (stays_no_key _ _ Hh) _ s s3 H3)]. intros [] s4 H4.
  pose proof (good_hosted b x s s4 H H4) as H5. fold y in H5. clear H3 H4. change (i_pend y) with b in Hd.
  apply wp_bind, wp_getS. rewrite (gd_state _ _ H5), (level_INTR _ _ (gd_pic _ _ H5)), (IF_shown _ _ H5). change (i_pend y) with b.
  change (negb (RUNNING =? RUNNING)) with false. cbv iota. destruct (b && i_IF y) eqn:E; [|injection Hd as <- <-; now apply wp_ret].
  apply andb_prop in E as [Eb _]. destruct (i_enter _ _ _ _ _) as [z|] eqn:He; [|discriminate]. injection Hd as <- <-.
  pose proof (gd_pic _ _ H5) as Hp. change (i_pend y) with b in Hp. rewrite Eb in Hp. destruct (ack_level _ Hp) as (Hv & p & Ha & Hp').
  apply wp_bind. unfold in_pic at 1, i8259_query_intr. eapply wp_Ok; [reflexivity|]. rewrite Hv. apply wp_bind.
  unfold in_pic. eapply wp_Ok; [unfold zoom; cbn [pic set_pic]; rewrite Ha; reflexivity|].
  eapply wp_mono; [|refine (enter_run _ 32 _ _ _ _ _ He _)]; [done| |exact Hr|intros s' Hs'; now split].
  destruct H5 as [[Hd Hpc Hrg Hf Ho] Hk Hcs Hgd Hid Hw _ Hst]. split; try done. split; try done.
  now refine (dm_frame _ s4 _ _ Hd).
Qed.

Lemma round_sys m h pc bs x x1 x' o s : good x s → ready (i_isa x1) → Forall no_key (snd h) →
  eip (cpu s) = pc → code (dok := dok) (i_mem (i_isa x)) pc bs → 0 < len bs →
  wp (λ s', o = Jumped ∧ good x' s') (exec (S m) pc) (λ l s1, 0 <= l <= 1 ∧ good x1 (advance l s1)) s →
  deliver lo hi handler (0 <? fst h)%nat x1 = Some (x', o) →
  wp (λ s', o = Jumped ∧ good x' s') (cpu_exec_round (S m) h) (λ b s', b = true ∧ o = Done ∧ good x' s') s.
Proof using HMem HL.
  intros H Hr Hh Hpc Hc Hl Hex Hd. eapply (round_after _ _ _ _ _ _ _ _ _ Hpc Hc Hex). intros l s1 [Hl1 H1].
  split; [lia|]. split; [exact (gd_wp _ _ H1)|]. pose proof (sh_data _ _ (gd_shows _ _ H1)) as Hd1.
  exists (i_mem (i_isa x1)). split; [now refine (dm_frame _ (advance l s1) _ _ Hd1)|].
  intros t c s2 Hd2. apply (round_end_run h x1); try done. apply (good_mem x1 (advance l s1) t c H1 Hd2).
Qed.

(** ** A round *)
Definition sys_bytes (i : sys) : list Z :=
  match i with Hlt => [0xf4] | Cli => [0xfa] | Sti => [0xfb] | Iret => [0xcf] | Int n => [0xcd; n] end.

Lemma sys_of_some i y : sys_of i = Some y → i = Raw (sys_bytes y) ∧ match y with Int n => 0 <= n < 256 | _ => True end.
Proof using.
  destruct i as [| | | | | | | | | | | | | | | | | | | | |[|b [|n []]]|]; cbn [sys_of]; try discriminate.
  - repeat match goal with |- context [if b =? ?k then _ else _] => destruct (Z.eqb_spec b k) as [->|_]; [intros [= <-]; done|] end. discriminate.
  - destruct (Z.eqb_spec b 0xcd) as [->|_]; [|discriminate]. destruct (Z.leb_spec 0 n); [|discriminate]. destruct (Z.ltb_spec n 256); [|discriminate].
    intros [= <-]. done.
Qed.

Lemma enter_outside v x x' : i_enter lo hi handler v x = Some x' → outside (i_mem (i_isa x)) (i_mem (i_isa x')).
Proof using.
  unfold i_enter. destruct (handler v) as [[h sel]|]; [|discriminate]. cbn [mbind option_bind]. set (sp := aget _ R_ESP).
  destruct (in_data lo hi (sp - 4)) eqn:D1; [|discriminate]. destruct (in_data lo hi (sp - 8)) eqn:D2; [|discriminate].
  destruct (in_data lo hi (sp - 12)) eqn:D3; [|discriminate]. intros [= <-]. cbn [i_isa i_mem i_goto i_set_reg i_store].
  repeat (eapply outside_trans; [|now apply outside_store]). apply outside_refl.
Qed.

Lemma deliver_outside tick x x' o : deliver lo hi handler tick x = Some (x', o) → outside (i_mem (i_isa x)) (i_mem (i_isa x')).
Proof using.
  unfold deliver. destruct (_ && _); [|intros [= <- _]; apply outside_refl].
  destruct (i_enter _ _ _ _ _) as [y|] eqn:E; [|discriminate]. intros [= <- _]. exact (enter_outside _ _ _ E).
Qed.

Lemma step_outside i a a' : step_instr lo hi i a = Some a' → outside (i_mem a) (i_mem a').
Proof using. intros H. destruct (step_memory lo hi i a a' H) as [->|(ea & v & Hin & ->)]; [apply outside_refl|now apply outside_store]. Qed.

Lemma leave_outside x x' : i_leave lo hi x = Some x' → i_mem (i_isa x') = i_mem (i_isa x).
Proof using. unfold i_leave. destruct (_ && _); [|discriminate]. now intros [= <-]. Qed.

Lemma iround_outside tick x x' o : iround lo hi base prog handler tick x = Some (x', o) → outside (i_mem (i_isa x)) (i_mem (i_isa x')).
Proof using.
  unfold iround. destruct (fetch _ _ _) as [i|]; [|discriminate]. cbn [mbind option_bind]. destruct (sys_of i) as [y|].
  - destruct y as [| | | |n]; cbn [step_sys].
    + intros H%deliver_outside. now destruct (i_pend x).
    + now intros H%deliver_outside.
    + now intros H%deliver_outside.
    + destruct (i_leave _ _ x) as [z|] eqn:E; [|discriminate]. cbn [mbind option_bind]. intros H%deliver_outside. now rewrite <- (leave_outside _ _ E).
    + destruct (i_enter _ _ _ _ _) as [z|] eqn:E; [|discriminate]. intros [= <- _]. exact (enter_outside _ _ _ E).
  - destruct (step_instr _ _ _ _) as [a'|] eqn:E; [|discriminate]. cbn [mbind option_bind]. apply step_outside in E.
    destruct (is_trap i); [now intros [= <- _]|]. intros H%deliver_outside. exact (outside_trans _ _ _ E H).
Qed.

Lemma int_run n x x' s pc : good x s → ready (i_isa x) → i_pc (i_isa x) = pc → 0 <= pc < 2 ^ 32 → 0 <= n < 256 →
  code (dok := dok) (i_mem (i_isa x)) pc [0xcd; n] →
  i_enter lo hi handler n (i_with (i_goto (pc + 2) (i_isa x)) x) = Some x' → wp (good x') (int_i pc) (λ _ _, False) s.
Proof using HMem HL.
  intros H Hr Epc Hp Hn Hc He. destruct (code_head _ _ _ _ (code_cons _ _ _ _ Hc) ltac:(apply wrap_range; lia)) as [Hb Hok].
  pose proof (sh_data _ _ (gd_shows _ _ H)) as Hd. unfold int_i, instr_fetch, get_eip, put_eip. apply wp_bind. wp_load Hok.
  rewrite load_byte, Hb. repeat wp_step. mproj. rewrite (sh_pc _ _ (gd_shows _ _ H)), Epc.
  eapply enter_run; [exact (good_goto x _ (pc + 2) (good_mem _ _ _ _ H Hd0))|exact (ready_goto _ _ Hr)|exact He|done].
Qed.

(** What a round leaves, by how it ends. *)
Definition ended (o : outcome) (x' : IState) (b : bool) (s' : Machine) : Prop :=
  match o with
  | Done => b = true ∧ good x' s'
  | Jumped => False
  | Halted => b = false ∧ shows (i_isa x') s' ∧ nemu_state s' = END
  end.

Lemma ended_done o x' b s' : b = true ∧ o = Done ∧ good x' s' → ended o x' b s'.
Proof using. intros (-> & -> & H). now split. Qed.

Lemma sys_run m h y x x' o s : good x s → ready (i_isa x) → Forall no_key (snd h) → 0 <= i_pc (i_isa x) < 2 ^ 32 →
  code (dok := dok) (i_mem (i_isa x)) (i_pc (i_isa x)) (sys_bytes y) → (match y with Int n => 0 <= n < 256 | _ => True end) →
  step_sys lo hi handler (0 <? fst h)%nat y x = Some (x', o) →
  wp (λ s', o = Jumped ∧ good x' s') (cpu_exec_round (S m) h) (ended o x') s.
Proof using HMem HL.
  intros H Hr Hh Hp Hc Hy Hstep. pose proof (sh_pc _ _ (gd_shows _ _ H)) as Hpc. destruct y as [| | | |n]; cbn [sys_bytes] in Hc; cbn [step_sys] in Hstep.
  - eapply wp_mono; [apply ended_done|]. eapply (round_sys m h _ _ x (if i_pend x then i_with (i_goto (i_pc (i_isa x) + 1) (i_isa x)) x else x)); try done; [destruct (i_pend x); [now apply ready_goto|done]|].
    apply (sys_exec _ _ _ _ _ _ _ _ H Hp Hc ltac:(lia)). intros s1 H1. change (nth _ _ _) with hlt. now apply hlt_run.
  - eapply wp_mono; [apply ended_done|]. eapply (round_sys m h _ _ x (i_set_kept (Z.ldiff (i_kept x) 512) (i_with (i_goto (i_pc (i_isa x) + 1) (i_isa x)) x))); try done; [now apply ready_goto|].
    apply (sys_exec _ _ _ _ _ _ _ _ H Hp Hc ltac:(lia)). intros s1 H1. change (nth _ _ _) with cli. now apply (set_IF_run _ false).
  - eapply wp_mono; [apply ended_done|]. eapply (round_sys m h _ _ x (i_set_kept (Z.lor (i_kept x) 512) (i_with (i_goto (i_pc (i_isa x) + 1) (i_isa x)) x))); try done; [now apply ready_goto|].
    apply (sys_exec _ _ _ _ _ _ _ _ H Hp Hc ltac:(lia)). intros s1 H1. change (nth _ _ _) with sti. now apply (set_IF_run _ true).
  - destruct (i_leave lo hi x) as [x1|] eqn:El; [|discriminate]. cbn [mbind option_bind] in Hstep.
    eapply wp_mono; [apply ended_done|]. eapply (round_sys m h _ _ x x1); try done.
    { apply (ready_outside (i_isa x)); [|done]. rewrite (leave_outside _ _ El). apply outside_refl. }
    apply (sys_exec _ _ _ _ _ _ _ _ H Hp Hc ltac:(lia)). intros s1 H1. change (nth _ _ _) with iret. now apply (iret_good _ x).
  - destruct (i_enter _ _ _ _ _) as [z|] eqn:Ee; [|discriminate]. injection Hstep as <- <-.
    unfold cpu_exec_round. apply wp_bind, wp_get_cpu. rewrite Hpc. apply wp_bind.
    apply (sys_exec _ _ _ _ _ _ _ _ H Hp Hc ltac:(lia)). intros s1 H1. change (nth _ _ _) with int_i.
    pose proof (int_run n x z s1 _ H1 Hr eq_refl Hp Hy Hc Ee) as Hw. revert Hw. unfold wp. destruct (int_i _ _); [done|now split|done].
Qed.

Lemma iround_run m h x x' o s : good x s → ready (i_isa x) → Forall no_key (snd h) →
  iround lo hi base prog handler (0 <? fst h)%nat x = Some (x', o) →
  wp (λ s', o = Jumped ∧ good x' s') (cpu_exec_round (S m) h) (ended o x') s.
Proof using HMem HL.
  intros H Hr Hh Hrd. unfold iround in Hrd. destruct (fetch _ _ _) as [i|] eqn:Hf; [|discriminate]. cbn [mbind option_bind] in Hrd.
  destruct (sys_of i) as [y|] eqn:Hy.
  - apply sys_of_some in Hy as [-> Hy]. destruct (fetched _ _ _ _ HL _ _ _ (rd_code _ Hr) Hf) as (Hc & Hp & _). now apply (sys_run m h y x).
  - destruct (step_instr _ _ _ _) as [a'|] eqn:Hstep; [|discriminate]. cbn [mbind option_bind] in Hrd.
    apply (round_exec _ _ _ _ HL _ _ _ _ _ _ _ _ (gd_shows _ _ H) (gd_wp _ _ H) (rd_code _ Hr) Hf Hstep).
    intros s2 [Hs2 Esys Edbg Epic Est]. rewrite (gd_state _ _ H) in Est. destruct (is_trap i).
    + injection Hrd as <- <-. unfold round_end. pose proof (lv_ok _ _ (gd_pic _ _ H)) as Hp. rewrite <- Epic in Hp.
      apply wp_bind. eapply wp_mono; [|exact (stays_timer _ (fst h) (raises_ok TIMER_IRQ ltac:(done) ltac:(done)) _ s2 s2 (hosted_refl _ _ Hp))]. intros [] s3 H3.
      apply wp_bind. eapply wp_mono; [|exact (stays_update _ _ (stays_no_key _ _ Hh) _ s2 s3 H3)]. intros [] s4 H4.
      apply wp_bind, wp_getS. rewrite (ho_state _ _ _ H4), Est. apply wp_ret. split; [done|]. split; [exact (shows_hosted _ _ _ _ Hs2 H4)|].
      now rewrite (ho_state _ _ _ H4).
    + eapply wp_mono; [apply ended_done|]. apply (round_end_run h (i_with a' x)); try done.
      * destruct H as [_ Hk Hcs Hgd Hid Hw Hp _]. injection Esys as E1 E2 E3 _ _ E6. split; cbn [i_isa i_with i_kept i_cs i_pend]; try congruence.
      * apply (ready_outside (i_isa x)); [exact (step_outside _ _ _ Hstep)|done].
Qed.

(** ** The loop *)
Lemma irun_ok m rounds : ∀ n host x x' halted s, good x s → ready (i_isa x) → (∀ k, Forall no_key (snd (host k))) →
  irun lo hi base prog handler rounds n (λ k, 0 <? fst (host k))%nat x = Some (x', halted) →
  ∃ s', cpu_exec_loop rounds (S m) (Z.of_nat n) host s = Ok tt s' ∧ shows (i_isa x') s' ∧
    if halted : bool then nemu_state s' = END else nemu_state s' = STOP ∧ good x' (set_nemu_state RUNNING s') ∧ ready (i_isa x').
Proof using HMem HL.
  induction rounds as [|rounds IH]; intros n host x x' halted s H Hr Hh Hrun.
  all: destruct n as [|n]; cbn [irun] in Hrun; [|try discriminate].
  1,2: injection Hrun as <- <-; exists (set_nemu_state STOP s); (split;
    [cbn [cpu_exec_loop]; change (0 <? Z.of_nat 0) with false; cbv iota; rewrite bind_getS, (gd_state _ _ H); reflexivity|]);
    destruct H as [[Hd ? ? ? ?] ? ? ? ? ? ? ?]; (split; [split; try done; data|]); (split; [done|]); (split; [|done]); split; try done; split; try done; data.
  destruct (iround _ _ _ _ _ _ _) as [[x1 o]|] eqn:E; [|discriminate]. cbn [mbind option_bind] in Hrun.
  pose proof (iround_run m (host 0%nat) x x1 o s H Hr (Hh 0%nat) E) as Hw. pose proof (ready_outside _ _ (iround_outside _ _ _ _ E) Hr) as Hr1.
  cbn [cpu_exec_loop]. replace (0 <? Z.of_nat (S n)) with true by lia. unfold wp in Hw.
  destruct (cpu_exec_round (S m) (host 0%nat) s) as [b s1|s1|e]; [|destruct Hw as [-> Hw]|done].
  - destruct o; cbn [ended] in Hw; [|done|].
    + destruct Hw as [-> H1]. replace (Z.of_nat (S n) - 1) with (Z.of_nat n) by lia. now apply (IH n _ x1).
    + destruct Hw as (-> & Hs & He). injection Hrun as <- <-. now exists s1.
  - now apply (IH (S n) _ x1).
Qed.

(** C2: [cpu_exec] implements the abstract processor with interrupts: from a machine in the
    state [x], with a program's code and descriptor tables in memory apart from its data, a run
    of the abstract machine, in which the timer's interrupt is taken between instructions when
    IF is set, stays pending while it is clear, and [int], [iret], [hlt], [cli] and [sti] act
    as [step_sys] says, is the run of the loop, whatever rounds the timer ticks in; a round
    that enters a handler does not count among the [n].  When the run stops, the machine is in
    the abstract machine's state again, ready for the next run. *)
Theorem cpu_exec_takes_interrupts m rounds n host x x' halted s :
  good x (set_nemu_state RUNNING s) → nemu_state s ≠ END → ready (i_isa x) → (∀ k, Forall no_key (snd (host k))) →
  irun lo hi base prog handler rounds n (λ k, 0 <? fst (host k))%nat x = Some (x', halted) → Z.of_nat n < 2 ^ 32 →
  ∃ s', cpu_exec rounds (S m) (Z.of_nat n) host s = Ok tt s' ∧ shows (i_isa x') s' ∧
    if halted : bool then nemu_state s' = END else nemu_state s' = STOP ∧ good x' (set_nemu_state RUNNING s') ∧ ready (i_isa x').
Proof using HMem HL.
  intros H Hne Hr Hh Hrun Hn. rewrite cpu_exec_enter by (done || lia). now apply (irun_ok m rounds n host x).
Qed.
End Machine.

(** * The theorem on a machine *)
#[local] Existing Instance IsoRand.
#[local] Existing Instance ZeroJunk.

(** A loop counts to 3 with interrupts enabled, while the timer's handler at 528 counts the
    ticks at 0x1000, starting with [entry]; then [int 0x80] calls the handler at 522. *)
Definition count_prog (entry : list instr) : list instr := [
  Raw [0xfb]; Inc R_ECX; AluS Cmp R_ECX 3; JccS 5 (-6); Raw [0xcd; 0x80]; Trap;
  MovI R_EBX 7; Raw [0xcf]] ++ entry ++
  [Push R_EAX; Load (at_addr R_EAX 0x1000); Inc R_EAX; Store (at_addr R_EAX 0x1000); Pop R_EAX; Raw [0xcf]].

(** The handler starts with [cli]. *)
Definition tick_prog : list instr := count_prog [Raw [0xfa]].

Definition tick_handler (v : Z) : option (Z * Z) :=
  if v =? 32 then Some (528, 8) else if v =? 0x80 then Some (522, 8) else None.

(** The gates at 1280 and 2048, and the segment they share at 3080. *)
Definition count_dram (p : list instr) : Dram := demo_dram 512 (code_bytes_of p)
  (demo_dram 1280 [16; 2; 8; 0; 0; 142; 0; 0] (demo_dram 2048 [10; 2; 8; 0; 0; 142; 0; 0]
    (demo_dram 3080 [255; 255; 0; 0; 0; 154; 207; 0] dram0))).
Definition tick_dram : Dram := count_dram tick_prog.

Definition tick_cpu : CPU_state :=
  set_cr0 1 (set_gdtr 15 3072 (set_idtr 2047 1024 (set_eip 512 (set_gpr_l 4 0x2000 (set_eflags 2 cpu0))))).
Definition tick_machine : Machine := demo_machine tick_cpu tick_dram.
Definition count_start (d : Dram) : IState :=
  mkI (mkIsa (gpr tick_cpu) (mkFlags false false false false false) 512 (hw_get d)) 2 0 false.
Definition tick_start : IState := count_start tick_dram.

(** The timer ticks in the rounds 2, 5 and 20. *)
Definition ticks_in (l : list nat) (k : nat) : bool := existsb (Nat.eqb k) l.
Definition tick_host (k : nat) : HostInput := (if ticks_in [2; 5; 20]%nat k then 1%nat else 0%nat, [SDL_OTHER]).

Lemma tick_layout : layout (dok := demo_dok) 0x1000 0x2000 512 tick_prog.
Proof.
  split; [done|vm_compute; congruence|left; vm_compute; congruence| |].
  - repeat constructor; try (vm_compute; congruence); try discriminate; try lia.
  - intros sr ea Hsr Hin. unfold in_data in Hin. apply demo_data_ok; lia.
Qed.

Lemma tick_gate v h : v = 32 ∧ h = 528 ∨ v = 128 ∧ h = 522 →
  gate (ok := cached_ok (window 0) []) 0x1000 0x2000 3072 1024 (hw_get tick_dram) v h 8.
Proof.
  intros [[-> ->]|[-> ->]]; (split; [lia| | |reflexivity..]);
    (split; [apply demo_desc_ok; vm_compute; split; congruence|left; vm_compute; congruence]).
Qed.

Lemma tick_ready : ready (ok := cached_ok (window 0) []) 0x1000 0x2000 512 tick_prog 3072 1024 tick_handler (i_isa tick_start).
Proof.
  split.
  - split.
    + intros k b Hk. pose proof (lookup_lt_Some _ _ _ Hk) as Hl. change (length (code_bytes_of tick_prog)) with 33%nat in Hl.
      rewrite wrap_small by lia. now apply demo_dram_at.
    + intros k n Hk Hn Hl. change (Z.of_nat (length (code_bytes_of tick_prog))) with 33 in Hl. rewrite wrap_small by lia. apply demo_data_ok; lia.
  - intros v h sel. unfold tick_handler. destruct (Z.eqb_spec v 32) as [->|]; [intros [= <- <-]; apply tick_gate; auto|].
    destruct (Z.eqb_spec v 0x80) as [->|]; [|discriminate]. intros [= <- <-]. apply tick_gate; auto.
Qed.

Lemma tick_good : good (Inv := cached_inv (window 0) []) 3072 1024 tick_start (set_nemu_state RUNNING tick_machine).
Proof.
  split; try reflexivity; [|split; [exact pic0_ok|reflexivity]]. split; [|reflexivity| |split; reflexivity|split; [reflexivity|done]].
  - refine (dm_frame _ tick_machine _ _ _); [now repeat split|].
    apply demo_data_inv; [|split; [reflexivity|]; intros _ sr _; cbn; rewrite aget_anew; reflexivity].
    repeat (apply demo_dram_cold; [|repeat constructor; lia || (vm_compute; congruence)]). apply cold_dram0.
  - split; intros i _; [reflexivity|]. cbn. rewrite !aget_aset, aget_anew. destruct (_ =? _); vm_compute; split; congruence.
Qed.

Lemma tick_runs : match irun 0x1000 0x2000 512 tick_prog tick_handler 60 40 (λ k, 0 <? fst (tick_host k))%nat tick_start with
  | Some (x, halted) => aget (i_regs (i_isa x)) R_ECX = 3 ∧ aget (i_regs (i_isa x)) R_EBX = 7 ∧ le_load 4 (i_mem (i_isa x)) 0x1000 = 3 ∧ halted = true
  | None => False
  end.
Proof. vm_compute. repeat split. Qed.

(** A handler without the [cli] is entered again before it has stored the count, since an
    interrupt leaves IF set: of three ticks it counts one. *)
Lemma reentry_loses_ticks : let p := count_prog [] in
  match irun 0x1000 0x2000 512 p tick_handler 60 40 (ticks_in [2; 5; 6]%nat) (count_start (count_dram p)) with
  | Some (x, halted) => le_load 4 (i_mem (i_isa x)) 0x1000 = 1 ∧ halted = true
  | None => False
  end.
Proof. vm_compute. repeat split. Qed.

Lemma cpu_exec_takes_interrupts_witness : ∃ s' f, cpu_exec 60 1 40 tick_host tick_machine = Ok tt s' ∧ nemu_state s' = END ∧
  gpr_l R_ECX (cpu s') = 3 ∧ gpr_l R_EBX (cpu s') = 7 ∧ demo_data f s' ∧ le_load 4 f 0x1000 = 3.
Proof.
  pose proof tick_runs as Hr. destruct (irun 0x1000 0x2000 512 tick_prog tick_handler 60 40 _ tick_start) as [[x []]|] eqn:E; [|easy|easy].
  destruct (cpu_exec_takes_interrupts (Inv := cached_inv (window 0) []) 0x1000 0x2000 512 tick_prog tick_layout 3072 1024 tick_handler
    0 60 40 tick_host tick_start x true tick_machine tick_good ltac:(discriminate) tick_ready
    (λ k, List.Forall_cons _ _ _ eq_refl (List.Forall_nil _)) E eq_refl) as (s' & Hrun & [Hd _ [Hg _] _ _] & Hend).
  exists s', (i_mem (i_isa x)). split; [exact Hrun|]. split; [exact Hend|]. destruct Hr as (R1 & R2 & R3 & _).
  split; [exact (eq_trans (Hg R_ECX ltac:(vm_compute; split; congruence)) R1)|]. split; [exact (eq_trans (Hg R_EBX ltac:(vm_compute; split; congruence)) R2)|].
  split; [exact Hd|exact R3].
Defined.
