(* ===== verification/FloatPatch.v ===== *)
(** How the library's [printf] comes to print fixed-point numbers: [init_FLOAT_vfprintf] of
    [lib-common/FLOAT/FLOAT_vfprintf.c] rewrites the machine code of two functions of the C
    library in memory.  The code is the library's own, at the offsets the C names; the
    emulator runs what the patches leave of it, as a program of [Isa]. *)
From S2P Require Import Prelude Dram Cache L2Facts CacheFacts CacheSpec WorkingSet.
From S2P Require Import Tlb Cpu I8259 Mmio Vga WpPool Machine Memory MemFacts DemoMachine PageSpec.
From S2P Require Import SegMem Devices Decode Arith Logic DataMov ConTran StringOps SysIO Exec.
From S2P Require Import Expr CpuExec StackSpec ArithSpec BranchSpec DecodeSpec Isa IsaSpec.

#[local] Abbreviation len l := (Z.of_nat (length l)).

(** * The patches

    Memory is a function from addresses to bytes; the symbols are their addresses. *)
Definition modify_vfprintf (_vfprintf_internal _fpmaxtostr format_FLOAT : Z) (f : Z → Z) : Z → Z :=
  let p := _vfprintf_internal + 0x307 in
  let r := format_FLOAT in
  let v := _fpmaxtostr in
  let pn := p in
  let f := flat_store f pn 4 (u32 (le_load 4 f pn + r - v)) in
  let ppush := p - 0xc in
  let f := flat_store f ppush 1 0x8 in let ppush := ppush + 1 in
  let f := flat_store f ppush 1 0xff in let ppush := ppush + 1 in
  let f := flat_store f ppush 1 0x32 in let ppush := ppush + 1 in
  let f := flat_store f ppush 1 0x90 in
  let cleaner := p - 0x23 in
  let f := flat_store f cleaner 1 0x90 in let cleaner := cleaner + 1 in
  let f := flat_store f cleaner 1 0x90 in let cleaner := cleaner + 3 in
  let f := flat_store f cleaner 1 0x90 in let cleaner := cleaner + 1 in
  flat_store f cleaner 1 0x90.

Definition modify_ppfs_setargs (_ppfs_setargs : Z) (f : Z → Z) : Z → Z :=
  let p := _ppfs_setargs in
  let p := p + 0x71 in
  let pn := p in
  flat_store f pn 2 0x30eb.

Definition init_FLOAT_vfprintf (_vfprintf_internal _fpmaxtostr format_FLOAT _ppfs_setargs : Z) (f : Z → Z) : Z → Z :=
  modify_ppfs_setargs _ppfs_setargs (modify_vfprintf _vfprintf_internal _fpmaxtostr format_FLOAT f).

(** * The code of the library, from [uclibc/lib/libc.a] *)

(** [_vfprintf_internal + 0x2e2]: the floating-point branch, from the test of
    [is_long_double] to the call of [_fpmaxtostr].  [text] is the constant pushed for
    [FP_OUT], [rel] the displacement of the call. *)
Definition vfprintf_bytes (text rel : Z) : list Z :=
  [0x74; 0x04;                                         (* je +4 *)
   0xdb; 0x2a;                                         (* fldt (%edx) *)
   0xeb; 0x02;                                         (* jmp +2 *)
   0xdd; 0x02;                                         (* fldl (%edx) *)
   0x53; 0x53;                                         (* push %ebx, twice *)
   0x68] ++ le4 text ++                                (* push $text *)
  [0x8d; 0x84; 0x24; 0xa4; 0; 0; 0;                    (* lea 0xa4(%esp),%eax *)
   0x50;                                               (* push %eax *)
   0x83; 0xec; 0x0c;                                   (* sub $0xc,%esp *)
   0xdb; 0x3c; 0x24;                                   (* fstpt (%esp) *)
   0xff; 0xb4; 0x24; 0x8c; 0x01; 0; 0;                 (* push 0x18c(%esp) *)
   0xe8] ++ le4 rel.                                   (* call *)

(** What the patch makes of it. *)
Definition base_disp (mod_ reg base disp : Z) : Encoding := mkEnc mod_ reg (base =? R_ESP) base None disp.
Definition vfprintf_patched (text rel : Z) : list instr := [
  JccS 4 4; Nop; Nop; JmpS 2; Nop; Nop;
  Push R_EBX; Push R_EBX; PushI text; Lea (base_disp 2 R_EAX R_ESP 0xa4); Push R_EAX;
  AluS Sub R_ESP 8; PushM (base_disp 0 6 R_EDX 0); Nop;
  PushM (base_disp 2 6 R_ESP 0x18c); Call rel].

(** [_ppfs_setargs + 0x54]: the body of the loop over the argument types, to the jump to
    the loop's test at [+ 0x4b].  The two bytes patched are the argument. *)
Definition setargs_skipped : list Z :=
  [0x08; 0xdd; 0x02; 0x89; 0x58; 0x4c; 0xdd; 0x19; 0xeb; 0x42; 0x81; 0xfb; 0; 0x04; 0; 0; 0x74; 0x30; 0x7e; 0x2e;
   0x81; 0xfb; 0; 0x08; 0; 0; 0x74; 0x14; 0x81; 0xfb; 0x07; 0x08; 0; 0; 0x75; 0x1e;
   0xdb; 0x2a; 0x8d; 0x5a; 0x0c; 0x89; 0x58; 0x4c; 0xdb; 0x39; 0xeb; 0x1c].
Definition setargs_word : list Z := [0x8d; 0x5a; 0x04; 0x89; 0x58; 0x4c; 0x8b; 0x12; 0x89; 0x11].

Definition setargs_bytes (b0 b1 : Z) : list Z :=
  [0x8b; 0x5c; 0x90; 0x28;                             (* mov 0x28(%eax,%edx,4),%ebx *)
   0x8d; 0x72; 0x01;                                   (* lea 0x1(%edx),%esi *)
   0x83; 0xfb; 0x08; 0x74; 0x62;                       (* cmp $8,%ebx; je: __PA_NOARG *)
   0x8b; 0x50; 0x4c;                                   (* mov 0x4c(%eax),%edx *)
   0x7f; 0x18;                                         (* jg: long arguments *)
   0x83; 0xfb; 0x02; 0x74; 0x4b; 0x7e; 0x49;           (* cmp $2,%ebx; je; jle: words *)
   0x83; 0xfb; 0x07; 0x75; 0x44;                       (* cmp $7,%ebx; jne: words *)
   b0; b1] ++ setargs_skipped ++                       (* PA_DOUBLE *)
  [0x8b; 0x3a; 0x8b; 0x6a; 0x04;                       (* mov (%edx),%edi; mov 0x4(%edx),%ebp *)
   0x8d; 0x5a; 0x08; 0x89; 0x58; 0x4c;                 (* lea 0x8(%edx),%ebx; mov %ebx,0x4c(%eax) *)
   0x89; 0x39; 0x89; 0x69; 0x04;                       (* mov %edi,(%ecx); mov %ebp,0x4(%ecx) *)
   0xeb; 0x0a] ++ setargs_word ++                      (* jmp: the end of the switch *)
  [0x83; 0xc1; 0x0c;                                   (* add $0xc,%ecx *)
   0x89; 0xf2;                                         (* mov %esi,%edx *)
   0xeb; 0x85].                                        (* jmp: the loop's test *)

Definition setargs_patched : list instr := [
  Load (mkEnc 1 R_EBX true R_EAX (Some (R_EDX, 2)) 0x28); Lea (base_disp 1 R_ESI R_EDX 1);
  AluS Cmp R_EBX 8; JccS 4 0x62; Load (base_disp 1 R_EDX R_EAX 0x4c); JccS 15 0x18;
  AluS Cmp R_EBX 2; JccS 4 0x4b; JccS 14 0x49; AluS Cmp R_EBX 7; JccS 5 0x44;
  JmpS 0x30; Raw setargs_skipped;
  Load (base_disp 0 R_EDI R_EDX 0); Load (base_disp 1 R_EBP R_EDX 4);
  Lea (base_disp 1 R_EBX R_EDX 8); Store (base_disp 1 R_EBX R_EAX 0x4c);
  Store (base_disp 0 R_EDI R_ECX 0); Store (base_disp 1 R_EBP R_ECX 4);
  JmpS 0x0a; Raw setargs_word;
  AluS Add R_ECX 0x0c; Mov R_EDX R_ESI; JmpS (-0x7b)].

Lemma setargs_patched_bytes : code_bytes_of setargs_patched = setargs_bytes 0xeb 0x30.
Proof. vm_compute. reflexivity. Qed.

Definition vfprintf_at : Z := 0x2e2.
Definition setargs_at : Z := 0x54.
Lemma vfprintf_length text rel : length (code_bytes_of (vfprintf_patched text rel)) = 41%nat.
Proof. reflexivity. Qed.
Lemma setargs_length : length (code_bytes_of setargs_patched) = 114%nat.
Proof. reflexivity. Qed.

