(* ===== verification/FloatPatchSpec.v ===== *)
(** The patched [printf] on the emulator: what [init_FLOAT_vfprintf] makes of the library's
    code, and what the code then does. *)
From S2P Require Import Prelude Dram Cache L2Facts CacheFacts CacheSpec WorkingSet.
From S2P Require Import Tlb Cpu I8259 Mmio Vga WpPool Machine Memory MemFacts DemoMachine PageSpec.
From S2P Require Import SegMem Devices Decode Arith Logic DataMov ConTran StringOps SysIO Exec.
From S2P Require Import Expr CpuExec StackSpec ArithSpec BranchSpec DecodeSpec Isa IsaSpec RunSpec FloatPatch.

#[local] Abbreviation len l := (Z.of_nat (length l)).

(** * What the patches do *)

(** An access at [V + a], from the memory seen from [V]. *)
Lemma flat_store_from f V a n v x : flat_store f (V + a) n v (V + x) = flat_store (λ y, f (V + y)) a n v x.
Proof.
  unfold flat_store. replace (V + x - (V + a)) with (x - a) by lia.
  replace (V + a <=? V + x) with (a <=? x) by lia. now replace (V + x <? V + a + n) with (x <? a + n) by lia.
Qed.

Lemma le_load_from f V a n : le_load n f (V + a) = le_load n (λ y, f (V + y)) a.
Proof. revert a; induction n as [|n IH]; intros a; cbn [le_load]; [done|]. now rewrite <- IH, Z.add_assoc. Qed.

(** The displacement of the call: that of [_fpmaxtostr] moved to [format_FLOAT]. *)
Definition call_disp (target next : Z) : Z := s32 (target - next).

Lemma le4_u32 v w : u32 v = u32 w → le4 v = le4 w.
Proof.
  assert (∀ x i, 0 <= i < 4 → byte_of (u32 x) i = byte_of x i) as E.
  { intros x i Hi. change (u32 x) with (x mod 256 ^ 4). rewrite byte_of_mod by lia. reflexivity. }
  intros H. unfold le4. now rewrite <- !(E v), <- !(E w), H by lia.
Qed.

Section Patch.
Context (V fpmaxtostr format : Z) (f : Z → Z).

Lemma modify_vfprintf_from x : modify_vfprintf V fpmaxtostr format f (V + x) =
  modify_vfprintf 0 fpmaxtostr format (λ y, f (V + y)) x.
Proof using.
  unfold modify_vfprintf. change (0 + 0x307) with 0x307. rewrite (le_load_from f V).
  replace (V + 0x307 - 0xc) with (V + (0x307 - 0xc)) by lia. replace (V + 0x307 - 0x23) with (V + (0x307 - 0x23)) by lia.
  rewrite <- !Z.add_assoc. repeat (rewrite flat_store_from; apply flat_store_ext; cbv beta). reflexivity.
Qed.

(** The branch of [vfprintf] before and after. *)
Lemma modify_vfprintf_code text : 0 <= V → V + 0x30b <= 2 ^ 32 →
  (∀ k b, vfprintf_bytes text (fpmaxtostr - (V + 0x30b)) !! k = Some b → f (V + vfprintf_at + Z.of_nat k) = b) →
  ∀ k b, code_bytes_of (vfprintf_patched text (call_disp format (V + 0x30b))) !! k = Some b →
  modify_vfprintf V fpmaxtostr format f (V + vfprintf_at + Z.of_nat k) = b.
Proof using.
  intros HV HV' Hf k b Hk. rewrite <- Z.add_assoc, modify_vfprintf_from. set (g := λ y, f (V + y)).
  assert (∀ k b, vfprintf_bytes text (fpmaxtostr - (V + 0x30b)) !! k = Some b → g (vfprintf_at + Z.of_nat k) = b) as Hg.
  { intros k' b' Hk'. unfold g. rewrite Z.add_assoc. now apply Hf. }
  unfold modify_vfprintf. cbv zeta. change (0 + 0x307) with 0x307. set (rel := u32 (le_load 4 g _ + format - fpmaxtostr)).
  assert (le4 rel = le4 (call_disp format (V + 0x30b))) as Hrel.
  { apply le4_u32. unfold rel, call_disp.
    assert (le_load 4 g 0x307 = u32 (fpmaxtostr - (V + 0x30b))) as ->.
    { apply (le_load_bytes 4). intros i Hi. specialize (Hg (Z.to_nat (37 + i)) (byte_of (fpmaxtostr - (V + 0x30b)) i)).
      rewrite Z2Nat.id in Hg by lia. change (0x307 + i) with (vfprintf_at + 37 + i). rewrite <- Z.add_assoc. apply Hg.
      assert (i = 0 ∨ i = 1 ∨ i = 2 ∨ i = 3) as [->|[->|[->| ->]]] by lia; reflexivity. }
    rewrite wrap_wrap, wrap_sgn by lia. rewrite <- Z.add_sub_assoc, wrap_add_l. f_equal. lia. }
  assert (k < 41)%nat as Hl by (apply lookup_lt_Some in Hk; now rewrite vfprintf_length in Hk).
  unfold vfprintf_patched, code_bytes_of in Hk. cbn [fmap list_fmap concat encode app] in Hk. rewrite <- Hrel in Hk. clearbody rel.
  clear - Hk Hl Hg.
  let rec go n := first [lia|destruct k as [|k]; [injection Hk as <-; first [reflexivity|exact (Hg n _ eq_refl)]|go (S n)]] in go 0%nat.
Qed.
End Patch.

(** The case [PA_DOUBLE] before and after. *)
Lemma modify_ppfs_setargs_code P f :
  (∀ k b, setargs_bytes 0x8d 0x5a !! k = Some b → f (P + setargs_at + Z.of_nat k) = b) →
  ∀ k b, code_bytes_of setargs_patched !! k = Some b → modify_ppfs_setargs P f (P + setargs_at + Z.of_nat k) = b.
Proof.
  intros Hf k b Hk. assert (k < 114)%nat as Hl by (apply lookup_lt_Some in Hk; now rewrite setargs_length in Hk).
  rewrite setargs_patched_bytes in Hk. specialize (Hf k). rewrite <- Z.add_assoc in Hf |- *. unfold modify_ppfs_setargs. cbv zeta.
  rewrite flat_store_from. set (g := λ y, f (P + y)). change (∀ b, setargs_bytes 0x8d 0x5a !! k = Some b → g (setargs_at + Z.of_nat k) = b) in Hf.
  clearbody g. clear P f.
  let rec go := first [lia|destruct k as [|k]; [injection Hk as <-; first [reflexivity|exact (Hf _ eq_refl)]|go]] in go.
Qed.

(** Elsewhere the memory is as it was. *)
Lemma modify_vfprintf_out V fpmaxtostr format f x : x < V + vfprintf_at ∨ V + 0x30b <= x →
  modify_vfprintf V fpmaxtostr format f x = f x.
Proof. intros Hx. unfold modify_vfprintf, vfprintf_at in *. cbv zeta. now rewrite !flat_store_out by lia. Qed.
Lemma modify_ppfs_setargs_out P f x : x < P + setargs_at ∨ P + 0xc6 <= x → modify_ppfs_setargs P f x = f x.
Proof. intros Hx. unfold modify_ppfs_setargs, setargs_at in *. cbv zeta. now rewrite flat_store_out by lia. Qed.

(** Both programs are instructions of [Isa]. *)
Lemma base_disp_ok m r b d : 0 <= m < 3 → reg_ok r → reg_ok b →
  (if disp_size (base_disp m r b d) =? 0 then d = 0 else - 2 ^ (8 * disp_size (base_disp m r b d) - 1) <= d < 2 ^ (8 * disp_size (base_disp m r b d) - 1)) →
  enc_ok (base_disp m r b d).
Proof. intros Hm Hr Hb Hd. split; try done. cbn [base_disp e_sib e_index e_b]. intros H%Z.eqb_neq. now split. Qed.

Ltac instr_check := unfold instr_ok, reg_ok, byte_ok, disp_ok, call_disp; repeat match goal with |- _ ∧ _ => split end;
  first [lia|apply base_disp_ok; unfold reg_ok; [vm_compute; split; congruence..|vm_compute; first [reflexivity|split; congruence]]|now split|done].

Ltac each_instr := lazymatch goal with
  | |- Forall _ (_ :: _) => apply List.Forall_cons; [instr_check|each_instr]
  | |- Forall _ [] => apply List.Forall_nil end.

Lemma vfprintf_patched_ok text target next : 0 <= text < 2 ^ 32 → Forall instr_ok (vfprintf_patched text (call_disp target next)).
Proof.
  intros Ht. pose proof (sgn_range 32 (target - next) ltac:(lia)) as Hd.
  unfold vfprintf_patched. each_instr.
Qed.

Lemma argtype_ok : enc_ok (mkEnc 1 R_EBX true R_EAX (Some (R_EDX, 2)) 0x28).
Proof. split; cbn; try lia; [..|intros i s [= <- <-]]; unfold R_EBX, R_EAX, R_EDX, R_ESP; lia. Qed.

Lemma setargs_patched_ok : Forall instr_ok setargs_patched.
Proof. unfold setargs_patched. apply List.Forall_cons; [exact argtype_ok|]. each_instr. Qed.

(** * Running a program by its offsets *)
Lemma fetch_from_shift b p k c : fetch_from (b + c) p (b + k) = fetch_from c p k.
Proof.
  revert c; induction p as [|i p IH]; intros c; cbn [fetch_from]; [done|].
  rewrite <- (IH (c + size i)), Z.add_assoc. now replace (b + k =? b + c) with (k =? c) by lia.
Qed.

Section Run.
Context (lo hi base : Z) (prog : list instr).
Context (Hbase : 0 <= base) (Hend : base + len (code_bytes_of prog) <= 2 ^ 32).

(** The state at offset [k] of the program. *)
Definition at_off (k : Z) (R : arr Z) (F : Flags) (M : Z → Z) : Isa := mkIsa R F (u32 (base + k)) M.

Lemma run_at n k i R F M a' r : 0 <= k < len (code_bytes_of prog) → fetch_from 0 prog k = Some i → is_trap i = false →
  step_instr lo hi i (at_off k R F M) = Some a' → run lo hi base prog n a' = r →
  run lo hi base prog (S n) (at_off k R F M) = r.
Proof using Hbase Hend.
  intros Hk Hf Ht Hs Hr. cbn [run]. unfold fetch. change (i_pc (at_off k R F M)) with (u32 (base + k)).
  rewrite wrap_small by lia. pose proof (fetch_from_shift base prog k 0) as E. rewrite Z.add_0_r in E. rewrite E, Hf.
  cbn [mbind option_bind]. rewrite Hs. cbn [mbind option_bind]. now rewrite Ht.
Qed.

Lemma next_off k c R F M : i_goto (u32 (base + k) + c) (mkIsa R F (u32 (base + k)) M) = at_off (k + c) R F M.
Proof using. unfold i_goto, at_off. cbn. now rewrite wrap_add_l, Z.add_assoc. Qed.

(** ** The instructions by offset *)
Definition addr_of (e : Encoding) (R : arr Z) : Z := address (enc_mem e) (mkIsa R (mkFlags false false false false false) 0 (λ _, 0)).

#[local] Ltac by_step := intros; subst; cbn [step_instr]; unfold push_step, store_at, load_at, alu_step;
  repeat match goal with |- context [in_data lo hi ?x] => let H := fresh in
    assert (in_data lo hi x = true) as H by assumption; rewrite H; clear H end;
  cbn [mbind option_bind fmap option_fmap option_map]; try rewrite <- Z.add_assoc; f_equal; apply next_off.

Section Steps.
Context (k : Z) (R : arr Z) (F : Flags) (M : Z → Z).
Abbreviation step i := (step_instr lo hi i (at_off k R F M)).

Lemma step_load e ea : addr_of e R = ea → in_data lo hi ea = true →
  step (Load e) = Some (at_off (k + size (Load e)) (aset (e_reg e) (u32 (le_load 4 M ea)) R) F M).
Proof using. by_step. Qed.

Lemma step_store e ea : addr_of e R = ea → in_data lo hi ea = true →
  step (Store e) = Some (at_off (k + size (Store e)) R F (flat_store M ea 4 (aget R (e_reg e)))).
Proof using. by_step. Qed.

Lemma step_lea e : step (Lea e) = Some (at_off (k + size (Lea e)) (aset (e_reg e) (u32 (addr_of e R)) R) F M).
Proof using. by_step. Qed.

Lemma step_mov d s : step (Mov d s) = Some (at_off (k + 2) (aset d (u32 (aget R s)) R) F M).
Proof using. by_step. Qed.

Lemma step_alus op d v : step (AluS op d v) = Some (at_off (k + 3)
  (if writes op then aset d (u32 (alu_result op (aget R d) (u32 v))) R else R) (alu_flags op (aget R d) (u32 v)) M).
Proof using. cbn [step_instr]. unfold alu_step. destruct (writes op); f_equal; apply next_off. Qed.

Lemma step_push_from i v sp : aget R R_ESP = sp → in_data lo hi (sp - 4) = true →
  step i = push_step lo hi (u32 (base + k) + size i) v (at_off k R F M) →
  step i = Some (at_off (k + size i) (aset R_ESP (u32 (sp - 4)) R) F (flat_store M (sp - 4) 4 v)).
Proof using. intros Hsp Hin ->. unfold push_step, store_at. change (aget (i_regs (at_off k R F M)) R_ESP) with (aget R R_ESP). rewrite Hsp, Hin. cbn [fmap option_fmap option_map]. f_equal. apply next_off. Qed.

Lemma step_push r sp : aget R R_ESP = sp → in_data lo hi (sp - 4) = true →
  step (Push r) = Some (at_off (k + 1) (aset R_ESP (u32 (sp - 4)) R) F (flat_store M (sp - 4) 4 (aget R r))).
Proof using. intros. now apply (step_push_from (Push r)). Qed.

Lemma step_pushi v sp : aget R R_ESP = sp → in_data lo hi (sp - 4) = true →
  step (PushI v) = Some (at_off (k + 5) (aset R_ESP (u32 (sp - 4)) R) F (flat_store M (sp - 4) 4 v)).
Proof using. intros. now apply (step_push_from (PushI v)). Qed.

Lemma step_pushm e sp ea : aget R R_ESP = sp → addr_of e R = ea → in_data lo hi ea = true → in_data lo hi (sp - 4) = true →
  step (PushM e) = Some (at_off (k + size (PushM e)) (aset R_ESP (u32 (sp - 4)) R) F (flat_store M (sp - 4) 4 (le_load 4 M ea))).
Proof using.
  intros Hsp Ha Hin Hin'. apply (step_push_from (PushM e)); [done|done|]. subst ea. cbn [step_instr]. unfold load_at.
  change (address (enc_mem e) (at_off k R F M)) with (addr_of e R). now rewrite Hin.
Qed.

Lemma step_jmps d : step (JmpS d) = Some (at_off (k + (2 + d)) R F M).
Proof using. by_step. Qed.

Lemma step_jccs n d : step (JccS n d) = Some (at_off (k + if condition n F then 2 + d else 2) R F M).
Proof using. cbn [step_instr i_flags at_off]. destruct (condition n F); by_step. Qed.

Lemma step_nop : step Nop = Some (at_off (k + 1) R F M).
Proof using. by_step. Qed.

Lemma step_call d sp : aget R R_ESP = sp → in_data lo hi (sp - 4) = true →
  step (Call d) = Some (at_off (k + (5 + d)) (aset R_ESP (u32 (sp - 4)) R) F (flat_store M (sp - 4) 4 (u32 (base + k + 4)))).
Proof using.
  intros Hsp Hin. cbn [step_instr]. unfold store_at. change (aget (i_regs (at_off k R F M)) R_ESP) with (aget R R_ESP).
  rewrite Hsp, Hin. cbn [fmap option_fmap option_map]. rewrite <- Z.add_assoc. f_equal.
  change (size (Call d)) with 5. change (i_pc (at_off k R F M)) with (u32 (base + k)).
  replace (u32 (u32 (base + k) + 5 - 1)) with (u32 (base + k + 4)) by (rewrite <- Z.add_sub_assoc, wrap_add_l; reflexivity).
  apply next_off.
Qed.
End Steps.
End Run.

(** ** Loads after stores *)
Lemma load_stored f ea v : le_load 4 (flat_store f ea 4 v) ea = u32 v.
Proof. exact (le_load_flat_store 4 f ea v). Qed.

Lemma load_elsewhere f ea v x : x + 4 <= ea ∨ ea + 4 <= x → le_load 4 (flat_store f ea 4 v) x = le_load 4 f x.
Proof. intros Hx. apply le_load_ext. intros k Hk. apply flat_store_out. lia. Qed.

(** Reads of registers after writes. *)
Ltac regs := repeat first [rewrite aget_aset_eq|rewrite aget_aset_ne by discriminate].

(** The side conditions of a step: what a register or an address is, and that it is data. *)
Lemma addr_base m r b d R : (m =? 0) && (b =? R_EBP) = false → addr_of (base_disp m r b d) R = u32 (aget R b + d).
Proof. intros H. unfold addr_of, address. cbn. rewrite H. cbn. now rewrite Z.add_0_r. Qed.

Lemma addr_index m r b i s d R : (m =? 0) && (b =? R_EBP) = false → (i =? R_ESP) = false →
  addr_of (mkEnc m r true b (Some (i, s)) d) R = u32 (aget R b + aget R i * 2 ^ s + d).
Proof. intros H Hi. unfold addr_of, address, enc_mem, enc_index. cbn [m_base m_index m_disp e_mod e_b e_index e_disp]. now rewrite H, Hi. Qed.

Ltac value := unfold in_data in *; rewrite ?addr_base, ?addr_index by reflexivity; regs; cbn [alu_result]; change (u32 8) with 8; change (u32 12) with 12; regs;
  rewrite ?wrap_wrap by lia; rewrite ?wrap_sub_l, ?wrap_add_l; rewrite ?wrap_small by lia; lia.
Ltac in_window := unfold in_data in *; lia.
(** An instruction by its lemma [L]. *)
Tactic Notation "isa_step" constr(Hb) constr(He) uconstr(L) := eapply (run_at _ _ _ _ Hb He); [split; [done|reflexivity]|reflexivity|reflexivity|eapply L; first [value|in_window]|]; cbn [writes e_reg base_disp].

(** * [vfprintf] calls [format_FLOAT] *)

(** [format_FLOAT] is entered from the call at [V + 0x306] of a frame whose stack pointer
    was [sp], with the stream and the number it finds on the stack; the return address is
    one short, as the emulator's [call] leaves it for its [ret]. *)
Record format_called (V format sp stream value : Z) (R : arr Z) (M : Z → Z) (a : Isa) : Prop := {
  fc_pc : i_pc a = format;
  fc_sp : aget (i_regs a) R_ESP = sp - 36;
  fc_return : le_load 4 (i_mem a) (sp - 36) = V + 0x30a;
  fc_stream : le_load 4 (i_mem a) (sp - 32) = stream;
  fc_value : le_load 4 (i_mem a) (sp - 28) = value;
  fc_regs : ∀ r, r ≠ R_ESP → r ≠ R_EAX → aget (i_regs a) r = aget R r;
  fc_mem : ∀ x, x < sp - 36 ∨ sp <= x → i_mem a x = M x
}.

Section Hijack.
Context (V format text : Z) (HV : 0 <= V) (HV' : V + 0x30b <= 2 ^ 32).
Let base := V + vfprintf_at.
Let prog := vfprintf_patched text (call_disp format (V + 0x30b)).

Lemma hijack_base : 0 <= base.
Proof using All. unfold base, vfprintf_at. lia. Qed.
Lemma hijack_end : base + len (code_bytes_of prog) <= 2 ^ 32.
Proof using All. unfold prog. rewrite vfprintf_length. unfold base, vfprintf_at. lia. Qed.

Context (lo hi : Z) (R : arr Z) (M : Z → Z) (sp edx : Z) (Hformat : 0 <= format < 2 ^ 32).
Context (Hsp : aget R R_ESP = sp) (Hedx : aget R R_EDX = edx).
Context (Hlo : 0 <= lo) (Hstack : lo + 36 <= sp) (Htop : sp + 0x174 <= hi) (Hhi : hi <= 2 ^ 32).
Context (Hedxr : in_data lo hi edx = true) (Hapart : edx + 4 <= sp - 36 ∨ sp <= edx).

Lemma hijacked_tail F : ∃ a, run lo hi base prog 10 (at_off base 8 R F M) = Some (a, false) ∧
  format_called V format sp (u32 (le_load 4 M (sp + 0x170))) (u32 (le_load 4 M edx)) R M a.
Proof using All.
  eexists. split.
  - isa_step hijack_base hijack_end (step_push lo hi base _ _ _ _ R_EBX sp).
    isa_step hijack_base hijack_end (step_push lo hi base _ _ _ _ R_EBX (sp - 4)).
    isa_step hijack_base hijack_end (step_pushi lo hi base _ _ _ _ text (sp - 8)).
    isa_step hijack_base hijack_end (step_lea lo hi base).
    isa_step hijack_base hijack_end (step_push lo hi base _ _ _ _ R_EAX (sp - 12)).
    isa_step hijack_base hijack_end (step_alus lo hi base).
    isa_step hijack_base hijack_end (step_pushm lo hi base _ _ _ _ (base_disp 0 6 R_EDX 0) (sp - 24) edx).
    isa_step hijack_base hijack_end (step_nop lo hi base).
    isa_step hijack_base hijack_end (step_pushm lo hi base _ _ _ _ (base_disp 2 6 R_ESP 0x18c) (sp - 28) (sp + 0x170)).
    isa_step hijack_base hijack_end (step_call lo hi base _ _ _ _ _ (sp - 32)).
    reflexivity.
  - split; cbn [at_off i_pc i_regs i_mem].
    + unfold call_disp, base, vfprintf_at. match goal with |- u32 (_ + (?c + (5 + _))) = _ => change c with 36 end.
      rewrite !Z.add_assoc, <- wrap_add_r, wrap_sgn, wrap_add_r by lia. replace (_ + 738 + 36 + 5 + _) with format by lia. now apply wrap_small.
    + regs. rewrite wrap_small by lia. lia.
    + replace (sp - 36) with (sp - 32 - 4) by lia. rewrite load_stored, wrap_wrap by lia.
      match goal with |- u32 (_ + ?c + 4) = _ => change c with 36 end. unfold base, vfprintf_at. rewrite wrap_small by lia. lia.
    + rewrite load_elsewhere by lia. replace (sp - 32) with (sp - 28 - 4) by lia. rewrite load_stored, !load_elsewhere by lia. reflexivity.
    + rewrite !(load_elsewhere _ _ _ (sp - 28)) by lia. replace (sp - 28) with (sp - 24 - 4) by lia. rewrite load_stored, !load_elsewhere by lia. reflexivity.
    + intros r H1 H2. now rewrite !aget_aset_ne by congruence.
    + intros x Hx. now rewrite !flat_store_out by lia.
Qed.

(** From either side of the test of [is_long_double]. *)
Lemma hijacked_run F : ∃ a, run lo hi base prog (if condition 4 F then 13 else 14) (at_off base 0 R F M) = Some (a, false) ∧
  format_called V format sp (u32 (le_load 4 M (sp + 0x170))) (u32 (le_load 4 M edx)) R M a.
Proof using All.
  destruct (hijacked_tail F) as (a & Hrun & Ha). exists a. split; [|exact Ha]. destruct (condition 4 F) eqn:Hc.
  - isa_step hijack_base hijack_end (step_jccs lo hi base). rewrite Hc. change (0 + (2 + 4)) with 6.
    isa_step hijack_base hijack_end (step_nop lo hi base). isa_step hijack_base hijack_end (step_nop lo hi base). exact Hrun.
  - isa_step hijack_base hijack_end (step_jccs lo hi base). rewrite Hc. change (0 + 2) with 2.
    isa_step hijack_base hijack_end (step_nop lo hi base). isa_step hijack_base hijack_end (step_nop lo hi base).
    isa_step hijack_base hijack_end (step_jmps lo hi base). exact Hrun.
Qed.
End Hijack.

(** * [_ppfs_setargs] takes 64 bits *)

(** The test of the loop is reached with the argument of [argptr] copied to [p], both
    pointers and the index advanced. *)
Record double_taken (P ppfs p i argptr : Z) (M : Z → Z) (a : Isa) : Prop := {
  dt_pc : i_pc a = P + 0x4b;
  dt_eax : aget (i_regs a) R_EAX = ppfs;
  dt_ecx : aget (i_regs a) R_ECX = p + 0xc;
  dt_edx : aget (i_regs a) R_EDX = i + 1;
  dt_mem : i_mem a = flat_store (flat_store (flat_store M
    (ppfs + 0x4c) 4 (argptr + 8)) p 4 (u32 (le_load 4 M argptr))) (p + 4) 4 (u32 (le_load 4 M (argptr + 4)))
}.

Section Setargs.
Context (P : Z) (HP : 0 <= P) (HP' : P + 0xc6 <= 2 ^ 32).
Let base := P + setargs_at.
Let prog := setargs_patched.

Lemma setargs_base : 0 <= base.
Proof using All. unfold base, setargs_at. lia. Qed.
Lemma setargs_end : base + len (code_bytes_of prog) <= 2 ^ 32.
Proof using All. unfold prog. rewrite setargs_length. unfold base, setargs_at. lia. Qed.

Context (lo hi : Z) (R : arr Z) (F : Flags) (M : Z → Z) (ppfs p i argptr : Z).
Context (Heax : aget R R_EAX = ppfs) (Hecx : aget R R_ECX = p) (Hedx : aget R R_EDX = i).
Context (Hlo : 0 <= lo) (Hhi : hi < 2 ^ 32) (Hi : 0 <= i < 2 ^ 31) (Hp : p + 0xc < 2 ^ 32).
Context (Htype : in_data lo hi (ppfs + 0x28 + 4 * i) = true) (Hargs : in_data lo hi (ppfs + 0x4c) = true).
Context (Hp0 : in_data lo hi p = true) (Hp4 : in_data lo hi (p + 4) = true).
Context (Ha0 : in_data lo hi argptr = true) (Ha4 : in_data lo hi (argptr + 4) = true).
Context (Hdouble : le_load 4 M (ppfs + 0x28 + 4 * i) = 7) (Hptr : le_load 4 M (ppfs + 0x4c) = argptr).

Lemma setargs_run : ∃ a, run lo hi base prog 22 (at_off base 0 R F M) = Some (a, false) ∧ double_taken P ppfs p i argptr M a.
Proof using All.
  eexists. split.
  - isa_step setargs_base setargs_end (step_load lo hi base _ _ _ _ _ (ppfs + 0x28 + 4 * i)).
    isa_step setargs_base setargs_end (step_lea lo hi base).
    isa_step setargs_base setargs_end (step_alus lo hi base). regs. rewrite Hdouble.
    isa_step setargs_base setargs_end (step_jccs lo hi base).
    isa_step setargs_base setargs_end (step_load lo hi base _ _ _ _ _ (ppfs + 0x4c)). rewrite Hptr.
    isa_step setargs_base setargs_end (step_jccs lo hi base).
    isa_step setargs_base setargs_end (step_alus lo hi base). regs.
    isa_step setargs_base setargs_end (step_jccs lo hi base).
    isa_step setargs_base setargs_end (step_jccs lo hi base).
    isa_step setargs_base setargs_end (step_alus lo hi base). regs.
    isa_step setargs_base setargs_end (step_jccs lo hi base).
    isa_step setargs_base setargs_end (step_jmps lo hi base).
    isa_step setargs_base setargs_end (step_load lo hi base _ _ _ _ _ argptr).
    isa_step setargs_base setargs_end (step_load lo hi base _ _ _ _ _ (argptr + 4)).
    isa_step setargs_base setargs_end (step_lea lo hi base).
    isa_step setargs_base setargs_end (step_store lo hi base _ _ _ _ _ (ppfs + 0x4c)).
    isa_step setargs_base setargs_end (step_store lo hi base _ _ _ _ _ p).
    isa_step setargs_base setargs_end (step_store lo hi base _ _ _ _ _ (p + 4)).
    isa_step setargs_base setargs_end (step_jmps lo hi base).
    isa_step setargs_base setargs_end (step_alus lo hi base).
    isa_step setargs_base setargs_end (step_mov lo hi base).
    isa_step setargs_base setargs_end (step_jmps lo hi base).
    reflexivity.
  - split; cbn [at_off i_pc i_regs i_mem].
    + match goal with |- u32 (_ + ?c) = _ => change c with (-9) end. unfold base, setargs_at. rewrite wrap_small by lia. lia.
    + value.
    + value.
    + value.
    + f_equal; [|regs; reflexivity]. f_equal; [|regs; reflexivity]. f_equal. value.
Qed.
End Setargs.

(** * On the emulator *)
Section Patched.
Context `{HRand : !LibcRand, HJunk : !StackJunk} {DInv : (Z → Z) → Machine → Prop}
  {dok : Z → Z → Z → Prop} `{HData : !DataMem DInv dok}.
Context (V P fpmaxtostr format text : Z) (f : Z → Z).

(** The two functions of the library in memory, before the patch. *)
Record library : Prop := {
  lib_vfprintf : ∀ k b, vfprintf_bytes text (fpmaxtostr - (V + 0x30b)) !! k = Some b → f (V + vfprintf_at + Z.of_nat k) = b;
  lib_setargs : ∀ k b, setargs_bytes 0x8d 0x5a !! k = Some b → f (P + setargs_at + Z.of_nat k) = b;
  lib_V : 0 <= V ∧ V + 0x30b <= 2 ^ 32;
  lib_P : 0 <= P ∧ P + 0xc6 <= 2 ^ 32;
  lib_apart : V + 0x30b <= P + setargs_at ∨ P + 0xc6 <= V + vfprintf_at
}.
Context (HL : library).

Abbreviation patched := (init_FLOAT_vfprintf V fpmaxtostr format P f).
Abbreviation jump := (vfprintf_patched text (call_disp format (V + 0x30b))).

(** The memory has the patched code at [b], and it may be fetched. *)
Record has_code (b n : Z) (M : Z → Z) : Prop := {
  hc_bytes : ∀ x, b <= x < b + n → M x = patched x;
  hc_fetch : ∀ k m, 0 <= k → m = 1 ∨ m = 4 → k + m <= n → dok 1 (u32 (b + k)) m
}.

Lemma patched_vfprintf_byte k b : code_bytes_of jump !! k = Some b → patched (V + vfprintf_at + Z.of_nat k) = b.
Proof using HL.
  intros Hk. pose proof (lookup_lt_Some _ _ _ Hk) as Hl. rewrite vfprintf_length in Hl. pose proof (lib_apart HL). destruct (lib_V HL).
  unfold init_FLOAT_vfprintf. rewrite modify_ppfs_setargs_out by (unfold vfprintf_at in *; lia).
  now apply (modify_vfprintf_code _ _ _ _ text); [..|apply lib_vfprintf|].
Qed.

Lemma patched_setargs_byte k b : code_bytes_of setargs_patched !! k = Some b → patched (P + setargs_at + Z.of_nat k) = b.
Proof using HL.
  intros Hk. pose proof (lib_apart HL). apply modify_ppfs_setargs_code; [|exact Hk].
  intros k' b' Hk'. rewrite <- (lib_setargs HL k' b' Hk').
  pose proof (lookup_lt_Some _ _ _ Hk') as Hl'. change (length (setargs_bytes 0x8d 0x5a)) with 114%nat in Hl'.
  apply modify_vfprintf_out. unfold setargs_at in *. lia.
Qed.

Lemma has_code_code b M bs : 0 <= b → b + len bs <= 2 ^ 32 → (∀ k x, bs !! k = Some x → patched (b + Z.of_nat k) = x) →
  has_code b (len bs) M → code (dok := dok) M b bs.
Proof using.
  intros H0 He Hp [Hb Hf]. split; [|exact Hf]. intros k x Hk. pose proof (lookup_lt_Some _ _ _ Hk) as Hl.
  rewrite wrap_small, Hb by lia. now apply Hp.
Qed.

Lemma patched_vfprintf M : has_code (V + vfprintf_at) 41 M → code (dok := dok) M (V + vfprintf_at) (code_bytes_of jump).
Proof using HL.
  intros H. destruct (lib_V HL). apply has_code_code; [..|apply patched_vfprintf_byte|now rewrite vfprintf_length];
    rewrite ?vfprintf_length; unfold vfprintf_at in *; lia.
Qed.

Lemma patched_setargs M : has_code (P + setargs_at) 114 M → code (dok := dok) M (P + setargs_at) (code_bytes_of setargs_patched).
Proof using HL.
  intros H. destruct (lib_P HL). apply has_code_code; [..|apply patched_setargs_byte|now rewrite setargs_length];
    rewrite ?setargs_length; unfold setargs_at in *; lia.
Qed.

(** The machine is about to run, in the abstract state [a], with interrupts masked. *)
Record about_to_run (host : nat → HostInput) (s : Machine) (a : Isa) : Prop := {
  ar_shows : shows (DInv := DInv) a s;
  ar_masked : masked s;
  ar_state : nemu_state s ≠ END;
  ar_host : ∀ k, host_ok (host k)
}.

(** The [n] bytes of code at [b] are apart from the data. *)
Record data_apart (lo hi b n : Z) : Prop := {
  da_lo : 0 <= lo;
  da_hi : hi < 2 ^ 32;
  da_code : b + n <= lo ∨ hi <= b;
  da_ok : ∀ sr ea, 0 <= sr < 4 → in_data lo hi ea = true → dok sr ea 4
}.

Lemma apart_layout lo hi b prog : 0 <= b → b + len (code_bytes_of prog) <= 2 ^ 32 → Forall instr_ok prog →
  data_apart lo hi b (len (code_bytes_of prog)) → layout (dok := dok) lo hi b prog.
Proof using. intros Hb He Hp [_ _ Ha Hd]. now split. Qed.

(** A run of the program is one of the emulator. *)
Lemma emulated lo hi b prog n m rounds host s a a' : layout (dok := dok) lo hi b prog → about_to_run host s a →
  code (dok := dok) (i_mem a) b (code_bytes_of prog) → run lo hi b prog n a = Some (a', false) → (n <= rounds)%nat → (n < 32)%nat →
  ∃ s', cpu_exec rounds (S m) (Z.of_nat n) host s = Ok tt s' ∧ shows (DInv := DInv) a' s' ∧ nemu_state s' = STOP.
Proof using HData.
  intros HLay [Hs Hm Hne Hh] Hc Hrun Hr Hn. rewrite cpu_exec_enter by (done || lia).
  apply (loop_ok lo hi b prog HLay _ _ _ peaceful_masked m n _ _ _ a a' false); try done; [now apply shows_running|]. now destruct Hm.
Qed.

Lemma start_off b a : 0 <= b < 2 ^ 32 → i_pc a = b → a = at_off b 0 (i_regs a) (i_flags a) (i_mem a).
Proof using. intros Hb Hpc. destruct a as [R F pc M]. cbn in *. unfold at_off. now rewrite Z.add_0_r, wrap_small, Hpc. Qed.

Lemma loaded_word a s lo hi ea : shows (DInv := DInv) a s → (∀ sr x, 0 <= sr < 4 → in_data lo hi x = true → dok sr x 4) →
  in_data lo hi ea = true → u32 (le_load 4 (i_mem a) ea) = le_load 4 (i_mem a) ea.
Proof using HData.
  intros Hs Hd Hea. apply wrap_small. exact (loaded_small _ s 3 ea 4 (sh_data _ _ Hs) (Hd 3 ea ltac:(lia) Hea)).
Qed.

(** C20: After [init_FLOAT_vfprintf], the floating-point branch of [_vfprintf_internal] runs
    on the emulator, which has no floating-point instructions: from the test of
    [is_long_double] it goes, on either side, to [format_FLOAT] with two arguments, the
    stream and the 32 bits [edx] points to ([*argptr]), as the comment asks, and with the
    stack and the registers the code after the call expects. *)
Theorem vfprintf_calls_format_FLOAT lo hi m rounds host s a sp edx : 0 <= text < 2 ^ 32 → 0 <= format < 2 ^ 32 →
  about_to_run host s a → has_code (V + vfprintf_at) 41 (i_mem a) → data_apart lo hi (V + vfprintf_at) 41 →
  i_pc a = V + vfprintf_at → aget (i_regs a) R_ESP = sp → aget (i_regs a) R_EDX = edx →
  lo + 36 <= sp → sp + 0x174 <= hi → in_data lo hi edx = true → edx + 4 <= sp - 36 ∨ sp <= edx → (14 <= rounds)%nat →
  ∃ s' a', cpu_exec rounds (S m) (if condition 4 (i_flags a) then 13 else 14) host s = Ok tt s' ∧
    shows (DInv := DInv) a' s' ∧ nemu_state s' = STOP ∧
    format_called V format sp (le_load 4 (i_mem a) (sp + 0x170)) (le_load 4 (i_mem a) edx) (i_regs a) (i_mem a) a'.
Proof using HData HL.
  intros Ht Hf Har Hcode Hda Hpc Hsp Hedx Hlo Htop Hin Hap Hr. destruct (lib_V HL) as [HV HV']. pose proof Hda as [Hl Hh _ Hd].
  assert (layout (dok := dok) lo hi (V + vfprintf_at) jump) as Hlay.
  { apply apart_layout; [unfold vfprintf_at; lia|rewrite vfprintf_length; unfold vfprintf_at; lia|now apply vfprintf_patched_ok|now rewrite vfprintf_length]. }
  destruct (hijacked_run V format text HV HV' lo hi (i_regs a) (i_mem a) sp edx Hf Hsp Hedx Hl Hlo Htop ltac:(lia) Hin Hap (i_flags a)) as (a' & Hrun & Hcall).
  rewrite <- (start_off _ a) in Hrun by (try done; unfold vfprintf_at; lia).
  destruct (emulated _ _ _ _ _ m rounds host s a a' Hlay Har (patched_vfprintf _ Hcode) Hrun) as (s' & Hex & Hs' & Hst); [case_match; lia..|].
  exists s', a'. split; [rewrite <- Hex; f_equal; now case_match|]. split; [done|]. split; [done|].
  now rewrite !(loaded_word a s lo hi) in Hcall by first [apply Har|done|unfold in_data; lia].
Qed.

(** C21: After [init_FLOAT_vfprintf], an argument of type [PA_DOUBLE] (7) is prepared by the
    instructions of [PA_INT|PA_FLAG_LONG_LONG], as the comment asks: the body of the loop
    of [_ppfs_setargs] copies its 64 bits to the argument [p], advances the pointer at
    [ppfs + 0x4c] by eight bytes, [p] and [i], and comes back to the loop's test, on the
    emulator, which has no floating-point instructions. *)
Theorem ppfs_setargs_takes_double lo hi m rounds host s a ppfs p i argptr :
  about_to_run host s a → has_code (P + setargs_at) 114 (i_mem a) → data_apart lo hi (P + setargs_at) 114 →
  i_pc a = P + setargs_at → aget (i_regs a) R_EAX = ppfs → aget (i_regs a) R_ECX = p → aget (i_regs a) R_EDX = i →
  0 <= i < 2 ^ 31 → p + 0xc < 2 ^ 32 → Forall (λ ea, in_data lo hi ea = true) [ppfs + 0x28 + 4 * i; ppfs + 0x4c; p; p + 4; argptr; argptr + 4] →
  le_load 4 (i_mem a) (ppfs + 0x28 + 4 * i) = 7 → le_load 4 (i_mem a) (ppfs + 0x4c) = argptr → (22 <= rounds)%nat →
  ∃ s' a', cpu_exec rounds (S m) 22 host s = Ok tt s' ∧ shows (DInv := DInv) a' s' ∧ nemu_state s' = STOP ∧
    double_taken P ppfs p i argptr (i_mem a) a'.
Proof using HData HL.
  intros Har Hcode Hda Hpc Heax Hecx Hedx Hi Hp Hin Htype Hptr Hr. destruct (lib_P HL) as [HP HP']. pose proof Hda as [Hl Hh _ Hd].
  repeat (apply list.Forall_cons in Hin as [? Hin]).
  assert (layout (dok := dok) lo hi (P + setargs_at) setargs_patched) as Hlay.
  { apply apart_layout; [unfold setargs_at; lia|rewrite setargs_length; unfold setargs_at; lia|apply setargs_patched_ok|now rewrite setargs_length]. }
  destruct (setargs_run P HP HP' lo hi (i_regs a) (i_flags a) (i_mem a) ppfs p i argptr) as (a' & Hrun & Ha'); try done.
  rewrite <- (start_off _ a) in Hrun by (try done; unfold setargs_at; lia).
  destruct (emulated _ _ _ _ 22 m rounds host s a a' Hlay Har (patched_setargs _ Hcode) Hrun) as (s' & Hex & Hs' & Hst); [lia..|].
  now exists s', a'.
Qed.
End Patched.

(** * The theorems on a machine *)
#[local] Existing Instance IsoRand.
#[local] Existing Instance ZeroJunk.

(** The two functions at 0x1000 and 0x2000, [_fpmaxtostr] at 0x3000 and [format_FLOAT] at
    0x3800; the data from 0x4000. *)
Definition lib_dram : Dram :=
  demo_dram (0x2000 + setargs_at) (setargs_bytes 0x8d 0x5a) (demo_dram (0x1000 + vfprintf_at) (vfprintf_bytes 0x38 (0x3000 - (0x1000 + 0x30b))) dram0).
Definition lib_memory : Z → Z := hw_get lib_dram.

Lemma lib_linked : library 0x1000 0x2000 0x3000 0x38 lib_memory.
Proof.
  split; [| |done..|left; vm_compute; congruence].
  - intros k b Hk. pose proof (lookup_lt_Some _ _ _ Hk) as Hl. change (length (vfprintf_bytes _ _)) with 41%nat in Hl.
    unfold lib_memory, lib_dram. rewrite demo_dram_below by (unfold vfprintf_at, setargs_at; lia). now apply demo_dram_at.
  - intros k b Hk. now apply demo_dram_at.
Qed.

(** A memory with the patched code, [data] at 0x4000 and a stack. *)
Definition demo_patched (data : list Z) : Dram :=
  demo_dram 0x4000 data
    (demo_dram (0x2000 + setargs_at) (code_bytes_of setargs_patched)
      (demo_dram (0x1000 + vfprintf_at) (code_bytes_of (vfprintf_patched 0x38 (call_disp 0x3800 (0x1000 + 0x30b)))) dram0)).

Lemma demo_patched_cold data : Forall (λ b, 0 <= b < 256) data → cold_dram (demo_patched data).
Proof.
  intros Hd. unfold demo_patched. repeat apply demo_dram_cold; [apply cold_dram0| | |exact Hd]; vm_compute; repeat constructor; congruence.
Qed.

Lemma demo_fetch b n k m : 0 < b → b + n <= 0x4000 → 0 <= k → m = 1 ∨ m = 4 → k + m <= n → demo_dok 1 (u32 (b + k)) m.
Proof. intros. rewrite wrap_small by lia. apply demo_data_ok; lia. Qed.

Lemma agree_bytes (f g : Z → Z) b bs : (∀ k x, bs !! k = Some x → f (b + Z.of_nat k) = x) → (∀ k x, bs !! k = Some x → g (b + Z.of_nat k) = x) →
  ∀ x, b <= x < b + len bs → f x = g x.
Proof.
  intros Hf Hg x Hx. destruct (lookup_lt_is_Some_2 bs (Z.to_nat (x - b)) ltac:(lia)) as [y Hy].
  pose proof (Hf _ _ Hy) as E1. pose proof (Hg _ _ Hy) as E2. rewrite Z2Nat.id in E1, E2 by lia.
  replace (b + (x - b)) with x in E1, E2 by lia. congruence.
Qed.

Lemma demo_vfprintf data : has_code (dok := demo_dok) 0x1000 0x2000 0x3000 0x3800 lib_memory (0x1000 + vfprintf_at) 41 (hw_get (demo_patched data)).
Proof.
  split; [|intros; apply (demo_fetch (0x1000 + vfprintf_at) 41); unfold vfprintf_at; lia].
  refine (agree_bytes _ _ _ (code_bytes_of (vfprintf_patched 0x38 (call_disp 0x3800 (0x1000 + 0x30b)))) _ _).
  - intros k x Hk. pose proof (lookup_lt_Some _ _ _ Hk) as Hl. rewrite vfprintf_length in Hl. unfold demo_patched.
    rewrite !demo_dram_below by (unfold vfprintf_at, setargs_at; lia). now apply demo_dram_at.
  - intros k x Hk. now apply (patched_vfprintf_byte 0x1000 0x2000 0x3000 0x3800 0x38 _ lib_linked).
Qed.

Lemma demo_setargs data : has_code (dok := demo_dok) 0x1000 0x2000 0x3000 0x3800 lib_memory (0x2000 + setargs_at) 114 (hw_get (demo_patched data)).
Proof.
  split; [|intros; apply (demo_fetch (0x2000 + setargs_at) 114); unfold setargs_at; lia].
  refine (agree_bytes _ _ _ (code_bytes_of setargs_patched) _ _).
  - intros k x Hk. pose proof (lookup_lt_Some _ _ _ Hk) as Hl. rewrite setargs_length in Hl. unfold demo_patched.
    rewrite demo_dram_below by (unfold setargs_at; lia). now apply demo_dram_at.
  - intros k x Hk. now apply (patched_setargs_byte 0x1000 0x2000 0x3000 0x3800 0x38 _ lib_linked).
Qed.

Lemma demo_apart b n : 0 < b → b + n <= 0x4000 → data_apart (dok := demo_dok) 0x4000 0x5000 b n.
Proof. intros. split; [lia|lia|lia|]. intros sr ea Hsr Hin. unfold in_data in Hin. apply demo_data_ok; lia. Qed.

(** The machine at [pc] with three registers and [data]. *)
Definition demo_cpu (pc r1 v1 r2 v2 r3 v3 : Z) : CPU_state := set_eip pc (set_gpr_l r1 v1 (set_gpr_l r2 v2 (set_gpr_l r3 v3 cpu0))).
Definition demo_isa (pc r1 v1 r2 v2 r3 v3 : Z) (data : list Z) : Isa :=
  mkIsa (aset r1 v1 (aset r2 v2 (aset r3 v3 (anew 0)))) (mkFlags false false false false false) pc (hw_get (demo_patched data)).

Lemma demo_about_to_run pc r1 v1 r2 v2 r3 v3 data : 0 <= v1 < 2 ^ 32 → 0 <= v2 < 2 ^ 32 → 0 <= v3 < 2 ^ 32 →
  Forall (λ b, 0 <= b < 256) data →
  about_to_run (DInv := demo_data) sum_host (demo_machine (demo_cpu pc r1 v1 r2 v2 r3 v3) (demo_patched data)) (demo_isa pc r1 v1 r2 v2 r3 v3 data).
Proof.
  intros H1 H2 H3 Hd. split; [split| |discriminate|intros k; repeat constructor; now eexists].
  - apply demo_data_inv; [now apply demo_patched_cold|now apply flat_segs_real].
  - reflexivity.
  - split; intros i _.
    + change (gpr_l i _) with (gpr_l i (set_gpr_l r1 v1 (set_gpr_l r2 v2 (set_gpr_l r3 v3 cpu0)))). cbn [demo_isa i_regs].
      rewrite !gpr_l_set_l, !aget_aset, !wrap_small by done. reflexivity.
    + cbn [demo_isa i_regs]. rewrite !aget_aset. repeat (destruct (_ =? i); [done|]). rewrite aget_anew. lia.
  - split; reflexivity.
  - split; [reflexivity|done].
  - split; [reflexivity|reflexivity|exact pic0_ok].
Qed.

(** The number 1.199996 at 0x4030, the stream in the frame of [vfprintf]. *)
Definition print_data : list Z := replicate 0x30 0 ++ le4 0x13333 ++ replicate 0x16c 0 ++ le4 0x5678.

Lemma all_bytes data : forallb (λ b, (0 <=? b) && (b <? 256)) data = true → Forall (λ b, 0 <= b < 256) data.
Proof. intros H. apply Forall_forall. intros b Hb. rewrite forallb_forall in H. specialize (H b Hb). lia. Qed.

Lemma print_words : le_load 4 (hw_get (demo_patched print_data)) 0x4030 = 0x13333 ∧ le_load 4 (hw_get (demo_patched print_data)) 0x41a0 = 0x5678.
Proof. vm_compute. split; reflexivity. Qed.

Lemma vfprintf_calls_format_FLOAT_witness : ∃ s' a', cpu_exec 14 1 14 sum_host
    (demo_machine (demo_cpu 0x12e2 R_ESP 0x4030 R_EDX 0x4030 R_EBX 7) (demo_patched print_data)) = Ok tt s' ∧
  eip (cpu s') = 0x3800 ∧ le_load 4 (i_mem a') 0x400c = 0x130a ∧ le_load 4 (i_mem a') 0x4010 = 0x5678 ∧ le_load 4 (i_mem a') 0x4014 = 0x13333.
Proof.
  destruct (vfprintf_calls_format_FLOAT (DInv := demo_data) 0x1000 0x2000 0x3000 0x3800 0x38 _ lib_linked 0x4000 0x5000 0 14 sum_host _
    (demo_isa 0x12e2 R_ESP 0x4030 R_EDX 0x4030 R_EBX 7 print_data) 0x4030 0x4030 ltac:(lia) ltac:(lia)
    (demo_about_to_run 0x12e2 R_ESP 0x4030 R_EDX 0x4030 R_EBX 7 print_data ltac:(lia) ltac:(lia) ltac:(lia) (all_bytes print_data eq_refl))
    (demo_vfprintf print_data) (demo_apart (0x1000 + vfprintf_at) 41 ltac:(done) ltac:(done)) eq_refl eq_refl eq_refl ltac:(lia) ltac:(lia) eq_refl ltac:(lia) ltac:(lia))
    as (s' & a' & Hrun & Hs & _ & [Hpc _ Hret Hstream Hv _ _]).
  exists s', a'. split; [exact Hrun|]. split; [exact (eq_trans (sh_pc _ _ Hs) Hpc)|]. split; [exact Hret|].
  split; [exact (eq_trans Hstream (proj2 print_words))|exact (eq_trans Hv (proj1 print_words))].
Defined.

(** At 0x4000 the format with one argument of type 7, whose pointer is at 0x4060. *)
Definition args_data : list Z := replicate 0x28 0 ++ le4 7 ++ replicate 0x20 0 ++ le4 0x4060 ++ replicate 0x10 0 ++ le4 0x13333 ++ le4 0x9abc.

Lemma args_words : le_load 4 (hw_get (demo_patched args_data)) 0x4028 = 7 ∧ le_load 4 (hw_get (demo_patched args_data)) 0x404c = 0x4060 ∧
  le_load 4 (hw_get (demo_patched args_data)) 0x4060 = 0x13333 ∧ le_load 4 (hw_get (demo_patched args_data)) 0x4064 = 0x9abc.
Proof. vm_compute. repeat split; reflexivity. Qed.

Lemma ppfs_setargs_takes_double_witness : ∃ s' a', cpu_exec 22 1 22 sum_host
    (demo_machine (demo_cpu 0x2054 R_EAX 0x4000 R_ECX 0x4050 R_EDX 0) (demo_patched args_data)) = Ok tt s' ∧
  eip (cpu s') = 0x204b ∧ le_load 4 (i_mem a') 0x4050 = 0x13333 ∧ le_load 4 (i_mem a') 0x4054 = 0x9abc ∧ le_load 4 (i_mem a') 0x404c = 0x4068.
Proof.
  destruct args_words as (Ht & Hp & H0 & H4).
  destruct (ppfs_setargs_takes_double (DInv := demo_data) 0x1000 0x2000 0x3000 0x3800 0x38 _ lib_linked 0x4000 0x5000 0 22 sum_host _
    (demo_isa 0x2054 R_EAX 0x4000 R_ECX 0x4050 R_EDX 0 args_data) 0x4000 0x4050 0 0x4060
    (demo_about_to_run 0x2054 R_EAX 0x4000 R_ECX 0x4050 R_EDX 0 args_data ltac:(lia) ltac:(lia) ltac:(lia) (all_bytes args_data eq_refl))
    (demo_setargs args_data) (demo_apart (0x2000 + setargs_at) 114 ltac:(done) ltac:(done)) eq_refl eq_refl eq_refl eq_refl ltac:(lia) ltac:(lia)
    ltac:(repeat constructor) Ht Hp ltac:(lia))
    as (s' & a' & Hrun & Hs & _ & [Hpc _ _ _ Hm]).
  exists s', a'. split; [exact Hrun|]. split; [exact (eq_trans (sh_pc _ _ Hs) Hpc)|]. rewrite Hm. cbn [demo_isa i_mem] in *.
  split; [rewrite load_elsewhere by lia; rewrite load_stored, H0; reflexivity|].
  split; [refine (eq_trans (load_stored _ (0x4050 + 4) _) _); change (0x4060 + 4) with 0x4064; rewrite H4; reflexivity|].
  rewrite !load_elsewhere by lia. exact (load_stored _ (0x4000 + 0x4c) _).
Defined.
