(* ===== verification/UiSpec.v ===== *)
(** What the debugger's commands show: [bt] walks the chain of saved frame pointers, [x]
    the words of memory. *)
From S2P Require Import Prelude Dram Cache L2Facts CacheFacts CacheSpec WorkingSet.
From S2P Require Import Tlb Cpu I8259 Mmio Vga WpPool Machine Memory MemFacts DemoMachine PageSpec.
From S2P Require Import SegMem Expr CpuExec Ui.
From stdpp Require Import strings.
#[local] Open Scope Z_scope.

(** * Frames in memory *)

(** A frame: the saved frame pointer, the return address, the four words after it. *)
Abbreviation frame := (prod (prod Z Z) (list Z)).

Definition words_at (f : Z → Z) (a : Z) (n : nat) : list Z := map (λ i, le_load 4 f (a + 4 * Z.of_nat i)) (seq 0 n).

Section Frames.
Context `{HRand : !LibcRand, HJunk : !StackJunk} {DInv : (Z → Z) → Machine → Prop} {dok : Z → Z → Z → Prop}.
Context `{HData : !DataMem DInv dok}.

(** The [n] words at [a] may be read. *)
Definition readable (a : Z) (n : nat) : Prop := ∀ i, (i < n)%nat → dok 3 (a + 4 * Z.of_nat i) 4.

(** The frames from [a] up to the null pointer. *)
Inductive chain (f : Z → Z) : Z → list frame → Prop :=
  | chain_end : chain f 0 []
  | chain_frame a l : readable a 6 → chain f (le_load 4 f a) l →
    chain f a ((le_load 4 f a, le_load 4 f (a + 4), words_at f (a + 8) 4) :: l).

(** The function of an address, by the table. *)
Definition function_at (syms : list Sym) (ret : Z) (name : list Z) : Prop :=
  ∃ i s, syms !! i = Some s ∧ st_name s = name ∧ (length name < 32)%nat ∧
    let within s := st_value s <= ret <= u32 (st_value s + st_size s) ∧ Z.land (st_info s) 0xf = STT_FUNC in
    within s ∧ ∀ j s', (j < i)%nat → syms !! j = Some s' → ¬ within s'.

(** What [bt] should print: each frame with the function its code is in, and its arguments
    but for [main]. *)
Inductive trace (syms : list Sym) : nat → Z → list frame → list Out → Prop :=
  | trace_end j ret : trace syms j ret [] []
  | trace_frame j ret p r ws l name out : function_at syms ret name → trace syms (S j) r l out →
    trace syms j ret ((p, r, ws) :: l) (O_frame j ret name (if streq name (bytes_of "main") then None else Some ws) :: out).

Lemma find_function_at syms ret name : function_at syms ret name →
  ∃ s, find_function syms ret = Some s ∧ st_name s = name ∧ (length name < 32)%nat.
Proof using.
  intros (i & s & Hi & Hn & Hl & [Hb Hf] & Hfirst). exists s. split; [|done]. unfold find_function.
  rewrite (proj2 (list_find_Some _ _ i s)); [done|]. split; [exact Hi|]. split.
  - apply Is_true_true. rewrite Hf, Z.eqb_refl. lia.
  - intros j y Hj Hlt Hy%Is_true_true. apply (Hfirst j y Hlt Hj). lia.
Qed.

Lemma data_word_run f s a : DInv f s → dok 3 a 4 → ∃ s', swaddr_read a 4 3 s = Ok (le_load 4 f a) s' ∧ DInv f s' ∧ only_mem s s'.
Proof using HData. intros Hs Hok. exact (dm_read f s 3 a 4 Hs Hok). Qed.

Lemma readable_S a n : readable a (S n) → dok 3 a 4 ∧ readable (a + 4) n.
Proof using.
  intros H. split; [replace a with (a + 4 * Z.of_nat 0) by lia; apply H; lia|].
  intros i Hi. replace (a + 4 + 4 * Z.of_nat i) with (a + 4 * Z.of_nat (S i)) by lia. apply H. lia.
Qed.

Lemma words_at_S f a n : words_at f a (S n) = le_load 4 f a :: words_at f (a + 4) n.
Proof using.
  unfold words_at. cbn [seq map]. f_equal; [f_equal; lia|]. rewrite <- seq_shift, map_map. apply map_ext. intros i. f_equal. lia.
Qed.

Lemma read_args_run f n a s : DInv f s → readable a n →
  ∃ s', read_args n a s = Ok (words_at f a n) s' ∧ DInv f s' ∧ only_mem s s'.
Proof using HData.
  revert a s; induction n as [|n IH]; intros a s Hs Hr; cbn [read_args].
  { exists s. split; [done|]. split; [done|]. apply only_mem_refl. }
  apply readable_S in Hr as [Hok Hr]. pose proof (dm_ok _ _ _ Hok) as (Ha & Hb & _).
  rewrite wrap_small by lia. destruct (data_word_run f s a Hs Hok) as (s1 & E1 & H1 & O1). rewrite (bind_Ok _ _ _ _ _ E1).
  destruct (IH (a + 4) s1 H1 Hr) as (s2 & E2 & H2 & O2). rewrite (bind_Ok _ _ _ _ _ E2), words_at_S.
  exists s2. split; [done|]. split; [done|]. now apply (only_mem_trans s s1).
Qed.

Lemma read_ebp_run f a s : DInv f s → readable a 6 →
  ∃ s', read_ebp a s = Ok (mkFrame (le_load 4 f a) (le_load 4 f (a + 4)) (words_at f (a + 8) 4)) s' ∧ DInv f s' ∧ only_mem s s'.
Proof using HData.
  intros Hs H0. apply readable_S in H0 as [Hk0 H1]. apply readable_S in H1 as [Hk1 H2].
  pose proof (dm_ok _ _ _ Hk1) as (Ha & Hb & _). unfold read_ebp.
  destruct (data_word_run f s a Hs Hk0) as (s1 & E1 & I1 & O1). rewrite (bind_Ok _ _ _ _ _ E1).
  pose proof (dm_ok _ _ _ Hk0) as (Ha0 & _). rewrite wrap_small by lia.
  destruct (data_word_run f s1 (a + 4) I1 Hk1) as (s2 & E2 & I2 & O2). rewrite (bind_Ok _ _ _ _ _ E2).
  replace (a + 4 + 4) with (a + 8) in H2 by lia.
  destruct (read_args_run f 4 (a + 8) s2 I2 H2) as (s3 & E3 & I3 & O3). rewrite (bind_Ok _ _ _ _ _ E3).
  exists s3. split; [done|]. split; [done|]. eauto using only_mem_trans.
Qed.

Lemma bt_loop_run f n j a ret tmp l out s : DInv f s → chain f a l → trace (symtab (debug s)) j ret l out →
  (length l <= n)%nat → ∃ s', bt_loop n j a ret tmp s = Ok out s' ∧ DInv f s' ∧ only_mem s s'.
Proof using HData.
  intros Hs Hc. revert n j ret tmp out s Hs; induction Hc as [|a l Hr Hc IH]; intros n j ret tmp out s Hs Ht Hn.
  { inversion Ht; subst. exists s. split; [now destruct n|]. split; [done|]. apply only_mem_refl. }
  inversion Ht as [|j' ret' p r ws l' name out' Hf Ht' E1 E2 E3]; subst. cbn [length] in Hn. destruct n as [|n]; [lia|].
  pose proof (readable_S _ _ Hr) as [Hok _]. pose proof (dm_ok _ _ _ Hok) as (Ha & _). cbn [bt_loop].
  replace (a =? 0) with false by lia. rewrite (bind_Ok getS _ _ _ _ eq_refl).
  destruct (find_function_at _ _ _ Hf) as (fn & Efn & Hname & Hlen).
  assert (bt_name (symtab (debug s)) ret tmp s = Ok name s) as En.
  { unfold bt_name. rewrite Efn, Hname. now replace (32 <=? Z.of_nat (length name)) with false by lia. }
  rewrite (bind_Ok _ _ _ _ _ En). destruct (read_ebp_run f a s Hs Hr) as (s1 & E1 & I1 & O1). rewrite (bind_Ok _ _ _ _ _ E1).
  cbn [prev_ebp ret_addr args].
  destruct (IH n (S j) (le_load 4 f (a + 4)) (Some name) out' s1 I1) as (s2 & E2 & I2 & O2).
  { rewrite O1. exact Ht'. }
  { lia. }
  rewrite (bind_Ok _ _ _ _ _ E2). exists s2. split; [done|]. split; [done|]. now apply (only_mem_trans s s1).
Qed.

(** C35: the command bt prints the call chain: where EBP heads a chain of frames (saved EBP,
    return address, arguments) that ends in a null pointer, and each return address lies
    in a function of the symbol table, it prints the frames innermost first, each with the
    first function that contains its code and its four argument words (none for main),
    ends, and changes nothing but caches and TLB. *)
Theorem bt_prints_chain frames f s l out rest k :
  DInv f s → chain f (gpr_l R_EBP (cpu s)) l → trace (symtab (debug s)) 0 (eip (cpu s)) l out → (length l <= frames)%nat →
  ∃ s', cmd_bt frames rest k s = Ok (0, out, k) s' ∧ DInv f s' ∧ only_mem s s'.
Proof using HData.
  intros Hs Hc Ht Hn. unfold cmd_bt. rewrite (bind_Ok (reg_l R_EBP) _ s (gpr_l R_EBP (cpu s)) s eq_refl).
  rewrite (bind_Ok (get_cpu eip) _ s (eip (cpu s)) s eq_refl).
  destruct (bt_loop_run f frames 0 _ _ None l out s Hs Hc Ht Hn) as (s' & E & H & O).
  rewrite (bind_Ok _ _ _ _ _ E). exists s'. split; [done|]. now split.
Qed.

Lemma chain_frame_eq f a p r ws l : readable a 6 → le_load 4 f a = p → le_load 4 f (a + 4) = r → words_at f (a + 8) 4 = ws →
  chain f p l → chain f a ((p, r, ws) :: l).
Proof using. intros Hr <- <- <- Hc. now constructor. Qed.
End Frames.

#[local] Existing Instance IsoRand.
#[local] Existing Instance ZeroJunk.

(** [f(1, 2, 3, 4)] called from [main]: a frame at 0x1000, and [main]'s at 0x1100. *)
Definition bt_bytes : list Z :=
  [0x00; 0x11; 0; 0; 0x10; 0; 0x80; 0; 1; 0; 0; 0; 2; 0; 0; 0; 3; 0; 0; 0; 4; 0; 0; 0].
Definition bt_dram : Dram := demo_dram 0x1000 bt_bytes dram0.
Definition bt_syms : list Sym :=
  [mkSym (bytes_of "main") 0x800000 0x1f 0x12; mkSym (bytes_of "f") 0x800020 0x20 0x12].
Definition bt_machine : Machine :=
  set_debug (debug0 bt_syms) (demo_machine (set_eip 0x800030 (set_gpr_l R_EBP 0x1000 cpu0)) bt_dram).

Lemma bt_machine_inv : demo_data (hw_get bt_dram) bt_machine.
Proof.
  apply (dm_frame (hw_get bt_dram) (demo_machine (set_eip 0x800030 (set_gpr_l R_EBP 0x1000 cpu0)) bt_dram)).
  { repeat split. }
  apply demo_data_inv; [|now apply flat_segs_real]. apply demo_dram_cold; [exact cold_dram0|]. repeat constructor; lia.
Qed.

Lemma bt_readable a n : 0 < a → a + 4 * Z.of_nat n <= 2 ^ 22 → readable (dok := demo_dok) a n.
Proof. intros Ha Hb i Hi. apply demo_data_ok; lia. Qed.

Lemma bt_chain : chain (dok := demo_dok) (hw_get bt_dram) 0x1000
  [(0x1100, 0x800010, [1; 2; 3; 4]); (0, 0, [0; 0; 0; 0])].
Proof.
  apply chain_frame_eq; [apply bt_readable; cbn; lia|vm_compute; reflexivity..|].
  apply chain_frame_eq; [apply bt_readable; cbn; lia|vm_compute; reflexivity..|]. constructor.
Qed.

Lemma bt_prints_chain_witness : ∃ s', cmd_bt 2 [] 0%nat bt_machine =
  Ok (0, [O_frame 0 0x800030 (bytes_of "f") (Some [1; 2; 3; 4]); O_frame 1 0x800010 (bytes_of "main") None], 0%nat) s'.
Proof.
  destruct (bt_prints_chain 2 (hw_get bt_dram) bt_machine _
    [O_frame 0 0x800030 (bytes_of "f") (Some [1; 2; 3; 4]); O_frame 1 0x800010 (bytes_of "main") None] [] 0%nat
    bt_machine_inv bt_chain) as (s' & E & _).
  - apply trace_frame.
    { exists 1%nat. eexists. split; [reflexivity|]. split; [reflexivity|]. split; [cbn; lia|]. split; [now vm_compute|].
      intros [|j] s' Hj; [|lia]. intros [= <-] [Hb _]. vm_compute in Hb. destruct Hb as [_ Hb]. now apply Hb. }
    apply trace_frame; [|apply trace_end].
    exists 0%nat. eexists. split; [reflexivity|]. split; [reflexivity|]. split; [cbn; lia|]. split; [now vm_compute|]. intros j s' Hj. lia.
  - cbn. lia.
  - exists s'. exact E.
Defined.

(** A return address outside every function is shown with the name found for the frame
    before it: the buffer is not reset. *)
Lemma bt_stale_name : outcome (bt_loop 2 0 0x1000 0x800030 None
    (set_debug (debug0 [mkSym (bytes_of "f") 0x800020 0x20 0x12]) bt_machine)) =
  inl (Some [O_frame 0 0x800030 (bytes_of "f") (Some [1; 2; 3; 4]); O_frame 1 0x800010 (bytes_of "f") (Some [0; 0; 0; 0])]).
Proof. vm_compute. reflexivity. Qed.
