(* ===== verification/ExecType.v ===== *)
(** The invariant of the whole emulator, through every instruction, command and round of the
    main loop: the interrupt controllers are driven by legal requests and acknowledges only,
    the watchpoint pool is in a state of the abstract pool, registers, descriptor-table
    registers and operands keep their widths, and port bytes stay bytes. *)
From S2P Require Import Prelude Dram Cache L2Facts CacheFacts CacheSpec WorkingSet.
From S2P Require Import Tlb Cpu I8259 Mmio Vga WpPool WpSpec Machine Memory MemFacts DemoMachine PageSpec.
From S2P Require Import SegMem Devices Decode Arith Logic DataMov ConTran StringOps SysIO Exec Expr ExprSpec ElfTables ElfSpec CpuExec Ui.

(** * What is typed *)
Definition word32 (x : Z) : Prop := 0 <= x < 2 ^ 32.

Record cpu_typed (c : CPU_state) : Prop := {
  ct_ok : cpu_ok c;
  ct_gdtr : 0 <= gdtr_limit c < 2 ^ 16 ∧ word32 (gdtr_base c);
  ct_idtr : 0 <= idtr_limit c < 2 ^ 16 ∧ word32 (idtr_base c);
  ct_cr : word32 (cr0 c) ∧ word32 (cr3 c)
}.

Record operand_typed (o : Operand) : Prop := {
  ot_u : word32 (op_u o);
  ot_sreg : 0 <= op_sreg o < 256;
  ot_val : word32 (op_val o)
}.

Definition ops_typed (d : Operands) : Prop :=
  word32 (opcode d) ∧ operand_typed (src d) ∧ operand_typed (dest d) ∧ operand_typed (src2 d).

(** * The controllers as the program drives them

    The timer, the keyboard and the disk request; the main loop acknowledges while INTR is
    up. *)
Inductive dev_step : Pic → Pic → Prop :=
  | dev_raise n p p' : n ∈ [TIMER_IRQ; KEYBOARD_IRQ; IDE_IRQ] → i8259_raise_intr n p = Ok tt p' → dev_step p p'
  | dev_ack p p' : INTR p = true → i8259_ack_intr p = Ok tt p' → dev_step p p'.

Lemma dev_line n : n ∈ [TIMER_IRQ; KEYBOARD_IRQ; IDE_IRQ] → 0 <= n < 16 ∧ n ≠ 2.
Proof. rewrite !elem_of_cons. unfold TIMER_IRQ, KEYBOARD_IRQ, IDE_IRQ. intros [->|[->|[->|H%not_elem_of_nil]]]; lia || done. Qed.

Lemma dev_reachable p : rtc dev_step pic0 p → rtc pic_step pic0 p.
Proof.
  apply rtc_subrel. intros q q' [n r r' [Hn H2]%dev_line Hr|r r' HI Hr]; [now apply (step_raise n)|now apply step_ack].
Qed.

(** Of the slave only the disk's line is ever pending, so the cascade line says whether it is. *)
Record dev_pending (p : Pic) : Prop := {
  dp_ok : pic_ok p;
  dp_master : 0 <= IRR (master p) < 8;
  dp_slave : IRR (slave p) = if Z.testbit (IRR (master p)) 2 then 64 else 0
}.

Lemma below_8 m : 0 <= m < 8 → m = 0 ∨ m = 1 ∨ m = 2 ∨ m = 3 ∨ m = 4 ∨ m = 5 ∨ m = 6 ∨ m = 7.
Proof. lia. Qed.

Lemma dev_step_pending p p' : dev_step p p' → dev_pending p → dev_pending p'.
Proof.
  intros Hstep [Hok Hm Hs]. apply below_8 in Hm.
  destruct Hstep as [n p p' Hn Hr|p p' HI Hr].
  - destruct (dev_line n Hn) as [Hn16 Hn2]. destruct (raise_ok p n Hok Hn16 Hn2) as (q & Hq & Hok' & Em & Es).
    rewrite Hr in Hq. injection Hq as <-. split; [done|..]; rewrite ?Es, ?Em, ?Hs; clear -Hm Hn;
      rewrite !elem_of_cons in Hn; destruct Hn as [->|[->|[->|H%not_elem_of_nil]]]; try done;
      destruct Hm as [->|[->|[->|[->|[->|[->|[->| ->]]]]]]]; vm_compute; first [done | split; done || discriminate].
  - destruct (ack_ok p Hok HI) as (q & Hq & Hok' & Em & Es). rewrite Hr in Hq. injection Hq as <-.
    rewrite (pic_vector _ Hok HI) in Em, Es. rewrite (pic_intr _ Hok) in HI.
    split; [done|..]; rewrite ?Es, ?Em, ?Hs; clear -Hm HI;
      destruct Hm as [E|[E|[E|[E|[E|[E|[E|E]]]]]]]; rewrite E in HI |- *; try discriminate HI; vm_compute; first [done | split; done || discriminate].
Qed.

Lemma dev_reachable_pending p : rtc dev_step pic0 p → dev_pending p.
Proof.
  intros H. remember pic0 as q eqn:Hq. assert (dev_pending q) as Hp by (subst; split; [apply pic0_ok|done|done]).
  clear Hq. induction H as [q|q r p Hs _ IH]; [done|]. apply IH. now apply (dev_step_pending q).
Qed.

Lemma dev_pending_INTR p : dev_pending p →
  INTR p = negb ((IRR (master p) =? 0) && (IRR (slave p) =? 0)).
Proof.
  intros [Hok _ Hs]. rewrite (pic_intr _ Hok), Hs. destruct (Z.eqb_spec (IRR (master p)) 0) as [->|]; done.
Qed.

Section Types.
Context `{HRand : !LibcRand, HJunk : !StackJunk}.

(** [ty_pic]: what has been done to the controllers since they were reset is a sequence of
    requests on the lines of devices and of acknowledges while INTR was up. *)
Record typed (s : Machine) : Prop := {
  ty_cpu : cpu_typed (cpu s);
  ty_ops : ops_typed (ops_decoded s);
  ty_ports : is_bytes (aget (pio_space (pio s)));
  ty_pic : rtc dev_step pic0 (pic s);
  ty_wps : wps_ok (wps (debug s))
}.

(** * Assignments keep the types *)
Lemma word32_u32 v : word32 (u32 v).
Proof using. apply (wrap_range 32). lia. Qed.

Lemma set_bitfield_range x lo n v w : 0 <= lo → 0 <= n → lo + n <= w → 0 <= x < 2 ^ w →
  0 <= set_bitfield x lo n v < 2 ^ w.
Proof using.
  intros Hlo Hn Hw Hx. apply range_of_bits; [lia| |].
  - unfold set_bitfield. apply Z.lor_nonneg. split; [apply Z.ldiff_nonneg; lia|].
    apply Z.shiftl_nonneg, Z.land_nonneg. right. lia.
  - intros i Hi. rewrite testbit_set_bitfield by lia. replace (_ && _) with false by lia.
    now apply (testbit_above w).
Qed.

Lemma typed_gpr c g : cpu_typed c → (∀ i, word32 (aget g i)) → cpu_typed (set_gpr g c).
Proof using. intros [[] ? ? ?] Hg. split; [split|..]; done. Qed.

Lemma typed_set_gpr_l i v c : cpu_typed c → cpu_typed (set_gpr_l i v c).
Proof using.
  intros Hc. apply typed_gpr; [done|]. intros j. rewrite aget_aset.
  destruct (_ =? _); [apply word32_u32|apply Hc].
Qed.

Lemma typed_set_gpr_w i v c : cpu_typed c → cpu_typed (set_gpr_w i v c).
Proof using.
  intros Hc. apply typed_gpr; [done|]. intros j. rewrite aget_aset.
  destruct (_ =? _); [apply set_bitfield_range; (lia || apply Hc)|apply Hc].
Qed.

Lemma typed_set_gpr_b i v c : 0 <= i < 8 → cpu_typed c → cpu_typed (set_gpr_b i v c).
Proof using.
  intros Hi Hc. apply typed_gpr; [done|]. intros j. rewrite aget_aset.
  assert (0 <= Z.shiftr i 2 <= 1) by (rewrite Z.shiftr_div_pow2 by lia; lia).
  destruct (_ =? _); [apply set_bitfield_range; (lia || apply Hc)|apply Hc].
Qed.

Lemma typed_eflags v c : word32 v → cpu_typed c → cpu_typed (set_eflags v c).
Proof using. intros Hv [[] ? ? ?]. split; [split|..]; done. Qed.

Lemma typed_set_flag n v c : 0 <= n < 32 → cpu_typed c → cpu_typed (set_flag n v c).
Proof using.
  intros Hn Hc. apply typed_eflags; [|done]. apply (set_bitfield_range _ _ _ _ 32); (lia || apply Hc).
Qed.

Lemma typed_eip v c : word32 v → cpu_typed c → cpu_typed (set_eip v c).
Proof using. intros Hv [[] ? ? ?]. split; [split|..]; done. Qed.

Lemma typed_selector i v c : cpu_typed c → cpu_typed (set_selector i v c).
Proof using.
  intros [[? ? ? Hs] ? ? ?]. split; [split|..]; try done. intros j. cbn. rewrite aget_aset.
  destruct (_ =? _); [apply (wrap_range 16); lia|apply Hs].
Qed.

Lemma typed_seg_cache i lo n v c : cpu_typed c → cpu_typed (set_seg_cache i lo n v c).
Proof using.
  intros [[? ? ? Hs] ? ? ?]. split; [split|..]; try done. intros j. cbn. rewrite aget_aset.
  destruct (Z.eqb_spec i j) as [->|]; [apply Hs|apply Hs].
Qed.

Lemma typed_cr0 v c : word32 v → cpu_typed c → cpu_typed (set_cr0 v c).
Proof using. intros Hv [[] ? ? []]. split; [split|..]; done. Qed.

Lemma typed_cr3 v c : word32 v → cpu_typed c → cpu_typed (set_cr3 v c).
Proof using. intros Hv [[] ? ? []]. split; [split|..]; done. Qed.

Lemma typed_gdtr l b c : 0 <= l < 2 ^ 16 → word32 b → cpu_typed c → cpu_typed (set_gdtr l b c).
Proof using. intros Hl Hb [[] ? ? []]. split; [split|..]; done. Qed.

Lemma typed_idtr l b c : 0 <= l < 2 ^ 16 → word32 b → cpu_typed c → cpu_typed (set_idtr l b c).
Proof using. intros Hl Hb [[] ? ? []]. split; [split|..]; done. Qed.

Lemma typed_update_flags w r cf ovf c : cpu_typed c → cpu_typed (update_flags w r cf ovf c).
Proof using. intros Hc. unfold update_flags. cbv zeta. repeat (apply typed_set_flag; [lia|]). done. Qed.

(** * Operations keep the types *)
Lemma typed_stable : mem_stable typed.
Proof using. split; intros ? s []; split; done. Qed.

(** [yields Q m]: [m] keeps the types, and what it returns has [Q]. *)
Definition yields {A} (Q : A → Prop) (m : NEMU A) : Prop :=
  ∀ s, typed s → match m s with Ok a s' => typed s' ∧ Q a | Jump s' => typed s' | Fail_ _ => True end.

Lemma yields_keeps {A} (Q : A → Prop) m : yields Q m → keeps typed m.
Proof using. intros H s Hs. specialize (H s Hs). destruct (m s); [apply H|done..]. Qed.

Lemma yields_bind {A B} (Q : A → Prop) (R : B → Prop) m k :
  yields Q m → (∀ a, Q a → yields R (k a)) → yields R (m ≫= k).
Proof using.
  intros Hm Hk s Hs. specialize (Hm s Hs). unfold mbind, M_bind. destruct (m s); [|done..].
  destruct Hm as [Hs' HQ]. now apply Hk.
Qed.

Lemma yields_keeps_bind {A B} (Q : A → Prop) (m : NEMU A) (k : A → NEMU B) :
  yields Q m → (∀ a, Q a → keeps typed (k a)) → keeps typed (m ≫= k).
Proof using.
  intros Hm Hk s Hs. specialize (Hm s Hs). unfold mbind, M_bind. destruct (m s); [|done..].
  destruct Hm as [Hs' HQ]. now apply Hk.
Qed.

Lemma keeps_yields_bind {A B} (R : B → Prop) (m : NEMU A) (k : A → NEMU B) :
  keeps typed m → (∀ a, yields R (k a)) → yields R (m ≫= k).
Proof using.
  intros Hm Hk s Hs. specialize (Hm s Hs). unfold mbind, M_bind. destruct (m s); [|done..]. now apply Hk.
Qed.

Lemma yields_ret {A} (Q : A → Prop) a : Q a → yields Q (mret a).
Proof using. intros HQ s Hs. done. Qed.

Lemma yields_if {A} (Q : A → Prop) (b : bool) m1 m2 : yields Q m1 → yields Q m2 → yields Q (if b then m1 else m2).
Proof using. now destruct b. Qed.

Lemma yields_mono {A} (Q R : A → Prop) m : (∀ a, Q a → R a) → yields Q m → yields R m.
Proof using. intros H Hm s Hs. specialize (Hm s Hs). destruct (m s); [|done..]. destruct Hm. auto. Qed.

Lemma keeps_mod_cpu f : (∀ c, cpu_typed c → cpu_typed (f c)) → keeps typed (mod_cpu f).
Proof using. intros Hf. apply keeps_modify. intros s [H1 H2 H3 H4 H5]. split; [apply Hf, H1|exact H2|exact H3|exact H4|exact H5]. Qed.

Lemma keeps_get_cpu {A} (f : CPU_state → A) : keeps typed (get_cpu f).
Proof using. apply keeps_gets. Qed.

Lemma keeps_get_op {A} r (f : Operand → A) : keeps typed (get_op r f).
Proof using. apply keeps_gets. Qed.

Lemma ops_typed_set r f d : ops_typed d → (∀ o, operand_typed o → operand_typed (f o)) → ops_typed (set_operand r f d).
Proof using. intros (H0 & H1 & H2 & H3) Hf. unfold ops_typed. destruct r; cbn; auto. Qed.

Lemma keeps_mod_op r f : (∀ o, operand_typed o → operand_typed (f o)) → keeps typed (mod_op r f).
Proof using. intros Hf. apply keeps_modify. intros s [H1 H2 H3 H4 H5]. split; [exact H1|now apply ops_typed_set|exact H3|exact H4|exact H5]. Qed.

Lemma typed_op_type t o : operand_typed o → operand_typed (set_op_type t o).
Proof using. intros []. now split. Qed.
Lemma typed_op_size t o : operand_typed o → operand_typed (set_op_size t o).
Proof using. intros []. now split. Qed.
Lemma typed_op_u t o : operand_typed o → operand_typed (set_op_u t o).
Proof using. intros []. split; try done. apply word32_u32. Qed.
Lemma typed_op_sreg t o : operand_typed o → operand_typed (set_op_sreg t o).
Proof using. intros []. split; try done. apply (wrap_range 8). lia. Qed.
Lemma typed_op_val t o : operand_typed o → operand_typed (set_op_val t o).
Proof using. intros []. split; try done. apply word32_u32. Qed.
#[local] Hint Resolve typed_op_type typed_op_size typed_op_u typed_op_sreg typed_op_val : nemu.

(** Memory. *)
Lemma types_lnaddr_read a len : keeps typed (lnaddr_read a len).
Proof using. apply keeps_lnaddr_read, typed_stable. Qed.
Lemma types_lnaddr_write a len v : keeps typed (lnaddr_write a len v).
Proof using. apply keeps_lnaddr_write, typed_stable. Qed.
Lemma types_swaddr_read a len sr : keeps typed (swaddr_read a len sr).
Proof using. apply keeps_swaddr_read, typed_stable. Qed.
Lemma types_swaddr_write a len v sr : keeps typed (swaddr_write a len v sr).
Proof using. apply keeps_swaddr_write, typed_stable. Qed.
Lemma types_instr_fetch a len : keeps typed (instr_fetch a len).
Proof using. apply types_swaddr_read. Qed.
Lemma types_hwaddr_read a len : keeps typed (hwaddr_read a len).
Proof using. apply keeps_hwaddr_read, typed_stable. Qed.

(** What a read returns fits its length: every hardware read is masked. *)
Lemma len_mask_range len : len <= 4 → 0 <= len_mask len < 2 ^ 32.
Proof using.
  intros Hl. unfold len_mask. rewrite (Z.shiftl_mul_pow2 _ 3), Z.shiftr_div_pow2 by lia.
  assert (0 < 2 ^ ((4 - len) * 2 ^ 3)) by (apply Z.pow_pos_nonneg; lia).
  split; [apply Z.div_pos; lia|]. apply Z.div_lt_upper_bound; [lia|]. nia.
Qed.

Lemma yields_hwaddr_read a len : len <= 4 → yields word32 (hwaddr_read a len).
Proof using.
  intros Hl. pose proof (len_mask_range len Hl) as Hm.
  assert (∀ v, word32 (Z.land v (len_mask len))) as Hv by (intros v; rewrite Z.land_comm; now apply (land_range 32)).
  unfold hwaddr_read. apply keeps_yields_bind; [apply keeps_gets|]. intros n. apply yields_if.
  - apply keeps_yields_bind; [apply keeps_in_caches, typed_stable|]. intros v. now apply yields_ret.
  - apply keeps_yields_bind; [|intros v; now apply yields_ret].
    unfold mmio_read. repeat (keeps_step; cbv zeta); auto using keeps_mmio_callback, typed_stable.
Qed.

Lemma yields_lnaddr_read a len : yields word32 (lnaddr_read a len).
Proof using.
  unfold lnaddr_read. destruct ((len =? 1) || (len =? 2) || (len =? 4)) eqn:E; [|intros s Hs; exact I].
  apply (keeps_yields_bind _ (cassert true)); [apply keeps_cassert|]. intros _.
  pose proof (Z.mod_pos_bound a 4096 ltac:(lia)). rewrite page_off.
  destruct (Z.ltb_spec 0xfff (a mod 4096 + len - 1)).
  - apply keeps_yields_bind; [apply keeps_page_translate, typed_stable|]. intros h.
    apply (yields_bind word32); [apply yields_hwaddr_read; lia|]. intros low Hlow.
    apply keeps_yields_bind; [apply keeps_page_translate, typed_stable|]. intros h'.
    apply keeps_yields_bind; [apply types_hwaddr_read|]. intros high.
    apply yields_ret, (lor_range 32); [lia|apply word32_u32|done].
  - apply keeps_yields_bind; [apply keeps_page_translate, typed_stable|]. intros h.
    apply yields_hwaddr_read. lia.
Qed.

Lemma yields_swaddr_read a len sr : yields word32 (swaddr_read a len sr).
Proof using.
  unfold swaddr_read. apply keeps_yields_bind; [apply keeps_cassert|]. intros _.
  apply keeps_yields_bind; [|intros l; apply yields_lnaddr_read].
  unfold seg_translate. repeat (keeps_step; cbv zeta); apply keeps_get_cpu.
Qed.

(** Registers. *)
Lemma types_set_reg_l i v : keeps typed (set_reg_l i v).
Proof using.
  apply keeps_bind; [unfold check_reg_index; repeat keeps_step|]. intros j.
  apply keeps_mod_cpu. intros c. apply typed_set_gpr_l.
Qed.
Lemma types_set_reg_w i v : keeps typed (set_reg_w i v).
Proof using.
  apply keeps_bind; [unfold check_reg_index; repeat keeps_step|]. intros j.
  apply keeps_mod_cpu. intros c. apply typed_set_gpr_w.
Qed.
Lemma types_set_reg_b i v : keeps typed (set_reg_b i v).
Proof using.
  unfold set_reg_b, check_reg_index, cassert. destruct (_ && _) eqn:E; [|intros s Hs; exact I].
  intros s Hs. refine (keeps_mod_cpu (set_gpr_b i v) _ s Hs). intros c. apply typed_set_gpr_b. lia.
Qed.
Lemma types_reg_l i : keeps typed (reg_l i).
Proof using. unfold reg_l, check_reg_index. repeat keeps_step. apply keeps_get_cpu. Qed.
Lemma types_reg_w i : keeps typed (reg_w i).
Proof using. unfold reg_w, check_reg_index. repeat keeps_step. apply keeps_get_cpu. Qed.
Lemma types_reg_b i : keeps typed (reg_b i).
Proof using. unfold reg_b, check_reg_index. repeat keeps_step. apply keeps_get_cpu. Qed.

Lemma yields_reg_l i : yields word32 (reg_l i).
Proof using.
  unfold reg_l, check_reg_index. apply keeps_yields_bind; [repeat keeps_step|]. intros j s Hs.
  split; [done|apply Hs].
Qed.

(** Assignments of the processor's state. *)
Ltac typed_cpu :=
  let c := fresh "c" in let Hc := fresh "Hc" in
  intros c Hc; unfold logic_flags, shift_flags, set_base_15_0, set_base_23_16, set_base_31_24, set_limit_15_0, set_limit_19_16;
  cbv zeta;
  repeat first
    [ exact Hc | apply typed_set_flag; [lia|] | apply typed_update_flags | apply typed_set_gpr_l | apply typed_set_gpr_w
    | apply typed_selector | apply typed_seg_cache | apply typed_eip; [apply word32_u32|]
    | apply typed_cr0; [apply (set_bitfield_range _ _ _ _ 32); (lia || apply Hc)|] ].

Lemma types_put_eip e : keeps typed (put_eip e).
Proof using. apply keeps_mod_cpu. typed_cpu. Qed.

Ltac head_of t := lazymatch t with ?f _ => head_of f | _ => t end.

(** The operations whose lemmas are known, by their names. *)
Ltac types_leaf := lazymatch goal with
  | |- keeps _ (lnaddr_read _ _) => apply types_lnaddr_read
  | |- keeps _ (lnaddr_write _ _ _) => apply types_lnaddr_write
  | |- keeps _ (swaddr_read _ _ _) => apply types_swaddr_read
  | |- keeps _ (swaddr_write _ _ _ _) => apply types_swaddr_write
  | |- keeps _ (instr_fetch _ _) => apply types_instr_fetch
  | |- keeps _ (hwaddr_read _ _) => apply types_hwaddr_read
  | |- keeps _ (set_reg_l _ _) => apply types_set_reg_l
  | |- keeps _ (set_reg_w _ _) => apply types_set_reg_w
  | |- keeps _ (set_reg_b _ _) => apply types_set_reg_b
  | |- keeps _ (reg_l _) => apply types_reg_l
  | |- keeps _ (reg_w _) => apply types_reg_w
  | |- keeps _ (reg_b _) => apply types_reg_b
  | |- keeps _ (put_eip _) => apply types_put_eip
  | |- keeps _ (get_cpu _) => apply keeps_get_cpu
  | |- keeps _ (get_op _ _) => apply keeps_get_op
  | |- keeps _ (mod_op _ _) => apply keeps_mod_op; intros ? ?; solve [auto with nemu]
  | |- keeps _ (mod_cpu _) => apply keeps_mod_cpu; solve [typed_cpu]
  end.

(** One step of a run: a known operation, a case of the monad, or the definition of what
    is run. *)
Ltac types_step := cbv beta zeta; first
  [ types_leaf | assumption | keeps_step
  | match goal with |- keeps _ ?m => let h := head_of m in progress unfold h end ].
Ltac types_run := repeat types_step.

(** Decoding. *)
Lemma types_REG w i : keeps typed (REG w i).
Proof using. types_run. Qed.
Lemma types_set_REG w i v : keeps typed (set_REG w i v).
Proof using. types_run. Qed.
Lemma types_read_ModR_M eip rm reg : keeps typed (read_ModR_M eip rm reg).
Proof using. types_run. Qed.
Lemma types_write_operand w r v : keeps typed (write_operand w r v).
Proof using. types_run. Qed.

Ltac types_leaf2 := lazymatch goal with
  | |- keeps _ (REG _ _) => apply types_REG
  | |- keeps _ (set_REG _ _ _) => apply types_set_REG
  | |- keeps _ (read_ModR_M _ _ _) => apply types_read_ModR_M
  | |- keeps _ (write_operand _ _ _) => apply types_write_operand
  | _ => types_leaf
  end.
Ltac types_step2 := cbv beta zeta; first
  [ types_leaf2 | assumption | keeps_step
  | match goal with |- keeps _ ?m => let h := head_of m in progress unfold h end ].

Lemma types_decode_rm_internal w eip rm reg : keeps typed (decode_rm_internal w eip rm reg).
Proof using. repeat types_step2. Qed.
Lemma types_decode_r_internal w eip r : keeps typed (decode_r_internal w eip r).
Proof using. repeat types_step2. Qed.
Lemma types_decode_i w eip : keeps typed (decode_i w eip).
Proof using. repeat types_step2. Qed.
Lemma types_decode_si w eip : keeps typed (decode_si w eip).
Proof using. repeat types_step2. Qed.
Lemma types_decode_a w eip r : keeps typed (decode_a w eip r).
Proof using. repeat types_step2. Qed.
Lemma types_load_addr eip m r : keeps typed (load_addr eip m r).
Proof using. repeat types_step2. Qed.

(** The devices behind the ports. *)
Lemma types_port p : keeps typed (port p).
Proof using. apply keeps_gets. Qed.

Lemma pio_set_bytes {CB} (b : Pio CB) k v : is_bytes (aget (pio_space b)) → is_bytes (aget (pio_space (pio_set k v b))).
Proof using.
  intros Hb i. unfold pio_set; cbn. rewrite aget_aset. destruct (_ =? _); [apply (wrap_range 8); lia|apply Hb].
Qed.

Lemma types_set_port p v : keeps typed (set_port p v).
Proof using. apply keeps_modify. intros s [H1 H2 H3 H4 H5]. split; [exact H1|exact H2|now apply pio_set_bytes|exact H4|exact H5]. Qed.

Lemma types_mod_ide f : keeps typed (mod_ide f).
Proof using. apply keeps_modify. intros s [H1 H2 H3 H4 H5]. split; [exact H1|exact H2|exact H3|exact H4|exact H5]. Qed.

Lemma types_in_vga {A} (m : M Vga A) : keeps typed (in_vga m).
Proof using. apply keeps_zoom. intros s [H1 H2 H3 H4 H5]. destruct (m _); [split; assumption..|done]. Qed.

Lemma types_in_caches {A} (m : M Caches A) : keeps typed (in_caches m).
Proof using. apply keeps_in_caches, typed_stable. Qed.

Lemma types_raise n : n ∈ [TIMER_IRQ; KEYBOARD_IRQ; IDE_IRQ] → keeps typed (in_pic (i8259_raise_intr n)).
Proof using.
  intros Hl. pose proof (dev_line n Hl) as [Hn H2]. apply keeps_zoom. intros s [? ? ? Hp ?].
  destruct (raise_ok (pic s) n (pic_reachable_ok _ (dev_reachable _ Hp)) Hn H2) as (p & Hr & _).
  rewrite Hr. split; try assumption. cbn [pic set_pic]. apply (rtc_r _ _ _ Hp). now apply (dev_raise n).
Qed.

Lemma types_serial_out f : keeps typed (modify (λ s, set_serial_out (f s) s)).
Proof using. apply keeps_modify. intros s [H1 H2 H3 H4 H5]. split; [exact H1|exact H2|exact H3|exact H4|exact H5]. Qed.

Lemma types_newkey b : keeps typed (modify (set_newkey b)).
Proof using. apply keeps_modify. intros s [H1 H2 H3 H4 H5]. split; [exact H1|exact H2|exact H3|exact H4|exact H5]. Qed.

Lemma types_nemu_state n : keeps typed (modify (set_nemu_state n)).
Proof using. apply keeps_modify. intros s [H1 H2 H3 H4 H5]. split; [exact H1|exact H2|exact H3|exact H4|exact H5]. Qed.

(** [fread] puts bytes in the ports. *)
Lemma types_fread_ports (l : list (Z * Z)) : keeps typed (modify (λ s,
  set_pio (foldl (λ b '(i, v), pio_set (IDE_PORT + i) v b) (pio s) l) s)).
Proof using.
  apply keeps_modify. intros s [H1 H2 H3 H4 H5]. split; [exact H1|exact H2| |exact H4|exact H5]. cbn. clear H1 H2 H4 H5. revert H3.
  generalize (pio s). induction l as [|[i v] l IH]; intros b Hb; [exact Hb|]. cbn. now apply IH, pio_set_bytes.
Qed.

Ltac types_leaf3 := lazymatch goal with
  | |- keeps _ (port _) => apply types_port
  | |- keeps _ (set_port _ _) => apply types_set_port
  | |- keeps _ (mod_ide _) => apply types_mod_ide
  | |- keeps _ (in_vga _) => apply types_in_vga
  | |- keeps _ (in_caches _) => apply types_in_caches
  | |- keeps _ (in_pic (i8259_raise_intr _)) => apply types_raise; set_solver
  | |- keeps _ (modify (set_newkey _)) => apply types_newkey
  | |- keeps _ (modify (set_nemu_state _)) => apply types_nemu_state
  | |- keeps _ (modify _) => first [apply types_serial_out | apply types_fread_ports]
  | _ => types_leaf2
  end.
Ltac types_dev := cbv beta zeta; first
  [ types_leaf3 | assumption | keeps_step
  | match goal with |- keeps _ ?m => let h := head_of m in progress unfold h end ].

Lemma types_pio_callback_fn cb addr len w : keeps typed (pio_callback_fn cb addr len w).
Proof using. destruct cb; cbn [pio_callback_fn]; repeat types_dev.
Qed.

Lemma types_pio_callback addr len w : keeps typed (pio_callback pio pio_callback_fn addr len w).
Proof using.
  unfold pio_callback. apply keeps_bind; [apply keeps_gets|]. intros b.
  induction (pio_maps b) as [|m maps IH]; [apply keeps_ret|]. cbn [pio_callback_in].
  apply keeps_if; intros _; [apply types_pio_callback_fn|exact IH].
Qed.

Lemma types_pio_in addr len : keeps typed (pio_in addr len).
Proof using.
  unfold pio_in, pio_read. repeat (apply keeps_bind; [apply keeps_cassert || apply types_pio_callback || apply keeps_gets|intros ?]).
  apply keeps_ret.
Qed.

Lemma types_pio_out addr len v : keeps typed (pio_out addr len v).
Proof using.
  unfold pio_out, pio_write. do 2 (apply keeps_bind; [apply keeps_cassert|intros _]).
  apply keeps_bind; [|intros _; apply types_pio_callback]. apply keeps_modify.
  intros s [H1 H2 H3 H4 H5]. split; [exact H1|exact H2|now apply le_store_bytes|exact H4|exact H5].
Qed.

(** * Instructions *)
Ltac types_leaf4 := lazymatch goal with
  | |- keeps _ (decode_rm_internal _ _ _ _) => apply types_decode_rm_internal
  | |- keeps _ (decode_r_internal _ _ _) => apply types_decode_r_internal
  | |- keeps _ (decode_i _ _) => apply types_decode_i
  | |- keeps _ (decode_si _ _) => apply types_decode_si
  | |- keeps _ (decode_a _ _ _) => apply types_decode_a
  | |- keeps _ (load_addr _ _ _) => apply types_load_addr
  | |- keeps _ (pio_in _ _) => apply types_pio_in
  | |- keeps _ (pio_out _ _ _) => apply types_pio_out
  | _ => types_leaf3
  end.
Ltac types_instr := cbv beta zeta; first
  [ types_leaf4 | assumption | keeps_step
  | match goal with |- keeps _ ?m => let h := head_of m in progress unfold h end ].

(** Those that assign what they read to a register of the processor. *)
Lemma yields_keeps_mod {A} (m : NEMU Z) (f : Z → CPU_state → CPU_state) (k : unit → NEMU A) :
  yields word32 m → (∀ v c, word32 v → cpu_typed c → cpu_typed (f v c)) → (∀ u, keeps typed (k u)) →
  keeps typed (v ← m; u ← mod_cpu (f v); k u).
Proof using.
  intros Hm Hf Hk. apply (yields_keeps_bind word32); [exact Hm|]. intros v Hv.
  apply keeps_bind; [|exact Hk]. apply keeps_mod_cpu. intros c. now apply Hf.
Qed.

Lemma types_mov_r2cr eip : keeps typed (mov_r2cr eip).
Proof using.
  unfold mov_r2cr. apply keeps_bind; [apply types_instr_fetch|]. intros r. apply keeps_bind; [|intros; apply keeps_ret].
  apply keeps_if; intros _; apply (yields_keeps_bind word32); try apply yields_reg_l; intros v Hv.
  - apply keeps_mod_cpu. intros c. now apply typed_cr0.
  - apply keeps_bind; [apply keeps_mod_cpu; intros c; now apply typed_cr3|]. intros _.
    apply keeps_modify. intros s. apply (ms_tlb _ typed_stable).
Qed.

Lemma types_lgdt w eip : keeps typed (lgdt w eip).
Proof using.
  unfold lgdt. apply keeps_bind; [repeat types_instr|]. intros len. apply keeps_bind; [apply keeps_get_op|]. intros addr.
  apply keeps_bind; [apply types_lnaddr_read|]. intros l.
  apply keeps_bind; [apply keeps_mod_cpu; intros c Hc; apply typed_gdtr; [apply (wrap_range 16); lia|apply Hc|exact Hc]|]. intros _.
  apply yields_keeps_mod; [apply yields_if; apply yields_lnaddr_read| |intros; apply keeps_ret].
  intros v c Hv Hc. apply typed_gdtr; [apply Hc|exact Hv|exact Hc].
Qed.

Lemma types_lidt w eip : keeps typed (lidt w eip).
Proof using.
  unfold lidt. apply keeps_bind; [repeat types_instr|]. intros len. apply keeps_bind; [apply keeps_get_op|]. intros addr.
  apply keeps_bind; [apply types_lnaddr_read|]. intros l.
  apply keeps_bind; [apply keeps_mod_cpu; intros c Hc; apply typed_idtr; [apply (wrap_range 16); lia|apply Hc|exact Hc]|]. intros _.
  apply yields_keeps_mod; [apply yields_if; apply yields_lnaddr_read| |intros; apply keeps_ret].
  intros v c Hv Hc. apply typed_idtr; [apply Hc|exact Hv|exact Hc].
Qed.

Lemma types_ret_clear w n i : keeps typed (ret_clear w n i).
Proof using. revert i; induction n as [|n IH]; intros i; cbn [ret_clear]; repeat types_instr. apply IH. Qed.

Lemma types_raise_intr {A} n : keeps typed (@raise_intr _ _ A n).
Proof using. unfold raise_intr, intr_push. repeat types_instr. Qed.

Lemma types_iret eip : keeps typed (iret eip).
Proof using.
  unfold iret. do 6 (apply keeps_bind; [repeat types_instr|intros ?]).
  do 5 (apply keeps_bind; [repeat types_instr|intros ?]).
  apply yields_keeps_mod; [apply yields_swaddr_read|intros v c; apply typed_eflags|]. intros _. repeat types_instr.
Qed.

Lemma types_imul_rm2r w eip : keeps typed (imul_rm2r w eip).
Proof using.
  unfold imul_rm2r. apply keeps_bind; [repeat types_instr|]. intros len.
  apply keeps_bind; [|intros _; repeat types_instr]. apply keeps_modify.
  intros s [H1 H2 H3 H4 H5]. split; [exact H1| |exact H3|exact H4|exact H5].
  cbn [ops_decoded set_ops]. pose proof H2 as (_ & _ & Hd & _). now apply ops_typed_set.
Qed.

Lemma types_put_opcode o : keeps typed (put_opcode o).
Proof using.
  apply keeps_modify. intros s [H1 (_ & H2) H3 H4 H5]. split; [exact H1| |exact H3|exact H4|exact H5].
  split; [apply word32_u32|exact H2].
Qed.

Lemma types_put_operand_size b : keeps typed (put_operand_size_16 b).
Proof using. apply keeps_modify. intros s [H1 H2 H3 H4 H5]. split; [exact H1|exact H2|exact H3|exact H4|exact H5]. Qed.

Ltac types_leaf5 := lazymatch goal with
  | |- keeps _ (mov_r2cr _) => apply types_mov_r2cr
  | |- keeps _ (lgdt _ _) => apply types_lgdt
  | |- keeps _ (lidt _ _) => apply types_lidt
  | |- keeps _ (iret _) => apply types_iret
  | |- keeps _ (imul_rm2r _ _) => apply types_imul_rm2r
  | |- keeps _ (ret_clear _ _ _) => apply types_ret_clear
  | |- keeps _ (raise_intr _) => apply types_raise_intr
  | |- keeps _ (put_opcode _) => apply types_put_opcode
  | |- keeps _ (put_operand_size_16 _) => apply types_put_operand_size
  | _ => types_leaf4
  end.
Ltac types_helper := cbv beta zeta; first
  [ types_leaf5 | assumption | keeps_step
  | match goal with |- keeps _ ?m => let h := head_of m in progress unfold h end ].

(** A helper of the opcode tables. *)
Definition helper_typed (h : helper) : Prop := ∀ eip, keeps typed (h eip).

Lemma inv_typed : helper_typed inv.
Proof using. intros eip. repeat types_helper. Qed.

Lemma types_nth (l : list helper) n : Forall helper_typed l → helper_typed (nth n l inv).
Proof using.
  intros Hl. destruct (nth_in_or_default n l inv) as [Hi| ->]; [|exact inv_typed].
  rewrite Forall_forall in Hl. now apply Hl.
Qed.

Lemma types_group (l : list helper) : Forall helper_typed l → helper_typed (make_group l).
Proof using.
  intros Hl eip. unfold make_group. apply keeps_bind; [apply types_instr_fetch|]. intros m. now apply types_nth.
Qed.

Lemma group1_typed : helper_typed group1_b ∧ helper_typed group1_v ∧ helper_typed group1_sx_v.
Proof using. split_and!; apply types_group; repeat constructor; intros eip; repeat types_helper. Qed.
Lemma group2_typed : helper_typed group2_i_b ∧ helper_typed group2_i_v ∧ helper_typed group2_1_b ∧
  helper_typed group2_1_v ∧ helper_typed group2_cl_b ∧ helper_typed group2_cl_v.
Proof using. split_and!; apply types_group; repeat constructor; intros eip; repeat types_helper. Qed.
Lemma group3_typed : helper_typed group3_b ∧ helper_typed group3_v.
Proof using. split_and!; apply types_group; repeat constructor; intros eip; repeat types_helper. Qed.
Lemma group4_7_typed : helper_typed group4 ∧ helper_typed group5 ∧ helper_typed group6 ∧ helper_typed group7.
Proof using. split_and!; apply types_group; repeat constructor; intros eip; repeat types_helper. Qed.

Ltac types_group_of := lazymatch goal with
  | |- helper_typed inv => exact inv_typed
  | |- helper_typed group1_b => apply group1_typed
  | |- helper_typed group1_v => apply group1_typed
  | |- helper_typed group1_sx_v => apply group1_typed
  | |- helper_typed group2_i_b => apply group2_typed
  | |- helper_typed group2_i_v => apply group2_typed
  | |- helper_typed group2_1_b => apply group2_typed
  | |- helper_typed group2_1_v => apply group2_typed
  | |- helper_typed group2_cl_b => apply group2_typed
  | |- helper_typed group2_cl_v => apply group2_typed
  | |- helper_typed group3_b => apply group3_typed
  | |- helper_typed group3_v => apply group3_typed
  | |- helper_typed group4 => apply group4_7_typed
  | |- helper_typed group5 => apply group4_7_typed
  | |- helper_typed group6 => apply group4_7_typed
  | |- helper_typed group7 => apply group4_7_typed
  | |- _ => intros ?eip; repeat types_helper
  end.
Ltac types_table := repeat (apply Forall_cons; [types_group_of|]); apply Forall_nil.

Lemma two_byte_typed : Forall helper_typed two_byte_opcode_table.
Proof using. unfold two_byte_opcode_table. types_table. Qed.

Lemma two_byte_esc_typed : helper_typed two_byte_esc.
Proof using.
  intros eip. unfold two_byte_esc. apply keeps_bind; [repeat types_helper|]. intros o.
  apply keeps_bind; [apply types_put_opcode|]. intros _.
  apply keeps_bind; [apply types_nth, two_byte_typed|]. intros len. apply keeps_ret.
Qed.

Section Executor.
Context (ex : helper) (Hex : helper_typed ex).

Lemma operand_size_typed : helper_typed (operand_size ex).
Proof using Hex.
  intros eip. unfold operand_size. apply keeps_bind; [apply types_put_operand_size|]. intros _.
  apply keeps_bind; [apply Hex|]. intros len. repeat types_helper.
Qed.

Lemma rep_loop_typed n zf eip : keeps typed (rep_loop ex n zf eip).
Proof using Hex.
  induction n as [|n IH]; cbn [rep_loop]; (apply keeps_bind; [apply keeps_get_cpu|]; intros ecx);
    (apply keeps_if; intros _; [apply keeps_ret|]); [apply keeps_fail|].
  apply keeps_bind; [apply Hex|]. intros _. apply keeps_bind; [apply keeps_get_cpu|]. intros e.
  apply keeps_bind; [apply keeps_mod_cpu; typed_cpu|]. intros _. apply keeps_bind; [apply keeps_getS|]. intros s.
  apply keeps_if; intros _; [apply keeps_ret|exact IH].
Qed.

Lemma rep_typed fuel : helper_typed (rep ex fuel).
Proof using Hex.
  intros eip. unfold rep. apply keeps_bind; [apply types_instr_fetch|]. intros o.
  apply keeps_if; intros _; (apply keeps_bind; [|intros _; apply keeps_ret]); [apply Hex|apply rep_loop_typed].
Qed.

Lemma repnz_typed fuel : helper_typed (repnz ex fuel).
Proof using Hex.
  intros eip. unfold repnz. apply keeps_bind; [apply rep_loop_typed|]. intros _. apply keeps_ret.
Qed.

Ltac types_prefix := lazymatch goal with
  | |- helper_typed two_byte_esc => exact two_byte_esc_typed
  | |- helper_typed (operand_size _) => exact operand_size_typed
  | |- helper_typed (rep _ _) => apply rep_typed
  | |- helper_typed (repnz _ _) => apply repnz_typed
  | |- _ => types_group_of
  end.

Lemma opcode_table_typed fuel : Forall helper_typed (opcode_table ex fuel).
Proof using Hex. unfold opcode_table. repeat (apply Forall_cons; [types_prefix|]). apply Forall_nil. Qed.
End Executor.

Lemma exec_typed fuel : helper_typed (exec fuel).
Proof using.
  induction fuel as [|fuel IH]; intros eip; cbn [exec]; [apply keeps_fail|].
  apply keeps_bind; [apply types_instr_fetch|]. intros o. apply keeps_bind; [apply types_put_opcode|]. intros _.
  now apply types_nth, opcode_table_typed.
Qed.

(** * The main loop *)
Lemma types_sdl f : keeps typed (mod_sdl f).
Proof using. apply keeps_modify. intros s [H1 H2 H3 H4 H5]. split; [exact H1|exact H2|exact H3|exact H4|exact H5]. Qed.

Lemma typed_debug s d : typed s → wps_ok (wps d) → typed (set_debug d s).
Proof using. intros [H1 H2 H3 H4 H5] Hd. now split. Qed.

Lemma types_in_debug {A} (m : M Debug A) : keeps (λ d, wps_ok (wps d)) m → keeps typed (in_debug m).
Proof using.
  intros Hm. apply keeps_zoom. intros s Hs. specialize (Hm (debug s) (ty_wps _ Hs)).
  destruct (m _); [now apply typed_debug|now apply typed_debug|done].
Qed.

Lemma types_in_wps {A} (m : M WpState A) : keeps wps_ok m → keeps typed (in_wps m).
Proof using.
  intros Hm. apply types_in_debug, keeps_zoom. intros d Hd. specialize (Hm (wps d) Hd). now destruct (m _).
Qed.

(** The debugger only reads the processor and the memory. *)
Lemma types_expr e : keeps typed (expr e).
Proof using.
  apply keeps_expr; [exact typed_stable|]. intros s d Hs Hw _. apply typed_debug; [done|]. rewrite Hw. apply Hs.
Qed.

Lemma types_check_WP : keeps typed check_WP.
Proof using.
  unfold check_WP. apply keeps_bind; [apply keeps_getS|]. intros s. generalize (WpPool.head (wps (debug s))) true.
  generalize walk_fuel. intros n; induction n as [|n IH]; intros [p|] key; cbn [check_WP_from];
    [apply keeps_fail|apply keeps_ret| |apply keeps_ret].
  apply keeps_bind; [apply types_in_wps; auto with nemu|]. intros w. apply keeps_bind; [apply types_expr|]. intros [v|]; [|apply keeps_fail].
  apply keeps_bind; [apply keeps_if; intros _; [apply types_in_wps; auto with nemu|apply keeps_ret]|]. intros _.
  apply keeps_bind; [apply types_in_wps; auto with nemu|]. intros w'. apply IH.
Qed.

(** The test of the watchpoints goes once along the list in use, whatever the expressions
    do: from its node [length us1] on. *)
Lemma wps_stable w : mem_stable (λ s, wps (debug s) = w).
Proof using. split; done. Qed.

Lemma check_WP_from_ends n us1 us2 fs d key s : pool_rep (wps (debug s)) (us1 ++ us2) fs d → (length us2 <= n)%nat →
  check_WP_from n (first us2 None) key s ≠ Fail_ EFuel.
Proof using.
  revert us1 us2 key s; induction n as [|n IH]; intros us1 [|i us2] key s Hr Hn; cbn [first check_WP_from length] in *;
    try lia; try discriminate.
  assert (∀ s', in_wps (deref (Pool i)) s' = Ok (aget (wp_pool (wps (debug s'))) i) s') as Ed by (intros []; now destruct debug, wps).
  rewrite (bind_Ok _ _ _ _ _ (Ed s)). set (w := aget _ _). unfold mbind at 1, M_bind at 1.
  pose proof (no_fuel_expr (wp_str w) s) as Hf.
  pose proof (keeps_expr _ (wps_stable (wps (debug s))) ltac:(intros ? ? Hs Hw _; cbn; congruence) (wp_str w) s eq_refl) as Hk.
  destruct (expr (wp_str w) s) as [[v|] s1|s1|e]; [|discriminate|discriminate|congruence].
  set (m := if negb (v =? wp_val w) then _ else _).
  assert (∃ s2, m s1 = Ok tt s2 ∧ pool_rep (wps (debug s2)) (us1 ++ i :: us2) fs d) as (s2 & Em & Hr2).
  { unfold m. rewrite <- Hk in Hr. destruct (negb _); [|now exists s1].
    eexists. split; [reflexivity|]. cbn [debug set_debug wps set_wps]. now apply rep_update. }
  rewrite (bind_Ok _ _ _ _ _ Em), (bind_Ok _ _ _ _ _ (Ed s2)).
  pose proof (pr_used _ _ _ _ Hr2) as Hu. apply chain_app in Hu as [_ [-> _]].
  apply (IH (us1 ++ [i])); [now rewrite <- app_assoc|lia].
Qed.

Lemma check_WP_ends s : wps_ok (wps (debug s)) → check_WP s ≠ Fail_ EFuel.
Proof using.
  intros (_ & ops & p & _ & Hp). unfold check_WP. rewrite bind_getS, (pr_head _ _ _ _ Hp).
  apply (check_WP_from_ends _ [] _ (unused p) (dead p)); [exact Hp|].
  pose proof (pr_length _ _ _ _ Hp) as Hl. rewrite length_app in Hl. unfold walk_fuel. lia.
Qed.

(** The host: timer signals and events. *)
Lemma types_timer_intr : keeps typed timer_intr.
Proof using. repeat types_dev. Qed.

Lemma types_timer_signals n : keeps typed (timer_signals n).
Proof using.
  induction n as [|n IH]; cbn [timer_signals]; [apply keeps_ret|].
  apply keeps_bind; [|intros _; exact IH]. unfold timer_sig_handler.
  repeat first [apply types_sdl | apply types_timer_intr | keeps_step].
Qed.

Lemma types_keyboard_intr c : keeps typed (keyboard_intr c).
Proof using. repeat types_dev. Qed.

Lemma types_device_update events : keeps typed (device_update events).
Proof using.
  assert (∀ l, keeps typed (poll_events l)) as Hp.
  { intros l; induction l as [|e l IH]; cbn [poll_events]; [apply keeps_ret|].
    apply keeps_bind; [|intros _; exact IH]. unfold key_event.
    destruct e; try case_match; first [apply keeps_fail | apply keeps_ret | apply types_keyboard_intr]. }
  unfold device_update. repeat first [apply Hp | apply types_sdl | apply types_in_vga | keeps_step].
Qed.

Lemma types_print_bin_instr e n : keeps typed (print_bin_instr e n).
Proof using.
  apply keeps_for. intros i _. apply keeps_bind; [apply types_instr_fetch|]. intros b. apply keeps_ret.
Qed.

(** The interrupt is acknowledged only when the controllers raise INTR. *)
Lemma types_interrupt : keeps typed (
  s ← getS;
  if negb (nemu_state s =? RUNNING) then mret false
  else if INTR (pic s) && nz (IF_ (cpu s)) then
    intr_no ← in_pic i8259_query_intr;
    _ ← in_pic i8259_ack_intr;
    raise_intr intr_no
  else mret true).
Proof using.
  intros s Hs. rewrite (bind_Ok getS _ _ _ _ eq_refl).
  destruct (negb _); [exact Hs|]. destruct (INTR (pic s)) eqn:HI; [|exact Hs]. destruct (nz _); [|exact Hs]. cbn [andb].
  pose proof (ty_pic _ Hs) as Hreach.
  destruct (ack_ok (pic s) (pic_reachable_ok _ (dev_reachable _ Hreach)) HI) as (p & Hp & _).
  destruct (in_pic i8259_query_intr s) as [n s'|s'|] eqn:E.
  - rewrite (bind_Ok _ _ _ _ _ E). injection E as <- <-.
    assert (in_pic i8259_ack_intr (set_pic (pic s) s) = Ok tt (set_pic p (set_pic (pic s) s))) as Ha.
    { unfold in_pic, zoom. cbn [pic set_pic]. now rewrite Hp. }
    rewrite (bind_Ok _ _ _ _ _ Ha). apply types_raise_intr. destruct Hs; split; try assumption.
    cbn [pic set_pic]. apply (rtc_r _ _ _ Hreach). now apply dev_ack.
  - discriminate.
  - discriminate.
Qed.

Lemma types_cpu_exec_round fuel h : keeps typed (cpu_exec_round fuel h).
Proof using.
  unfold cpu_exec_round. apply keeps_bind; [apply keeps_get_cpu|]. intros e.
  apply keeps_bind; [apply exec_typed|]. intros n. apply keeps_bind; [apply keeps_mod_cpu; typed_cpu|]. intros _.
  apply keeps_bind; [apply types_print_bin_instr|]. intros _. apply keeps_bind; [apply types_check_WP|]. intros key.
  apply keeps_bind; [apply keeps_if; intros _; [apply types_nemu_state|apply keeps_ret]|]. intros _.
  apply keeps_bind; [apply types_timer_signals|]. intros _. apply keeps_bind; [apply types_device_update|]. intros _.
  apply types_interrupt.
Qed.

Lemma types_cpu_exec_loop rounds fuel n host : keeps typed (cpu_exec_loop rounds fuel n host).
Proof using.
  revert n host; induction rounds as [|rounds IH]; intros n host; cbn [cpu_exec_loop]; (destruct (0 <? n);
    [|apply keeps_bind; [apply keeps_getS|]; intros s; apply keeps_if; intros _; [apply types_nemu_state|apply keeps_ret]]).
  - apply keeps_fail.
  - intros s Hs. pose proof (types_cpu_exec_round fuel (host 0%nat) s Hs) as Hr.
    destruct (cpu_exec_round _ _ _) as [[] s'|s'|e]; [now apply IH|exact Hr|now apply IH|exact I].
Qed.
Lemma types_cpu_exec rounds fuel n host : keeps typed (cpu_exec rounds fuel n host).
Proof using.
  unfold cpu_exec. apply keeps_bind; [apply keeps_getS|]. intros s. apply keeps_if; intros _; [apply keeps_ret|].
  apply keeps_bind; [apply types_nemu_state|]. intros _. apply types_cpu_exec_loop.
Qed.

(** Start-up. *)
Lemma types_map_port addr len cb : keeps typed (map_port addr len cb).
Proof using.
  intros s Hs. unfold map_port, add_pio_map. rewrite (bind_Ok (gets pio) _ _ _ _ eq_refl). unfold cassert.
  destruct (_ <? _); [|exact I]. destruct (_ <=? _); [|exact I].
  destruct Hs as [H1 H2 H3 H4 H5]. split; [exact H1|exact H2|exact H3|exact H4|exact H5].
Qed.

Lemma types_add_mmio_map lo len cb : keeps typed (add_mmio_map mmio set_mmio lo len cb).
Proof using.
  unfold add_mmio_map. repeat (keeps_step; cbv zeta).
  all: intros s [H1 H2 H3 H4 H5]; split; [exact H1|exact H2|exact H3|exact H4|exact H5].
Qed.

Lemma types_init_device disk : keeps typed (init_device disk).
Proof using.
  unfold init_device, init_serial, init_timer, init_vga, init_i8042, init_ide.
  repeat first [apply types_map_port | apply types_set_port | apply types_add_mmio_map | apply types_in_vga
    | apply types_newkey | apply types_mod_ide | keeps_step | case_match].
Qed.

Lemma types_restart h entry disk : keeps typed (restart h entry disk).
Proof using.
  unfold restart, load_entry, hw_store, init_TLB_, init_sdl.
  do 3 (apply keeps_bind; [repeat first [apply types_in_caches | apply keeps_modify; intros s; apply (ms_tlb _ typed_stable) | keeps_step | case_match]|]; intros _).
  do 7 (apply keeps_bind; [apply keeps_mod_cpu; typed_cpu|]; intros _).
  apply keeps_bind; [apply keeps_mod_cpu; intros c; apply typed_eip; done|]. intros _.
  apply keeps_bind; [apply keeps_mod_cpu; intros c; apply typed_eflags; done|]. intros _.
  apply keeps_bind; [apply types_init_device|]. intros _.
  apply keeps_bind; [repeat first [keeps_step|case_match]|]. intros _. apply types_in_caches.
Qed.

(** The debugger's commands. *)
Lemma keeps_print_wp_from (P : WpState → Prop) n h : keeps P (print_wp_from n h).
Proof using.
  revert h; induction n as [|n IH]; intros [p|]; cbn [print_wp_from]; repeat first [apply IH | apply keeps_deref | keeps_step].
Qed.

Lemma types_print_wp : keeps typed print_wp.
Proof using.
  apply types_in_wps, keeps_bind; [apply keeps_getS|]. intros s. apply keeps_print_wp_from.
Qed.

Ltac types_leaf6 := lazymatch goal with
  | |- keeps _ (cpu_exec _ _ _ _) => apply types_cpu_exec
  | |- keeps _ (expr _) => apply types_expr
  | |- keeps _ print_wp => apply types_print_wp
  | |- keeps _ (in_wps _) => apply types_in_wps; auto with nemu
  | |- keeps _ (page_translate _) => apply keeps_page_translate, typed_stable
  | |- keeps _ (restart _ _ _) => apply types_restart
  | |- keeps _ (match ?x with _ => _ end) => destruct x
  | |- keeps _ (if ?b then _ else _) => destruct b
  | _ => types_leaf3
  end.
Ltac types_ui_step := cbv beta zeta; first [ types_leaf6 | keeps_step ].

Section Commands.
Context (rounds fuel frames : nat) (host : nat → nat → HostInput).

Definition command_typed (h : handler) : Prop := ∀ rest k, keeps typed (h rest k).

Lemma cmd_si_typed : command_typed (cmd_si rounds fuel host).
Proof using.
  intros rest k. unfold cmd_si, done_. repeat types_ui_step.
  match goal with |- keeps _ (si_loop _ _ _ ?i k) => generalize k, i end. clear.
  intros k i; revert k; induction i as [|i IH]; intros k; cbn [si_loop]; [apply keeps_ret|].
  apply keeps_bind; [apply types_cpu_exec|]. intros _. apply IH.
Qed.

Lemma cmd_x_typed : command_typed cmd_x.
Proof using.
  assert (∀ n r i, keeps typed (x_loop n r i)) as Hx.
  { intros n; induction n as [|n IH]; intros r i; cbn [x_loop]; repeat first [types_ui_step | apply IH]. }
  intros rest k. unfold cmd_x, expr_word, done_. repeat first [types_ui_step | apply Hx].
Qed.

Lemma cmd_bt_typed : command_typed (cmd_bt frames).
Proof using.
  assert (∀ n a, keeps typed (read_args n a)) as Hw.
  { intros n; induction n as [|n IH]; intros a; cbn [read_args]; repeat first [types_ui_step | apply IH]. }
  assert (∀ n j a r t, keeps typed (bt_loop n j a r t)) as Hb.
  { intros n; induction n as [|n IH]; intros j a r t; cbn [bt_loop]; (apply keeps_if; intros _; [apply keeps_ret|]);
      [apply keeps_fail|]. unfold bt_name, read_ebp. repeat first [types_ui_step | apply IH | apply Hw]. }
  intros rest k. unfold cmd_bt, done_. repeat first [types_ui_step | apply Hb].
Qed.

Lemma cmd_table_typed : Forall command_typed (cmd_table rounds fuel frames host).
Proof using.
  unfold cmd_table. repeat (apply Forall_cons; [lazymatch goal with
    | |- command_typed (cmd_si _ _ _) => apply cmd_si_typed
    | |- command_typed cmd_x => apply cmd_x_typed
    | |- command_typed (cmd_bt _) => apply cmd_bt_typed
    | |- command_typed ?h => intros rest k; let f := head_of h in unfold f, done_; unfold expr_word; repeat types_ui_step
    end|]).
  apply Forall_nil.
Qed.

Lemma ui_line_typed str k : keeps typed (ui_line rounds fuel frames host str k).
Proof using.
  unfold ui_line. case_match; [|apply keeps_ret]. case_match. case_match; [|apply keeps_ret].
  pose proof cmd_table_typed as Ht. rewrite Forall_forall in Ht.
  match goal with |- keeps _ (nth ?i ?l ?d _ _) => destruct (nth_in_or_default i l d) as [Hi|Hd] end.
  - now apply Ht.
  - rewrite Hd. apply keeps_ret.
Qed.

Lemma types_ui_mainloop lines k : keeps typed (ui_mainloop rounds fuel frames host lines k).
Proof using.
  revert k; induction lines as [|str lines IH]; intros k; cbn [ui_mainloop]; [apply keeps_fail|].
  apply keeps_bind; [apply ui_line_typed|]. intros [[r out] k']. apply keeps_if; intros _; [apply keeps_ret|].
  apply keeps_bind; [apply IH|]. intros out'. apply keeps_ret.
Qed.

Lemma types_run_reg_test time : keeps typed (run_reg_test time).
Proof using.
  clear rounds fuel frames host. apply keeps_zoom. intros s [H1 H2 H3 H4 H5].
  assert (keeps (λ t, cpu_typed (rt_cpu t)) reg_test) as Hk.
  { assert (∀ f g, keeps (λ t, cpu_typed (rt_cpu t)) (rt_assert f g)) as Ha.
    { intros f g. apply keeps_bind; [apply keeps_getS|]. intros t. apply keeps_cassert. }
    assert (∀ B (k : Z → M RegTest B), (∀ v, word32 v → keeps (λ t, cpu_typed (rt_cpu t)) (k v)) →
      keeps (λ t, cpu_typed (rt_cpu t)) (rt_rnd ≫= k)) as Hr.
    { intros B k Hk t Ht. unfold rt_rnd, mbind, M_bind. pose proof (libc_rand_range (rt_rand t)) as Hv.
      destruct (libc_rand (rt_rand t)) as [v st]. cbn [fst] in Hv. apply Hk; [unfold word32; lia|exact Ht]. }
    unfold reg_test. apply Hr. intros e He.
    apply keeps_bind; [apply keeps_modify; intros t; apply typed_eip, He|]. intros _.
    apply keeps_bind; [apply keeps_for; intros i _; apply Hr; intros v Hv|].
    { apply keeps_bind; [apply keeps_modify; intros t Ht; exact Ht|]. intros _.
      apply keeps_bind; [apply keeps_modify; intros t Ht; apply typed_set_gpr_l, Ht|]. intros _. apply Ha. }
    intros _. repeat (apply keeps_bind; [first [apply Ha | apply keeps_for; intros i _; apply Ha]|]; intros _). apply Ha. }
  specialize (Hk (mkRegTest (cpu s) (anew 0) (libc_srand time)) H1).
  destruct (reg_test _); [|now split|done]; split; assumption.
Qed.

(** What [main] does before it reads commands. *)
Definition start_up (h : HostStart) (argc time : Z) (exec_file : option File) (entry : option (list Z)) : NEMU unit :=
  _ ← init_monitor h argc exec_file; _ ← run_reg_test time; restart h entry exec_file.

(** The statics of a program that has just been loaded: the controllers and the pool are
    zeroed, the rest is as typed. *)
Record fresh_start (s : Machine) : Prop := {
  fr_cpu : cpu_typed (cpu s);
  fr_ops : ops_typed (ops_decoded s);
  fr_ports : is_bytes (aget (pio_space (pio s)));
  fr_pic : pic s = pic0;
  fr_wps : wps (debug s) = wps0
}.

Lemma init_monitor_typed h argc exec_file s s' : fresh_start s → init_monitor h argc exec_file s = Ok tt s' → typed s'.
Proof using.
  clear rounds fuel frames host. intros [H1 H2 H3 H4 H5]. unfold init_monitor, init_log, mbind, M_bind.
  destruct (cassert (log_opens h) s) as [[] s0| |] eqn:E0; [|discriminate..].
  assert (s0 = s) as -> by (unfold cassert in E0; destruct (log_opens h); [now injection E0|discriminate]).
  destruct (load_elf_tables argc exec_file) as [t u| |]; [|discriminate..]. destruct (symbols t) as [syms|]; [|discriminate].
  unfold in_wps, in_debug, zoom, modify. cbn [debug set_debug wps]. rewrite H5, wps1_run. intros [= <-].
  split; try assumption; cbn [pic set_debug debug wps set_wps]; [now rewrite H4|apply wps1_ok].
Qed.

Lemma start_up_typed h argc time exec_file entry s s' : fresh_start s → start_up h argc time exec_file entry s = Ok tt s' → typed s'.
Proof using.
  intros Hs. unfold start_up, mbind at 1, M_bind at 1. destruct (init_monitor _ _ _ s) as [[] s1| |] eqn:E; [|discriminate..].
  intros Hr. apply (init_monitor_typed _ _ _ _ _ Hs) in E. revert Hr E.
  apply keeps_Ok, keeps_bind; [apply types_run_reg_test|]. intros _. apply types_restart.
Qed.
End Commands.

(** * A session: what the program does once it has started *)
Inductive session_step : Machine → Machine → Prop :=
  | session_line rounds fuel frames host str k r s s' :
    ui_line rounds fuel frames host str k s = Ok r s' → session_step s s'
  | session_run rounds fuel n host s s' : cpu_exec rounds fuel n host s = Ok tt s' → session_step s s'
  | session_round fuel h b s s' : cpu_exec_round fuel h s = Ok b s' → session_step s s'
  | session_intr fuel h s s' : cpu_exec_round fuel h s = Jump s' → session_step s s'
  | session_instr fuel e n s s' : exec fuel e s = Ok n s' → session_step s s'.

Lemma keeps_Jump {S A} (P : S → Prop) (m : M S A) s s' : keeps P m → m s = Jump s' → P s → P s'.
Proof using. intros Hm E Hs. specialize (Hm s Hs). now rewrite E in Hm. Qed.

Lemma session_step_typed s s' : session_step s s' → typed s → typed s'.
Proof using.
  intros [] Hs.
  - eapply keeps_Ok; [apply ui_line_typed|eassumption|exact Hs].
  - eapply keeps_Ok; [apply types_cpu_exec|eassumption|exact Hs].
  - eapply keeps_Ok; [apply types_cpu_exec_round|eassumption|exact Hs].
  - eapply keeps_Jump; [apply types_cpu_exec_round|eassumption|exact Hs].
  - eapply keeps_Ok; [apply exec_typed|eassumption|exact Hs].
Qed.

(** The whole of [main] is such a session. *)
Lemma ui_mainloop_session rounds fuel frames host lines k out s s' :
  ui_mainloop rounds fuel frames host lines k s = Ok out s' → rtc session_step s s'.
Proof using.
  revert k out s; induction lines as [|str lines IH]; intros k out s; cbn [ui_mainloop]; [discriminate|].
  unfold mbind, M_bind. destruct (ui_line _ _ _ _ str k s) as [[[r o] k'] s1| |] eqn:E; [|discriminate..].
  destruct (r <? 0).
  - intros [= _ <-]. apply rtc_once. exact (session_line _ _ _ _ _ _ _ _ _ E).
  - destruct (ui_mainloop _ _ _ _ lines k' s1) as [o' s2| |] eqn:E2; [|discriminate..]. intros [= _ <-].
    apply (rtc_l _ _ s1); [exact (session_line _ _ _ _ _ _ _ _ _ E)|exact (IH _ _ _ E2)].
Qed.

Lemma nemu_main_session rounds fuel frames host h argc time exec_file entry lines out s s' :
  nemu_main rounds fuel frames host h argc time exec_file entry lines s = Ok out s' →
  ∃ s1, start_up h argc time exec_file entry s = Ok tt s1 ∧ rtc session_step s1 s'.
Proof using.
  unfold nemu_main, start_up, mbind, M_bind. destruct (init_monitor _ _ _ s) as [[] sa| |]; [|discriminate..].
  destruct (run_reg_test _ sa) as [[] sb| |]; [|discriminate..]. destruct (restart _ _ _ sb) as [[] sc| |]; [|discriminate..].
  intros E. exists sc. split; [done|]. exact (ui_mainloop_session _ _ _ _ _ _ _ _ _ E).
Qed.

(** C31: the invariant of the whole emulator.  From the program's start, after any start-up
    that succeeds and any session (command lines, runs of the main loop, single rounds of it
    that end or jump into a handler, single instructions; any instructions in memory, any
    input of the host, any bounds on the loops): the interrupt controllers have been driven
    only by requests of the timer, the keyboard and the disk and by acknowledges while INTR
    was up, so that they are in a state of the controllers' own transition system, nothing
    is masked, and INTR is up exactly when a line of either is pending; the watchpoint pool
    represents the abstract pool after some creations and deletions, and the test of the
    watchpoints ends; and the registers, EFLAGS, EIP, CR0, CR3, GDTR and IDTR, the
    selectors, the decoded operands and the port bytes keep their widths. *)
Theorem session_invariant h argc time exec_file entry s0 s1 s :
  fresh_start s0 → start_up h argc time exec_file entry s0 = Ok tt s1 → rtc session_step s1 s →
  (rtc dev_step pic0 (pic s) ∧ rtc pic_step pic0 (pic s) ∧ IMR (master (pic s)) = 0 ∧ IMR (slave (pic s)) = 0 ∧
   INTR (pic s) = negb ((IRR (master (pic s)) =? 0) && (IRR (slave (pic s)) =? 0))) ∧
  (∃ ops p, spec_run ops pools0 = inl p ∧ pools_rep (wps (debug s)) p) ∧ check_WP s ≠ Fail_ EFuel ∧
  (∀ i, word32 (gpr_l i (cpu s))) ∧ word32 (eflags (cpu s)) ∧ word32 (eip (cpu s)) ∧
  word32 (cr0 (cpu s)) ∧ word32 (cr3 (cpu s)) ∧
  (0 <= gdtr_limit (cpu s) < 2 ^ 16 ∧ word32 (gdtr_base (cpu s))) ∧
  (0 <= idtr_limit (cpu s) < 2 ^ 16 ∧ word32 (idtr_base (cpu s))) ∧
  (∀ i, 0 <= selector (aget (sreg (cpu s)) i) < 2 ^ 16) ∧ ops_typed (ops_decoded s) ∧
  is_bytes (aget (pio_space (pio s))).
Proof using.
  intros Hs0 Hup H. pose proof (start_up_typed _ _ _ _ _ _ _ Hs0 Hup) as Hs.
  assert (typed s) as [[[] Hg Hi []] Ho Hp Hr Hw].
  { clear Hup. induction H as [|x y z Hxy _ IH]; [exact Hs|]. apply IH. now apply (session_step_typed x). }
  pose proof (dev_reachable _ Hr) as Hr'. destruct (pic_reachable_ok _ Hr') as [_ _ [] _ _ _ _].
  pose proof (dev_pending_INTR _ (dev_reachable_pending _ Hr)).
  pose proof (check_WP_ends s Hw). destruct Hw as (_ & Hw).
  split_and!; assumption || apply Hg || apply Hi.
Qed.
End Types.

#[local] Existing Instance IsoRand.
#[local] Existing Instance ZeroJunk.
From stdpp Require Import strings.
#[local] Open Scope Z_scope.

(** [mov $0x12345678, %eax; nop] at the entry, the commands [si 2], [p $eax], [q], and an
    executable with a symbol table. *)
Definition typed_entry : list Z := [0xb8; 0x78; 0x56; 0x34; 0x12; 0x90].
Definition typed_lines : list (list Z) := map bytes_of ["si 2"; "p $eax"; "q"]%string.
Definition typed_start : Machine := demo_machine cpu0 dram0.
Lemma typed_start_fresh : fresh_start typed_start.
Proof.
  split; cbn; [|split_and!; try split; done| |done|done].
  - split; [split; cbn|..]; try done; intros; rewrite !aget_anew; done.
  - intros i. rewrite aget_anew. lia.
Qed.

Lemma typed_run : ∃ s', nemu_main 2 10 1 (λ _ _, (0%nat, [])) (mkHost true true true true true) 2 7 (Some (file_of (elf_image demo_syms)))
  (Some typed_entry)
  typed_lines typed_start = Ok [O_result 0x12345678] s'.
Proof. apply outcome_Ok. vm_compute. reflexivity. Qed.

Lemma session_invariant_witness :
  ∃ s', rtc pic_step pic0 (pic s') ∧ word32 (eip (cpu s')) ∧ check_WP s' ≠ Fail_ EFuel.
Proof.
  destruct typed_run as (s' & E). destruct (nemu_main_session _ _ _ _ _ _ _ _ _ _ _ _ _ E) as (s1 & Hup & H).
  destruct (session_invariant _ _ _ _ _ _ _ _ typed_start_fresh Hup H) as ((_ & Hr & _) & _ & Hw & _ & _ & He & _).
  exact (ex_intro _ s' (conj Hr (conj He Hw))).
Defined.
