(* ===== verification/KernelIO.v ===== *)
(** The kernel's drivers at the level of ports: [kernel/include/x86/io.h],
    [kernel/src/driver/ide/disk.c] and [dma.c], [kernel/src/lib/serial.c],
    [kernel/src/irq/i8259.c].

    The drivers run over any port bus ([Ports]); the machine of [Devices] is one, since the
    guest's [in] and [out] instructions reach its port bus.  Loops that poll a device have
    fuel. *)
From S2P Require Import Prelude Dram Cache Tlb Cpu I8259 Mmio Vga Machine Memory Devices.

(** * io.h *)
Class Ports (S : Type) := {
  in_byte : Z → M S Z;
  in_long : Z → M S Z;
  out_byte : Z → Z → M S unit;
  out_long : Z → Z → M S unit
}.

(** [in] and [out] of a byte or four, as the emulator executes them. *)
#[export] Instance machine_ports `{HRand : !LibcRand, HJunk : !StackJunk} : Ports Machine := {
  in_byte p := pio_in (u16 p) 1;
  in_long p := pio_in (u16 p) 4;
  out_byte p v := pio_out (u16 p) 1 (u8 v);
  out_long p v := pio_out (u16 p) 4 (u32 v)
}.

Section Drivers.
Context {S : Type} `{HP : !Ports S}.

(** [while(!cond);] *)
Fixpoint poll (fuel : nat) (cond : M S bool) : M S unit :=
  match fuel with
  | O => fail EFuel
  | Datatypes.S fuel =>
    b ← cond;
    if (b : bool) then mret tt else poll fuel cond
  end.

(** * disk.c *)
Definition IDE_PORT_BASE : Z := 0x1F0.

Definition waitdisk (fuel : nat) : M S unit :=
  poll fuel (b ← in_byte (IDE_PORT_BASE + 7); mret (Z.land b (Z.lor 0x80 0x40) =? 0x40)).

Definition ide_prepare (fuel : nat) (sector : Z) : M S unit :=
  _ ← waitdisk fuel;
  _ ← out_byte (IDE_PORT_BASE + 1) 0;
  _ ← out_byte (IDE_PORT_BASE + 2) 1;
  _ ← out_byte (IDE_PORT_BASE + 3) (Z.land sector 0xFF);
  _ ← out_byte (IDE_PORT_BASE + 4) (Z.land (Z.shiftr sector 8) 0xFF);
  _ ← out_byte (IDE_PORT_BASE + 5) (Z.land (Z.shiftr sector 16) 0xFF);
  out_byte (IDE_PORT_BASE + 6) (Z.lor 0xE0 (Z.land (Z.shiftr sector 24) 0xFF)).

Definition issue_read : M S unit := out_byte (IDE_PORT_BASE + 7) 0x20.
Definition issue_write : M S unit := out_byte (IDE_PORT_BASE + 7) 0x30.

(** The words of a sector, from word [i] on, stored to [buf] and loaded from it. *)
Fixpoint read_words (n : nat) (i : Z) (buf : arr Z) : M S (arr Z) :=
  match n with
  | O => mret buf
  | Datatypes.S n =>
    w ← in_long IDE_PORT_BASE;
    read_words n (i + 1) (le_store 4 (4 * i) w buf)
  end.
Fixpoint write_words (n : nat) (i : Z) (buf : arr Z) : M S unit :=
  match n with
  | O => mret tt
  | Datatypes.S n =>
    _ ← out_long IDE_PORT_BASE (le_load 4 (aget buf) (4 * i));
    write_words n (i + 1) buf
  end.

(** [buf] is the array the pointer names; [disk_do_read] returns it filled. *)
Definition disk_do_read (fuel : nat) (buf : arr Z) (sector : Z) : M S (arr Z) :=
  _ ← ide_prepare fuel sector;
  _ ← issue_read;
  read_words 128 0 buf.
Definition disk_do_write (fuel : nat) (buf : arr Z) (sector : Z) : M S unit :=
  _ ← ide_prepare fuel sector;
  _ ← issue_write;
  write_words 128 0 buf.

(** * dma.c *)
Definition dma_issue_read : M S unit :=
  b ← in_byte BMR_PORT;
  out_byte BMR_PORT (Z.lor (Z.lor b 0x1) 0x8).

(** * serial.c *)
Definition kernel_init_serial : M S unit :=
  _ ← out_byte (SERIAL_PORT + 1) 0x00;
  _ ← out_byte (SERIAL_PORT + 3) 0x80;
  _ ← out_byte (SERIAL_PORT + 0) 0x01;
  _ ← out_byte (SERIAL_PORT + 1) 0x00;
  _ ← out_byte (SERIAL_PORT + 3) 0x03;
  _ ← out_byte (SERIAL_PORT + 2) 0xC7;
  out_byte (SERIAL_PORT + 4) 0x0B.

Definition serial_idle : M S bool :=
  b ← in_byte (SERIAL_PORT + 5); mret (negb (Z.land b 0x20 =? 0)).

Definition serial_printc (fuel : nat) (ch : Z) : M S unit :=
  _ ← poll fuel serial_idle;
  out_byte SERIAL_PORT ch.

(** * printk.c

    [text] is what [vsnprintf(buf, 256, ctl, args)] formats: it stores the first 255
    characters and a zero, and returns the length of the whole text.  [printk] sends that
    many bytes of [buf]. *)
Definition PRINTK_BUF : Z := 256.
Definition printk_buf (text : list Z) (i : Z) : option Z :=
  if i <? Z.min (Z.of_nat (length text)) (PRINTK_BUF - 1) then text !! Z.to_nat i
  else if i <? PRINTK_BUF then Some 0
  else None.

Definition printk (fuel : nat) (text : list Z) : M S unit := for_ (length text) 0 (λ i,
  match printk_buf text i with
  | Some c => serial_printc fuel c
  | None => fail EUndefined
  end).

(** * i8259.c *)
Definition PORT_PIC_MASTER : Z := 0x20.
Definition PORT_PIC_SLAVE : Z := 0xA0.

Definition init_i8259 : M S unit :=
  _ ← out_byte (PORT_PIC_MASTER + 1) 0xFF;
  _ ← out_byte (PORT_PIC_SLAVE + 1) 0xFF;
  _ ← out_byte PORT_PIC_MASTER 0x11;
  _ ← out_byte (PORT_PIC_MASTER + 1) 32;
  _ ← out_byte (PORT_PIC_MASTER + 1) (Z.shiftl 1 2);
  _ ← out_byte (PORT_PIC_MASTER + 1) 0x3;
  _ ← out_byte PORT_PIC_SLAVE 0x11;
  _ ← out_byte (PORT_PIC_SLAVE + 1) (32 + 8);
  _ ← out_byte (PORT_PIC_SLAVE + 1) 2;
  _ ← out_byte (PORT_PIC_SLAVE + 1) 0x3;
  _ ← out_byte PORT_PIC_MASTER 0x68;
  _ ← out_byte PORT_PIC_MASTER 0x0A;
  _ ← out_byte PORT_PIC_SLAVE 0x68;
  out_byte PORT_PIC_SLAVE 0x0A.
End Drivers.
