(* ===== verification/IdeSpec.v ===== *)
(** The kernel's disk driver over the emulated IDE controller: [disk_do_read] and
    [disk_do_write] of [kernel/src/driver/ide/disk.c], run on the port bus of [Devices],
    move a sector between a buffer and the disk file. *)
From S2P Require Import Prelude Dram Cache Tlb Cpu I8259 Mmio Vga WpPool Machine Memory Devices.
From S2P Require Import DemoMachine KernelIO.

(** The port maps [init_device] registers. *)
Definition device_ports : list (PIO_t pio_cb) := [
  mkPIO SERIAL_PORT (SERIAL_PORT + 7) serial_cb;
  mkPIO VGA_DAC_WRITE_INDEX (VGA_DAC_WRITE_INDEX + 1) vga_dac_cb;
  mkPIO VGA_CRTC_INDEX (VGA_CRTC_INDEX + 1) vga_crtc_cb;
  mkPIO I8042_DATA_PORT I8042_DATA_PORT i8042_cb;
  mkPIO IDE_PORT (IDE_PORT + 7) ide_cb;
  mkPIO BMR_PORT (BMR_PORT + 7) bmr_cb ].

(** The bytes of sector [sec]: [SECT * sec .. SECT * sec + SECT - 1]. *)
Definition SECT : Z := 512.

Section Ide.
Context `{HRand : !LibcRand, HJunk : !StackJunk}.

(** Only the port bytes, the interrupt controllers and the IDE controller may differ. *)
Definition io_only (s s' : Machine) : Prop :=
  ∃ b p i, s' = set_ide i (set_pic p (set_pio b s)).

Lemma io_only_trans s1 s2 s3 : io_only s1 s2 → io_only s2 s3 → io_only s1 s3.
Proof using. intros (b & p & i & ->) (b' & p' & i' & ->). now exists b', p', i'. Qed.

Lemma io_only_pio s b : io_only s (set_pio b s).
Proof using. exists b, (pic s), (ide s). now destruct s. Qed.

Lemma io_only_ide s i : io_only s (set_ide i s).
Proof using. exists (pio s), (pic s), i. now destruct s. Qed.

Lemma io_only_pic s p : io_only s (set_pic p s).
Proof using. exists (pio s), p, (ide s). now destruct s. Qed.

(** The controller is attached, its data is the file [f] of [sz] bytes, and it is not in
    an impossible state. *)
Record ide_attached (f : Z → Z) (sz : Z) (s : Machine) : Prop := {
  at_maps : pio_maps (pio s) = device_ports;
  at_ports : is_bytes (aget (pio_space (pio s)));
  at_pic : pic_ok (pic s);
  at_cnt : byte_cnt (ide s) <= 512;
  at_file : is_bytes f;
  at_data : ∀ i, 0 <= i < sz → aget (f_data (disk_fp (ide s))) i = f i;
  at_size : f_size (disk_fp (ide s)) = sz
}.

(** The drive is idle: attached, and its status says so. *)
Definition disk_idle (f : Z → Z) (sz : Z) (s : Machine) : Prop :=
  ide_attached f sz s ∧ pio_get (pio s) (IDE_PORT + 7) = 0x40.

(** ** One access to the controller's ports *)
Lemma ide_pio_callback s addr len w : pio_maps (pio s) = device_ports →
  IDE_PORT <= addr → addr + len - 1 <= IDE_PORT + 7 → 1 <= len →
  pio_callback pio pio_callback_fn addr len w s = ide_io_handler addr len w s.
Proof using.
  intros Hm Ha Hl H1. unfold pio_callback. rewrite bind_gets, Hm. unfold device_ports.
  unfold IDE_PORT, SERIAL_PORT, VGA_DAC_WRITE_INDEX, VGA_CRTC_INDEX, I8042_DATA_PORT, BMR_PORT in *.
  cbn [pio_callback_in pm_low pm_high pm_callback].
  repeat match goal with |- context [(?a <=? addr) && (addr + len - 1 <=? ?b)] =>
    first [ replace ((a <=? addr) && (addr + len - 1 <=? b)) with false by (bsplit; cbn; lia)
          | replace ((a <=? addr) && (addr + len - 1 <=? b)) with true by (bsplit; cbn; lia); reflexivity ]
  end.
Qed.

(** [outb] to a register: the byte is kept and the handler runs. *)
Lemma out_ide s k v : pio_maps (pio s) = device_ports → 1 <= k <= 7 →
  out_byte (IDE_PORT_BASE + k) v s =
  ide_io_handler (IDE_PORT + k) 1 true (set_pio (pio_set (IDE_PORT + k) v (pio s)) s).
Proof using.
  intros Hm Hk. unfold out_byte, machine_ports, pio_out, pio_write.
  change IDE_PORT_BASE with IDE_PORT. rewrite (wrap_small 16) by (unfold IDE_PORT; lia).
  rewrite !bind_cassert by (unfold PORT_IO_SPACE_MAX, IDE_PORT; lia). rewrite bind_modify.
  assert (∀ i a, le_store (Z.to_nat 1) i (u8 v) a = aset i (u8 v) a) as E.
  { intros i a. change (Z.to_nat 1) with 1%nat. cbn [le_store]. unfold wrap. change (2 ^ 8) with 256.
    now rewrite Z.mod_mod by lia. }
  rewrite E. now rewrite ide_pio_callback by (done || lia).
Qed.

(** A register other than the command is only kept. *)
Lemma out_reg s k v : pio_maps (pio s) = device_ports → byte_cnt (ide s) <= 512 → 1 <= k <= 6 →
  out_byte (IDE_PORT_BASE + k) v s = Ok tt (set_pio (pio_set (IDE_PORT + k) v (pio s)) s).
Proof using.
  intros Hm Hc Hk. rewrite out_ide by (done || lia). unfold ide_io_handler.
  rewrite bind_getS, bind_cassert by (cbn; lia).
  replace ((IDE_PORT + k - IDE_PORT =? 0) && (1 =? 4)) with false by (bsplit; cbn; lia).
  replace (IDE_PORT + k - IDE_PORT =? 7) with false by lia. done.
Qed.

(** [inb] of the status. *)
Lemma in_status s : pio_maps (pio s) = device_ports → byte_cnt (ide s) <= 512 →
  is_bytes (aget (pio_space (pio s))) →
  in_byte (IDE_PORT_BASE + 7) s = Ok (pio_get (pio s) (IDE_PORT + 7)) s.
Proof using.
  intros Hm Hc Hb. unfold in_byte, machine_ports, pio_in, pio_read.
  change (u16 (IDE_PORT_BASE + 7)) with 0x1F7. rewrite !bind_cassert by reflexivity.
  assert (pio_callback pio pio_callback_fn 503 1 false s = Ok tt s) as E.
  { rewrite ide_pio_callback by (done || (unfold IDE_PORT; lia)).
    unfold ide_io_handler. rewrite bind_getS, bind_cassert by lia. reflexivity. }
  rewrite (bind_Ok _ _ _ _ _ E). rewrite bind_gets. unfold mret, M_ret. f_equal.
  rewrite land_len_mask by lia. cbn [le_load]. change (256 ^ 1) with 256.
  rewrite (Z.mul_comm 256), Z_mod_plus_full. apply Z.mod_small, Hb.
Qed.

(** ** Selecting the sector *)
Lemma sector_of_regs sec : 0 <= sec < 2 ^ 23 →
  Z.lor (Z.lor (Z.lor (Z.shiftl (Z.land (u8 (Z.lor 0xE0 (Z.land (Z.shiftr sec 24) 0xFF))) 0x1f) 24)
    (Z.shiftl (u8 (Z.land (Z.shiftr sec 16) 0xFF)) 16))
    (Z.shiftl (u8 (Z.land (Z.shiftr sec 8) 0xFF)) 8)) (u8 (Z.land sec 0xFF)) = sec.
Proof using.
  intros Hs. rewrite (Z.shiftr_div_pow2 sec 24), Z.div_small by lia.
  change (Z.shiftl (Z.land (u8 (Z.lor 224 (Z.land 0 255))) 31) 24) with 0. rewrite Z.lor_0_l.
  change 0xFF with (2 ^ 8 - 1). rewrite !land_ones_mod, !Z.shiftr_div_pow2 by lia.
  change (u8 ?x) with (x mod 2 ^ 8). unfold wrap. rewrite !Z.mod_mod by lia.
  rewrite <- (Z.shiftl_shiftl _ 8 8), <- Z.shiftl_lor by lia.
  rewrite (lor_shiftl_add (sec / 2 ^ 8 mod 2 ^ 8)), lor_shiftl_add by lia. lia.
Qed.

(** What [ide_prepare] leaves in the registers of the controller. *)
Definition selected (sec : Z) (b : Pio pio_cb) : Prop :=
  pio_get b (IDE_PORT + 3) = u8 (Z.land sec 0xFF) ∧
  pio_get b (IDE_PORT + 4) = u8 (Z.land (Z.shiftr sec 8) 0xFF) ∧
  pio_get b (IDE_PORT + 5) = u8 (Z.land (Z.shiftr sec 16) 0xFF) ∧
  pio_get b (IDE_PORT + 6) = u8 (Z.lor 0xE0 (Z.land (Z.shiftr sec 24) 0xFF)).

Definition ports_ok (b : Pio pio_cb) : Prop :=
  pio_maps b = device_ports ∧ is_bytes (aget (pio_space b)).

Lemma port_bytes_set (b : Pio pio_cb) k v :
  is_bytes (aget (pio_space b)) → is_bytes (aget (pio_space (pio_set k v b))).
Proof using.
  intros Hb i. unfold pio_set; cbn. rewrite aget_aset.
  destruct (_ =? _); [apply (wrap_range 8); lia|apply Hb].
Qed.

Lemma ports_ok_set b k v : ports_ok b → ports_ok (pio_set k v b).
Proof using. intros [Hm Hb]. split; [done|now apply port_bytes_set]. Qed.

Lemma pio_get_set (b : Pio pio_cb) k v j : pio_get (pio_set k v b) j = if k =? j then u8 v else pio_get b j.
Proof using. unfold pio_get, pio_set; cbn. apply aget_aset. Qed.

(** The port bytes in the middle of a run. *)
Lemma out_reg_at b s k v : pio_maps b = device_ports → byte_cnt (ide s) <= 512 → 1 <= k <= 6 →
  out_byte (IDE_PORT_BASE + k) v (set_pio b s) = Ok tt (set_pio (pio_set (IDE_PORT + k) v b) s).
Proof using. intros Hm Hc Hk. now rewrite (out_reg (set_pio b s)). Qed.

Lemma set_pio_id (s : Machine) : set_pio (pio s) s = s.
Proof using. now destruct s. Qed.

Lemma idle_poll f sz fuel s : disk_idle f sz s → waitdisk (Datatypes.S fuel) s = Ok tt s.
Proof using.
  intros [[Hm Hb Hp Hc Hf Hd Hsz] Hst]. unfold waitdisk. cbn [poll].
  rewrite bind_bind, (bind_Ok _ _ _ _ _ (in_status s Hm Hc Hb)), bind_ret.
  now rewrite Hst.
Qed.

Lemma prepare_run f sz fuel sec s : disk_idle f sz s →
  ∃ b, ide_prepare (Datatypes.S fuel) sec s = Ok tt (set_pio b s) ∧ ports_ok b ∧ selected sec b.
Proof using.
  intros Hs. unfold ide_prepare. rewrite (bind_Ok _ _ _ _ _ (idle_poll f sz fuel s Hs)).
  destruct Hs as [[Hm Hb _ Hc _ _ _] _]. eexists. split.
  { rewrite (bind_Ok _ _ _ _ _ (out_reg s 1 _ Hm Hc ltac:(lia))).
    do 4 (erewrite bind_Ok by (apply out_reg_at; [exact Hm|exact Hc|lia])).
    apply out_reg_at; [exact Hm|exact Hc|lia]. }
  split; [do 6 apply ports_ok_set; exact (conj Hm Hb)|]. unfold selected.
  rewrite !pio_get_set. unfold IDE_PORT. done.
Qed.

(** ** The commands *)
Definition seeked (sec : Z) (i : Ide) : Ide :=
  mkIde sec (SECT * sec) (byte_cnt i) (ide_write i) (fseek (SECT * sec) (disk_fp i)).

Lemma seek_run sec s : selected sec (pio s) → 0 <= sec < 2 ^ 23 →
  ide_seek s = Ok tt (set_ide (seeked sec (ide s)) s).
Proof using.
  intros (H3 & H4 & H5 & H6) Hs. unfold ide_seek, port, mod_ide. rewrite !bind_gets, !bind_modify.
  rewrite H3, H4, H5, H6, sector_of_regs by done.
  unfold modify, ide_set_fp, ide_set_idx, ide_set_sector, seeked, SECT; cbn.
  rewrite (wrap_small 32 sec) by lia. rewrite Z.shiftl_mul_pow2 by lia.
  rewrite wrap_small by lia. rewrite (Z.mul_comm sec). reflexivity.
Qed.

(** A transfer of sector [sec] after [k] of its 128 words. *)
Record transfer (w : bool) (f : Z → Z) (sz sec k : Z) (s : Machine) : Prop := {
  tr_at : ide_attached f sz s;
  tr_dir : ide_write (ide s) = w;
  tr_cnt : byte_cnt (ide s) = 4 * k;
  tr_pos : f_pos (disk_fp (ide s)) = SECT * sec + 4 * k;
  tr_status : w = false ∨ k = 128 → pio_get (pio s) (IDE_PORT + 7) = 0x40
}.

(** The controller's interrupt is pending. *)
Definition ide_irq (s : Machine) : Prop := INTR (pic s) = true ∧ Z.testbit (IRR (slave (pic s))) 6 = true.

Lemma ide_raise s : pic_ok (pic s) →
  ∃ p, in_pic (i8259_raise_intr IDE_IRQ) s = Ok tt (set_pic p s) ∧ pic_ok p ∧ ide_irq (set_pic p s).
Proof using.
  intros Hp. destruct (raise_ok (pic s) 14 Hp) as (p & Hr & Hok & Hm & Hs); [lia..|].
  exists p. unfold in_pic, zoom. change IDE_IRQ with 14. rewrite Hr. split; [done|]. split; [done|].
  unfold ide_irq. cbn. rewrite (pic_intr _ Hok), Hm, Hs. unfold raised_master, raised_slave. cbn.
  split; [|rewrite Z.lor_spec; apply orb_true_r].
  rewrite negb_true_iff, Z.eqb_neq. apply (lor_bit_ne0 _ 2). lia.
Qed.

Lemma attached_pio f sz s b : ide_attached f sz s → ports_ok b → ide_attached f sz (set_pio b s).
Proof using. intros [] []. now split. Qed.

Lemma attached_pic f sz s p : ide_attached f sz s → pic_ok p → ide_attached f sz (set_pic p s).
Proof using. intros [] ?. now split. Qed.

Lemma attached_ports f sz s : ide_attached f sz s → ports_ok (pio s).
Proof using. intros []. now split. Qed.

(** The two commands start a transfer. *)
Lemma issue_run (w : bool) f sz sec s : ide_attached f sz s → selected sec (pio s) → 0 <= sec < 2 ^ 23 →
  ∃ s', (if w then issue_write else issue_read) s = Ok tt s' ∧ io_only s s' ∧ transfer w f sz sec 0 s' ∧
    (w = false → ide_irq s').
Proof using.
  intros Hat Hsel Hsec.
  set (b := pio_set (IDE_PORT + 7) (if w then 0x30 else 0x20) (pio s)).
  assert ((if w then issue_write else issue_read) s = ide_io_handler (IDE_PORT + 7) 1 true (set_pio b s)) as ->.
  { unfold b. now destruct w; apply out_ide; [apply Hat|lia|apply Hat|lia]. }
  assert (selected sec b) as Hsel'.
  { unfold selected, b. rewrite !pio_get_set. exact Hsel. }
  pose proof (attached_ports _ _ _ Hat) as Hpb.
  assert (ports_ok b) as Hb by now apply ports_ok_set.
  unfold ide_io_handler. rewrite bind_getS, bind_cassert by (cbn; apply Z.leb_le, Hat).
  change ((IDE_PORT + 7 - IDE_PORT =? 0) && (1 =? 4)) with false.
  change (IDE_PORT + 7 - IDE_PORT =? 7) with true. cbv iota. unfold port at 1. rewrite bind_gets. cbn [pio set_pio].
  assert (pio_get b (IDE_PORT + 7) = (if w then 0x30 else 0x20)) as ->.
  { unfold b. rewrite pio_get_set, Z.eqb_refl. now destruct w. }
  assert (∀ x y : NEMU unit, (if ((if w then 0x30 else 0x20) =? 32) || ((if w then 0x30 else 0x20) =? 48) then x else y) = x) as Hif
    by now destruct w.
  rewrite Hif. clear Hif.
  rewrite (bind_Ok _ _ _ _ _ (seek_run sec (set_pio b s) Hsel' Hsec)).
  unfold mod_ide. rewrite bind_modify.
  set (i1 := mkIde sec (SECT * sec) 0 w (fseek (SECT * sec) (disk_fp (ide s)))).
  destruct w; change (48 =? 32) with false; change (32 =? 32) with true; cbv iota.
  { exists (set_ide i1 (set_pio b s)). split; [reflexivity|]. split; [exists b, (pic s), i1; reflexivity|].
    split; [|done]. destruct Hat. split; cbn; try (done || lia). split; try done; apply Hb. }
  rewrite bind_modify. unfold set_port. rewrite bind_modify.
  set (b1 := pio_set (IDE_PORT + 7) 64 b).
  destruct (ide_raise (set_ide i1 (set_pio b1 s))) as (p & Hr & Hp & Hirq); [apply Hat|].
  exists (set_pic p (set_ide i1 (set_pio b1 s))). split; [exact Hr|]. split; [exists b1, p, i1; reflexivity|].
  split; [|done]. assert (ports_ok b1) as [? ?] by now apply ports_ok_set.
  destruct Hat. split; cbn; try (done || lia).
  intros _. unfold b1. now rewrite pio_get_set, Z.eqb_refl.
Qed.

(** ** Words *)
Lemma zip_seq4 (b : list Z) : length b = 4%nat → ∀ p : Pio pio_cb,
  foldl (λ q '(i, v), pio_set (IDE_PORT + i) v q) p (zip (map Z.of_nat (seq 0 4)) b) =
  pio_set (IDE_PORT + 3) (nth 3 b 0) (pio_set (IDE_PORT + 2) (nth 2 b 0)
    (pio_set (IDE_PORT + 1) (nth 1 b 0) (pio_set (IDE_PORT + 0) (nth 0 b 0) p))).
Proof using. intros Hb p. do 4 (destruct b as [|? b]; [done|]). now destruct b. Qed.

Lemma count_run k s : byte_cnt (ide s) = 4 * k → 0 <= k < 128 →
  ide_count s = Ok tt (let s1 := set_ide (mkIde (sector (ide s)) (disk_idx (ide s)) (4 * (k + 1))
      (ide_write (ide s)) (disk_fp (ide s))) s in
    if k =? 127 then set_pio (pio_set (IDE_PORT + 7) 0x40 (pio s)) s1 else s1).
Proof using.
  intros Hc Hk. unfold ide_count, mod_ide. rewrite bind_modify, bind_getS.
  unfold ide_set_cnt; cbn [ide set_ide byte_cnt]. rewrite Hc, wrap_small by lia.
  replace (4 * k + 4) with (4 * (k + 1)) by lia.
  replace (4 * (k + 1) =? 512) with (k =? 127) by (bsplit; lia).
  now destruct (k =? 127).
Qed.

(** The end of both handlers: a word counted. *)
Lemma count_transfer w f sz sec k s : ide_attached f sz s → ide_write (ide s) = w →
  byte_cnt (ide s) = 4 * k → f_pos (disk_fp (ide s)) = SECT * sec + 4 * (k + 1) →
  (w = false → pio_get (pio s) (IDE_PORT + 7) = 0x40) → 0 <= k < 128 →
  ∃ s', ide_count s = Ok tt s' ∧ io_only s s' ∧ transfer w f sz sec (k + 1) s' ∧ pic s' = pic s ∧
    ∀ i, 0 <= i < 4 → pio_get (pio s') (IDE_PORT + i) = pio_get (pio s) (IDE_PORT + i).
Proof using.
  intros Hat Hw Hc Hpos Hst Hk. rewrite (count_run k) by done. set (i1 := mkIde _ _ _ _ _).
  assert (ide_attached f sz (set_ide i1 s)) as Hat1 by (destruct Hat; split; cbn; (done || lia)).
  cbv zeta. destruct (Z.eqb_spec k 127) as [->|Hk7].
  - eexists. split; [reflexivity|]. split; [eapply io_only_trans; [apply io_only_ide|apply io_only_pio]|].
    split; [|split; [done|]].
    + split; cbn; try (done || lia).
      * apply attached_pio; [done|]. apply ports_ok_set. eapply attached_ports, Hat.
      * intros _. now rewrite pio_get_set, Z.eqb_refl.
    + intros i Hi. cbn. rewrite pio_get_set. now replace (IDE_PORT + 7 =? IDE_PORT + i) with false by lia.
  - eexists. split; [reflexivity|]. split; [apply io_only_ide|]. split; [|done].
    split; cbn; try (done || lia). intros [->|?]; [now apply Hst|lia].
Qed.

Lemma fread4 fp : f_pos fp + 4 <= f_size fp →
  fread 4 fp = (1, map (λ i, aget (f_data fp) (f_pos fp + Z.of_nat i)) (seq 0 4),
    mkFile (f_data fp) (f_size fp) (f_pos fp + 4) (f_eof fp)).
Proof using.
  intros H. unfold fread. replace (Z.max 0 (Z.min 4 (f_size fp - f_pos fp))) with 4 by lia.
  change ((0 <? 4) && (4 =? 4)) with true. change (4 <? 4) with false. now rewrite orb_false_r.
Qed.

(** The four data ports. *)
Definition put4 (b : list Z) (p : Pio pio_cb) : Pio pio_cb :=
  pio_set (IDE_PORT + 3) (nth 3 b 0) (pio_set (IDE_PORT + 2) (nth 2 b 0)
    (pio_set (IDE_PORT + 1) (nth 1 b 0) (pio_set (IDE_PORT + 0) (nth 0 b 0) p))).

Lemma pio_get_put4 b p i : Forall (λ v, 0 <= v < 256) b → length b = 4%nat →
  pio_get (put4 b p) (IDE_PORT + i) = if (0 <=? i) && (i <? 4) then nth (Z.to_nat i) b 0 else pio_get p (IDE_PORT + i).
Proof using.
  intros Hb Hl. unfold put4. rewrite !pio_get_set.
  assert (∀ j, (j < 4)%nat → u8 (nth j b 0) = nth j b 0) as Hn.
  { intros j Hj. apply wrap_small. rewrite Forall_nth in Hb. apply Hb. lia. }
  destruct ((0 <=? i) && (i <? 4)) eqn:E.
  - assert (i = 0 ∨ i = 1 ∨ i = 2 ∨ i = 3) as [-> | [-> | [-> | ->]]] by lia;
      [apply (Hn 0%nat)|apply (Hn 1%nat)|apply (Hn 2%nat)|apply (Hn 3%nat)]; lia.
  - repeat match goal with |- context [?x =? ?y] => replace (x =? y) with false by lia end. done.
Qed.

Lemma ports_ok_put4 b p : ports_ok p → ports_ok (put4 b p).
Proof using. intros. now do 4 apply ports_ok_set. Qed.

(** The handler of a data read. *)
Lemma read_handler f sz sec k s : transfer false f sz sec k s → 0 <= k < 128 → SECT * (sec + 1) <= sz →
  0 <= sec →
  ∃ s', ide_io_handler IDE_PORT 4 false s = Ok tt s' ∧ io_only s s' ∧
    transfer false f sz sec (k + 1) s' ∧ pic s' = pic s ∧
    ∀ i, 0 <= i < 4 → pio_get (pio s') (IDE_PORT + i) = f (SECT * sec + 4 * k + i).
Proof using.
  intros [Hat Hdir Hcnt Hpos Hst] Hk Hsz Hsec. unfold SECT in *. pose proof (attached_ports _ _ _ Hat) as Hpb.
  pose proof (at_data _ _ _ Hat) as Hd. pose proof (at_file _ _ _ Hat) as Hf. pose proof (at_size _ _ _ Hat) as Hs.
  unfold ide_io_handler. rewrite bind_getS, bind_cassert by lia.
  change ((IDE_PORT - IDE_PORT =? 0) && (4 =? 4)) with true. cbv iota.
  rewrite Hdir, bind_cassert by done. rewrite fread4 by lia. unfold mod_ide. rewrite !bind_modify.
  rewrite zip_seq4 by done. rewrite bind_cassert by done.
  set (bytes := map _ _). change (pio_set (IDE_PORT + 3) (nth 3 bytes 0) _) with (put4 bytes (pio s)).
  set (s1 := set_pio _ _).
  assert (Forall (λ v, 0 <= v < 256) bytes) as Hbytes.
  { unfold bytes. apply Forall_map, Forall_forall. intros i Hi%in_seq. cbn.
    rewrite Hd by lia. apply Hf. }
  destruct (count_transfer false f sz sec k s1) as (s' & Hrun & Hio & Htr & Hpic & Hv).
  - apply attached_pio; [|now apply ports_ok_put4]. destruct Hat. split; cbn; done.
  - done.
  - done.
  - cbn. unfold SECT. lia.
  - intros _. cbn. rewrite pio_get_put4 by done. cbn. now apply Hst; left.
  - done.
  - exists s'. split; [exact Hrun|]. split_and!; [|done|done|].
    + eapply io_only_trans; [|exact Hio]. eapply io_only_trans; [apply io_only_ide|apply io_only_pio].
    + intros i Hi. rewrite Hv by done. cbn. rewrite pio_get_put4 by done.
      replace ((0 <=? i) && (i <? 4)) with true by lia. rewrite <- Hd by lia.
      assert (i = 0 ∨ i = 1 ∨ i = 2 ∨ i = 3) as [-> | [-> | [-> | ->]]] by lia; cbn; f_equal; lia.
Qed.

Lemma read_word f sz sec k s : transfer false f sz sec k s → 0 <= k < 128 → SECT * (sec + 1) <= sz →
  0 <= sec →
  ∃ s', in_long IDE_PORT_BASE s = Ok (le_load 4 f (SECT * sec + 4 * k)) s' ∧ io_only s s' ∧
    transfer false f sz sec (k + 1) s' ∧ pic s' = pic s.
Proof using.
  intros Htr Hk Hsz Hsec. destruct (read_handler f sz sec k s) as (s' & Hrun & Hio & Htr' & Hpic & Hv); [done..|].
  unfold in_long, machine_ports, pio_in, pio_read. change (u16 IDE_PORT_BASE) with IDE_PORT.
  rewrite !bind_cassert by reflexivity.
  rewrite (bind_Ok _ _ s tt s') by (rewrite ide_pio_callback; [exact Hrun|apply Htr|lia..]).
  exists s'. rewrite bind_gets. split; [|done]. unfold mret, M_ret. f_equal.
  rewrite land_len_mask by lia. rewrite (le_load_shift 4 _ f IDE_PORT (SECT * sec + 4 * k)) by done.
  apply Z.mod_small, (le_load_range 4). apply Htr.
Qed.

Lemma transfer_ext w f g sz sec k s : (∀ x, f x = g x) → transfer w f sz sec k s → transfer w g sz sec k s.
Proof using.
  intros H [[Hm Hb Hp Hc Hf Hd Hs] ? ? ? ?]. split; try done. split; try done.
  - intros x. rewrite <- H. apply Hf.
  - intros i Hi. rewrite <- H. now apply Hd.
Qed.

(** The bytes a sequence of single-byte stores leaves. *)
Lemma fwrite4 fp (l : list Z) v : l = map (byte_of v) [0; 1; 2; 3] →
  ∃ d, fwrite l fp = (1, mkFile d (Z.max (f_size fp) (f_pos fp + 4)) (f_pos fp + 4) (f_eof fp)) ∧
    ∀ x, aget d x = flat_store (aget (f_data fp)) (f_pos fp) 4 v x.
Proof using.
  intros ->. unfold fwrite. cbn [map foldl fst snd].
  replace (f_pos fp + 1 + 1 + 1 + 1) with (f_pos fp + 4) by lia.
  eexists. split; [reflexivity|]. intros x. unfold flat_store. rewrite !aget_aset.
  destruct ((f_pos fp <=? x) && (x <? f_pos fp + 4)) eqn:E.
  - repeat match goal with |- context [?a =? x] => destruct (Z.eqb_spec a x) end; first [lia|f_equal; lia].
  - repeat match goal with |- context [?a =? x] => destruct (Z.eqb_spec a x) end; done || lia.
Qed.

Lemma write_word f sz sec k v s : transfer true f sz sec k s → 0 <= k < 128 → SECT * (sec + 1) <= sz →
  0 <= sec → 0 <= v < 2 ^ 32 →
  ∃ s', out_long IDE_PORT_BASE v s = Ok tt s' ∧ io_only s s' ∧
    transfer true (flat_store f (SECT * sec + 4 * k) 4 v) sz sec (k + 1) s' ∧ pic s' = pic s.
Proof using.
  intros [Hat Hdir Hcnt Hpos Hst] Hk Hsz Hsec Hv. unfold SECT in *.
  pose proof (attached_ports _ _ _ Hat) as [Hm Hpb]. pose proof (at_size _ _ _ Hat) as Hs.
  unfold out_long, machine_ports, pio_out, pio_write. change (u16 IDE_PORT_BASE) with IDE_PORT.
  rewrite !bind_cassert by reflexivity. rewrite bind_modify, wrap_small by done.
  set (b := mkPioBus _ _). rewrite ide_pio_callback by (done || lia).
  assert (ports_ok b) as Hb by (split; [done|now apply le_store_bytes]).
  unfold ide_io_handler. rewrite bind_getS, bind_cassert by (cbn; lia).
  change ((IDE_PORT - IDE_PORT =? 0) && (4 =? 4)) with true. cbv iota. cbn [ide set_pio pio].
  rewrite Hdir, bind_cassert by done.
  destruct (fwrite4 (disk_fp (ide s)) (map (λ i : nat, pio_get b (IDE_PORT + Z.of_nat i)) (seq 0 4)) v) as (d & -> & Hd).
  { cbn [map seq]. unfold b, pio_get; cbn [pio_space]. rewrite !aget_le_store. reflexivity. }
  unfold mod_ide. rewrite bind_modify, bind_cassert by done. set (s1 := set_ide _ _).
  destruct (count_transfer true (flat_store f (512 * sec + 4 * k) 4 v) sz sec k s1) as (s' & Hrun & Hio & Htr & Hpic & _);
    try done.
  - destruct Hat as [? ? ? ? Hf Hdata ?]. split; cbn; try (done || lia || apply Hb).
    + now apply flat_store_bytes.
    + intros i Hi. rewrite Hd, Hpos. now apply flat_store_ext, Hdata.
  - cbn. unfold SECT. lia.
  - exists s'. split; [exact Hrun|]. split; [|done].
    eapply io_only_trans; [|exact Hio]. eapply io_only_trans; [apply io_only_pio|apply io_only_ide].
Qed.

(** ** Sectors *)
Definition sector_at (f : Z → Z) (sec : Z) : Z → Z := λ i, f (SECT * sec + i).
Definition store_sector (f : Z → Z) (sec : Z) (g : Z → Z) : Z → Z :=
  λ x, if (SECT * sec <=? x) && (x <? SECT * (sec + 1)) then g (x - SECT * sec) else f x.

Lemma read_words_run n f sz sec k buf s : transfer false f sz sec k s → 0 <= k → k + Z.of_nat n = 128 →
  SECT * (sec + 1) <= sz → 0 <= sec →
  ∃ buf' s', read_words n k buf s = Ok buf' s' ∧ io_only s s' ∧ transfer false f sz sec 128 s' ∧ pic s' = pic s ∧
    ∀ i, aget buf' i = if (4 * k <=? i) && (i <? SECT) then sector_at f sec i else aget buf i.
Proof using.
  intros Htr Hk Hn Hsz Hsec. revert k buf s Htr Hk Hn; induction n as [|n IH]; intros k buf s Htr Hk Hn.
  { replace k with 128 in * by lia. exists buf, s. split; [reflexivity|]. split; [exists (pio s), (pic s), (ide s); now destruct s|].
    split; [done|]. split; [done|]. intros i. unfold SECT. bsplit; cbn; done || lia. }
  cbn [read_words]. destruct (read_word f sz sec k s) as (s1 & Hrun & Hio & Htr1 & Hp1); [done|lia|done..|].
  rewrite (bind_Ok _ _ _ _ _ Hrun).
  destruct (IH (k + 1) (le_store 4 (4 * k) (le_load 4 f (SECT * sec + 4 * k)) buf) s1) as (buf' & s' & -> & Hio' & Htr' & Hp' & Hv);
    [done|lia|lia|].
  exists buf', s'. split; [done|]. split; [exact (io_only_trans _ _ _ Hio Hio')|]. split; [done|]. split; [congruence|].
  intros i. rewrite Hv, aget_le_store. unfold sector_at.
  destruct (Z.leb_spec (4 * (k + 1)) i), (Z.leb_spec (4 * k) i), (Z.ltb_spec i SECT); cbn [andb]; try (done || lia);
    unfold SECT in *.
  all: destruct (Z.ltb_spec i (4 * k + Z.of_nat 4)); cbn [andb]; try (done || lia).
  rewrite byte_of_le_load by (lia || exact (at_file _ _ _ (tr_at _ _ _ _ _ _ Htr))). f_equal. lia.
Qed.
Lemma io_only_refl s : io_only s s.
Proof using. exists (pio s), (pic s), (ide s). now destruct s. Qed.

Lemma write_words_run n f sz sec k buf s : transfer true f sz sec k s → 0 <= k → k + Z.of_nat n = 128 →
  SECT * (sec + 1) <= sz → 0 <= sec → is_bytes (aget buf) →
  ∃ s', write_words n k buf s = Ok tt s' ∧ io_only s s' ∧ pic s' = pic s ∧
    transfer true (λ x, if (SECT * sec + 4 * k <=? x) && (x <? SECT * (sec + 1))
      then aget buf (x - SECT * sec) else f x) sz sec 128 s'.
Proof using.
  intros Htr Hk Hn Hsz Hsec Hbuf. revert f k s Htr Hk Hn; induction n as [|n IH]; intros f k s Htr Hk Hn.
  { replace k with 128 in * by lia. exists s. split; [reflexivity|]. split; [apply io_only_refl|].
    split; [done|]. eapply transfer_ext; [|exact Htr]. intros x. unfold SECT. bsplit; cbn; done || lia. }
  cbn [write_words]. pose proof (le_load_range 4 _ (4 * k) Hbuf) as Hr.
  destruct (write_word f sz sec k (le_load 4 (aget buf) (4 * k)) s) as (s1 & Hrun & Hio & Htr1 & Hp1);
    [done|lia|done|done|lia|].
  rewrite (bind_Ok _ _ _ _ _ Hrun). destruct (IH _ (k + 1) s1 Htr1) as (s' & -> & Hio' & Hp' & Htr'); [lia|lia|].
  exists s'. split; [done|]. split; [exact (io_only_trans _ _ _ Hio Hio')|]. split; [congruence|].
  eapply transfer_ext; [|exact Htr']. intros x. cbv beta. unfold flat_store.
  destruct (Z.leb_spec (SECT * sec + 4 * (k + 1)) x), (Z.leb_spec (SECT * sec + 4 * k) x),
    (Z.ltb_spec x (SECT * (sec + 1))); cbn [andb]; try (done || lia); unfold SECT in *.
  all: destruct (Z.ltb_spec x (512 * sec + 4 * k + 4)); cbn [andb]; try (done || lia).
  rewrite byte_of_le_load by (done || lia). f_equal. lia.
Qed.
(** A command on the idle drive. *)
Lemma command_run (w : bool) f sz fuel sec s : disk_idle f sz s → 0 <= sec < 2 ^ 23 →
  ∃ s', (_ ← ide_prepare (Datatypes.S fuel) sec; if w then issue_write else issue_read) s = Ok tt s' ∧
    io_only s s' ∧ transfer w f sz sec 0 s' ∧ (w = false → ide_irq s').
Proof using.
  intros Hs Hsec. destruct (prepare_run f sz fuel sec s Hs) as (b & Hrun & Hb & Hsel).
  rewrite (bind_Ok _ _ _ _ _ Hrun).
  destruct (issue_run w f sz sec (set_pio b s)) as (s' & Hi & Hio & Htr); [|done..|].
  { apply attached_pio; [apply Hs|done]. }
  exists s'. split; [exact Hi|]. split; [|done]. exact (io_only_trans _ _ _ (io_only_pio s b) Hio).
Qed.

Lemma transfer_idle w f sz sec s : transfer w f sz sec 128 s → disk_idle f sz s.
Proof using. intros [Hat _ _ _ Hst]. split; [done|]. apply Hst. now right. Qed.

Lemma disk_read_run f sz fuel sec buf s : disk_idle f sz s → 0 <= sec < 2 ^ 23 → SECT * (sec + 1) <= sz →
  ∃ buf' s', disk_do_read (Datatypes.S fuel) buf sec s = Ok buf' s' ∧
    (∀ i, aget buf' i = if (0 <=? i) && (i <? SECT) then sector_at f sec i else aget buf i) ∧
    disk_idle f sz s' ∧ io_only s s' ∧ ide_irq s'.
Proof using.
  intros Hs Hsec Hsz. destruct (command_run false f sz fuel sec s Hs Hsec) as (s1 & Hc & Hio & Htr & Hirq).
  unfold disk_do_read. rewrite <- bind_bind, (bind_Ok _ _ _ _ _ Hc).
  destruct (read_words_run 128 f sz sec 0 buf s1) as (buf' & s' & Hr & Hio' & Htr' & Hp & Hv); [done|lia|lia|done|lia|].
  exists buf', s'. split; [exact Hr|]. split; [exact Hv|]. split; [exact (transfer_idle _ _ _ _ _ Htr')|].
  split; [exact (io_only_trans _ _ _ Hio Hio')|]. unfold ide_irq. rewrite Hp. exact (Hirq eq_refl).
Qed.

Lemma disk_write_run f sz fuel sec buf s : disk_idle f sz s → 0 <= sec < 2 ^ 23 → SECT * (sec + 1) <= sz →
  is_bytes (aget buf) →
  ∃ s', disk_do_write (Datatypes.S fuel) buf sec s = Ok tt s' ∧
    disk_idle (store_sector f sec (aget buf)) sz s' ∧ io_only s s'.
Proof using.
  intros Hs Hsec Hsz Hb. destruct (command_run true f sz fuel sec s Hs Hsec) as (s1 & Hc & Hio & Htr & _).
  unfold disk_do_write. rewrite <- bind_bind, (bind_Ok _ _ _ _ _ Hc).
  destruct (write_words_run 128 f sz sec 0 buf s1) as (s' & Hr & Hio' & _ & Htr'); [done|lia|lia|done|lia|done|].
  exists s'. split; [exact Hr|]. split; [|exact (io_only_trans _ _ _ Hio Hio')].
  eapply transfer_idle, transfer_ext; [|exact Htr']. intros x. unfold store_sector. cbv beta.
  now rewrite Z.mul_0_r, Z.add_0_r.
Qed.

(** ** What [init_device] leaves *)
Record booting (maps : list (PIO_t pio_cb)) (mm : Mmio mmio_cb) (s : Machine) : Prop := {
  bt_maps : pio_maps (pio s) = maps;
  bt_bytes : is_bytes (aget (pio_space (pio s)));
  bt_mmio : mmio s = mm;
  bt_pic : pic_ok (pic s);
  bt_cnt : byte_cnt (ide s) <= 512
}.

Lemma map_port_run maps mm s addr len cb : booting maps mm s → Z.of_nat (length maps) < NR_MAP →
  0 <= addr → 1 <= len → addr + len <= PORT_IO_SPACE_MAX →
  ∃ s', map_port addr len cb s = Ok addr s' ∧ booting (maps ++ [mkPIO addr (addr + len - 1) cb]) mm s' ∧
    ∀ j, pio_get (pio s') j = pio_get (pio s) j.
Proof using.
  intros [Hm Hb Hmm Hp Hc] Hn Ha Hl Hmax. unfold map_port, add_pio_map. rewrite bind_gets, Hm.
  unfold PORT_IO_SPACE_MAX in *. rewrite !bind_cassert by lia. rewrite bind_modify, wrap_small by lia.
  eexists. split; [reflexivity|]. split; [|reflexivity]. split; [reflexivity|exact Hb|exact Hmm|exact Hp|exact Hc].
Qed.

Lemma set_port_run maps mm s p v : booting maps mm s →
  ∃ s', set_port p v s = Ok tt s' ∧ booting maps mm s' ∧
    ∀ j, pio_get (pio s') j = if p =? j then u8 v else pio_get (pio s) j.
Proof using.
  intros [Hm Hb Hmm Hp Hc]. eexists. split; [reflexivity|]. split; [|intros j; apply pio_get_set].
  split; [exact Hm| |exact Hmm|exact Hp|exact Hc]. now apply port_bytes_set.
Qed.

Lemma init_vga_run maps s : booting maps mmio_init s → Z.of_nat (length maps) + 1 < NR_MAP →
  ∃ s' mm, init_vga s = Ok tt s' ∧ booting (maps ++ [
    mkPIO VGA_DAC_WRITE_INDEX (VGA_DAC_WRITE_INDEX + 1) vga_dac_cb;
    mkPIO VGA_CRTC_INDEX (VGA_CRTC_INDEX + 1) vga_crtc_cb]) mm s'.
Proof using.
  intros Hs Hn. unfold init_vga. unfold VGA_DAC_WRITE_INDEX, VGA_CRTC_INDEX.
  destruct (map_port_run maps mmio_init s 0x3C8 2 vga_dac_cb Hs) as (s1 & Hr1 & Hs1 & _); [unfold PORT_IO_SPACE_MAX; lia..|].
  rewrite (bind_Ok _ _ _ _ _ Hr1).
  destruct (map_port_run _ _ s1 0x3D4 2 vga_crtc_cb Hs1) as (s2 & Hr2 & [Hm Hb Hmm Hp Hc] & _);
    [rewrite length_app; cbn; lia|unfold PORT_IO_SPACE_MAX; lia..|].
  rewrite (bind_Ok _ _ _ _ _ Hr2). unfold add_mmio_map. rewrite bind_bind, bind_gets, Hmm.
  rewrite bind_bind, bind_cassert by done. rewrite bind_bind, bind_cassert by done. rewrite bind_bind, bind_modify.
  eexists _, _. split; [reflexivity|]. split; [cbn; rewrite Hm, <- app_assoc; reflexivity|exact Hb|reflexivity|exact Hp|exact Hc].
Qed.

Lemma init_device_idle fp s : pio s = pio_init → mmio s = mmio_init → pic_ok (pic s) →
  byte_cnt (ide s) <= 512 → is_bytes (aget (f_data fp)) →
  ∃ s', init_device (Some fp) s = Ok tt s' ∧ disk_idle (aget (f_data fp)) (f_size fp) s'.
Proof using.
  intros Hpio Hmm Hp Hc Hf.
  assert (booting [] mmio_init s) as Hs.
  { split; rewrite ?Hpio; try done. }
  unfold init_device, init_serial, init_timer, init_i8042, init_ide.
  destruct (map_port_run _ _ s SERIAL_PORT 8 serial_cb Hs) as (s1 & Hr1 & Hs1 & _); [done..|].
  rewrite bind_bind, (bind_Ok _ _ _ _ _ Hr1).
  destruct (set_port_run _ _ s1 (SERIAL_PORT + LSR_OFFSET) 0x20 Hs1) as (s2 & Hr2 & Hs2 & _).
  rewrite (bind_Ok _ _ _ _ _ Hr2), bind_ret.
  destruct (init_vga_run _ s2 Hs2) as (s3 & mm & Hr3 & Hs3); [done|].
  rewrite (bind_Ok _ _ _ _ _ Hr3).
  destruct (map_port_run _ _ s3 I8042_DATA_PORT 1 i8042_cb Hs3) as (s4 & Hr4 & Hs4 & _); [done..|].
  rewrite bind_bind, (bind_Ok _ _ _ _ _ Hr4), bind_modify.
  assert (booting _ mm (set_newkey false s4)) as Hs5 by (destruct Hs4; split; eassumption).
  destruct (map_port_run _ _ _ IDE_PORT 8 ide_cb Hs5) as (s6 & Hr6 & Hs6 & _); [done..|].
  rewrite (bind_Ok _ _ _ _ _ Hr6).
  destruct (set_port_run _ _ s6 (IDE_PORT + 7) 0x40 Hs6) as (s7 & Hr7 & Hs7 & Hst).
  rewrite (bind_Ok _ _ _ _ _ Hr7).
  destruct (map_port_run _ _ s7 BMR_PORT 8 bmr_cb Hs7) as (s8 & Hr8 & Hs8 & Hg8); [done..|].
  rewrite (bind_Ok _ _ _ _ _ Hr8).
  destruct (set_port_run _ _ s8 BMR_PORT 0 Hs8) as (s9 & Hr9 & Hs9 & Hg9).
  rewrite (bind_Ok _ _ _ _ _ Hr9). eexists. split; [reflexivity|].
  destruct Hs9 as [Hm Hb _ Hp9 Hc9].
  split; [split; [exact Hm|exact Hb|exact Hp9|exact Hc9|exact Hf|reflexivity|reflexivity]|].
  change (pio_get (pio s9) (IDE_PORT + 7) = 0x40).
  now rewrite Hg9, Hg8, Hst.
Qed.

(** C25: The kernel's disk driver and the emulated IDE controller agree. With the drive
    idle, reading a sector of the disk fills the 512 bytes of the buffer with those of the
    file and writing one replaces the 512 bytes of the file with those of the buffer; both
    end with the drive idle again, change nothing of the machine but port bytes, interrupt
    controllers and the IDE controller, and a read leaves the disk's interrupt pending. *)
Theorem disk_driver_ok f sz fuel sec buf s :
  disk_idle f sz s → 0 <= sec < 2 ^ 23 → SECT * (sec + 1) <= sz → is_bytes (aget buf) →
  (∃ buf' s', disk_do_read (Datatypes.S fuel) buf sec s = Ok buf' s' ∧
     (∀ i, aget buf' i = if (0 <=? i) && (i <? SECT) then f (SECT * sec + i) else aget buf i) ∧
     disk_idle f sz s' ∧ io_only s s' ∧ ide_irq s') ∧
  (∃ s', disk_do_write (Datatypes.S fuel) buf sec s = Ok tt s' ∧
     disk_idle (λ x, if (SECT * sec <=? x) && (x <? SECT * (sec + 1)) then aget buf (x - SECT * sec) else f x) sz s' ∧
     io_only s s').
Proof using.
  intros Hs Hsec Hsz Hb. split; [now apply disk_read_run|now apply disk_write_run].
Qed.
End Ide.

(** * Witnesses *)
#[local] Existing Instance IsoRand.
#[local] Existing Instance ZeroJunk.

Definition boot_disk : File := mkFile (aset 1024 0x55 (aset 1025 0xAA (anew 0))) 4096 0 false.
Definition boot_machine : Machine :=
  match init_device (Some boot_disk) (demo_machine cpu0 dram0) with Ok _ s => s | _ => demo_machine cpu0 dram0 end.

Lemma boot_machine_idle : disk_idle (aget (f_data boot_disk)) 4096 boot_machine.
Proof.
  destruct (init_device_idle boot_disk (demo_machine cpu0 dram0)) as (s' & Hrun & Hs');
    [done|done|apply pic0_ok|cbn; lia| |].
  { intros i. cbn. rewrite !aget_aset. repeat (destruct (_ =? _); [lia|]). rewrite aget_anew. lia. }
  unfold boot_machine. now rewrite Hrun.
Qed.

Lemma disk_driver_ok_witness :
  ∃ buf' s', disk_do_read 1 (anew 7) 2 boot_machine = Ok buf' s' ∧ aget buf' 0 = 0x55.
Proof.
  destruct (disk_driver_ok (aget (f_data boot_disk)) 4096 0 2 (anew 7) boot_machine)
    as ((buf' & s' & Hr & Hv & _) & _).
  - exact boot_machine_idle.
  - lia.
  - unfold SECT. lia.
  - intros i. rewrite aget_anew. lia.
  - exists buf', s'. split; [exact Hr|]. rewrite Hv. reflexivity.
Defined.
