(* ===== verification/KernelDisk.v ===== *)
(** The kernel's IDE driver above the ports: the sector buffers of
    [kernel/src/driver/ide/buffer.c], byte reads and writes and the periodic write-back of
    [ide.c], and [ramdisk.c].

    The driver is a section over the state it runs in, the place of its static variables in
    that state, and the two operations of the disk. *)
From S2P Require Import Prelude.

(** * buffer.c *)
Definition NR_SEC_BUF : Z := 128.

Record SectorBuf := mkSectorBuf {
  sb_sector : Z; sb_used : bool; sb_dirty : bool; sb_content : arr Z }.

(** A static variable starts zeroed. *)
Definition sector_buf0 : SectorBuf := mkSectorBuf 0 false false (anew 0).

(** The static variables of buffer.c and ide.c. *)
Record IdeDriver := mkIdeDriver { sec_bufs : arr SectorBuf; wb_counter : Z; has_ide_intr : Z }.
Definition ide_driver0 : IdeDriver := mkIdeDriver (anew sector_buf0) 0 0.

Definition set_used b s := mkSectorBuf (sb_sector s) b (sb_dirty s) (sb_content s).
Definition set_dirty b s := mkSectorBuf (sb_sector s) (sb_used s) b (sb_content s).
Definition set_sector v s := mkSectorBuf v (sb_used s) (sb_dirty s) (sb_content s).
Definition set_content c s := mkSectorBuf (sb_sector s) (sb_used s) (sb_dirty s) c.
Definition set_bufs b d := mkIdeDriver b (wb_counter d) (has_ide_intr d).
Definition set_counter n d := mkIdeDriver (sec_bufs d) n (has_ide_intr d).
Definition set_ide_intr n d := mkIdeDriver (sec_bufs d) (wb_counter d) n.

Section Driver.
Context {S : Type} (drv : S → IdeDriver) (set_drv : IdeDriver → S → S).
Context (disk_do_read : arr Z → Z → M S (arr Z)) (disk_do_write : arr Z → Z → M S unit).

(** [buf\[i\]], and an assignment to its fields. *)
Definition get_buf (i : Z) : M S SectorBuf := gets (λ s, aget (sec_bufs (drv s)) i).
Definition mod_buf (i : Z) (f : SectorBuf → SectorBuf) : M S unit := modify (λ s,
  set_drv (set_bufs (aset i (f (aget (sec_bufs (drv s)) i)) (sec_bufs (drv s))) (drv s)) s).

Definition buf_init : M S unit := for_ (Z.to_nat NR_SEC_BUF) 0 (λ i, mod_buf i (set_used false)).

Definition buf_writeback : M S unit := for_ (Z.to_nat NR_SEC_BUF) 0 (λ i,
  b ← get_buf i;
  if sb_dirty b then
    _ ← disk_do_write (sb_content b) (sb_sector b);
    mod_buf i (set_dirty false)
  else mret tt).

(** The index of the buffer that now holds the sector. *)
Definition buf_fetch (sector : Z) : M S Z :=
  let ptr := sector mod NR_SEC_BUF in
  b ← get_buf ptr;
  _ ← (if sb_used b && (sb_sector b =? sector) then mret tt
       else
         _ ← (if sb_used b && sb_dirty b then disk_do_write (sb_content b) (sb_sector b) else mret tt);
         content ← disk_do_read (sb_content b) sector;
         _ ← mod_buf ptr (set_content content);
         _ ← mod_buf ptr (set_used true);
         _ ← mod_buf ptr (set_sector sector);
         mod_buf ptr (set_dirty false));
  mret ptr.

Definition read_byte (offset : Z) : M S Z :=
  let sector := Z.shiftr offset 9 in
  ptr ← buf_fetch sector;
  b ← get_buf ptr;
  mret (aget (sb_content b) (Z.land offset 511)).

Definition write_byte (offset data : Z) : M S unit :=
  let sector := Z.shiftr offset 9 in
  ptr ← buf_fetch sector;
  _ ← mod_buf ptr (λ b, set_content (aset (Z.land offset 511) data (sb_content b)) b);
  mod_buf ptr (set_dirty true).

(** * ide.c *)
Definition WRITEBACK_TIME : Z := 1.
Definition HZ : Z := 100.

(** [buf] is the array the pointer names; [ide_read] returns it filled. *)
Fixpoint ide_read_from (n : nat) (i : Z) (buf : arr Z) (offset : Z) : M S (arr Z) :=
  match n with
  | O => mret buf
  | Datatypes.S n =>
    v ← read_byte (u32 (offset + i));
    ide_read_from n (i + 1) (aset i v buf) offset
  end.
Definition ide_read (buf : arr Z) (offset len : Z) : M S (arr Z) :=
  ide_read_from (Z.to_nat len) 0 buf offset.

Definition ide_write (buf : arr Z) (offset len : Z) : M S unit :=
  for_ (Z.to_nat len) 0 (λ i, write_byte (u32 (offset + i)) (aget buf i)).

Definition ide_writeback : M S unit :=
  _ ← modify (λ s, set_drv (set_counter (u32 (wb_counter (drv s) + 1)) (drv s)) s);
  n ← gets (λ s, wb_counter (drv s));
  if n =? WRITEBACK_TIME * HZ then
    _ ← buf_writeback;
    modify (λ s, set_drv (set_counter 0 (drv s)) s)
  else mret tt.

Definition ide_intr : M S unit := modify (λ s, set_drv (set_ide_intr 1 (drv s)) s).
Definition clear_ide_intr : M S unit := modify (λ s, set_drv (set_ide_intr 0 (drv s)) s).

(** [hlt] until the interrupt's handler has run; [wait_intr] is what happens meanwhile. *)
Fixpoint wait_ide_intr (fuel : nat) (wait_intr : M S unit) : M S unit :=
  match fuel with
  | O => fail EFuel
  | Datatypes.S fuel =>
    n ← gets (λ s, has_ide_intr (drv s));
    if n =? 0 then _ ← wait_intr; wait_ide_intr fuel wait_intr else clear_ide_intr
  end.
End Driver.

(** * ramdisk.c: [mem] is the memory the ramdisk is in, at address 0 *)
Definition RAMDISK_SIZE : Z := 0xa0000.

Definition ramdisk_read (mem buf : arr Z) (offset len : Z) : option (arr Z) :=
  if u32 (offset + len) <? RAMDISK_SIZE then Some (memcpy (Z.to_nat len) 0 offset mem buf) else None.
Definition ramdisk_write (mem buf : arr Z) (offset len : Z) : option (arr Z) :=
  if u32 (offset + len) <? RAMDISK_SIZE then Some (memcpy (Z.to_nat len) offset 0 buf mem) else None.
