(* ===== verification/KernelDiskSpec.v ===== *)
(** The kernel's sector buffers refine a flat disk: over any disk that keeps the bytes of
    its sectors ([DiskDevice]), byte reads, byte writes, replacement and write-back behave
    as on one array of bytes.  The emulated IDE drive is such a disk. *)
From S2P Require Import Prelude Dram Cache Tlb Cpu I8259 Mmio Vga WpPool Machine Memory Devices.
From S2P Require Import DemoMachine KernelIO IdeSpec KernelDisk.

(** * What the driver needs of the disk

    [DInv f s]: in state [s] the disk holds the bytes [f]; [nsec] sectors can be accessed.
    The driver's own variables are elsewhere in the state. *)
Class DiskDevice {S} (drv : S → IdeDriver) (set_drv : IdeDriver → S → S)
    (rd : arr Z → Z → M S (arr Z)) (wr : arr Z → Z → M S unit)
    (nsec : Z) (DInv : (Z → Z) → S → Prop) := {
  dd_nsec : nsec <= 2 ^ 23;
  dd_drv d s : drv (set_drv d s) = d;
  dd_bytes f s : DInv f s → is_bytes f;
  dd_ext f g s : (∀ x, f x = g x) → DInv f s → DInv g s;
  dd_frame f d s : DInv f s → DInv f (set_drv d s);
  dd_read f s buf sec : DInv f s → 0 <= sec < nsec →
    ∃ buf' s', rd buf sec s = Ok buf' s' ∧ DInv f s' ∧ drv s' = drv s ∧
      ∀ i, aget buf' i = if (0 <=? i) && (i <? SECT) then f (SECT * sec + i) else aget buf i;
  dd_write f s buf sec : DInv f s → 0 <= sec < nsec → is_bytes (aget buf) →
    ∃ s', wr buf sec s = Ok tt s' ∧ DInv (store_sector f sec (aget buf)) s' ∧ drv s' = drv s
}.

(** * The buffers over a disk *)
Section Buffers.
Context {S : Type} {drv : S → IdeDriver} {set_drv : IdeDriver → S → S}.
Context {rd : arr Z → Z → M S (arr Z)} {wr : arr Z → Z → M S unit}.
Context {nsec : Z} {DInv : (Z → Z) → S → Prop} `{HD : !DiskDevice drv set_drv rd wr nsec DInv}.

(** Buffer [i] of a disk that holds [g]: in use, it holds a sector that belongs there, and
    the disk's bytes unless it is dirty; not in use, it is not dirty. *)
Record buf_ok (g : Z → Z) (i : Z) (b : SectorBuf) : Prop := {
  bo_home : sb_used b = true → sb_sector b mod NR_SEC_BUF = i ∧ 0 <= sb_sector b < nsec;
  bo_bytes : is_bytes (aget (sb_content b));
  bo_clean : sb_used b = true → sb_dirty b = false →
    ∀ j, 0 <= j < SECT → aget (sb_content b) j = g (SECT * sb_sector b + j);
  bo_unused : sb_used b = false → sb_dirty b = false
}.

(** The byte the driver shows at [x]: the buffer's, or the disk's. *)
Definition shown (bufs : arr SectorBuf) (g : Z → Z) (x : Z) : Z :=
  let b := aget bufs (x / SECT mod NR_SEC_BUF) in
  if sb_used b && (sb_sector b =? x / SECT) then aget (sb_content b) (x mod SECT) else g x.

(** The driver and its disk, with [g] on the disk, show the flat disk [f]. *)
Definition shows (f g : Z → Z) (s : S) : Prop :=
  DInv g s ∧ (∀ i, 0 <= i < NR_SEC_BUF → buf_ok g i (aget (sec_bufs (drv s)) i)) ∧
  ∀ x, 0 <= x < SECT * nsec → shown (sec_bufs (drv s)) g x = f x.

Definition flat_disk (f : Z → Z) (s : S) : Prop := ∃ g, shows f g s.

(** What the disk holds once buffer [b] has been written to it, when it must be. *)
Definition flushed (g : Z → Z) (b : SectorBuf) : Z → Z :=
  if sb_used b then store_sector g (sb_sector b) (aget (sb_content b)) else g.

Lemma flushed_clean g i b x : buf_ok g i b → sb_dirty b = false → flushed g b x = g x.
Proof using.
  intros [_ _ Hc _] Hd. unfold flushed, store_sector. destruct (sb_used b); [|done].
  destruct ((SECT * sb_sector b <=? x) && (x <? SECT * (sb_sector b + 1))) eqn:E; [|done].
  rewrite Hc by (done || lia). f_equal. lia.
Qed.

(** The buffers of other sectors do not see it. *)
Lemma flushed_ok g i i' b b' : buf_ok g i b → buf_ok g i' b' → i ≠ i' → buf_ok (flushed g b) i' b'.
Proof using.
  intros [Hh _ _ _] [Hh' Hb' Hc' Hu'] Hne. split; [done..| |done].
  intros Hus Hd j Hj. rewrite Hc' by done. unfold flushed, store_sector. destruct (sb_used b); [|done].
  destruct (Hh eq_refl) as [Hm _]. destruct (Hh' Hus) as [Hm' _].
  assert (sb_sector b ≠ sb_sector b') by congruence. unfold SECT in *.
  replace (_ && _) with false; [done|]. symmetry. bsplit; cbn; try done. lia.
Qed.

(** Writing a buffer back. *)
Lemma flush_run g i b s : DInv g s → buf_ok g i b → sb_dirty b = true →
  ∃ s', wr (sb_content b) (sb_sector b) s = Ok tt s' ∧ DInv (flushed g b) s' ∧ drv s' = drv s.
Proof using HD.
  intros Hg [Hh Hb _ Hu] Hd. destruct (sb_used b) eqn:Eu; [|now rewrite Hu in Hd].
  destruct (Hh eq_refl) as [_ Hr]. destruct (dd_write g s (sb_content b) (sb_sector b) Hg Hr Hb) as (s' & Hrun & Hi & Hdr).
  exists s'. unfold flushed. now rewrite Eu.
Qed.

(** After [shows f g], buffer [i] flushed. *)
Lemma flushed_shown bufs g i b x : aget bufs i = b → buf_ok g i b →
  shown bufs (flushed g b) x = shown bufs g x.
Proof using.
  intros Hb [Hh _ _ _]. unfold shown. destruct (_ && _) eqn:E; [done|].
  unfold flushed. destruct (sb_used b) eqn:Eu; [|done]. destruct (Hh eq_refl) as [Hm _].
  unfold store_sector, SECT in *.
  destruct ((512 * sb_sector b <=? x) && (x <? 512 * (sb_sector b + 1))) eqn:Ex; [|done].
  assert (x / 512 = sb_sector b) as Hx by lia. rewrite Hx, Hm, Hb, Eu, Z.eqb_refl in E. done.
Qed.

(** [mod_buf] changes one buffer and nothing of the disk. *)
Lemma mod_buf_run g i h s : DInv g s → ∃ s', mod_buf drv set_drv i h s = Ok tt s' ∧ DInv g s' ∧
  ∀ j, aget (sec_bufs (drv s')) j = if i =? j then h (aget (sec_bufs (drv s)) i) else aget (sec_bufs (drv s)) j.
Proof using HD.
  intros Hg. eexists. split; [reflexivity|]. split; [now apply dd_frame|].
  intros j. rewrite (dd_drv (DInv := DInv)). apply aget_aset.
Qed.

Lemma home_range sec : 0 <= sec mod NR_SEC_BUF < NR_SEC_BUF.
Proof using. apply Z.mod_pos_bound. unfold NR_SEC_BUF. lia. Qed.

(** A buffer replaced: what must hold of the new one, of the others and of the view. *)
Lemma shows_replace f g bufs s i b' : DInv g s → 
  (∀ j, aget (sec_bufs (drv s)) j = if i =? j then b' else aget bufs j) →
  (∀ j, 0 <= j < NR_SEC_BUF → j ≠ i → buf_ok g j (aget bufs j)) → buf_ok g i b' →
  (∀ x, 0 <= x < SECT * nsec → x / SECT mod NR_SEC_BUF ≠ i → shown bufs g x = f x) →
  (∀ x, 0 <= x < SECT * nsec → x / SECT mod NR_SEC_BUF = i →
     (if sb_used b' && (sb_sector b' =? x / SECT) then aget (sb_content b') (x mod SECT) else g x) = f x) →
  shows f g s.
Proof using.
  intros Hg Hb Hok Hb' Hv Hv'. split; [done|]. split.
  - intros j Hj. rewrite Hb. destruct (Z.eqb_spec i j) as [<-|]; [done|]. apply Hok; congruence.
  - intros x Hx. unfold shown. cbv zeta. rewrite Hb.
    destruct (Z.eqb_spec i (x / SECT mod NR_SEC_BUF)) as [E|]; [now apply Hv'|]. apply Hv; congruence.
Qed.

(** The buffer of a replacement has been written back: the disk changes, the view does not. *)
Lemma evict_run f g s i (b := aget (sec_bufs (drv s)) i) : 0 <= i < NR_SEC_BUF → shows f g s →
  ∃ s', (if sb_used b && sb_dirty b then wr (sb_content b) (sb_sector b) else mret tt) s = Ok tt s' ∧
    drv s' = drv s ∧ DInv (flushed g b) s'.
Proof using HD.
  intros Hi (Hg & Hok & Hv). specialize (Hok i Hi). fold b in Hok.
  destruct (sb_dirty b) eqn:Ed.
  - assert (sb_used b = true) as -> by (destruct (sb_used b) eqn:Eu; [done|now rewrite (bo_unused _ _ _ Hok) in Ed]).
    destruct (flush_run g i b s Hg Hok Ed) as (s' & Hr & Hd & Hdr). now exists s'.
  - rewrite andb_false_r. exists s. split; [done|]. split; [done|].
    apply (dd_ext g); [|done]. intros x. symmetry. now apply (flushed_clean g i).
Qed.

(** [shows f] is kept when the disk takes the bytes of a buffer. *)
Lemma shows_flushed f g s s' i (b := aget (sec_bufs (drv s)) i) : 0 <= i < NR_SEC_BUF → shows f g s →
  drv s' = drv s → DInv (flushed g b) s' →
  (∀ j, 0 <= j < NR_SEC_BUF → j ≠ i → buf_ok (flushed g b) j (aget (sec_bufs (drv s')) j)) ∧
  (∀ x, 0 <= x < SECT * nsec → shown (sec_bufs (drv s')) (flushed g b) x = f x).
Proof using.
  intros Hi (Hg & Hok & Hv) Hdr Hd. rewrite Hdr. split.
  - intros j Hj Hne. apply (flushed_ok g i j b); [now apply Hok|now apply Hok|done].
  - intros x Hx. rewrite (flushed_shown _ g i) by (done || now apply Hok). now apply Hv.
Qed.

(** At the bytes of the flushed buffer, what is shown is on the disk. *)
Lemma flushed_on_disk bufs g i x : x / SECT mod NR_SEC_BUF = i →
  shown bufs (flushed g (aget bufs i)) x = flushed g (aget bufs i) x.
Proof using.
  intros <-. unfold shown. cbv zeta. destruct (_ && _) eqn:E; [|done].
  apply andb_prop in E as [Eu Es%Z.eqb_eq]. unfold flushed. rewrite Eu. unfold store_sector, SECT in *.
  rewrite Es. replace (_ && _) with true by lia. f_equal. lia.
Qed.

(** ** Fetching *)
Lemma fetch_run f g sec s : shows f g s → 0 <= sec < nsec →
  ∃ s' g', buf_fetch drv set_drv rd wr sec s = Ok (sec mod NR_SEC_BUF) s' ∧ shows f g' s' ∧
    sb_used (aget (sec_bufs (drv s')) (sec mod NR_SEC_BUF)) = true ∧
    sb_sector (aget (sec_bufs (drv s')) (sec mod NR_SEC_BUF)) = sec.
Proof using HD.
  intros Hs Hsec. pose proof (home_range sec) as Hi. set (i := sec mod NR_SEC_BUF) in *.
  unfold buf_fetch. fold i. unfold get_buf. rewrite bind_gets.
  destruct (sb_used (aget (sec_bufs (drv s)) i) && (sb_sector (aget (sec_bufs (drv s)) i) =? sec)) eqn:E.
  { rewrite bind_ret. exists s, g. split; [done|]. split; [done|].
    now apply andb_prop in E as [? ?%Z.eqb_eq]. }
  destruct (evict_run f g s i Hi Hs) as (s1 & Hr1 & Hdr1 & Hg1).
  destruct (shows_flushed f g s s1 i Hi Hs Hdr1 Hg1) as [Hok1 Hv1].
  set (g1 := flushed g _) in *. rewrite !bind_bind, (bind_Ok _ _ _ _ _ Hr1).
  destruct (dd_read g1 s1 (sb_content (aget (sec_bufs (drv s)) i)) sec Hg1 Hsec) as (c & s2 & Hr2 & Hg2 & Hdr2 & Hc).
  rewrite bind_bind, (bind_Ok _ _ _ _ _ Hr2).
  destruct (mod_buf_run g1 i (set_content c) s2 Hg2) as (s3 & Hr3 & Hg3 & Hb3).
  destruct (mod_buf_run g1 i (set_used true) s3 Hg3) as (s4 & Hr4 & Hg4 & Hb4).
  destruct (mod_buf_run g1 i (set_sector sec) s4 Hg4) as (s5 & Hr5 & Hg5 & Hb5).
  destruct (mod_buf_run g1 i (set_dirty false) s5 Hg5) as (s6 & Hr6 & Hg6 & Hb6).
  rewrite bind_bind, (bind_Ok _ _ _ _ _ Hr3), bind_bind, (bind_Ok _ _ _ _ _ Hr4), bind_bind, (bind_Ok _ _ _ _ _ Hr5).
  rewrite (bind_Ok _ _ _ _ _ Hr6). set (b' := mkSectorBuf sec true false c).
  assert (∀ j, aget (sec_bufs (drv s6)) j = if i =? j then b' else aget (sec_bufs (drv s1)) j) as Hb.
  { intros j. rewrite Hb6, !Hb5, !Hb4, !Hb3, !Z.eqb_refl, Hdr2.
    destruct (i =? j); reflexivity. }
  exists s6, g1. split; [done|]. rewrite Hb, Z.eqb_refl. split; [|done].
  apply (shows_replace f g1 (sec_bufs (drv s1)) s6 i b'); try done.
  - split; try done; cbn.
    + intros j. rewrite Hc. destruct ((0 <=? j) && (j <? SECT)); [apply (dd_bytes g1 s1 Hg1)|].
      apply (proj1 (proj2 Hs) i Hi).
    + intros _ _ j Hj. rewrite Hc. now replace ((0 <=? j) && (j <? SECT)) with true by lia.
  - intros x Hx _. now apply Hv1.
  - intros x Hx Hxi. cbn. rewrite <- Hv1 by done. unfold g1. rewrite Hdr1, flushed_on_disk by done. fold g1.
    destruct (Z.eqb_spec sec (x / SECT)) as [Ex|Ex]; [|done].
    rewrite Hc. unfold SECT in *. replace (_ && _) with true by lia. f_equal. lia.
Qed.

(** ** Bytes *)
Lemma shift_sector off : Z.shiftr off 9 = off / SECT.
Proof using. now rewrite Z.shiftr_div_pow2. Qed.

Lemma land_sector off : Z.land off 511 = off mod SECT.
Proof using. apply (land_ones_mod off 9). lia. Qed.

Lemma sector_range off : 0 <= off < SECT * nsec → 0 <= off / SECT < nsec.
Proof using. unfold SECT. lia. Qed.

Lemma read_byte_run f s off : flat_disk f s → 0 <= off < SECT * nsec →
  ∃ s', read_byte drv set_drv rd wr off s = Ok (f off) s' ∧ flat_disk f s'.
Proof using HD.
  intros [g Hs] Hoff. unfold read_byte. rewrite shift_sector, land_sector.
  destruct (fetch_run f g (off / SECT) s Hs (sector_range off Hoff)) as (s' & g' & Hr & Hs' & Hu & Hsec).
  rewrite (bind_Ok _ _ _ _ _ Hr). unfold get_buf. rewrite bind_gets. exists s'. split; [|now exists g'].
  unfold mret, M_ret. f_equal. destruct Hs' as (_ & _ & Hv). rewrite <- Hv by done. unfold shown. cbv zeta.
  now rewrite Hu, Hsec, Z.eqb_refl.
Qed.

Definition store_byte (f : Z → Z) (off v : Z) : Z → Z := λ x, if x =? off then v else f x.

Lemma write_byte_run f s off v : flat_disk f s → 0 <= off < SECT * nsec → 0 <= v < 256 →
  ∃ s', write_byte drv set_drv rd wr off v s = Ok tt s' ∧ flat_disk (store_byte f off v) s'.
Proof using HD.
  intros [g Hs] Hoff Hv. unfold write_byte. rewrite shift_sector, land_sector.
  destruct (fetch_run f g (off / SECT) s Hs (sector_range off Hoff)) as (s' & g' & Hr & (Hg' & Hok' & Hv') & Hu & Hsec).
  rewrite (bind_Ok _ _ _ _ _ Hr). set (i := off / SECT mod NR_SEC_BUF) in *.
  set (b := aget (sec_bufs (drv s')) i) in *.
  set (h := λ b, set_content (aset (off mod SECT) v (sb_content b)) b).
  destruct (mod_buf_run g' i h s' Hg') as (s1 & Hr1 & Hg1 & Hb1).
  rewrite (bind_Ok _ _ _ _ _ Hr1).
  destruct (mod_buf_run g' i (set_dirty true) s1 Hg1) as (s2 & Hr2 & Hg2 & Hb2).
  exists s2. split; [exact Hr2|]. exists g'.
  apply (shows_replace _ g' (sec_bufs (drv s')) s2 i (set_dirty true (h b))).
  - done.
  - intros j. rewrite Hb2, !Hb1, Z.eqb_refl. destruct (i =? j); reflexivity.
  - intros j Hj _. now apply Hok'.
  - destruct (Hok' i (home_range _)) as [Hh Hb _ Hun]. split; cbn; try done.
    + intros j. rewrite aget_aset. destruct (_ =? _); [done|apply Hb].
    + intros Hf. fold b in Hf. congruence.
  - intros x Hx Hne. rewrite Hv' by done. unfold store_byte. destruct (Z.eqb_spec x off); [|done]. now subst.
  - intros x Hx Hxi. cbn. fold b. rewrite Hu, Hsec. cbn [andb]. unfold store_byte. rewrite aget_aset.
    pose proof (Hv' x Hx) as Hvx. unfold shown in Hvx. cbv zeta in Hvx. rewrite Hxi in Hvx. fold b in Hvx.
    rewrite Hu, Hsec in Hvx. cbn [andb] in Hvx.
    unfold SECT in *. destruct (Z.eqb_spec (off / 512) (x / 512)), (Z.eqb_spec (off mod 512) (x mod 512)), (Z.eqb_spec x off);
      done || lia.
Qed.

(** ** Write-back *)
Lemma clean_one f g i s (b := aget (sec_bufs (drv s)) i) : shows f g s → 0 <= i < NR_SEC_BUF → sb_dirty b = true →
  ∃ s', (_ ← wr (sb_content b) (sb_sector b); mod_buf drv set_drv i (set_dirty false)) s = Ok tt s' ∧
    flat_disk f s' ∧
    ∀ j, sb_dirty (aget (sec_bufs (drv s')) j) = if i =? j then false else sb_dirty (aget (sec_bufs (drv s)) j).
Proof using HD.
  intros Hs Hi Ed. pose proof (proj1 (proj2 Hs) i Hi) as Hb. fold b in Hb.
  destruct (flush_run g i b s (proj1 Hs) Hb Ed) as (s1 & Hr1 & Hg1 & Hdr1).
  destruct (shows_flushed f g s s1 i Hi Hs Hdr1 Hg1) as [Hok1 Hv1]. fold b in Hok1, Hv1.
  destruct (mod_buf_run (flushed g b) i (set_dirty false) s1 Hg1) as (s2 & Hr2 & Hg2 & Hb2).
  rewrite (bind_Ok _ _ _ _ _ Hr1). exists s2. split; [exact Hr2|]. rewrite Hdr1 in Hb2. fold b in Hb2. split.
  - exists (flushed g b). apply (shows_replace _ _ (sec_bufs (drv s1)) s2 i (set_dirty false b)); try done.
    + now rewrite Hdr1.
    + destruct Hb as [Hh Hby _ Hu]. split; cbn; try done. intros Hus _ j Hj. unfold flushed. rewrite Hus.
      unfold store_sector, SECT in *. replace (_ && _) with true by lia. f_equal. lia.
    + intros x Hx _. now apply Hv1.
    + intros x Hx Hxi. rewrite <- Hv1 by done. unfold shown. cbv zeta. rewrite Hxi, Hdr1. reflexivity.
  - intros j. rewrite Hb2. now destruct (i =? j).
Qed.

Lemma buf_writeback_run f s : flat_disk f s →
  ∃ s' g, buf_writeback drv set_drv wr s = Ok tt s' ∧ flat_disk f s' ∧ DInv g s' ∧
    ∀ x, 0 <= x < SECT * nsec → g x = f x.
Proof using HD.
  intros Hs. destruct (for_ok (λ i s, flat_disk f s ∧
    ∀ j, 0 <= j < i → sb_dirty (aget (sec_bufs (drv s)) j) = false) (Z.to_nat NR_SEC_BUF) 0
    (λ i, b ← get_buf drv i;
      if sb_dirty b then _ ← wr (sb_content b) (sb_sector b); mod_buf drv set_drv i (set_dirty false)
      else mret tt) s) as (s' & Hr & Hf & Hc).
  - split; [done|]. lia.
  - intros i s1 Hi [[g (Hg & Hok & Hv)] Hcl]. unfold get_buf. rewrite bind_gets.
    set (b := aget (sec_bufs (drv s1)) i). destruct (sb_dirty b) eqn:Ed.
    + destruct (clean_one f g i s1) as (s2 & Hr2 & Hf2 & Hd2); [now split|done|done|].
      exists s2. split; [exact Hr2|]. split; [done|]. intros j Hj. rewrite Hd2.
      destruct (Z.eqb_spec i j); [done|]. apply Hcl. lia.
    + exists s1. split; [done|]. split; [now exists g|]. intros j Hj.
      destruct (Z.eqb_spec j i) as [->|]; [done|]. apply Hcl. lia.
  - exists s'. destruct Hf as [g (Hg & Hok & Hv)]. exists g. split; [exact Hr|]. split; [now exists g|].
    split; [done|]. intros x Hx. rewrite <- Hv by done. unfold shown. cbv zeta.
    set (i := x / SECT mod NR_SEC_BUF). destruct (_ && _) eqn:E; [|done].
    apply andb_prop in E as [Eu Es%Z.eqb_eq].
    rewrite (bo_clean _ _ _ (Hok i (home_range _)) Eu); [|apply Hc, home_range|unfold SECT; lia].
    rewrite Es. f_equal. unfold SECT. lia.
Qed.
(** ** Files of bytes *)
Lemma flat_disk_ext f f' s : (∀ x, 0 <= x < SECT * nsec → f x = f' x) → flat_disk f s → flat_disk f' s.
Proof using. intros H [g (Hg & Hok & Hv)]. exists g. split; [done|]. split; [done|]. intros x Hx. now rewrite Hv, H. Qed.

Lemma wrap_offset x : 0 <= x < SECT * nsec → u32 x = x.
Proof using HD. intros. apply wrap_small. pose proof (dd_nsec (DInv := DInv)). unfold SECT in *. lia. Qed.

(** [f] with the [len] bytes of [src] at [off]. *)
Definition store_bytes (f : Z → Z) (off len : Z) (src : Z → Z) : Z → Z :=
  λ x, if (off <=? x) && (x <? off + len) then src (x - off) else f x.

Lemma ide_write_run f s buf off len : flat_disk f s → 0 <= off → 0 <= len → off + len <= SECT * nsec →
  (∀ i, 0 <= i < len → 0 <= aget buf i < 256) →
  ∃ s', KernelDisk.ide_write drv set_drv rd wr buf off len s = Ok tt s' ∧ flat_disk (store_bytes f off len (aget buf)) s'.
Proof using HD.
  intros Hs Ho Hl Hmax Hb.
  destruct (for_ok (λ i s, flat_disk (store_bytes f off i (aget buf)) s) (Z.to_nat len) 0
    (λ i, write_byte drv set_drv rd wr (u32 (off + i)) (aget buf i)) s) as (s' & Hr & Hs').
  - eapply flat_disk_ext; [|exact Hs]. intros x _. unfold store_bytes. bsplit; cbn; done || lia.
  - intros i s1 Hi Hs1. rewrite wrap_offset by lia.
    destruct (write_byte_run _ s1 (off + i) (aget buf i) Hs1) as (s2 & Hr2 & Hs2); [lia|apply Hb; lia|].
    exists s2. split; [exact Hr2|]. eapply flat_disk_ext; [|exact Hs2]. intros x _. unfold store_byte, store_bytes.
    destruct (Z.eqb_spec x (off + i)) as [->|]; [|bsplit; cbn; done || lia].
    replace (_ && _) with true by lia. f_equal. lia.
  - exists s'. split; [exact Hr|]. now replace (0 + Z.of_nat (Z.to_nat len)) with len in Hs' by lia.
Qed.

Lemma ide_read_run n f s buf off i : flat_disk f s → 0 <= off → 0 <= i → off + i + Z.of_nat n <= SECT * nsec →
  ∃ buf' s', ide_read_from drv set_drv rd wr n i buf off s = Ok buf' s' ∧ flat_disk f s' ∧
    ∀ k, aget buf' k = if (i <=? k) && (k <? i + Z.of_nat n) then f (off + k) else aget buf k.
Proof using HD.
  revert i buf s; induction n as [|n IH]; intros i buf s Hs Ho Hi Hmax.
  { exists buf, s. split; [reflexivity|]. split; [done|]. intros k. bsplit; cbn; done || lia. }
  cbn [ide_read_from]. rewrite wrap_offset by lia.
  destruct (read_byte_run f s (off + i) Hs) as (s1 & Hr1 & Hs1); [lia|]. rewrite (bind_Ok _ _ _ _ _ Hr1).
  destruct (IH (i + 1) (aset i (f (off + i)) buf) s1 Hs1 Ho) as (buf' & s' & Hr & Hs' & Hb); [lia|lia|].
  exists buf', s'. split; [exact Hr|]. split; [done|]. intros k. rewrite Hb, aget_aset.
  destruct (Z.eqb_spec i k) as [->|]; bsplit; cbn; done || lia.
Qed.

(** ** The periodic write-back *)
Lemma set_counter_run f n s : flat_disk f s → flat_disk f (set_drv (set_counter n (drv s)) s).
Proof using HD.
  intros [g (Hg & Hok & Hv)]. exists g. split; [now apply dd_frame|]. now rewrite (dd_drv (DInv := DInv)).
Qed.

(** The disk itself holds [f]. *)
Definition synced (f : Z → Z) (s : S) : Prop := ∃ g, DInv g s ∧ ∀ x, 0 <= x < SECT * nsec → g x = f x.

Lemma ide_writeback_run f s : flat_disk f s → 0 <= wb_counter (drv s) < WRITEBACK_TIME * HZ →
  ∃ s', ide_writeback drv set_drv wr s = Ok tt s' ∧ flat_disk f s' ∧
    if wb_counter (drv s) + 1 =? WRITEBACK_TIME * HZ then wb_counter (drv s') = 0 ∧ synced f s'
    else wb_counter (drv s') = wb_counter (drv s) + 1.
Proof using HD.
  intros Hs Hc. unfold ide_writeback, WRITEBACK_TIME, HZ in *. rewrite bind_modify, bind_gets.
  set (s1 := set_drv _ s). assert (wb_counter (drv s1) = wb_counter (drv s) + 1) as Hc1.
  { unfold s1. rewrite (dd_drv (DInv := DInv)). cbn. apply wrap_small. lia. }
  assert (flat_disk f s1) as Hs1 by now apply set_counter_run. rewrite Hc1.
  destruct (_ =? _); [|now exists s1].
  destruct (buf_writeback_run f s1 Hs1) as (s2 & g & Hr & Hs2 & Hg & Hgf). rewrite (bind_Ok _ _ _ _ _ Hr).
  eexists. split; [reflexivity|]. split; [now apply set_counter_run|].
  rewrite (dd_drv (DInv := DInv)). split; [done|]. exists g. split; [now apply dd_frame|done].
Qed.

(** [n] timer interrupts. *)
Fixpoint ticks (n : nat) : M S unit :=
  match n with O => mret tt | Datatypes.S n => _ ← ide_writeback drv set_drv wr; ticks n end.

Lemma ticks_run n f s : flat_disk f s → 0 <= wb_counter (drv s) →
  wb_counter (drv s) + Z.of_nat (Datatypes.S n) = WRITEBACK_TIME * HZ →
  ∃ s', ticks (Datatypes.S n) s = Ok tt s' ∧ flat_disk f s' ∧ wb_counter (drv s') = 0 ∧ synced f s'.
Proof using HD.
  revert s; induction n as [|n IH]; intros s Hs Hc Hn.
  all: destruct (ide_writeback_run f s Hs) as (s1 & Hr & Hs1 & Hw); [lia|].
  all: cbn [ticks]; rewrite (bind_Ok _ _ _ _ _ Hr).
  - replace (_ =? _) with true in Hw by lia. now exists s1.
  - replace (_ =? _) with false in Hw by lia. apply IH; [done|lia|lia].
Qed.

(** * Properties *)

(** C26: The sector buffers refine a flat disk: whatever sectors are buffered, dirty or
    replaced, reading a byte gives the byte of the flat disk, writing one changes that
    byte alone, and writing the buffers back leaves the flat disk as it is and puts all of
    it on the device. *)
Theorem buffers_refine_flat_disk f s off v : flat_disk f s → 0 <= off < SECT * nsec → 0 <= v < 256 →
  (∃ s', read_byte drv set_drv rd wr off s = Ok (f off) s' ∧ flat_disk f s') ∧
  (∃ s', write_byte drv set_drv rd wr off v s = Ok tt s' ∧ flat_disk (λ x, if x =? off then v else f x) s') ∧
  (∃ s', buf_writeback drv set_drv wr s = Ok tt s' ∧ flat_disk f s' ∧ synced f s').
Proof using HD.
  intros Hs Ho Hv. split; [now apply read_byte_run|]. split; [now apply write_byte_run|].
  destruct (buf_writeback_run f s Hs) as (s' & g & Hr & Hf & Hg & Hgf). exists s'.
  split; [exact Hr|]. split; [done|]. now exists g.
Qed.

(** What [ide_write] writes, [ide_read] reads back: after a write of [len] bytes at
    [off], a read of any range gives the written bytes where the two overlap and the old
    ones elsewhere, at any alignment and over any number of sectors. *)
Theorem ide_write_read f s src off len dst off' len' :
  flat_disk f s → 0 <= off → 0 <= len → off + len <= SECT * nsec →
  0 <= off' → 0 <= len' → off' + len' <= SECT * nsec →
  (∀ i, 0 <= i < len → 0 <= aget src i < 256) →
  ∃ dst' s', (_ ← KernelDisk.ide_write drv set_drv rd wr src off len;
              ide_read drv set_drv rd wr dst off' len') s = Ok dst' s' ∧
    ∀ k, 0 <= k < len' → aget dst' k =
      if (off <=? off' + k) && (off' + k <? off + len) then aget src (off' + k - off) else f (off' + k).
Proof using HD.
  intros Hs Ho Hl Hm Ho' Hl' Hm' Hb.
  destruct (ide_write_run f s src off len Hs Ho Hl Hm Hb) as (s1 & Hr1 & Hs1). rewrite (bind_Ok _ _ _ _ _ Hr1).
  destruct (ide_read_run (Z.to_nat len') _ s1 dst off' 0 Hs1 Ho') as (dst' & s' & Hr & _ & Hv); [lia|lia|].
  exists dst', s'. split; [exact Hr|]. intros k Hk. rewrite Hv. now replace ((0 <=? k) && _) with true by lia.
Qed.

(** C27: A written byte reaches the disk: whatever the buffers hold, the timer interrupts
    left until the write-back counter has counted a second ([WRITEBACK_TIME * HZ]) end
    with every byte the driver shows on the device itself, and the count starts again. *)
Theorem writeback_reaches_disk f s n : flat_disk f s → 0 <= wb_counter (drv s) →
  wb_counter (drv s) + Z.of_nat (Datatypes.S n) = WRITEBACK_TIME * HZ →
  ∃ s', ticks (Datatypes.S n) s = Ok tt s' ∧ flat_disk f s' ∧ wb_counter (drv s') = 0 ∧
    ∃ g, DInv g s' ∧ ∀ x, 0 <= x < SECT * nsec → g x = f x.
Proof using HD. intros. now apply ticks_run. Qed.
End Buffers.

(** * The emulated drive is such a disk *)
Section Emulated.
Context `{HRand : !LibcRand, HJunk : !StackJunk} (nsec sz : Z).

(** The kernel's driver beside the machine it runs on. *)
Definition on_machine {A} (m : NEMU A) : M (Machine * IdeDriver) A :=
  zoom fst (λ x s, (x, snd s)) m.

Definition emulated_read (buf : arr Z) (sec : Z) : M (Machine * IdeDriver) (arr Z) :=
  on_machine (disk_do_read 1 buf sec).
Definition emulated_write (buf : arr Z) (sec : Z) : M (Machine * IdeDriver) unit :=
  on_machine (disk_do_write 1 buf sec).
Definition emulated_disk (f : Z → Z) (s : Machine * IdeDriver) : Prop := disk_idle f sz (fst s).

Lemma on_machine_Ok {A} (m : NEMU A) s a x : m (fst s) = Ok a x → on_machine m s = Ok a (x, snd s).
Proof using. intros H. unfold on_machine, zoom. now rewrite H. Qed.

Lemma emulated_device : nsec <= 2 ^ 23 → SECT * nsec <= sz →
  DiskDevice snd (λ d s, (fst s, d)) emulated_read emulated_write nsec emulated_disk.
Proof using.
  intros Hn Hsz. split; [done|done|..].
  - intros f s Hs. apply Hs.
  - intros f g s H [[Hm Hb Hp Hc Hf Hd Hs] Hst]. split; [|done]. split; try done.
    + intros x. rewrite <- H. apply Hf.
    + intros i Hi. rewrite <- H. now apply Hd.
  - intros f d s Hs. exact Hs.
  - intros f s buf sec Hs Hsec.
    destruct (disk_read_run f sz 0 sec buf (fst s) Hs) as (buf' & x & Hr & Hv & Hs' & _); [lia|unfold SECT in *; lia|].
    exists buf', (x, snd s). split; [now apply on_machine_Ok|]. done.
  - intros f s buf sec Hs Hsec Hb.
    destruct (disk_write_run f sz 0 sec buf (fst s) Hs) as (x & Hr & Hs' & _); [lia|unfold SECT in *; lia|done|].
    exists (x, snd s). split; [now apply on_machine_Ok|]. done.
Qed.

(** At boot nothing is buffered. *)
Lemma boot_flat_disk f m : disk_idle f sz m → flat_disk (nsec := nsec) (drv := snd) (DInv := emulated_disk) f (m, ide_driver0).
Proof using.
  intros Hm. exists f. split; [done|]. cbn [snd]. split.
  - intros i Hi. cbn. rewrite aget_anew. split; done.
  - intros x Hx. unfold shown. cbn. now rewrite aget_anew.
Qed.
End Emulated.

(** * Witnesses: the kernel's driver on the machine just booted, a disk of eight sectors *)
#[local] Existing Instance IsoRand.
#[local] Existing Instance ZeroJunk.

#[local] Instance boot_device : DiskDevice snd (λ d s, (fst s, d)) emulated_read emulated_write 8 (emulated_disk 4096).
Proof. apply emulated_device; unfold SECT; lia. Qed.

Definition boot_bytes : Z → Z := aget (f_data boot_disk).

Lemma boot_shows : flat_disk (nsec := 8) (drv := snd) (DInv := emulated_disk 4096) boot_bytes (boot_machine, ide_driver0).
Proof. apply boot_flat_disk, boot_machine_idle. Qed.

Lemma buffers_refine_flat_disk_witness :
  ∃ s', read_byte snd (λ d s, (fst s, d)) emulated_read emulated_write 1024 (boot_machine, ide_driver0) = Ok 0x55 s'.
Proof.
  destruct (buffers_refine_flat_disk boot_bytes _ 1024 7 boot_shows) as ((s' & Hr & _) & _).
  - unfold SECT. lia.
  - lia.
  - exists s'. exact Hr.
Defined.

Lemma ide_write_read_witness : ∃ dst' s',
  (_ ← KernelDisk.ide_write snd (λ d s, (fst s, d)) emulated_read emulated_write (anew 9) 1020 10;
   ide_read snd (λ d s, (fst s, d)) emulated_read emulated_write (anew 0) 1022 20) (boot_machine, ide_driver0)
    = Ok dst' s' ∧ aget dst' 5 = 9.
Proof.
  destruct (ide_write_read boot_bytes _ (anew 9) 1020 10 (anew 0) 1022 20 boot_shows) as (dst' & s' & Hr & Hv).
  1-6: unfold SECT; lia.
  - intros i _. rewrite aget_anew. lia.
  - exists dst', s'. split; [exact Hr|]. rewrite Hv by lia. apply aget_anew.
Defined.

Lemma writeback_reaches_disk_witness :
  ∃ s', ticks (drv := snd) (set_drv := λ d s, (fst s, d)) (wr := emulated_write) 100 (boot_machine, ide_driver0) = Ok tt s' ∧
    wb_counter (snd s') = 0.
Proof.
  destruct (writeback_reaches_disk boot_bytes _ 99 boot_shows) as (s' & Hr & _ & Hc & _).
  - cbn. lia.
  - reflexivity.
  - exists s'. split; [exact Hr|exact Hc].
Defined.
