(* ===== verification/Kvm.v ===== *)
(** The kernel's memory set-up: the page tables of [kernel/src/memory/kvm.c], [mm.c] and
    [vmem.c], the GDT of [kvm.c] and the IDT of [kernel/src/irq/idt.c], as words of the
    kernel's static tables.  Where the linker puts the tables, and [mm_malloc], which is a
    binary, are parameters. *)
From S2P Require Import Prelude.

(** * memory.h and x86-inc/mmu.h *)
Definition KOFFSET : Z := 0xC0000000.
Definition PHY_MEM : Z := 128 * 1024 * 1024.
Definition PAGE_SIZE : Z := 4096.
Definition NR_PDE : Z := 1024.
Definition NR_PTE : Z := 1024.
Definition PT_SIZE : Z := NR_PTE * PAGE_SIZE.
Definition va_to_pa (addr : Z) : Z := u32 (addr - KOFFSET).
Definition make_pde (addr : Z) : Z := Z.lor (Z.land (u32 addr) 0xfffff000) 0x7.
Definition make_pte (addr : Z) : Z := Z.lor (Z.land (u32 addr) 0xfffff000) 0x7.

(** * The static tables, as arrays of their entries

    The control registers written by the kernel are kept with them. *)
Record Kvm := mkKvm {
  kpdir : arr Z; kptable : arr Z;
  updir : arr Z; ucr3 : Z; cur_brk : Z; max_brk : Z;
  table : arr Z;
  kcr0 : Z; kcr3 : Z
}.

(** Where the linker puts them (virtual addresses). *)
Record KAddrs := mkKAddrs { kpdir_at : Z; kptable_at : Z; updir_at : Z; table_at : Z }.

Definition set_kernel_tables pd pt k := mkKvm pd pt (updir k) (ucr3 k) (cur_brk k) (max_brk k) (table k) (kcr0 k) (kcr3 k).
Definition set_crs c0 c3 k := mkKvm (kpdir k) (kptable k) (updir k) (ucr3 k) (cur_brk k) (max_brk k) (table k) c0 c3.
Definition set_updir u c k := mkKvm (kpdir k) (kptable k) u c (cur_brk k) (max_brk k) (table k) (kcr0 k) (kcr3 k).
Definition set_brks c m k := mkKvm (kpdir k) (kptable k) (updir k) (ucr3 k) c m (table k) (kcr0 k) (kcr3 k).
Definition set_table t k := mkKvm (kpdir k) (kptable k) (updir k) (ucr3 k) (cur_brk k) (max_brk k) t (kcr0 k) (kcr3 k).

Section Kvm.
Context (A : KAddrs).

(** * kvm.c *)

(** The loop over [pdir_idx]; the result is also the final [ptable]. *)
Fixpoint fill_pdes (n : nat) (pdir_idx ptable : Z) (pdir : arr Z) : arr Z * Z :=
  match n with
  | O => (pdir, ptable)
  | S n =>
    let pdir := aset pdir_idx (make_pde ptable) pdir in
    let pdir := aset (pdir_idx + KOFFSET / PT_SIZE) (make_pde ptable) pdir in
    fill_pdes n (pdir_idx + 1) (u32 (ptable + 4 * NR_PTE)) pdir
  end.

(** The assembly loop: [stosl] downwards, [subl], [jge] ([SF = OF]: the difference of the
    signed operands is not negative). [i] is the entry [%edi] points to. *)
Fixpoint fill_ptes (fuel : nat) (i eax : Z) (tab : arr Z) : option (arr Z) :=
  match fuel with
  | O => None
  | S fuel =>
    let tab := aset i eax tab in
    if 0 <=? s32 eax - PAGE_SIZE then fill_ptes fuel (i - 1) (u32 (eax - PAGE_SIZE)) tab else Some tab
  end.

Definition init_page (fuel : nat) (k : Kvm) : option Kvm :=
  let pdir := va_to_pa (kpdir_at A) in
  let ptable := va_to_pa (kptable_at A) in
  let pd := memset (Z.to_nat NR_PDE) 0 0 (kpdir k) in
  let '(pd, ptable') := fill_pdes (Z.to_nat (PHY_MEM / PT_SIZE)) 0 ptable pd in
  tab ← fill_ptes fuel ((ptable' - ptable) / 4 - 1) (Z.lor (PHY_MEM - PAGE_SIZE) 0x7) (kptable k);
  let k := set_kernel_tables pd tab k in
  let cr3 := set_bitfield 0 12 20 (Z.shiftr pdir 12) in
  let cr0 := set_bitfield (kcr0 k) 31 1 1 in
  Some (set_crs cr0 cr3 k).

(** * mm.c *)
Definition init_mm (k : Kvm) : Kvm :=
  let u := memset (Z.to_nat NR_PDE) 0 0 (updir k) in
  let u := memcpy (Z.to_nat (PHY_MEM / PT_SIZE)) (KOFFSET / PT_SIZE) (KOFFSET / PT_SIZE) (kpdir k) u in
  set_updir u (Z.land (va_to_pa (updir_at A)) (Z.lnot 0xfff)) k.

(** The break of the user program. *)
Definition mm_brk {S} (kvm : S → Kvm) (set_kvm : Kvm → S → S) (mm_malloc : Z → Z → M S Z) (new_brk : Z) : M S Z :=
  _ ← (if negb (new_brk =? 0) then
         k ← gets kvm;
         _ ← (if max_brk k <? new_brk then
                _ ← mm_malloc (max_brk k) (u32 (new_brk - max_brk k));
                modify (λ s, set_kvm (set_brks (cur_brk (kvm s)) new_brk (kvm s)) s)
              else mret tt);
         modify (λ s, set_kvm (set_brks new_brk (max_brk (kvm s)) (kvm s)) s)
       else mret tt);
  gets (λ s, cur_brk (kvm s)).

(** * vmem.c *)
Definition VMEM_ADDR : Z := 0xa0000.
Definition SCR_SIZE : Z := 320 * 200.

Fixpoint fill_video (n : nat) (start i : Z) (t : arr Z) : arr Z :=
  match n with
  | O => t
  | S n => fill_video n start (i + 1) (aset (start + i) (make_pte (VMEM_ADDR + PAGE_SIZE * i)) t)
  end.

Definition create_video_mapping (k : Kvm) : Kvm :=
  let t := memset (Z.to_nat NR_PTE) 0 0 (table k) in
  let u := aset (Z.land (Z.shiftr VMEM_ADDR 22) 0x3ff) (make_pde (va_to_pa (table_at A))) (updir k) in
  let start := Z.land (Z.shiftr VMEM_ADDR 12) 0x3ff in
  let t := fill_video (Z.to_nat (SCR_SIZE / PAGE_SIZE + 1)) start 0 t in
  set_table t (set_updir u (ucr3 k) k).
End Kvm.

(** The tests of video memory, over the bytes the buffer's address names. *)
Fixpoint video_write (n : nat) (i : Z) (mem : arr Z) : arr Z :=
  match n with O => mem | S n => video_write n (i + 1) (le_store 4 (VMEM_ADDR + 4 * i) i mem) end.
Definition video_mapping_write_test (mem : arr Z) : arr Z := video_write (Z.to_nat (SCR_SIZE / 4)) 0 mem.
Fixpoint video_read (n : nat) (i : Z) (mem : arr Z) : bool :=
  match n with O => true | S n => (le_load 4 (aget mem) (VMEM_ADDR + 4 * i) =? i) && video_read n (i + 1) mem end.
Definition video_mapping_read_test (mem : arr Z) : bool := video_read (Z.to_nat (SCR_SIZE / 4)) 0 mem.
Definition video_mapping_clear (mem : arr Z) : arr Z := memset (Z.to_nat SCR_SIZE) VMEM_ADDR 0 mem.

(** * The GDT of kvm.c; a descriptor is its 64-bit word *)
Definition DPL_KERNEL : Z := 0.
Definition DPL_USER : Z := 3.
Definition SEG_WRITABLE : Z := 0x2.
Definition SEG_READABLE : Z := 0x2.
Definition SEG_EXECUTABLE : Z := 0x8.
Definition NR_SEGMENTS : Z := 3.
Definition SEG_KERNEL_CODE : Z := 1.
Definition SEG_KERNEL_DATA : Z := 2.

Definition set_segment (d pl type : Z) : Z :=
  let d := set_bitfield d 0 16 0xFFFF in
  let d := set_bitfield d 16 16 0x0 in
  let d := set_bitfield d 32 8 0x0 in
  let d := set_bitfield d 40 4 type in
  let d := set_bitfield d 44 1 1 in
  let d := set_bitfield d 45 2 pl in
  let d := set_bitfield d 47 1 1 in
  let d := set_bitfield d 48 4 0xF in
  let d := set_bitfield d 52 1 0 in
  let d := set_bitfield d 53 1 0 in
  let d := set_bitfield d 54 1 1 in
  let d := set_bitfield d 55 1 1 in
  set_bitfield d 56 8 0x0.

Definition init_segment (gdt : arr Z) : arr Z :=
  let gdt := memset (Z.to_nat NR_SEGMENTS) 0 0 gdt in
  let gdt := aset SEG_KERNEL_CODE
    (set_segment (aget gdt SEG_KERNEL_CODE) DPL_KERNEL (Z.lor SEG_EXECUTABLE SEG_READABLE)) gdt in
  aset SEG_KERNEL_DATA (set_segment (aget gdt SEG_KERNEL_DATA) DPL_KERNEL SEG_WRITABLE) gdt.

(** * idt.c *)
Definition INTERRUPT_GATE_32 : Z := 0xE.
Definition TRAP_GATE_32 : Z := 0xF.
Definition NR_IRQ : Z := 256.

Definition set_gate (type d selector offset dpl : Z) : Z :=
  let d := set_bitfield d 0 16 (Z.land offset 0xFFFF) in
  let d := set_bitfield d 16 16 selector in
  let d := set_bitfield d 32 8 0 in
  let d := set_bitfield d 40 4 type in
  let d := set_bitfield d 44 1 0 in
  let d := set_bitfield d 45 2 dpl in
  let d := set_bitfield d 47 1 1 in
  set_bitfield d 48 16 (Z.land (Z.shiftr offset 16) 0xFFFF).
Definition set_intr (d selector offset dpl : Z) : Z := set_gate INTERRUPT_GATE_32 d selector offset dpl.
Definition set_trap (d selector offset dpl : Z) : Z := set_gate TRAP_GATE_32 d selector offset dpl.

(** The entry points of do_irq.S. *)
Record Entries := mkEntries { vec : Z → Z; vecsys : Z; irq0 : Z; irq1 : Z; irq14 : Z; irq_empty : Z }.

Definition KCODE : Z := Z.shiftl SEG_KERNEL_CODE 3.

Definition trap_at (i offset dpl : Z) (idt : arr Z) : arr Z :=
  aset i (set_trap (aget idt i) KCODE offset dpl) idt.
Definition intr_at (i offset dpl : Z) (idt : arr Z) : arr Z :=
  aset i (set_intr (aget idt i) KCODE offset dpl) idt.

Fixpoint traps_from (f : Z → Z) (n : nat) (i : Z) (idt : arr Z) : arr Z :=
  match n with O => idt | S n => traps_from f n (i + 1) (trap_at i (f i) DPL_KERNEL idt) end.

Definition init_idt (E : Entries) (idt : arr Z) : arr Z :=
  let idt := traps_from (λ _, irq_empty E) (Z.to_nat NR_IRQ) 0 idt in
  let idt := traps_from (vec E) 15 0 idt in
  let idt := trap_at 0x80 (vecsys E) DPL_USER idt in
  let idt := intr_at (32 + 1) (irq1 E) DPL_KERNEL idt in
  let idt := intr_at (32 + 0) (irq0 E) DPL_KERNEL idt in
  intr_at (32 + 14) (irq14 E) DPL_KERNEL idt.
