(* ===== verification/KvmSpec.v ===== *)
(** The tables the kernel builds, as the emulator's walk and descriptor loads read them:
    what each address space maps, where segments start, where gates lead. *)
From S2P Require Import Prelude Dram Cache L2Facts CacheFacts CacheSpec WorkingSet.
From S2P Require Import Tlb Cpu I8259 Mmio Vga WpPool Machine Memory MemFacts DemoMachine PageSpec.
From S2P Require Import Kvm.

(** * Entries *)
Lemma make_pde_eq a : 0 <= a < 2 ^ 32 → a mod 4096 = 0 → make_pde a = a + 7.
Proof.
  intros Ha Hm. unfold make_pde. rewrite wrap_small, page_mask by done.
  rewrite <- Z.shiftl_mul_pow2 with (n := 12) by lia. rewrite lor_shiftl_add by lia. lia.
Qed.

Lemma make_pte_eq a : 0 <= a < 2 ^ 32 → a mod 4096 = 0 → make_pte a = a + 7.
Proof. exact (make_pde_eq a). Qed.

(** The memory [f] holds the [n] words of the table [t] at [pa]. *)
Definition words (f : Z → Z) (pa n : Z) (t : arr Z) : Prop :=
  ∀ i, 0 <= i < n → le_load 4 f (pa + 4 * i) = aget t i.

(** A table of [n] words at [va] is page-aligned and in physical memory. *)
Definition placed (va n : Z) : Prop :=
  KOFFSET <= va ∧ va mod 4096 = 0 ∧ va - KOFFSET + 4 * n <= PHY_MEM.

Lemma placed_pa va n : placed va n → 0 <= n →
  va_to_pa va = va - KOFFSET ∧ 0 <= va_to_pa va < 2 ^ 32 ∧ va_to_pa va mod 4096 = 0.
Proof.
  unfold placed, va_to_pa, KOFFSET, PHY_MEM. intros (H1 & H2 & H3) Hn. rewrite wrap_small by lia. lia.
Qed.

(** * The loops *)
(** The entries written so far, from [i] on. *)
Definition pde_run (n : nat) (i p : Z) (j : Z) : option Z :=
  if (i <=? j) && (j <? i + Z.of_nat n) then Some (p + 4096 * (j - i) + 7) else None.

Lemma pde_run_S n i p j :
  pde_run (S n) i p j = if i =? j then Some (p + 7) else pde_run n (i + 1) (p + 4096) j.
Proof.
  unfold pde_run. destruct (Z.eqb_spec i j) as [->|].
  - replace (_ && _) with true by lia. f_equal. lia.
  - replace ((i <=? j) && _) with ((i + 1 <=? j) && (j <? i + 1 + Z.of_nat n)) by (apply eq_true_iff_eq; lia).
    destruct (_ && _); [f_equal; lia|done].
Qed.

Lemma fill_pdes_spec n i p pd : 0 <= p → p + 4096 * Z.of_nat n < 2 ^ 32 → p mod 4096 = 0 →
  0 <= i → i + Z.of_nat n <= 768 →
  ∃ pd', fill_pdes n i p pd = (pd', p + 4096 * Z.of_nat n) ∧
    ∀ j, aget pd' j = default (default (aget pd j) (pde_run n i p (j - 768))) (pde_run n i p j).
Proof.
  revert i p pd; induction n as [|n IH]; intros i p pd Hp Hmax Hal Hi Hin.
  { exists pd. cbn [fill_pdes]. split; [f_equal; lia|]. intros j. unfold pde_run.
    rewrite Z.add_0_r. now replace (_ && _) with false by lia; replace (_ && _) with false by lia. }
  cbn [fill_pdes]. change (KOFFSET / PT_SIZE) with 768. change (4 * NR_PTE) with 4096.
  rewrite wrap_small, make_pde_eq by lia.
  destruct (IH (i + 1) (p + 4096) (aset (i + 768) (p + 7) (aset i (p + 7) pd))) as (pd' & -> & Hv); [lia..|].
  exists pd'. split; [f_equal; lia|]. intros j. rewrite Hv, !pde_run_S, !aget_aset.
  destruct (Z.eqb_spec i j) as [->|].
  - unfold pde_run. replace (_ && _) with false by lia. replace (_ && _) with false by lia.
    now replace (j + 768 =? j) with false by lia.
  - replace (i + 768 =? j) with (i =? j - 768) by (apply eq_true_iff_eq; lia).
    destruct (Z.eqb_spec i (j - 768)) as [E|]; [|done].
    unfold pde_run at 1. replace (_ && _) with false by lia. done.
Qed.

(** The assembly loop stops after the entry of frame 0. *)
Lemma fill_ptes_spec n fuel tab : Z.of_nat n * 4096 + 7 < 2 ^ 31 → (n < fuel)%nat →
  ∃ tab', fill_ptes fuel (Z.of_nat n) (Z.of_nat n * 4096 + 7) tab = Some tab' ∧
    ∀ j, aget tab' j = if (0 <=? j) && (j <=? Z.of_nat n) then j * 4096 + 7 else aget tab j.
Proof.
  revert fuel tab; induction n as [|n IH]; intros fuel tab Hmax Hf; (destruct fuel as [|fuel]; [lia|]); cbn [fill_ptes].
  - rewrite sgn_small by lia. replace (0 <=? _) with false by (unfold PAGE_SIZE; lia).
    eexists. split; [reflexivity|]. intros j. rewrite aget_aset.
    destruct (Z.eqb_spec (Z.of_nat 0) j) as [<-|]; [done|]. now replace (_ && _) with false by lia.
  - rewrite sgn_small by lia. unfold PAGE_SIZE. replace (0 <=? _) with true by lia.
    replace (Z.of_nat (S n) - 1) with (Z.of_nat n) by lia. rewrite wrap_small by lia.
    replace (Z.of_nat (S n) * 4096 + 7 - 4096) with (Z.of_nat n * 4096 + 7) by lia.
    destruct (IH fuel (aset (Z.of_nat (S n)) (Z.of_nat (S n) * 4096 + 7) tab)) as (tab' & -> & Hv); [lia|lia|].
    exists tab'. split; [done|]. intros j. rewrite Hv, aget_aset.
    destruct (Z.eqb_spec (Z.of_nat (S n)) j) as [<-|].
    + replace (_ && _) with false by lia. now replace (_ && _) with true by lia.
    + replace ((0 <=? j) && (j <=? Z.of_nat (S n))) with ((0 <=? j) && (j <=? Z.of_nat n)) by (apply eq_true_iff_eq; lia). done.
Qed.

(** * The kernel's tables *)
Section Kernel.
Context (A : KAddrs).

Record kaddrs_ok : Prop := {
  ka_kpdir : placed (kpdir_at A) NR_PDE;
  ka_kptable : placed (kptable_at A) (PHY_MEM / PAGE_SIZE);
  ka_updir : placed (updir_at A) NR_PDE;
  ka_table : placed (table_at A) NR_PTE
}.

(** What [init_page] stores. *)
Record kernel_tables (k : Kvm) : Prop := {
  kt_pd j : 0 <= j < 1024 → aget (kpdir k) j =
    if j <? 32 then va_to_pa (kptable_at A) + 4096 * j + 7
    else if (768 <=? j) && (j <? 800) then va_to_pa (kptable_at A) + 4096 * (j - 768) + 7 else 0;
  kt_pt j : 0 <= j < 32768 → aget (kptable k) j = 4096 * j + 7
}.

Lemma init_page_run fuel k : kaddrs_ok → 32768 <= Z.of_nat fuel →
  ∃ k', init_page A fuel k = Some k' ∧ kernel_tables k' ∧ bitfield (kcr3 k') 12 20 = va_to_pa (kpdir_at A) / 4096 ∧
    kcr0 k' = set_bitfield (kcr0 k) 31 1 1 ∧ updir k' = updir k ∧ table k' = table k.
Proof.
  intros HA Hf. destruct (placed_pa _ _ (ka_kpdir HA)) as (Hd & Hdr & Hda); [unfold NR_PDE; lia|].
  destruct (placed_pa _ _ (ka_kptable HA)) as (Ht & Htr & Hta); [unfold PHY_MEM, PAGE_SIZE; lia|].
  pose proof (ka_kptable HA) as (_ & _ & Hmax). change (PHY_MEM / PAGE_SIZE) with 32768 in Hmax. rewrite <- Ht in Hmax.
  change PHY_MEM with 134217728 in Hmax. unfold init_page. change (Z.to_nat (PHY_MEM / PT_SIZE)) with 32%nat.
  destruct (fill_pdes_spec 32 0 (va_to_pa (kptable_at A)) (memset (Z.to_nat NR_PDE) 0 0 (kpdir k)))
    as (pd & -> & Hpd); [lia..|].
  replace ((va_to_pa (kptable_at A) + 4096 * Z.of_nat 32 - va_to_pa (kptable_at A)) / 4 - 1) with (Z.of_nat (Z.to_nat 32767)) by lia.
  replace (Z.lor (PHY_MEM - PAGE_SIZE) 7) with (Z.of_nat (Z.to_nat 32767) * 4096 + 7) by (vm_compute; reflexivity).
  destruct (fill_ptes_spec (Z.to_nat 32767) fuel (kptable k)) as (tab & Hrun & Htab); [lia|lia|].
  rewrite Hrun. eexists. split; [reflexivity|]. split; [split|split; [|done]].
  - intros j Hj. cbn. rewrite Hpd, aget_memset. unfold pde_run, NR_PDE.
    destruct (Z.ltb_spec j 32).
    { replace ((0 <=? j) && (j <? 0 + Z.of_nat 32)) with true by lia. cbn [from_option]. unfold id. lia. }
    replace ((0 <=? j) && (j <? 0 + Z.of_nat 32)) with false by lia. cbn [from_option]. unfold id.
    replace ((0 <=? j - 768) && (j - 768 <? 0 + Z.of_nat 32)) with ((768 <=? j) && (j <? 800)) by (apply eq_true_iff_eq; lia).
    destruct ((768 <=? j) && (j <? 800)); cbn [from_option]; [lia|]. now replace (_ && _) with true by lia.
  - intros j Hj. cbn. rewrite Htab. replace (_ && _) with true by lia. lia.
  - cbn. rewrite bitfield_set_same, Z.shiftr_div_pow2 by lia. apply Z.mod_small. lia.
Qed.

(** ** Walks *)

(** A walk through a directory at [pd] and, when its entry says so, a table at [pt]. *)
Lemma walk_tables f pd u va pt tab e : words f pd 1024 u → pd mod 4096 = 0 →
  0 <= va < 2 ^ 32 → aget u (va / 4194304) = pt + 7 → pt mod 4096 = 0 →
  le_load 4 f (pt + 4 * (va / 4096 mod 1024)) = aget tab e →
  page_walk f (pd / 4096) va =
    if aget tab e mod 2 =? 1 then Some (aget tab e / 4096 * 4096 + va mod 4096) else None.
Proof using.
  intros Hw Hpd Hva Hu Hpt Ht. unfold page_walk, walk_pde, walk_pte. cbv zeta.
  replace (pd / 4096 * 4096 + va / 4194304 * 4) with (pd + 4 * (va / 4194304)) by lia.
  rewrite !Hw, !Hu by lia. replace ((pt + 7) mod 2 =? 1) with true by lia.
  replace ((pt + 7) / 4096 * 4096 + va / 4096 mod 1024 * 4) with (pt + 4 * (va / 4096 mod 1024)) by lia.
  now rewrite Ht.
Qed.

Lemma walk_absent f pd u va : words f pd 1024 u → pd mod 4096 = 0 → 0 <= va < 2 ^ 32 →
  aget u (va / 4194304) = 0 → page_walk f (pd / 4096) va = None.
Proof using.
  intros Hw Hpd Hva Hu. unfold page_walk, walk_pde.
  replace (pd / 4096 * 4096 + va / 4194304 * 4) with (pd + 4 * (va / 4194304)) by lia.
  now rewrite Hw, Hu by lia.
Qed.

(** A directory whose entry for [va] is one of the kernel's tables. *)
Lemma kernel_walk f k pd u va i : kaddrs_ok → kernel_tables k → words f pd 1024 u → pd mod 4096 = 0 →
  words f (va_to_pa (kptable_at A)) 32768 (kptable k) → 0 <= va < 2 ^ 32 → 0 <= i < 32 →
  aget u (va / 4194304) = va_to_pa (kptable_at A) + 4096 * i + 7 →
  page_walk f (pd / 4096) va = Some (i * 4194304 + va mod 4194304).
Proof using.
  intros HA Hk Hw Hpd Hwt Hva Hi Hu.
  destruct (placed_pa _ _ (ka_kptable HA)) as (_ & _ & Hta); [unfold PHY_MEM, PAGE_SIZE; lia|].
  rewrite (walk_tables f pd u va (va_to_pa (kptable_at A) + 4096 * i) (kptable k) (1024 * i + va / 4096 mod 1024));
    [|done|done|done|lia|lia|].
  - rewrite (kt_pt k Hk) by lia. replace (_ =? 1) with true by lia. f_equal. lia.
  - rewrite <- Hwt by lia. f_equal. lia.
Qed.

(** C28: The address space [init_page] builds, as the emulator walks it: when the memory
    holds the kernel's directory and tables where the linker put them, the directory the
    loaded CR3 names maps the first 128 MB of linear addresses to themselves and the 128 MB
    at [KOFFSET] to physical address minus [KOFFSET], and nothing else; the assembly loop
    that fills the tables stops within 32768 rounds. *)
Theorem kernel_mapping f fuel k : kaddrs_ok → 32768 <= Z.of_nat fuel →
  ∃ k', init_page A fuel k = Some k' ∧ bitfield (kcr0 k') 31 1 = 1 ∧
    (words f (va_to_pa (kpdir_at A)) 1024 (kpdir k') → words f (va_to_pa (kptable_at A)) 32768 (kptable k') →
     ∀ va, 0 <= va < 2 ^ 32 → page_walk f (bitfield (kcr3 k') 12 20) va =
       if va <? PHY_MEM then Some va
       else if (KOFFSET <=? va) && (va <? KOFFSET + PHY_MEM) then Some (va - KOFFSET) else None).
Proof using.
  intros HA Hf. destruct (init_page_run fuel k HA Hf) as (k' & Hrun & Hk & Hcr3 & Hcr0 & _).
  exists k'. split; [done|]. split; [rewrite Hcr0; now rewrite bitfield_set_same by lia|].
  intros Hwd Hwt va Hva. rewrite Hcr3.
  destruct (placed_pa _ _ (ka_kpdir HA)) as (_ & _ & Hda); [unfold NR_PDE; lia|].
  pose proof (kt_pd k' Hk (va / 4194304) ltac:(lia)) as Hpde. unfold KOFFSET, PHY_MEM.
  destruct (Z.ltb_spec va (128 * 1024 * 1024)).
  { replace (_ <? 32) with true in Hpde by lia.
    rewrite (kernel_walk f k' _ _ va (va / 4194304) HA Hk Hwd Hda Hwt Hva ltac:(lia) Hpde). f_equal. lia. }
  replace (_ <? 32) with false in Hpde by lia.
  destruct ((0xC0000000 <=? va) && (va <? 0xC0000000 + 128 * 1024 * 1024)) eqn:E.
  { replace (_ && _) with true in Hpde by lia.
    rewrite (kernel_walk f k' _ _ va (va / 4194304 - 768) HA Hk Hwd Hda Hwt Hva ltac:(lia) Hpde). f_equal. lia. }
  replace (_ && _) with false in Hpde by lia. exact (walk_absent f _ _ va Hwd Hda Hva Hpde).
Qed.

(** ** The user program's directory *)
Lemma fill_video_spec n st i t j : 0 <= i → i + Z.of_nat n <= 1024 →
  aget (fill_video n st i t) j =
    if (st + i <=? j) && (j <? st + i + Z.of_nat n) then VMEM_ADDR + 4096 * (j - st) + 7 else aget t j.
Proof using.
  revert i t; induction n as [|n IH]; intros i t Hi Hn; cbn [fill_video].
  { now replace (_ && _) with false by lia. }
  rewrite IH, aget_aset by lia. unfold VMEM_ADDR, PAGE_SIZE in *. rewrite make_pte_eq by lia.
  destruct (Z.eqb_spec (st + i) j) as [<-|].
  - replace (_ && _) with false by lia. replace (_ && _) with true by lia. lia.
  - replace ((st + i <=? j) && _) with ((st + (i + 1) <=? j) && (j <? st + (i + 1) + Z.of_nat n))
      by (apply eq_true_iff_eq; lia). done.
Qed.

Definition user_space (k : Kvm) : Kvm := create_video_mapping A (init_mm A k).

Lemma user_dir k j : kaddrs_ok → kernel_tables k → 0 <= j < 1024 →
  aget (updir (user_space k)) j = if j =? 0 then va_to_pa (table_at A) + 7
    else if (768 <=? j) && (j <? 800) then va_to_pa (kptable_at A) + 4096 * (j - 768) + 7 else 0.
Proof using.
  intros HA Hk Hj. destruct (placed_pa _ _ (ka_table HA)) as (_ & Hr & Hm); [unfold NR_PTE; lia|].
  unfold user_space, create_video_mapping, init_mm; cbn [updir set_table set_updir].
  change (Z.land (Z.shiftr VMEM_ADDR 22) 0x3ff) with 0. rewrite make_pde_eq, aget_aset, Z.eqb_sym by done.
  destruct (Z.eqb_spec j 0); [done|].
  change (KOFFSET / PT_SIZE) with 768. change (Z.to_nat (PHY_MEM / PT_SIZE)) with 32%nat.
  rewrite aget_memcpy, aget_memset. unfold NR_PDE.
  replace ((768 <=? j) && (j <? 768 + Z.of_nat 32)) with ((768 <=? j) && (j <? 800)) by (apply eq_true_iff_eq; lia).
  destruct ((768 <=? j) && (j <? 800)) eqn:E; [|now replace (_ && _) with true by lia].
  replace (768 + (j - 768)) with j by lia. rewrite (kt_pd k Hk) by lia.
  replace (j <? 32) with false by lia. now rewrite E.
Qed.

Lemma user_table k j : 0 <= j < 1024 → aget (table (user_space k)) j =
  if (160 <=? j) && (j <? 176) then 4096 * j + 7 else 0.
Proof using.
  intros Hj. unfold user_space, create_video_mapping; cbn [table set_table].
  change (Z.land (Z.shiftr VMEM_ADDR 12) 0x3ff) with 160. change (Z.to_nat (SCR_SIZE / PAGE_SIZE + 1)) with 16%nat.
  rewrite fill_video_spec, aget_memset by lia. unfold VMEM_ADDR, NR_PTE.
  replace ((160 + 0 <=? j) && (j <? 160 + 0 + Z.of_nat 16)) with ((160 <=? j) && (j <? 176)) by (apply eq_true_iff_eq; lia).
  destruct ((160 <=? j) && (j <? 176)); [lia|]. now replace (_ && _) with true by lia.
Qed.

(** The address space the user program starts from, after [init_mm] and
    [create_video_mapping] on the kernel's tables: above [KOFFSET] it is the kernel's, the
    64 KB of video memory at 0xa0000 are mapped to themselves, and nothing else is mapped
    (the program's own pages are [mm_malloc]'s); CR3 is that of the user directory. *)
Theorem user_mapping f k : kaddrs_ok → kernel_tables k →
  words f (va_to_pa (updir_at A)) 1024 (updir (user_space k)) →
  words f (va_to_pa (table_at A)) 1024 (table (user_space k)) →
  words f (va_to_pa (kptable_at A)) 32768 (kptable (user_space k)) →
  ∀ va, 0 <= va < 2 ^ 32 → page_walk f (bitfield (ucr3 (user_space k)) 12 20) va =
    if (VMEM_ADDR <=? va) && (va <? VMEM_ADDR + 0x10000) then Some va
    else if (KOFFSET <=? va) && (va <? KOFFSET + PHY_MEM) then Some (va - KOFFSET) else None.
Proof using.
  intros HA Hk Hwd Hwv Hwt va Hva.
  destruct (placed_pa _ _ (ka_updir HA)) as (_ & Hdr & Hda); [unfold NR_PDE; lia|].
  destruct (placed_pa _ _ (ka_table HA)) as (_ & Hvr & Hvm); [unfold NR_PTE; lia|].
  assert (bitfield (ucr3 (user_space k)) 12 20 = va_to_pa (updir_at A) / 4096) as ->.
  { cbn. rewrite bitfield_eq by lia. change (Z.lnot 0xfff) with (Z.lnot (Z.ones 12)).
    rewrite <- Z.ldiff_land, Z.ldiff_ones_r, Z.shiftr_div_pow2, Z.shiftl_mul_pow2 by lia. lia. }
  pose proof (user_dir k (va / 4194304) HA Hk ltac:(lia)) as Hpde. unfold KOFFSET, PHY_MEM, VMEM_ADDR in *.
  destruct (Z.eqb_spec (va / 4194304) 0) as [E0|E0].
  { rewrite (walk_tables f _ _ va _ (table (user_space k)) (va / 4096) Hwd Hda Hva Hpde Hvm); [|rewrite <- Hwv by lia; f_equal; lia].
    rewrite user_table by lia. replace ((0xC0000000 <=? va) && _) with false by lia.
    replace ((0xa0000 <=? va) && _) with ((160 <=? va / 4096) && (va / 4096 <? 176)) by (apply eq_true_iff_eq; lia).
    destruct (_ && _); [|done]. replace (_ =? 1) with true by lia. f_equal. lia. }
  replace ((0xa0000 <=? va) && _) with false by lia.
  replace ((0xC0000000 <=? va) && _) with ((768 <=? va / 4194304) && (va / 4194304 <? 800)) by (apply eq_true_iff_eq; lia).
  destruct (_ && _) eqn:E.
  { rewrite (kernel_walk f k _ _ va (va / 4194304 - 768) HA Hk Hwd Hda Hwt Hva ltac:(lia) Hpde). f_equal. lia. }
  exact (walk_absent f _ _ va Hwd Hda Hva Hpde).
Qed.
End Kernel.

(** * The GDT and the IDT *)
Ltac field_of := cbv zeta; repeat (rewrite bitfield_set_other by lia); rewrite bitfield_set_same by lia.

Lemma segment_fields d pl ty :
  SegDesc_base_15_0 (set_segment d pl ty) = 0 ∧ SegDesc_base_23_16 (set_segment d pl ty) = 0 ∧
  SegDesc_base_31_24 (set_segment d pl ty) = 0 ∧ SegDesc_present (set_segment d pl ty) = 1 ∧
  SegDesc_limit_15_0 (set_segment d pl ty) = 0xFFFF ∧ bitfield (set_segment d pl ty) 48 4 = 0xF.
Proof.
  unfold SegDesc_base_15_0, SegDesc_base_23_16, SegDesc_base_31_24, SegDesc_present, SegDesc_limit_15_0, set_segment.
  split_and!; field_of; done.
Qed.

Lemma gate_fields ty d sel off dpl : 0 <= ty < 16 → 0 <= dpl < 4 →
  let g := set_gate ty d sel off dpl in
  GateDesc_present g = 1 ∧ GateDesc_segment g = sel mod 2 ^ 16 ∧
  GateDesc_offset_31_16 g * 2 ^ 16 + GateDesc_offset_15_0 g = u32 off ∧
  bitfield g 45 2 = dpl ∧ bitfield g 40 4 = ty.
Proof.
  intros Ht Hd. unfold GateDesc_present, GateDesc_segment, GateDesc_offset_31_16, GateDesc_offset_15_0, set_gate.
  split_and!; field_of; try done; try (apply Z.mod_small; done).
  cbv zeta. repeat (rewrite bitfield_set_other by lia). rewrite bitfield_set_same by lia.
  change 0xFFFF with (2 ^ 16 - 1). rewrite !land_ones_mod, Z.shiftr_div_pow2 by lia. unfold wrap. lia.
Qed.

Lemma traps_from_spec f n i idt j : aget (traps_from f n i idt) j =
  if (i <=? j) && (j <? i + Z.of_nat n) then set_trap (aget idt j) KCODE (f j) DPL_KERNEL else aget idt j.
Proof.
  revert i idt; induction n as [|n IH]; intros i idt; cbn [traps_from].
  { now replace (_ && _) with false by lia. }
  rewrite IH. unfold trap_at. rewrite aget_aset. destruct (Z.eqb_spec i j) as [->|].
  - replace (_ && _) with false by lia. now replace (_ && _) with true by lia.
  - replace ((i <=? j) && _) with ((i + 1 <=? j) && (j <? i + 1 + Z.of_nat n)) by (apply eq_true_iff_eq; lia). done.
Qed.

(** The entry point, type and privilege of gate [n]. *)
Definition gate_entry (E : Entries) (n : Z) : Z :=
  if n <? 15 then vec E n else if n =? 0x80 then vecsys E else if n =? 32 then irq0 E
  else if n =? 33 then irq1 E else if n =? 46 then irq14 E else irq_empty E.
Definition gate_type (n : Z) : Z := if (n =? 32) || (n =? 33) || (n =? 46) then INTERRUPT_GATE_32 else TRAP_GATE_32.
Definition gate_dpl (n : Z) : Z := if n =? 0x80 then DPL_USER else DPL_KERNEL.

Lemma gate_type_range n : 0 <= gate_type n < 16.
Proof. unfold gate_type, INTERRUPT_GATE_32, TRAP_GATE_32. destruct (_ || _); lia. Qed.

Lemma gate_dpl_range n : 0 <= gate_dpl n < 4.
Proof. unfold gate_dpl, DPL_USER, DPL_KERNEL. destruct (_ =? _); lia. Qed.

Lemma intr_at_get i off dpl idt n :
  aget (intr_at i off dpl idt) n = if i =? n then set_intr (aget idt i) KCODE off dpl else aget idt n.
Proof. apply aget_aset. Qed.

Lemma trap_at_get i off dpl idt n :
  aget (trap_at i off dpl idt) n = if i =? n then set_trap (aget idt i) KCODE off dpl else aget idt n.
Proof. apply aget_aset. Qed.

Lemma idt_entry E idt n : 0 <= n < NR_IRQ →
  ∃ d, aget (init_idt E idt) n = set_gate (gate_type n) d KCODE (gate_entry E n) (gate_dpl n).
Proof.
  unfold NR_IRQ. intros Hn. unfold init_idt, gate_type, gate_entry, gate_dpl. cbv zeta.
  change (32 + 1) with 33. change (32 + 0) with 32. change (32 + 14) with 46.
  rewrite intr_at_get. destruct (Z.eqb_spec 46 n) as [<-|]; [eexists; reflexivity|].
  rewrite intr_at_get. destruct (Z.eqb_spec 32 n) as [<-|]; [eexists; reflexivity|].
  rewrite intr_at_get. destruct (Z.eqb_spec 33 n) as [<-|]; [eexists; reflexivity|].
  rewrite trap_at_get. destruct (Z.eqb_spec 0x80 n) as [<-|]; [eexists; reflexivity|].
  replace (n =? 32) with false by lia. replace (n =? 33) with false by lia.
  replace (n =? 46) with false by lia. replace (n =? 0x80) with false by lia.
  rewrite !traps_from_spec. replace ((0 <=? n) && (n <? 0 + Z.of_nat (Z.to_nat NR_IRQ))) with true by (unfold NR_IRQ; lia).
  replace ((0 <=? n) && (n <? 0 + Z.of_nat 15)) with (n <? 15) by (apply eq_true_iff_eq; lia).
  destruct (n <? 15); eexists; reflexivity.
Qed.

(** The descriptors the kernel installs, as the emulator decodes them: the code and the
    data segment of the GDT are present, start at 0 and have the largest limit, whatever the
    GDT held; every gate of the IDT is present, leads through the kernel's code segment to
    the entry point for its number (exceptions 0-14, the system call at 0x80, the three
    devices' interrupts, otherwise the empty handler), only the system call's gate is open
    to users, and only the devices' gates are interrupt gates. *)
Theorem descriptor_tables gdt idt E (gdt' := init_segment gdt) (idt' := init_idt E idt) :
  (∀ i sel, i = SEG_KERNEL_CODE ∨ i = SEG_KERNEL_DATA →
     seg_base (mkSegReg sel (aget gdt' i)) = 0 ∧ SegDesc_present (aget gdt' i) = 1 ∧
     SegDesc_limit_15_0 (aget gdt' i) = 0xFFFF ∧ bitfield (aget gdt' i) 48 4 = 0xF) ∧
  (∀ n, 0 <= n < NR_IRQ →
     GateDesc_present (aget idt' n) = 1 ∧ GateDesc_segment (aget idt' n) = 8 ∧
     GateDesc_offset_31_16 (aget idt' n) * 2 ^ 16 + GateDesc_offset_15_0 (aget idt' n) =
       u32 (if n <? 15 then vec E n else if n =? 0x80 then vecsys E else if n =? 32 then irq0 E
            else if n =? 33 then irq1 E else if n =? 46 then irq14 E else irq_empty E) ∧
     bitfield (aget idt' n) 45 2 = (if n =? 0x80 then DPL_USER else DPL_KERNEL) ∧
     bitfield (aget idt' n) 40 4 = if (n =? 32) || (n =? 33) || (n =? 46) then INTERRUPT_GATE_32 else TRAP_GATE_32).
Proof.
  split.
  - intros i sel Hi. assert (∃ d ty, aget gdt' i = set_segment d DPL_KERNEL ty) as (d & ty & ->).
    { unfold gdt', init_segment, SEG_KERNEL_CODE, SEG_KERNEL_DATA in *. cbv zeta. clear gdt'.
      destruct Hi as [-> | ->]; [rewrite (aget_aset_ne _ 2 1), (aget_aset_eq _ 1) by lia|rewrite (aget_aset_eq _ 2)];
        eexists _, _; reflexivity. }
    destruct (segment_fields d DPL_KERNEL ty) as (H1 & H2 & H3 & H4 & H5 & H6).
    split; [|done]. unfold seg_base. cbn [seg_cache]. now rewrite H1, H2, H3.
  - intros n Hn. destruct (idt_entry E idt n Hn) as (d & Hd). fold idt' in Hd. rewrite Hd.
    apply (gate_fields (gate_type n) d KCODE (gate_entry E n) (gate_dpl n)).
    + apply gate_type_range.
    + apply gate_dpl_range.
Qed.

(** * Witnesses: a memory with the tables at given places *)
Definition put_words (pa n : Z) (t : arr Z) (g : Z → Z) : Z → Z :=
  λ x, if (pa <=? x) && (x <? pa + 4 * n) then byte_of (aget t ((x - pa) / 4)) ((x - pa) mod 4) else g x.

Lemma put_words_here pa n t g : (∀ i, 0 <= i < n → 0 <= aget t i < 2 ^ 32) → words (put_words pa n t g) pa n t.
Proof.
  intros Ht i Hi. rewrite (le_load_bytes 4 _ _ (aget t i)); [apply Z.mod_small, Ht, Hi|].
  intros k Hk. unfold put_words. replace (_ && _) with true by lia. f_equal; [f_equal|]; lia.
Qed.

Lemma put_words_other pa n t g pa' n' t' : words g pa' n' t' → pa' + 4 * n' <= pa ∨ pa + 4 * n <= pa' →
  words (put_words pa n t g) pa' n' t'.
Proof.
  intros Hg Hd i Hi. rewrite <- (Hg i Hi). apply le_load_ext. intros k Hk. unfold put_words.
  now replace (_ && _) with false by lia.
Qed.

Definition demo_addrs : KAddrs := mkKAddrs (KOFFSET + 0x110000) (KOFFSET + 0x120000) (KOFFSET + 0x150000) (KOFFSET + 0x160000).
Definition kvm0 : Kvm := mkKvm (anew 0) (anew 0) (anew 0) 0 0 0 (anew 0) 1 0.

Lemma demo_addrs_ok : kaddrs_ok demo_addrs.
Proof. split; vm_compute; split_and!; congruence. Qed.

(** The words of the tables are words. *)
Lemma kernel_words k (HA := demo_addrs_ok) : kernel_tables demo_addrs k →
  (∀ i, 0 <= i < 1024 → 0 <= aget (kpdir k) i < 2 ^ 32) ∧ (∀ i, 0 <= i < 32768 → 0 <= aget (kptable k) i < 2 ^ 32).
Proof.
  intros Hk. split; intros i Hi.
  - rewrite (kt_pd _ _ Hk) by lia. change (va_to_pa (kptable_at demo_addrs)) with 0x120000. clear - Hi.
    destruct (Z.ltb_spec i 32); [lia|]. destruct ((768 <=? i) && (i <? 800)) eqn:?; lia.
  - rewrite (kt_pt _ _ Hk) by lia. lia.
Qed.

Lemma user_words k (u := user_space demo_addrs k) : kernel_tables demo_addrs k →
  (∀ i, 0 <= i < 1024 → 0 <= aget (updir u) i < 2 ^ 32) ∧ (∀ i, 0 <= i < 1024 → 0 <= aget (table u) i < 2 ^ 32).
Proof.
  intros Hk. split; intros i Hi; unfold u.
  - rewrite (user_dir _ _ _ demo_addrs_ok Hk) by lia.
    change (va_to_pa (kptable_at demo_addrs)) with 0x120000. change (va_to_pa (table_at demo_addrs)) with 0x160000. clear u Hk.
    destruct (i =? 0); [lia|]. destruct ((768 <=? i) && (i <? 800)) eqn:?; lia.
  - rewrite user_table by lia. clear u Hk. destruct ((160 <=? i) && (i <? 176)) eqn:?; lia.
Qed.

Lemma kernel_mapping_witness : ∃ fuel k f, init_page demo_addrs fuel kvm0 = Some k ∧
  page_walk f (bitfield (kcr3 k) 12 20) 0xC0100000 = Some 0x100000.
Proof.
  assert (∃ fuel, 32768 <= Z.of_nat fuel) as [fuel Hf] by (exists (Z.to_nat 32768); lia). exists fuel.
  destruct (init_page_run demo_addrs fuel kvm0 demo_addrs_ok Hf) as (k & Hrun & Hk & _).
  exists k, (put_words 0x110000 1024 (kpdir k) (put_words 0x120000 32768 (kptable k) (λ _, 0))). split; [exact Hrun|].
  destruct (kernel_mapping demo_addrs (put_words 0x110000 1024 (kpdir k) (put_words 0x120000 32768 (kptable k) (λ _, 0)))
    fuel kvm0 demo_addrs_ok Hf) as (k' & Hrun' & _ & Hw).
  rewrite Hrun in Hrun'. injection Hrun' as <-. destruct (kernel_words k Hk) as [Hd Ht].
  rewrite Hw; [reflexivity|exact (put_words_here 0x110000 1024 _ _ Hd)| |lia].
  apply (put_words_other 0x110000 1024 _ _ 0x120000 32768); [exact (put_words_here 0x120000 32768 _ _ Ht)|lia].
Defined.

Lemma user_mapping_witness : ∃ k f, kernel_tables demo_addrs k ∧
  page_walk f (bitfield (ucr3 (user_space demo_addrs k)) 12 20) 0xa1234 = Some 0xa1234.
Proof.
  assert (∃ fuel, 32768 <= Z.of_nat fuel) as [fuel Hf] by (exists (Z.to_nat 32768); lia).
  destruct (init_page_run demo_addrs fuel kvm0 demo_addrs_ok Hf) as (k & _ & Hk & _).
  set (u := user_space demo_addrs k). destruct (kernel_words k Hk) as [_ Ht]. destruct (user_words k Hk) as [Hu Hv].
  exists k, (put_words 0x150000 1024 (updir u) (put_words 0x160000 1024 (table u) (put_words 0x120000 32768 (kptable k) (λ _, 0)))).
  split; [exact Hk|]. rewrite (user_mapping demo_addrs _ k demo_addrs_ok Hk); [reflexivity| | | |lia].
  - exact (put_words_here 0x150000 1024 _ _ Hu).
  - apply (put_words_other 0x150000 1024 _ _ 0x160000 1024); [exact (put_words_here 0x160000 1024 _ _ Hv)|lia].
  - apply (put_words_other 0x150000 1024 _ _ 0x120000 32768); [|lia].
    apply (put_words_other 0x160000 1024 _ _ 0x120000 32768); [exact (put_words_here 0x120000 32768 _ _ Ht)|lia].
Defined.

Lemma descriptor_tables_witness : SegDesc_present (aget (init_segment (anew 5)) 1) = 1 ∧
  GateDesc_segment (aget (init_idt (mkEntries (λ n, n) 7 8 9 10 11) (anew 5)) 0x80) = 8.
Proof.
  destruct (descriptor_tables (anew 5) (anew 5) (mkEntries (λ n, n) 7 8 9 10 11)) as [H1 H2].
  split; [apply (H1 1 0); left; reflexivity|]. apply (H2 0x80). unfold NR_IRQ. lia.
Defined.
