(* ===== verification/KernelSys.v ===== *)
(** The kernel above its drivers: interrupt dispatch ([kernel/src/irq/irq_handle.c] and the
    entry points of [do_irq.S]), system calls ([kernel/src/syscall/do_syscall.c]), the file
    table ([kernel/src/fs/fs.c]), the loader ([kernel/src/elf/elf.c]) and [init_ide].

    The sections take the state they run in, the place of the kernel's static variables in
    it, and the operations of the drivers.  A failed [assert], [nemu_assert] or [panic]
    stops the machine at a bad trap. *)
From S2P Require Import Prelude Kvm.

(** * irq_handle.c *)
Definition NR_IRQ_HANDLE : Z := 32.
Definition NR_HARD_INTR : Z := 16.

(** A handler names its routine by address, the next handler by its index in the pool. *)
Record IRQ_t := mkIRQ { routine : Z; next : option Z }.
Record Irqs := mkIrqs { handle_pool : arr IRQ_t; handles : arr (option Z); handle_count : Z }.
Definition irqs0 : Irqs := mkIrqs (anew (mkIRQ 0 None)) (anew None) 0.

(** [struct TrapFrame]: what [do_irq.S] and the processor push, lowest address first. *)
Record TrapFrame := mkTrapFrame {
  tf_edi : Z; tf_esi : Z; tf_ebp : Z; tf_old_esp : Z; tf_ebx : Z; tf_edx : Z; tf_ecx : Z; tf_eax : Z;
  tf_irq : Z; tf_error_code : Z; tf_eip : Z; tf_cs : Z; tf_eflags : Z }.
Definition set_tf_eax v t := mkTrapFrame (tf_edi t) (tf_esi t) (tf_ebp t) (tf_old_esp t) (tf_ebx t)
  (tf_edx t) (tf_ecx t) (u32 v) (tf_irq t) (tf_error_code t) (tf_eip t) (tf_cs t) (tf_eflags t).

Definition panic {S A} : M S A := fail EAssert.

Section Irq.
Context {S : Type} (irqs : S → Irqs) (set_irqs : Irqs → S → S).
(** Calling the function at an address; a system call's work. *)
Context (call : Z → M S unit) (do_syscall : TrapFrame → M S TrapFrame).

(** [irq] is signed and tested from above only; the pool has [NR_IRQ_HANDLE] elements. *)
Definition add_irq_handle (irq func : Z) : M S unit :=
  _ ← cassert (s32 irq <? NR_HARD_INTR);
  q ← gets irqs;
  _ ← cassert (handle_count q <=? NR_IRQ_HANDLE);
  let ptr := handle_count q in
  if (s32 irq <? 0) || (NR_IRQ_HANDLE <=? ptr) then fail EUndefined else
  modify (set_irqs (mkIrqs (aset ptr (mkIRQ func (aget (handles q) irq)) (handle_pool q))
                      (aset irq (Some ptr) (handles q)) (handle_count q + 1))).

Fixpoint run_handles (fuel : nat) (f : option Z) : M S unit :=
  match fuel with
  | O => fail EFuel
  | Datatypes.S fuel =>
    match f with
    | None => mret tt
    | Some f =>
      h ← gets (λ s, aget (handle_pool (irqs s)) f);
      _ ← call (routine h);
      h ← gets (λ s, aget (handle_pool (irqs s)) f);
      run_handles fuel (next h)
    end
  end.

(** The frame may change; it is what [do_irq.S] then pops. *)
Definition irq_handle (fuel : nat) (tf : TrapFrame) : M S TrapFrame :=
  let irq := s32 (tf_irq tf) in
  if irq <? 0 then panic
  else if irq =? 0x80 then do_syscall tf
  else if irq <? 1000 then panic
  else
    let irq_id := irq - 1000 in
    _ ← cassert (irq_id <? NR_HARD_INTR);
    f ← gets (λ s, aget (handles (irqs s)) irq_id);
    _ ← run_handles fuel f;
    mret tf.

(** * ide.c: [init_ide] registers the two handlers *)
Definition kernel_init_ide (buf_init : M S unit) (ide_writeback_at ide_intr_at : Z) : M S unit :=
  _ ← buf_init;
  _ ← add_irq_handle 0 ide_writeback_at;
  add_irq_handle 14 ide_intr_at.
End Irq.

(** The identifiers the entry points of do_irq.S push: [vec n], [vecsys], [irq n], [irq_empty]. *)
Definition vec_id (n : Z) : Z := n.
Definition vecsys_id : Z := 0x80.
Definition irq_line_id (n : Z) : Z := 1000 + n.
Definition irq_empty_id : Z := u32 (-1).

(** * fs.c *)
Record file_info := mkFileInfo { file_size : Z; disk_offset : Z }.

(** The table's sizes and offsets; the names are left out. *)
Definition file_table : list file_info := [
  mkFileInfo 188864 1048576; mkFileInfo 188864 1237440;
  mkFileInfo 188864 1426304; mkFileInfo 188864 1615168;
  mkFileInfo 188864 1804032; mkFileInfo 1022564 1992896;
  mkFileInfo 134704 3015460; mkFileInfo 66418 3150164;
  mkFileInfo 16027 3216582; mkFileInfo 1128064 3232609;
  mkFileInfo 834728 4360673; mkFileInfo 186966 5195401;
  mkFileInfo 11530322 5382367; mkFileInfo 1496578 16912689;
  mkFileInfo 1577442 18409267; mkFileInfo 188232 19986709;
  mkFileInfo 331284 20174941; mkFileInfo 8488 20506225;
  mkFileInfo 453202 20514713; mkFileInfo 4546074 20967915;
  mkFileInfo 557004 25513989; mkFileInfo 1997044 26070993;
  mkFileInfo 5374 28068037; mkFileInfo 82306 28073411;
  mkFileInfo 5650 28155717 ].

Definition TCGETS : Z := 0x5401.

Definition fs_ioctl {S} (fd request : Z) : M S Z :=
  _ ← cassert (request =? TCGETS);
  mret (if (0 <=? s32 fd) && (s32 fd <=? 2) then 0 else u32 (-1)).

(** * do_syscall.c *)
Definition SYS_write : Z := 4.
Definition SYS_brk : Z := 45.
Definition SYS_ioctl : Z := 54.

Section Syscall.
Context {S : Type} (add_irq_handle : Z → Z → M S unit) (cli sti : M S unit).
Context (mm_brk : Z → M S Z) (serial_printc : Z → M S unit).
(** A byte of the user program. *)
Context (load : Z → M S Z).

Definition sys_brk (tf : TrapFrame) : M S TrapFrame :=
  v ← mm_brk (tf_ebx tf); mret (set_tf_eax v tf).

Definition sys_ioctl (tf : TrapFrame) : M S TrapFrame :=
  v ← fs_ioctl (tf_ebx tf) (tf_ecx tf); mret (set_tf_eax v tf).

Definition sys_write (tf : TrapFrame) : M S TrapFrame :=
  let fd := s32 (tf_ebx tf) in
  let buf := tf_ecx tf in
  let len := s32 (tf_edx tf) in
  if (fd =? 1) || (fd =? 2) then
    _ ← for_ (Z.to_nat len) 0 (λ i, c ← load (u32 (buf + i)); serial_printc c);
    mret (set_tf_eax len tf)
  else mret tf.

Definition do_syscall (tf : TrapFrame) : M S TrapFrame :=
  if tf_eax tf =? 0 then
    _ ← cli;
    _ ← add_irq_handle (tf_ebx tf) (tf_ecx tf);
    _ ← sti;
    mret tf
  else if tf_eax tf =? SYS_brk then sys_brk tf
  else if tf_eax tf =? SYS_ioctl then sys_ioctl tf
  else if tf_eax tf =? SYS_write then sys_write tf
  else panic.
End Syscall.

(** * elf.c *)
Definition ELF_OFFSET_IN_DISK : Z := 0.
Definition STACK_SIZE : Z := Z.shiftl 1 20.
Definition elf_magic : Z := 0x464c457f.
Definition PT_LOAD : Z := 1.

(** The members of the headers the loader reads, in the image at [0]. *)
Definition e_entry (b : arr Z) : Z := le_load 4 (aget b) 24.
Definition e_phoff (b : arr Z) : Z := le_load 4 (aget b) 28.
Definition e_phnum (b : arr Z) : Z := le_load 2 (aget b) 44.
Definition p_type (b : arr Z) (ph : Z) : Z := le_load 4 (aget b) ph.
Definition p_offset (b : arr Z) (ph : Z) : Z := le_load 4 (aget b) (ph + 4).
Definition p_vaddr (b : arr Z) (ph : Z) : Z := le_load 4 (aget b) (ph + 8).
Definition p_filesz (b : arr Z) (ph : Z) : Z := le_load 4 (aget b) (ph + 16).
Definition p_memsz (b : arr Z) (ph : Z) : Z := le_load 4 (aget b) (ph + 20).
Definition PHDR_SIZE : Z := 32.

Section Loader.
Context {S : Type} (A : KAddrs) (kvm : S → Kvm) (set_kvm : Kvm → S → S).
Context (ide_read : arr Z → Z → Z → M S (arr Z)) (mm_malloc : Z → Z → M S Z) (write_cr3 : Z → M S unit).
(** The memory the kernel addresses. *)
Context (mem : S → arr Z) (set_mem : arr Z → S → S).

(** One program header at [ph] of the image [buf]; a header outside the 4096 bytes read, or
    one whose file part is larger than its memory, is undefined. *)
Definition load_segment (buf : arr Z) (ph : Z) : M S unit :=
  if 4096 <? ph + PHDR_SIZE then fail EUndefined else
  if p_type buf ph =? PT_LOAD then
    addr ← mm_malloc (p_vaddr buf ph) (p_memsz buf ph);
    data ← ide_read (anew 0) (u32 (ELF_OFFSET_IN_DISK + p_offset buf ph)) (p_filesz buf ph);
    _ ← modify (λ s, set_mem (memcpy (Z.to_nat (p_filesz buf ph)) addr 0 data (mem s)) s);
    if p_memsz buf ph <? p_filesz buf ph then fail EUndefined else
    _ ← modify (λ s, set_mem (memset (Z.to_nat (p_memsz buf ph - p_filesz buf ph))
                                (addr + p_filesz buf ph) 0 (mem s)) s);
    let new_brk := u32 (p_vaddr buf ph + p_memsz buf ph - 1) in
    k ← gets kvm;
    if cur_brk k <? new_brk then modify (set_kvm (set_brks new_brk new_brk k)) else mret tt
  else mret tt.

(** [for(; loop_var < elf->e_phnum; loop_var++) { ph = ph + loop_var; ... }] *)
Fixpoint load_segments (n : nat) (loop_var ph : Z) (buf : arr Z) : M S unit :=
  match n with
  | O => mret tt
  | Datatypes.S n =>
    let ph := ph + PHDR_SIZE * loop_var in
    _ ← load_segment buf ph;
    load_segments n (loop_var + 1) ph buf
  end.

Definition loader : M S Z :=
  buf ← ide_read (anew 0) ELF_OFFSET_IN_DISK 4096;
  _ ← cassert (le_load 4 (aget buf) 0 =? elf_magic);
  _ ← load_segments (Z.to_nat (e_phnum buf)) 0 (e_phoff buf) buf;
  let entry := e_entry buf in
  _ ← mm_malloc (KOFFSET - STACK_SIZE) STACK_SIZE;
  _ ← modify (λ s, set_kvm (create_video_mapping A (kvm s)) s);
  k ← gets kvm;
  _ ← write_cr3 (ucr3 k);
  mret entry.
End Loader.

