(* ===== verification/KernelSysSpec.v ===== *)
(** The kernel's interrupt dispatch runs the handlers registered for a line, latest first;
    its [write] system call puts the bytes on the host's output; the loader's header walk. *)
From S2P Require Import Prelude Dram Cache Tlb Cpu I8259 Mmio Vga WpPool Machine Memory Devices.
From S2P Require Import DemoMachine KernelIO IdeSpec Kvm KernelSys.

(** * Handler lists *)
Section Irq.
Context {S : Type} (irqs : S → Irqs) (set_irqs : Irqs → S → S) (call : Z → M S unit).
Context (irqs_set : ∀ q s, irqs (set_irqs q s) = q).
(** The handlers called do not register others. *)
Context (call_irqs : ∀ f s a s', call f s = Ok a s' → irqs s' = irqs s).

(** From [f] the pool's links lead through the routines [l]. *)
Fixpoint chain (q : Irqs) (f : option Z) (l : list Z) : Prop :=
  match l with
  | [] => f = None
  | r :: l => ∃ i, f = Some i ∧ 0 <= i < handle_count q ∧ routine (aget (handle_pool q) i) = r ∧
      chain q (next (aget (handle_pool q) i)) l
  end.

(** The routines of line [n] in the order of their registration, reversed. *)
Definition handlers_of (n : Z) (regs : list (Z * Z)) : list Z :=
  rev (map snd (filter (λ p, fst p = n) regs)).

Definition registered (q : Irqs) (regs : list (Z * Z)) : Prop :=
  handle_count q = Z.of_nat (length regs) ∧
  ∀ n, 0 <= n < NR_HARD_INTR → chain q (aget (handles q) n) (handlers_of n regs).

Fixpoint register_all (regs : list (Z * Z)) : M S unit :=
  match regs with
  | [] => mret tt
  | (irq, f) :: regs => _ ← add_irq_handle irqs set_irqs irq f; register_all regs
  end.

(** The routines called one after the other. *)
Fixpoint calls (l : list Z) : M S unit :=
  match l with [] => mret tt | r :: l => _ ← call r; calls l end.

Lemma chain_fresh q q' f l : chain q f l → handle_count q <= handle_count q' →
  (∀ i, i < handle_count q → aget (handle_pool q') i = aget (handle_pool q) i) → chain q' f l.
Proof using.
  intros Hc Hn Hp. revert f Hc; induction l as [|r l IH]; intros f Hc; [exact Hc|].
  destruct Hc as (i & -> & Hi & Hr & Hl). exists i. rewrite Hp by lia.
  split; [done|]. split; [lia|]. split; [done|]. now apply IH.
Qed.

Lemma add_registered q s irq f regs : irqs s = q → registered q regs → 0 <= irq < NR_HARD_INTR →
  Z.of_nat (length regs) < NR_IRQ_HANDLE →
  ∃ q', add_irq_handle irqs set_irqs irq f s = Ok tt (set_irqs q' s) ∧ registered q' (regs ++ [(irq, f)]).
Proof using.
  unfold NR_HARD_INTR, NR_IRQ_HANDLE. intros Hq [Hc Hl] Hirq Hlen. unfold add_irq_handle, NR_HARD_INTR, NR_IRQ_HANDLE.
  rewrite sgn_small by lia. rewrite bind_cassert by lia. rewrite bind_gets, Hq, bind_cassert by lia. cbv zeta.
  replace ((irq <? 0) || (32 <=? handle_count q)) with false by lia.
  eexists. split; [reflexivity|]. split; [cbn; rewrite length_app; cbn; lia|].
  intros n Hn. unfold handlers_of. rewrite list.filter_app, map_app, rev_app_distr.
  cbn [handles handle_count handle_pool]. rewrite aget_aset.
  set (q' := mkIrqs _ _ _). assert (∀ g l, chain q g l → chain q' g l) as Hfresh.
  { intros g l Hg. apply (chain_fresh q q' g l Hg); [cbn; lia|]. intros i Hi. cbn. apply aget_aset_ne. lia. }
  specialize (Hl n Hn). rewrite filter_cons, filter_nil. cbn [fst].
  destruct (Z.eqb_spec irq n) as [->|Hne].
  - rewrite decide_True by done. cbn [map snd rev app]. exists (handle_count q). split; [done|]. split; [cbn; lia|].
    change (handle_pool q') with (aset (handle_count q) (mkIRQ f (aget (handles q) n)) (handle_pool q)). rewrite aget_aset_eq. split; [done|]. now apply Hfresh.
  - rewrite decide_False by done. now apply Hfresh.
Qed.

Lemma register_all_ok regs done_ s : registered (irqs s) done_ → Forall (λ p, 0 <= fst p < NR_HARD_INTR) regs →
  Z.of_nat (length (done_ ++ regs)) <= NR_IRQ_HANDLE →
  ∃ s', register_all regs s = Ok tt s' ∧ registered (irqs s') (done_ ++ regs).
Proof using irqs_set.
  revert done_ s; induction regs as [|[irq f] regs IH]; intros done_ s Hd Hr Hl.
  { exists s. rewrite app_nil_r. done. }
  destruct (Forall_cons_1 _ _ _ Hr) as [Hi Hr1]; clear Hr; rename Hr1 into Hr. rewrite length_app in Hl. cbn [length] in Hl. cbn [register_all].
  destruct (add_registered (irqs s) s irq f done_ eq_refl Hd Hi) as (q' & Hrun & Hq'); [lia|].
  rewrite (bind_Ok _ _ _ _ _ Hrun).
  destruct (IH (done_ ++ [(irq, f)]) (set_irqs q' s)) as (s' & Hrun' & Hs').
  - now rewrite irqs_set.
  - done.
  - rewrite !length_app. cbn [length]. lia.
  - exists s'. split; [done|]. now rewrite <- app_assoc in Hs'.
Qed.

Lemma run_handles_calls q f l fuel s : irqs s = q → chain q f l → (length l < fuel)%nat →
  run_handles irqs call fuel f s = calls l s.
Proof using call_irqs.
  intros Hq. revert f fuel s Hq; induction l as [|r l IH]; intros f fuel s Hq Hc Hf;
    (destruct fuel as [|fuel]; [cbn in Hf; lia|]); cbn [run_handles calls].
  { cbn in Hc. now subst f. }
  destruct Hc as (i & -> & Hi & Hr & Hl). rewrite bind_gets, Hq, Hr.
  unfold mbind, M_bind. destruct (call r s) as [u s1|s1|e] eqn:E; [|done..].
  pose proof (call_irqs _ _ _ _ E) as Hq1. unfold gets. rewrite Hq1, Hq.
  apply IH; [congruence|done|cbn in Hf; lia].
Qed.

(** C29: Interrupts reach their handlers: when at most 32 handlers are registered, on lines
    below 16, from the empty table, every registration succeeds, and an interrupt of line
    [n] then calls exactly the routines registered for [n], the latest registered first,
    whatever the lines of the others and whatever the routines do, as long as a routine that
    returns leaves the table of handlers as it found it. *)
Theorem irq_handlers_run do_syscall regs s fuel tf n :
  irqs s = irqs0 → Forall (λ p, 0 <= fst p < NR_HARD_INTR) regs → Z.of_nat (length regs) <= NR_IRQ_HANDLE →
  0 <= n < NR_HARD_INTR → tf_irq tf = irq_line_id n → (length regs < fuel)%nat →
  ∃ s', register_all regs s = Ok tt s' ∧
    irq_handle irqs call do_syscall fuel tf s' =
      (_ ← calls (rev (map snd (filter (λ p, fst p = n) regs))); mret tf) s'.
Proof using irqs_set call_irqs.
  intros Hs Hr Hl Hn Htf Hf. unfold NR_HARD_INTR in *.
  destruct (register_all_ok regs [] s) as (s' & Hrun & [Hc Hch]); [|done|done|].
  { rewrite Hs. split; [done|]. intros k _. cbn. now rewrite aget_anew. }
  exists s'. split; [done|]. unfold irq_handle, irq_line_id, NR_HARD_INTR in *. rewrite Htf, sgn_small by lia.
  replace (1000 + n <? 0) with false by lia. replace (1000 + n =? 128) with false by lia.
  replace (1000 + n <? 1000) with false by lia. replace (1000 + n - 1000) with n by lia.
  rewrite bind_cassert by lia. rewrite bind_gets.
  specialize (Hch n Hn). fold (handlers_of n regs). cbn [app] in Hch.
  unfold mbind, M_bind. erewrite run_handles_calls; [done|done|exact Hch|].
  unfold handlers_of. rewrite length_rev, length_map. pose proof (length_filter (λ p : Z * Z, fst p = n) regs). lia.
Qed.

(** The bound is tested with [<=]: the 33rd handler passes the assertion and is stored
    behind the pool. *)
Lemma add_irq_handle_33 s irq f : handle_count (irqs s) = NR_IRQ_HANDLE → 0 <= irq < NR_HARD_INTR →
  add_irq_handle irqs set_irqs irq f s = Fail_ EUndefined.
Proof using.
  unfold NR_IRQ_HANDLE, NR_HARD_INTR. intros Hc Hi. unfold add_irq_handle, NR_HARD_INTR, NR_IRQ_HANDLE.
  rewrite sgn_small by lia. rewrite bind_cassert by lia. rewrite bind_gets, Hc, bind_cassert by lia.
  replace ((irq <? 0) || _) with true by lia. done.
Qed.
End Irq.

(** * The write system call on the emulated serial port *)
Section Serial.
Context `{HRand : !LibcRand, HJunk : !StackJunk}.

(** The devices are attached and the serial line is idle. *)
Record serial_ready (s : Machine) : Prop := {
  sr_maps : pio_maps (pio s) = device_ports;
  sr_bytes : is_bytes (aget (pio_space (pio s)));
  sr_idle : pio_get (pio s) (SERIAL_PORT + LSR_OFFSET) = 0x20
}.

Lemma serial_pio_callback s addr w : pio_maps (pio s) = device_ports →
  SERIAL_PORT <= addr → addr <= SERIAL_PORT + 7 →
  pio_callback pio pio_callback_fn addr 1 w s = serial_io_handler addr 1 w s.
Proof using.
  intros Hm Ha Hl. unfold pio_callback. rewrite bind_gets, Hm. unfold device_ports.
  cbn [pio_callback_in pm_low pm_high pm_callback]. now replace (_ && _) with true by lia.
Qed.

Lemma serial_status s : serial_ready s → in_byte (SERIAL_PORT + 5) s = Ok 0x20 s.
Proof using.
  intros [Hm Hb Hi]. unfold in_byte, machine_ports, pio_in, pio_read. change (u16 _) with (SERIAL_PORT + LSR_OFFSET).
  rewrite !bind_cassert by reflexivity.
  assert (pio_callback pio pio_callback_fn (SERIAL_PORT + LSR_OFFSET) 1 false s = Ok tt s) as E.
  { now rewrite serial_pio_callback by (done || (unfold SERIAL_PORT, LSR_OFFSET; lia)). }
  rewrite (bind_Ok _ _ _ _ _ E), bind_gets. unfold mret, M_ret. f_equal.
  rewrite land_len_mask by lia. cbn [le_load]. change (256 ^ 1) with 256.
  rewrite (Z.mul_comm 256), Z_mod_plus_full. unfold pio_get in Hi. rewrite Hi. reflexivity.
Qed.

Lemma serial_idle_run s : serial_ready s → serial_idle s = Ok true s.
Proof using. intros Hs. unfold serial_idle. now rewrite (bind_Ok _ _ _ _ _ (serial_status s Hs)). Qed.

(** Only the host's output and the byte of the data port may differ. *)
Definition serial_only (s s' : Machine) : Prop :=
  ∃ b o, s' = set_serial_out o (set_pio b s) ∧ pio_maps b = pio_maps (pio s) ∧
    ∀ j, j ≠ SERIAL_PORT → pio_get b j = pio_get (pio s) j.

Lemma serial_only_refl s : serial_only s s.
Proof using. exists (pio s), (serial_out s). now destruct s. Qed.

Lemma serial_only_trans s1 s2 s3 : serial_only s1 s2 → serial_only s2 s3 → serial_only s1 s3.
Proof using.
  intros (b & o & -> & Hm & Hb) (b' & o' & -> & Hm' & Hb'). exists b', o'. split; [done|]. split; [now rewrite Hm'|].
  intros j Hj. rewrite Hb' by done. now apply Hb.
Qed.

Lemma printc_run fuel c s : serial_ready s → 0 <= c < 256 →
  ∃ s', serial_printc (Datatypes.S fuel) c s = Ok tt s' ∧ serial_ready s' ∧ serial_out s' = c :: serial_out s ∧ serial_only s s'.
Proof using.
  intros Hs Hc. unfold serial_printc. cbn [poll].
  rewrite bind_bind, (bind_Ok _ _ _ _ _ (serial_idle_run s Hs)). cbv iota. rewrite bind_ret.
  destruct Hs as [Hm Hb Hi]. unfold out_byte, machine_ports, pio_out, pio_write.
  change (u16 SERIAL_PORT) with SERIAL_PORT. rewrite !bind_cassert by reflexivity.
  rewrite bind_modify. rewrite serial_pio_callback by (done || (unfold SERIAL_PORT; lia)).
  unfold serial_io_handler. rewrite bind_cassert by done.
  change (SERIAL_PORT =? SERIAL_PORT + CH_OFFSET) with true. cbv iota. unfold port. rewrite bind_gets.
  set (b := mkPioBus _ _). eexists. split; [reflexivity|]. cbn [pio set_pio set_serial_out serial_out].
  assert (∀ j, pio_get b j = if SERIAL_PORT =? j then c else pio_get (pio s) j) as Hget.
  { intros j. unfold b, pio_get; cbn [pio_space]. change (Z.to_nat 1) with 1%nat. cbn [le_store].
    rewrite aget_aset. destruct (_ =? _); [|done]. rewrite (wrap_small 8) by lia. now apply Z.mod_small. }
  split; [split|].
  - exact Hm.
  - intros j. change (0 <= pio_get b j < 256). rewrite Hget. destruct (_ =? _); [done|apply Hb].
  - change (pio_get b (SERIAL_PORT + LSR_OFFSET) = 0x20). now rewrite Hget.
  - split; [f_equal; change (pio_get b (SERIAL_PORT + CH_OFFSET) = c); rewrite Hget; reflexivity|].
    exists b. eexists. split; [reflexivity|]. split; [done|]. intros j Hj. rewrite Hget. now replace (SERIAL_PORT =? j) with false by lia.
Qed.

(** A loop that sends one character after the other. *)
Lemma emit_run fuel (g : Z → Z) n body s : serial_ready s →
  (∀ i s1, 0 <= i < Z.of_nat n → body i s1 = serial_printc (Datatypes.S fuel) (g i) s1 ∧ 0 <= g i < 256) →
  ∃ s', for_ n 0 body s = Ok tt s' ∧ serial_ready s' ∧
    serial_out s' = rev (map (λ i, g (Z.of_nat i)) (seq 0 n)) ++ serial_out s ∧ serial_only s s'.
Proof using.
  intros Hs Hb. destruct (for_ok (λ i s', serial_ready s' ∧ serial_out s' =
    rev (map (λ i, g (Z.of_nat i)) (seq 0 (Z.to_nat i))) ++ serial_out s ∧ serial_only s s') n 0 body s) as (s' & Hrun & Hs' & Ho & Honly).
  - split; [done|]. split; [done|apply serial_only_refl].
  - intros i s1 Hi (Hs1 & Ho1 & Honly). destruct (Hb i s1 ltac:(lia)) as [E Hg]. rewrite E.
    destruct (printc_run fuel (g i) s1 Hs1 Hg) as (s2 & Hr2 & Hs2 & Ho2 & Honly2).
    exists s2. split; [exact Hr2|]. split; [done|]. split; [|exact (serial_only_trans _ _ _ Honly Honly2)]. rewrite Ho2, Ho1.
    replace (Z.to_nat (i + 1)) with (Datatypes.S (Z.to_nat i)) by lia.
    rewrite seq_S, map_app, rev_app_distr. cbn [map rev app]. f_equal. now rewrite Nat.add_0_l, Z2Nat.id by lia.
  - exists s'. split; [exact Hrun|]. split; [exact Hs'|]. split; [|exact Honly]. rewrite Ho. now rewrite Z.add_0_l, Nat2Z.id.
Qed.

Lemma map_nth_seq (l : list Z) n : (n <= length l)%nat → map (λ i, nth i l 0) (seq 0 n) = take n l.
Proof using.
  revert n; induction l as [|x l IH]; intros [|n] Hn; cbn in *; try done; [lia|]. f_equal.
  rewrite <- seq_shift, map_map. apply IH. lia.
Qed.

(** A message of the kernel of at most 255 characters reaches the host. *)
Lemma printk_prints fuel text s : serial_ready s → Forall (λ c, 0 <= c < 256) text → Z.of_nat (length text) < PRINTK_BUF →
  ∃ s', printk (Datatypes.S fuel) text s = Ok tt s' ∧ serial_ready s' ∧ serial_out s' = rev text ++ serial_out s ∧ serial_only s s'.
Proof using.
  intros Hs Ht Hl. unfold PRINTK_BUF in Hl.
  destruct (emit_run fuel (λ i, nth (Z.to_nat i) text 0) (length text) (λ i, match printk_buf text i with
    | Some c => serial_printc (Datatypes.S fuel) c | None => fail EUndefined end) s Hs) as (s' & Hrun & Hs' & Ho & Honly).
  - intros i s1 Hi. unfold printk_buf, PRINTK_BUF. replace (i <? Z.min _ _) with true by lia.
    destruct (lookup_lt_is_Some_2 text (Z.to_nat i) ltac:(lia)) as [c Hc]. rewrite Hc.
    pose proof (nth_lookup_Some _ _ 0 _ Hc) as ->. split; [done|]. exact (Forall_lookup_1 _ _ _ _ Ht Hc).
  - exists s'. split; [exact Hrun|]. split; [exact Hs'|]. split; [|exact Honly]. rewrite Ho. do 2 f_equal.
    rewrite (map_ext _ (λ i, nth i text 0)) by (intros i; now rewrite Nat2Z.id). rewrite map_nth_seq by lia. now rewrite firstn_all.
Qed.

(** A longer one is read past the end of [buf]. *)
Lemma printk_overruns fuel text s : serial_ready s → Forall (λ c, 0 <= c < 256) text → PRINTK_BUF < Z.of_nat (length text) →
  printk (Datatypes.S fuel) text s = Fail_ EUndefined.
Proof using.
  intros Hs Ht Hl. unfold PRINTK_BUF in Hl. unfold printk. replace (length text) with (256 + Datatypes.S (length text - 257))%nat by lia.
  rewrite for_app. destruct (emit_run fuel (λ i, default 0 (printk_buf text i)) 256 (λ i, match printk_buf text i with
    | Some c => serial_printc (Datatypes.S fuel) c | None => fail EUndefined end) s Hs) as (s' & Hrun & _).
  - intros i s1 Hi. unfold printk_buf, PRINTK_BUF. destruct (Z.ltb_spec i (Z.min (Z.of_nat (length text)) (256 - 1))).
    + destruct (lookup_lt_is_Some_2 text (Z.to_nat i) ltac:(lia)) as [c Hc]. rewrite Hc. split; [done|]. exact (Forall_lookup_1 _ _ _ _ Ht Hc).
    + replace (i <? 256) with true by lia. split; [done|cbn; lia].
  - rewrite (bind_Ok _ _ _ _ _ Hrun). cbn [for_]. unfold printk_buf, PRINTK_BUF. change (0 + Z.of_nat 256) with 256.
    replace (256 <? Z.min _ _) with false by lia. reflexivity.
Qed.

(** The user program's memory is [f]; the rest of the system calls is arbitrary. *)
Definition load_of (f : Z → Z) (a : Z) : NEMU Z := mret (f a).

(** C30: What a program writes reaches the host: on the emulated machine with its devices
    attached and the serial line idle, the [write] system call to file 1 or 2 of [len]
    bytes at [buf] (addresses wrap at 2^32) returns [len] and appends exactly those bytes,
    in order, to the host's output, leaving the serial line idle and the rest of the
    machine as it was but for the byte of the serial data port; to any other file it leaves the
    machine as it was and the system call's number in EAX. *)
Theorem write_reaches_host fuel add_irq cli sti brk f tf s :
  serial_ready s → is_bytes f → tf_eax tf = SYS_write → 0 <= s32 (tf_edx tf) →
  ∃ s', do_syscall add_irq cli sti brk (serial_printc (Datatypes.S fuel)) (load_of f) tf s =
      Ok (if (s32 (tf_ebx tf) =? 1) || (s32 (tf_ebx tf) =? 2) then set_tf_eax (s32 (tf_edx tf)) tf else tf) s' ∧
    serial_ready s' ∧
    serial_out s' = (if (s32 (tf_ebx tf) =? 1) || (s32 (tf_ebx tf) =? 2)
      then rev (map (λ i, f (u32 (tf_ecx tf + Z.of_nat i))) (seq 0 (Z.to_nat (s32 (tf_edx tf))))) ++ serial_out s
      else serial_out s) ∧
    serial_only s s' ∧ ((s32 (tf_ebx tf) =? 1) || (s32 (tf_ebx tf) =? 2) = false → s' = s).
Proof using.
  intros Hs Hf Ha Hl. unfold do_syscall. rewrite Ha.
  change (SYS_write =? 0) with false. change (SYS_write =? SYS_brk) with false.
  change (SYS_write =? SYS_ioctl) with false. change (SYS_write =? SYS_write) with true. cbv iota.
  unfold sys_write. cbv zeta. destruct (_ || _); [|exists s; split_and!; try done; apply serial_only_refl].
  destruct (emit_run fuel (λ i, f (u32 (tf_ecx tf + i))) (Z.to_nat (s32 (tf_edx tf)))
    (λ i, c ← load_of f (u32 (tf_ecx tf + i)); serial_printc (Datatypes.S fuel) c) s Hs) as (s' & Hrun & Hs' & Ho & Honly).
  - intros i s1 _. split; [reflexivity|apply Hf].
  - rewrite (bind_Ok _ _ _ _ _ Hrun). now exists s'.
Qed.
End Serial.

(** * The loader's walk

    [ph = ph + loop_var] adds the loop's counter to the pointer it already moved: the
    headers examined are those at 0, 1, 3, 6, ... of the table. *)
Section Walk.
Context {S : Type} (kvm : S → Kvm) (set_kvm : Kvm → S → S).
Context (ide_read : arr Z → Z → Z → M S (arr Z)) (mm_malloc : Z → Z → M S Z).
Context (mem : S → arr Z) (set_mem : arr Z → S → S).

Lemma load_segments_triangular n i ph buf s : 0 <= i →
  load_segments kvm set_kvm ide_read mm_malloc mem set_mem n i (ph + PHDR_SIZE * (i * (i - 1) / 2)) buf s =
  for_ n i (λ k, load_segment kvm set_kvm ide_read mm_malloc mem set_mem buf (ph + PHDR_SIZE * (k * (k + 1) / 2))) s.
Proof using.
  intros Hi. revert i s Hi; induction n as [|n IH]; intros i s Hi; [done|]. cbn [load_segments for_].
  assert (i * (i + 1) / 2 = i * (i - 1) / 2 + i) as E.
  { replace (i * (i + 1)) with (i * (i - 1) + i * 2) by lia. now rewrite Z.div_add by lia. }
  replace (ph + PHDR_SIZE * (i * (i - 1) / 2) + PHDR_SIZE * i) with (ph + PHDR_SIZE * (i * (i + 1) / 2))
    by (unfold PHDR_SIZE; lia).
  unfold mbind, M_bind. destruct (load_segment _ _ _ _ _ _ _ _ s) as [[] s1| |]; [|done..].
  replace (i * (i + 1)) with ((i + 1) * (i + 1 - 1)) by lia. apply IH. lia.
Qed.
End Walk.

(** The files of the table lie one after the other on the disk. *)
Fixpoint contiguous (l : list file_info) : bool :=
  match l with
  | a :: ((b :: _) as l') => (file_size a + disk_offset a =? disk_offset b) && contiguous l'
  | _ => true
  end.

Lemma file_table_contiguous : contiguous file_table = true ∧ length file_table = 25%nat.
Proof. split; reflexivity. Qed.

(** * Witnesses *)
#[local] Existing Instance IsoRand.
#[local] Existing Instance ZeroJunk.

Lemma irq_handlers_run_witness : ∃ s',
  register_all id (λ q _, q) [(0, 11); (14, 22); (0, 33)] irqs0 = Ok tt s' ∧
  irq_handle id (λ f s, Ok tt s) (λ tf, mret tf) 4 (mkTrapFrame 0 0 0 0 0 0 0 0 1000 0 0 0 0) s' =
    (_ ← calls (λ f s, Ok tt s) [33; 11]; mret (mkTrapFrame 0 0 0 0 0 0 0 0 1000 0 0 0 0)) s'.
Proof.
  apply (irq_handlers_run id (λ q _, q) (λ f s, Ok tt s) (λ q s, eq_refl)
    (λ f s a s' H, match H in _ = r return match r with Ok _ x => id x = id s | _ => True end with eq_refl => eq_refl end)
    (λ tf, mret tf) [(0, 11); (14, 22); (0, 33)] irqs0 4 (mkTrapFrame 0 0 0 0 0 0 0 0 1000 0 0 0 0) 0).
  - reflexivity.
  - repeat constructor; unfold NR_HARD_INTR; cbn; lia.
  - vm_compute. discriminate.
  - unfold NR_HARD_INTR. lia.
  - reflexivity.
  - cbn. lia.
Defined.

Lemma boot_serial_ready : serial_ready boot_machine.
Proof.
  split; [vm_compute; reflexivity|apply boot_machine_idle|vm_compute; reflexivity].
Qed.

Lemma write_reaches_host_witness : ∃ s',
  do_syscall (λ _ _, mret tt) (mret tt) (mret tt) (λ _, mret 0) (serial_printc 1) (load_of (λ a, a mod 256))
    (mkTrapFrame 0 0 0 0 1 3 65 4 0x80 0 0 0 0) boot_machine = Ok (mkTrapFrame 0 0 0 0 1 3 65 3 0x80 0 0 0 0) s' ∧
  serial_out s' = [67; 66; 65].
Proof.
  destruct (write_reaches_host 0 (λ _ _, mret tt) (mret tt) (mret tt) (λ _, mret 0) (λ a, a mod 256)
    (mkTrapFrame 0 0 0 0 1 3 65 4 0x80 0 0 0 0) boot_machine boot_serial_ready) as (s' & Hr & _ & Ho & _).
  - intros i. apply Z.mod_pos_bound. lia.
  - reflexivity.
  - vm_compute. discriminate.
  - exists s'. split; [exact Hr|]. refine (eq_trans Ho _). vm_compute. reflexivity.
Defined.
