(* ===== verification/KernelMain.v ===== *)
(** The kernel from its first instruction to the call of the user program:
    [kernel/src/start.S] and [kernel/src/main.c], over the whole kernel's state.

    The parts are those of the other files: segments, gates and page tables of [Kvm], the
    disk's buffers of [KernelDisk] and the drivers of [KernelIO] on the emulated devices,
    interrupt dispatch and the loader of [KernelSys]. *)
From S2P Require Import Prelude Dram Cache Tlb Cpu I8259 Mmio Vga WpPool Machine Memory Devices.
From S2P Require Import KernelIO KernelDisk KernelDiskSpec Kvm KernelSys.

(** * State *)

(** The registers the start-up sets; GDTR and IDTR as their limit and base. *)
Record KCpu := mkKCpu {
  kc_gdtr : Z * Z; kc_idtr : Z * Z; kc_IF : bool; kc_esp : Z; kc_ebp : Z;
  kc_cs : Z; kc_ds : Z; kc_es : Z; kc_ss : Z }.

Definition set_kc_gdtr v c := mkKCpu v (kc_idtr c) (kc_IF c) (kc_esp c) (kc_ebp c) (kc_cs c) (kc_ds c) (kc_es c) (kc_ss c).
Definition set_kc_idtr v c := mkKCpu (kc_gdtr c) v (kc_IF c) (kc_esp c) (kc_ebp c) (kc_cs c) (kc_ds c) (kc_es c) (kc_ss c).
Definition set_kc_IF b c := mkKCpu (kc_gdtr c) (kc_idtr c) b (kc_esp c) (kc_ebp c) (kc_cs c) (kc_ds c) (kc_es c) (kc_ss c).
Definition set_kc_stack esp ebp c := mkKCpu (kc_gdtr c) (kc_idtr c) (kc_IF c) (u32 esp) ebp (kc_cs c) (kc_ds c) (kc_es c) (kc_ss c).
Definition set_kc_segs cs ds es ss c := mkKCpu (kc_gdtr c) (kc_idtr c) (kc_IF c) (kc_esp c) (kc_ebp c) cs ds es ss.

(** * start.S: the first GDT, as the assembler lays it out *)
Definition MAKE_NULL_SEG_DESC : list Z := [0; 0; 0; 0; 0; 0; 0; 0].
Definition MAKE_SEG_DESC (type base lim : Z) : list Z :=
  let w := Z.land (Z.shiftr lim 12) 0xffff in
  let b := Z.land base 0xffff in
  [byte_of w 0; byte_of w 1; byte_of b 0; byte_of b 1;
   Z.land (Z.shiftr base 16) 0xff; Z.lor 0x90 type;
   Z.lor 0xC0 (Z.land (Z.shiftr lim 28) 0xf); Z.land (Z.shiftr base 24) 0xff].
Definition start_gdt : list Z :=
  MAKE_NULL_SEG_DESC ++ MAKE_SEG_DESC 0xA 0x0 0xffffffff ++ MAKE_SEG_DESC 0x2 0x0 0xffffffff.
Definition GDT_ENTRY (n : Z) : Z := Z.shiftl n 3.

(** * The whole state *)
Section Main.
Context `{HRand : !LibcRand, HJunk : !StackJunk}.

(** The devices with the disk driver's variables, the other static variables, and the memory
    the kernel addresses outside them. *)
Record Kernel := mkKernel {
  k_dev : Machine * IdeDriver;
  k_irqs : Irqs;
  k_vm : Kvm;
  k_mem : arr Z;
  k_gdt : arr Z; k_idt : arr Z;
  k_cpu : KCpu }.

Definition set_k_dev d k := mkKernel d (k_irqs k) (k_vm k) (k_mem k) (k_gdt k) (k_idt k) (k_cpu k).
Definition set_k_irqs q k := mkKernel (k_dev k) q (k_vm k) (k_mem k) (k_gdt k) (k_idt k) (k_cpu k).
Definition set_k_vm v k := mkKernel (k_dev k) (k_irqs k) v (k_mem k) (k_gdt k) (k_idt k) (k_cpu k).
Definition set_k_mem m k := mkKernel (k_dev k) (k_irqs k) (k_vm k) m (k_gdt k) (k_idt k) (k_cpu k).
Definition set_k_gdt t k := mkKernel (k_dev k) (k_irqs k) (k_vm k) (k_mem k) t (k_idt k) (k_cpu k).
Definition set_k_idt t k := mkKernel (k_dev k) (k_irqs k) (k_vm k) (k_mem k) (k_gdt k) t (k_cpu k).
Definition set_k_cpu c k := mkKernel (k_dev k) (k_irqs k) (k_vm k) (k_mem k) (k_gdt k) (k_idt k) c.

Definition mod_k_cpu (f : KCpu → KCpu) : M Kernel unit := modify (λ s, set_k_cpu (f (k_cpu s)) s).
Definition mod_k_vm (f : Kvm → Kvm) : M Kernel unit := modify (λ s, set_k_vm (f (k_vm s)) s).

(** * start.S *)

(** [gdt_at] is the address of that table; the jump to [init] follows. *)
Definition start (gdt_at : Z) : M Kernel unit :=
  _ ← mod_k_cpu (set_kc_gdtr (Z.of_nat (length start_gdt) - 1, va_to_pa gdt_at));
  _ ← mod_k_vm (λ v, set_crs (Z.lor (kcr0 v) 0x1) (kcr3 v) v);
  _ ← mod_k_cpu (set_kc_segs (GDT_ENTRY 1) (GDT_ENTRY 2) (GDT_ENTRY 2) (GDT_ENTRY 2));
  mod_k_cpu (set_kc_stack (Z.shiftl 128 20) 0).

(** Addresses the linker gives to tables, entry points and the two handlers of [ide.c]; the
    text [printk] formats; the allocator of [mm_malloc.o]. *)
Context (A : KAddrs) (E : Entries) (gdt_at idt_at ide_writeback_at ide_intr_at : Z).
Context (hello : list Z) (mm_malloc : Z → Z → M Kernel Z).

Definition on_dev {B} (m : M (Machine * IdeDriver) B) : M Kernel B := zoom k_dev set_k_dev m.
Definition on_ports {B} (m : NEMU B) : M Kernel B := on_dev (on_machine m).

(** * x86/cpu.h *)
Definition write_gdtr (addr size : Z) : M Kernel unit := mod_k_cpu (set_kc_gdtr (u16 (size - 1), u32 addr)).
Definition write_idtr (addr size : Z) : M Kernel unit := mod_k_cpu (set_kc_idtr (u16 (size - 1), u32 addr)).
Definition k_sti : M Kernel unit := mod_k_cpu (set_kc_IF true).
Definition write_cr3 (v : Z) : M Kernel unit := mod_k_vm (λ k, set_crs (kcr0 k) v k).

(** * The parts on this state *)
Definition k_init_segment : M Kernel unit :=
  _ ← modify (λ s, set_k_gdt (init_segment (k_gdt s)) s);
  write_gdtr gdt_at (8 * NR_SEGMENTS).
Definition k_init_idt : M Kernel unit :=
  _ ← modify (λ s, set_k_idt (init_idt E (k_idt s)) s);
  write_idtr idt_at (8 * NR_IRQ).

Definition drv_set (d : IdeDriver) (s : Machine * IdeDriver) : Machine * IdeDriver := (fst s, d).
Definition k_ide_read (buf : arr Z) (offset len : Z) : M Kernel (arr Z) :=
  on_dev (ide_read snd drv_set emulated_read emulated_write buf offset len).
Definition k_init_ide : M Kernel unit :=
  kernel_init_ide k_irqs set_k_irqs (on_dev (buf_init snd drv_set)) ide_writeback_at ide_intr_at.
Definition k_loader : M Kernel Z :=
  loader A k_vm set_k_vm k_ide_read mm_malloc write_cr3 k_mem set_k_mem.

(** * main.c *)

(** The result is the address called: the entry of the user program. *)
Definition init_cond (fuel : nat) : M Kernel Z :=
  _ ← k_init_segment;
  _ ← k_init_idt;
  _ ← on_ports init_i8259;
  _ ← on_ports kernel_init_serial;
  _ ← k_init_ide;
  _ ← k_sti;
  _ ← mod_k_vm (init_mm A);
  _ ← on_ports (printk fuel hello);
  _ ← modify (λ s, set_k_mem (video_mapping_write_test (k_mem s)) s);
  eip ← k_loader;
  m ← gets k_mem;
  _ ← cassert (video_mapping_read_test m);
  _ ← modify (λ s, set_k_mem (video_mapping_clear (k_mem s)) s);
  _ ← mod_k_cpu (λ c, set_kc_stack KOFFSET (kc_ebp c) c);
  _ ← mod_k_cpu (λ c, set_kc_stack (kc_esp c) 0 c);
  _ ← mod_k_cpu (λ c, set_kc_stack (kc_esp c - 16) (kc_ebp c) c);
  mret eip.

Definition kernel_init (fuel : nat) : M Kernel Z :=
  s ← getS;
  match init_page A fuel (k_vm s) with
  | None => fail EFuel
  | Some v =>
    _ ← modify (set_k_vm v);
    _ ← mod_k_cpu (λ c, set_kc_stack (kc_esp c + KOFFSET) (kc_ebp c) c);
    init_cond fuel
  end.

(** From the machine's first instruction. *)
Definition boot (start_gdt_at : Z) (fuel : nat) : M Kernel Z :=
  _ ← start start_gdt_at;
  kernel_init fuel.
End Main.
