(* ===== verification/KernelMainSpec.v ===== *)
(** The kernel's start: from a machine with its devices attached and a program on its disk,
    [boot] loads the program, sets up the tables and calls the program's entry. *)
From S2P Require Import Prelude Dram Cache Tlb Cpu I8259 Mmio Vga WpPool Machine Memory Devices.
From S2P Require Import DemoMachine KernelIO IdeSpec KernelDisk KernelDiskSpec Kvm KvmSpec KernelSys KernelSysSpec KernelMain.

(** * The devices *)
Section Devices.
Context `{HRand : !LibcRand, HJunk : !StackJunk}.

(** The disk holds [f] and is idle, the serial line is idle, and the host has seen [out]
    (the last byte first). *)
Record dev_ready (f : Z → Z) (sz : Z) (out : list Z) (s : Machine) : Prop := {
  dr_disk : disk_idle f sz s;
  dr_serial : serial_ready s;
  dr_out : serial_out s = out
}.

(** Ports no device listens to, and the serial port's control registers. *)
Definition quiet (p : Z) : Prop :=
  p = 0x20 ∨ p = 0x21 ∨ p = 0xA0 ∨ p = 0xA1 ∨ p = 0x3F9 ∨ p = 0x3FA ∨ p = 0x3FB ∨ p = 0x3FC.

Lemma out_quiet_run s p v : quiet p → pio_maps (pio s) = device_ports → out_byte p v s = Ok tt (set_pio (pio_set p v (pio s)) s).
Proof using.
  intros Hp Hm. unfold out_byte, machine_ports, pio_out, pio_write.
  assert (u16 p = p) as -> by (apply wrap_small; unfold quiet in Hp; lia).
  rewrite bind_cassert by done. rewrite bind_cassert by (unfold quiet, PORT_IO_SPACE_MAX in *; lia). rewrite bind_modify.
  assert (le_store (Z.to_nat 1) p (u8 v) (pio_space (pio s)) = aset p (u8 v) (pio_space (pio s))) as ->.
  { change (Z.to_nat 1) with 1%nat. cbn [le_store]. unfold wrap. change (2 ^ 8) with 256. now rewrite Z.mod_mod by lia. }
  unfold pio_callback, pio_set. rewrite bind_gets. cbn [pio set_pio pio_maps]. rewrite Hm.
  destruct Hp as [->|[->|[->|[->|[->|[->|[->| ->]]]]]]]; reflexivity.
Qed.

Lemma out_quiet f sz out p v s : quiet p → dev_ready f sz out s →
  ∃ s', out_byte p v s = Ok tt s' ∧ dev_ready f sz out s'.
Proof using.
  intros Hp [[Hat Hst] [Hm Hb Hi] Ho]. exists (set_pio (pio_set p v (pio s)) s). split; [now apply out_quiet_run|].
  split; [split; [apply attached_pio; [exact Hat|split; [exact Hm|now apply port_bytes_set]]|]|split|exact Ho].
  - cbn [pio set_pio]. rewrite pio_get_set. replace (p =? IDE_PORT + 7) with false by (unfold quiet, IDE_PORT in *; lia). exact Hst.
  - exact Hm.
  - now apply port_bytes_set.
  - cbn [pio set_pio]. rewrite pio_get_set. replace (p =? SERIAL_PORT + LSR_OFFSET) with false by (unfold quiet, SERIAL_PORT, LSR_OFFSET in *; lia). exact Hi.
Qed.

Ltac quiet_out := match goal with Hs : dev_ready _ _ _ ?s |- ∃ s', (out_byte ?p ?v ≫= _) ?s = _ ∧ _ =>
  let s1 := fresh "s" in let H := fresh "H" in let H' := fresh "H" in
  destruct (out_quiet _ _ _ p v s ltac:(unfold quiet, PORT_PIC_MASTER, PORT_PIC_SLAVE, SERIAL_PORT; lia) Hs) as (s1 & H & H'); rewrite (bind_Ok _ _ _ _ _ H); clear H Hs end.

Lemma init_i8259_run f sz out s : dev_ready f sz out s → ∃ s', init_i8259 s = Ok tt s' ∧ dev_ready f sz out s'.
Proof using. intros Hs. unfold init_i8259. repeat quiet_out. apply out_quiet; [unfold quiet, PORT_PIC_SLAVE; lia|done]. Qed.

Lemma serial_only_disk f sz s s' : serial_only s s' → serial_ready s' → disk_idle f sz s → disk_idle f sz s'.
Proof using.
  intros (b & o & -> & Hm & Hb) [_ Hbytes _] [[H1 H2 H3 H4 H5 H6 H7] Hst]. split; [|].
  - split; try done. exact (eq_trans Hm H1).
  - cbn [pio set_serial_out set_pio]. rewrite Hb; [exact Hst|done].
Qed.

Lemma out_char f sz out c s : dev_ready f sz out s → 0 <= c < 256 →
  ∃ s', out_byte SERIAL_PORT c s = Ok tt s' ∧ dev_ready f sz (c :: out) s'.
Proof using.
  intros [Hd Hs Ho] Hc. destruct (printc_run 0 c s Hs Hc) as (s' & Hrun & Hs' & Ho' & Honly). exists s'. split.
  - rewrite <- Hrun. unfold serial_printc. cbn [poll]. now rewrite bind_bind, (bind_Ok _ _ _ _ _ (serial_idle_run s Hs)).
  - split; [exact (serial_only_disk _ _ _ _ Honly Hs' Hd)|exact Hs'|now rewrite Ho', Ho].
Qed.

(** The third control write goes to the data port: the host sees the byte 1. *)
Lemma init_serial_run f sz out s : dev_ready f sz out s → ∃ s', kernel_init_serial s = Ok tt s' ∧ dev_ready f sz (1 :: out) s'.
Proof using.
  intros Hs. unfold kernel_init_serial. change (SERIAL_PORT + 0) with SERIAL_PORT. do 2 quiet_out.
  match goal with Hs : dev_ready _ _ _ _ |- _ => destruct (out_char _ _ _ 1 _ Hs ltac:(lia)) as (s' & Hrun & Hs'); rewrite (bind_Ok _ _ _ _ _ Hrun); clear Hrun Hs end.
  do 3 quiet_out. apply out_quiet; [unfold quiet, SERIAL_PORT; lia|done].
Qed.

Lemma printk_ready f sz out fuel text s : dev_ready f sz out s → Forall (λ c, 0 <= c < 256) text → Z.of_nat (length text) < PRINTK_BUF →
  ∃ s', printk (Datatypes.S fuel) text s = Ok tt s' ∧ dev_ready f sz (rev text ++ out) s'.
Proof using.
  intros [Hd Hs Ho] Ht Hl. destruct (printk_prints fuel text s Hs Ht Hl) as (s' & Hrun & Hs' & Ho' & Honly). exists s'.
  split; [exact Hrun|]. split; [exact (serial_only_disk _ _ _ _ Honly Hs' Hd)|exact Hs'|now rewrite Ho', Ho].
Qed.

(** ** The disk, with what the host has seen *)
Context (nsec sz : Z) (Hnsec : nsec <= 2 ^ 23) (Hsz : SECT * nsec <= sz).

Definition seen_disk (out : list Z) (f : Z → Z) (s : Machine * IdeDriver) : Prop :=
  emulated_disk sz f s ∧ serial_out (fst s) = out.

Lemma io_only_out s s' : io_only s s' → serial_out s' = serial_out s.
Proof using. now intros (b & p & i & ->). Qed.

Lemma seen_device out : DiskDevice snd drv_set emulated_read emulated_write nsec (seen_disk out).
Proof using Hnsec Hsz.
  pose proof (emulated_device nsec sz Hnsec Hsz) as HE. split; [exact Hnsec|done|..].
  - intros f s [Hs _]. exact (dd_bytes (DiskDevice := HE) f s Hs).
  - intros f g s Hfg [Hs Ho]. split; [exact (dd_ext (DiskDevice := HE) f g s Hfg Hs)|exact Ho].
  - intros f d s Hs. exact Hs.
  - intros f s buf sec [Hs Ho] Hsec.
    destruct (disk_read_run f sz 0 sec buf (fst s) Hs) as (buf' & x & Hr & Hv & Hs' & Hio & _); [lia|unfold SECT in *; lia|].
    exists buf', (x, snd s). split; [now apply on_machine_Ok|]. split; [split; [exact Hs'|exact (eq_trans (io_only_out _ _ Hio) Ho)]|]. done.
  - intros f s buf sec [Hs Ho] Hsec Hb.
    destruct (disk_write_run f sz 0 sec buf (fst s) Hs) as (x & Hr & Hs' & Hio); [lia|unfold SECT in *; lia|done|].
    exists (x, snd s). split; [now apply on_machine_Ok|]. split; [split; [exact Hs'|exact (eq_trans (io_only_out _ _ Hio) Ho)]|done].
Qed.
End Devices.

(** * The test of video memory *)
Definition test_byte (x : Z) : Z := byte_of ((x - VMEM_ADDR) / 4) ((x - VMEM_ADDR) mod 4).
Definition in_video (x : Z) : bool := (VMEM_ADDR <=? x) && (x <? VMEM_ADDR + SCR_SIZE).

Lemma video_write_at n i mem x : aget (video_write n i mem) x =
  if (VMEM_ADDR + 4 * i <=? x) && (x <? VMEM_ADDR + 4 * (i + Z.of_nat n)) then test_byte x else aget mem x.
Proof.
  revert i mem; induction n as [|n IH]; intros i mem; cbn [video_write].
  - now replace (_ && _) with false by lia.
  - rewrite IH, aget_le_store. destruct (Z.leb_spec (VMEM_ADDR + 4 * (i + 1)) x) as [H|H]; cbn [andb].
    + replace (_ && (x <? _ + 4)) with false by lia. replace (VMEM_ADDR + 4 * i <=? x) with true by lia. cbn [andb].
      now replace (i + Z.of_nat (S n)) with (i + 1 + Z.of_nat n) by lia.
    + destruct (Z.leb_spec (VMEM_ADDR + 4 * i) x) as [H'|H']; cbn [andb]; [|done].
      replace (x <? VMEM_ADDR + 4 * i + Z.of_nat 4) with true by lia. replace (x <? VMEM_ADDR + 4 * _) with true by lia.
      unfold test_byte. f_equal; lia.
Qed.

Lemma video_read_true n i mem : 0 <= i → i + Z.of_nat n <= 2 ^ 32 →
  (∀ x, VMEM_ADDR + 4 * i <= x < VMEM_ADDR + 4 * (i + Z.of_nat n) → aget mem x = test_byte x) → video_read n i mem = true.
Proof.
  revert i; induction n as [|n IH]; intros i Hi Hn Hm; cbn [video_read]; [done|].
  rewrite (le_load_bytes 4 _ _ i).
  - rewrite IH; [|lia|lia|intros x Hx; apply Hm; lia]. change (256 ^ Z.of_nat 4) with (2 ^ 32). rewrite Z.mod_small by lia. lia.
  - intros k Hk. rewrite Hm by lia. unfold test_byte. f_equal; lia.
Qed.

Lemma video_write_test_at mem x : aget (video_mapping_write_test mem) x = if in_video x then test_byte x else aget mem x.
Proof.
  unfold video_mapping_write_test. rewrite video_write_at, Z2Nat.id by (vm_compute; congruence). unfold in_video.
  rewrite Z.mul_0_r, Z.add_0_r. now replace (4 * (0 + SCR_SIZE / 4)) with SCR_SIZE by (vm_compute; reflexivity).
Qed.

Lemma video_read_test_true mem : (∀ x, in_video x = true → aget mem x = test_byte x) → video_mapping_read_test mem = true.
Proof.
  intros Hm. assert (0 <= SCR_SIZE / 4 ∧ SCR_SIZE / 4 <= 2 ^ 32 ∧ 4 * (SCR_SIZE / 4) = SCR_SIZE) as (H0 & H1 & H2)
    by (split_and!; vm_compute; congruence).
  apply video_read_true; [lia|rewrite Z2Nat.id; lia|]. intros x Hx. rewrite Z2Nat.id in Hx by done.
  apply Hm. unfold in_video. lia.
Qed.

Lemma video_clear_at mem x : aget (video_mapping_clear mem) x = if in_video x then 0 else aget mem x.
Proof. unfold video_mapping_clear. rewrite aget_memset, Z2Nat.id by (vm_compute; congruence). reflexivity. Qed.

(** * The loader *)
Lemma word_range i (b : arr Z) : is_bytes (aget b) → 0 <= le_load 4 (aget b) i < 2 ^ 32.
Proof. intros Hb. exact (le_load_range 4 (aget b) i Hb). Qed.

Lemma same_word (buf img : arr Z) i n : (∀ k, 0 <= k < 4096 → aget buf k = aget img k) → 0 <= i → i + Z.of_nat n <= 4096 →
  le_load n (aget buf) i = le_load n (aget img) i.
Proof. intros Hb Hi Hn. apply le_load_ext. intros k Hk. apply Hb. lia. Qed.

Section Loader.
Context `{HRand : !LibcRand, HJunk : !StackJunk}.
Context (A : KAddrs) (mm_malloc : Z → Z → M Kernel Z) (alloc : Z → Z).
Context (nsec sz : Z) (Hnsec : nsec <= 2 ^ 23) (Hsz : SECT * nsec <= sz) (H4096 : 4096 <= SECT * nsec).
Context (f : Z → Z) (Hf : is_bytes f) (out : list Z).

#[local] Instance loader_device : DiskDevice snd drv_set emulated_read emulated_write nsec (seen_disk sz out) := seen_device nsec sz Hnsec Hsz out.
Abbreviation on_disk := (flat_disk (nsec := nsec) (drv := snd) (DInv := seen_disk sz out) f).

(** The first 4096 bytes of the disk, and the [k]-th program header the loader looks at. *)
Context (img : arr Z) (Himg : ∀ i, 0 <= i < 4096 → aget img i = f i).
Definition header_at (k : Z) : Z := e_phoff img + PHDR_SIZE * (k * (k + 1) / 2).

(** The allocator gives [alloc va] for [len] bytes at [va] and changes the user's page
    directory only. *)
Definition grants (va len : Z) : Prop := ∀ s, ∃ u,
  mm_malloc va len s = Ok (alloc va) (set_k_vm (set_updir u (ucr3 (k_vm s)) (k_vm s)) s).

Definition target (ph : Z) : Z := alloc (p_vaddr img ph).

Record segment_ok (ph : Z) : Prop := {
  sg_file : p_filesz img ph <= p_memsz img ph;
  sg_disk : p_offset img ph + p_filesz img ph <= SECT * nsec;
  sg_alloc : grants (p_vaddr img ph) (p_memsz img ph);
  sg_video : target ph + p_memsz img ph <= VMEM_ADDR ∨ VMEM_ADDR + SCR_SIZE <= target ph
}.

Definition in_target (ph x : Z) : bool := (target ph <=? x) && (x <? target ph + p_memsz img ph).
(** The byte at [x] of a loaded segment: the file's, or zero. *)
Definition segment_byte (ph x : Z) : Z :=
  if x <? target ph + p_filesz img ph then f (p_offset img ph + (x - target ph)) else 0.
Definition segment_brk (ph : Z) : Z := u32 (p_vaddr img ph + p_memsz img ph - 1).

(** The kernel's state while the loader runs. *)
Definition loading (s : Kernel) (d : Machine * IdeDriver) (m u : arr Z) (b : Z) : Kernel :=
  mkKernel d (k_irqs s) (set_brks b b (set_updir u (ucr3 (k_vm s)) (k_vm s))) m (k_gdt s) (k_idt s) (k_cpu s).

Lemma k_read_run s d m u b off len : on_disk d → 0 <= off → 0 <= len → off + len <= SECT * nsec →
  ∃ buf d', k_ide_read (anew 0) off len (loading s d m u b) = Ok buf (loading s d' m u b) ∧ on_disk d' ∧
    ∀ k, 0 <= k < len → aget buf k = f (off + k).
Proof using All.
  intros Hd Ho Hl Hm. destruct (ide_read_run (Z.to_nat len) f d (anew 0) off 0 Hd) as (buf & d' & Hr & Hd' & Hb); [lia|lia|lia|].
  exists buf, d'. split.
  - unfold k_ide_read, on_dev, zoom. cbn [k_dev loading]. unfold ide_read. now rewrite Hr.
  - split; [exact Hd'|]. intros k Hk. rewrite Hb. now replace (_ && _) with true by lia.
Qed.

Lemma load_segment_run s d m u b buf ph : on_disk d → (∀ k, 0 <= k < 4096 → aget buf k = aget img k) →
  0 <= ph → ph + PHDR_SIZE <= 4096 → is_bytes (aget img) → segment_ok ph → p_type img ph = PT_LOAD → 
  ∃ d' m' u', load_segment k_vm set_k_vm k_ide_read mm_malloc k_mem set_k_mem buf ph (loading s d m u b) =
      Ok tt (loading s d' m' u' (Z.max b (segment_brk ph))) ∧ on_disk d' ∧
    ∀ x, aget m' x = if in_target ph x then segment_byte ph x else aget m x.
Proof using All.
  intros Hd Hb Hph Hph' Himgb [Hfile Hdisk Halloc Hvideo] Hty. unfold PHDR_SIZE in Hph'.
  unfold load_segment, PHDR_SIZE. replace (4096 <? ph + 32) with false by lia.
  unfold p_type, p_vaddr, p_memsz, p_offset, p_filesz in *. rewrite !(same_word buf img) by (done || lia). rewrite Hty. change (PT_LOAD =? PT_LOAD) with true. cbv iota.
  destruct (Halloc (loading s d m u b)) as [u' Hmm]. rewrite (bind_Ok _ _ _ _ _ Hmm).
  change (set_k_vm _ (loading s d m u b)) with (loading s d m u' b).
  pose proof (word_range (ph + 4) img Himgb) as H1. pose proof (word_range (ph + 16) img Himgb) as H2. pose proof (word_range (ph + 8) img Himgb) as H3.
  unfold ELF_OFFSET_IN_DISK. rewrite Z.add_0_l. rewrite (wrap_small 32 (le_load 4 (aget img) (ph + 4))) by lia.
  destruct (k_read_run s d m u' b _ _ Hd (proj1 H1) (proj1 H2) Hdisk) as (data & d' & Hr & Hd' & Hdata). rewrite (bind_Ok _ _ _ _ _ Hr), bind_modify.
  replace (_ <? le_load 4 (aget img) (ph + 16)) with false by lia. rewrite bind_modify, bind_gets.
  unfold segment_brk, p_vaddr, p_memsz. set (nb := u32 _). change (cur_brk _) with b.
  eexists d', _, u'. split; [|split; [exact Hd'|]].
  - destruct (Z.ltb_spec b nb) as [Hb1|Hb1]; [rewrite Z.max_r by lia|rewrite Z.max_l by lia]; reflexivity.
  - intros x. cbn [k_mem loading set_k_mem]. rewrite aget_memset, aget_memcpy, !Z2Nat.id by lia.
    unfold in_target, segment_byte, target, p_vaddr, p_memsz, p_filesz, p_offset.
    destruct (Z.ltb_spec x (alloc (le_load 4 (aget img) (ph + 8)) + le_load 4 (aget img) (ph + 16))) as [Hx|Hx].
    + replace (_ <=? x) with false at 1 by lia. cbn [andb].
      destruct (Z.leb_spec (alloc (le_load 4 (aget img) (ph + 8))) x) as [Hx'|Hx']; cbn [andb]; [|done].
      replace (x <? _) with true by lia. rewrite Hdata by lia. f_equal.
    + replace (_ <=? x) with true at 1 by lia. cbn [andb]. rewrite andb_false_r.
      replace (alloc (le_load 4 (aget img) (ph + 8)) <=? x) with true by lia. cbn [andb].
      match goal with |- context [?p + ?q + (?r - ?q)] => replace (p + q + (r - q)) with (p + r) by lia end. done.
Qed.

(** The memory and the break after the first [n] headers examined. *)
Definition is_load (ph : Z) : bool := p_type img ph =? PT_LOAD.
Fixpoint image (n : nat) (m : Z → Z) (x : Z) : Z :=
  match n with
  | O => m x
  | S n => let ph := header_at (Z.of_nat n) in
    if is_load ph && in_target ph x then segment_byte ph x else image n m x
  end.
Fixpoint brk_after (n : nat) (b : Z) : Z :=
  match n with
  | O => b
  | S n => let ph := header_at (Z.of_nat n) in if is_load ph then Z.max (brk_after n b) (segment_brk ph) else brk_after n b
  end.

(** Every header examined is in the part of the file read, and can be loaded. *)
Definition headers_ok (n : Z) : Prop := ∀ k, 0 <= k < n →
  header_at k + PHDR_SIZE <= 4096 ∧ (is_load (header_at k) = true → segment_ok (header_at k)).

Lemma header_nonneg k : is_bytes (aget img) → 0 <= k → 0 <= header_at k.
Proof using All.
  intros Hb Hk. unfold header_at, PHDR_SIZE, e_phoff. pose proof (word_range 28 img Hb).
  pose proof (Z.div_pos (k * (k + 1)) 2). nia.
Qed.

Lemma load_segments_run n s d m u b buf : on_disk d → is_bytes (aget img) → (∀ k, 0 <= k < 4096 → aget buf k = aget img k) →
  headers_ok (Z.of_nat n) → ∃ d' m' u',
    load_segments k_vm set_k_vm k_ide_read mm_malloc k_mem set_k_mem n 0 (e_phoff img) buf (loading s d m u b) =
      Ok tt (loading s d' m' u' (brk_after n b)) ∧ on_disk d' ∧ ∀ x, aget m' x = image n (aget m) x.
Proof using All.
  intros Hd Hb Hbuf Hh. pose proof (load_segments_triangular k_vm set_k_vm k_ide_read mm_malloc k_mem set_k_mem n 0 (e_phoff img) buf (loading s d m u b) ltac:(lia)) as E.
  change (PHDR_SIZE * (0 * (0 - 1) / 2)) with 0 in E. rewrite Z.add_0_r in E. rewrite E.
  destruct (for_ok (λ i s1, ∃ d' m' u', s1 = loading s d' m' u' (brk_after (Z.to_nat i) b) ∧ on_disk d' ∧
    ∀ x, aget m' x = image (Z.to_nat i) (aget m) x) n 0
    (λ k, load_segment k_vm set_k_vm k_ide_read mm_malloc k_mem set_k_mem buf (e_phoff img + PHDR_SIZE * (k * (k + 1) / 2))) (loading s d m u b))
    as (s' & Hrun & d' & m' & u' & -> & Hd' & Hm').
  - now exists d, m, u.
  - intros i s1 Hi (d1 & m1 & u1 & -> & Hd1 & Hm1). fold (header_at i). destruct (Hh i ltac:(lia)) as [Hin Hseg].
    pose proof (header_nonneg i Hb ltac:(lia)) as H0. replace (Z.to_nat (i + 1)) with (S (Z.to_nat i)) by lia. cbn [brk_after image].
    rewrite Z2Nat.id by lia. cbv zeta. destruct (is_load (header_at i)) eqn:Hl; cbn [andb].
    + destruct (load_segment_run s d1 m1 u1 (brk_after (Z.to_nat i) b) buf _ Hd1 Hbuf H0 Hin Hb (Hseg eq_refl) (proj1 (Z.eqb_eq _ _) Hl))
        as (d2 & m2 & u2 & Hr2 & Hd2 & Hm2).
      eexists. split; [exact Hr2|]. exists d2, m2, u2. split; [done|]. split; [exact Hd2|]. intros x. now rewrite Hm2, Hm1.
    + eexists. split; [|exists d1, m1, u1; split; [reflexivity|now split]]. unfold load_segment.
      unfold PHDR_SIZE in Hin |- *. replace (4096 <? _) with false by lia. unfold p_type in *. rewrite (same_word buf img) by (done || lia).
      unfold is_load, p_type in Hl. now rewrite Hl.
  - exists d', m', u'. split; [|split; [exact Hd'|]].
    + rewrite Hrun, Z.add_0_l, Nat2Z.id. reflexivity.
    + intros x. now rewrite Hm', Z.add_0_l, Nat2Z.id.
Qed.

Lemma image_ext n m m' x : m x = m' x → image n m x = image n m' x.
Proof using. induction n as [|n IH]; intros H; cbn [image]; [exact H|]. now rewrite IH. Qed.

Lemma image_video n m x : headers_ok (Z.of_nat n) → in_video x = true → image n m x = m x.
Proof using All.
  induction n as [|n IH]; intros Hh Hx; cbn [image]; [done|]. destruct (Hh (Z.of_nat n) ltac:(lia)) as [_ Hseg].
  rewrite IH by (done || (intros k Hk; apply Hh; lia)). destruct (is_load _); cbn [andb]; [|done].
  destruct (Hseg eq_refl) as [_ _ _ Hv]. unfold in_target, in_video in *. now replace (_ && _) with false by lia.
Qed.

(** ** The whole loader *)
Definition loaded_vm (v : Kvm) : Kvm := let v := create_video_mapping A v in set_crs (kcr0 v) (ucr3 v) v.

Lemma k_loader_run n s d m u b : on_disk d → is_bytes (aget img) → le_load 4 (aget img) 0 = elf_magic → Z.of_nat n = e_phnum img →
  headers_ok (Z.of_nat n) → grants (KOFFSET - STACK_SIZE) STACK_SIZE →
  ∃ d' m' u', k_loader A mm_malloc (loading s d m u b) =
      Ok (e_entry img) (set_k_vm (loaded_vm (k_vm (loading s d' m' u' (brk_after n b)))) (loading s d' m' u' (brk_after n b))) ∧
    on_disk d' ∧ ∀ x, aget m' x = image n (aget m) x.
Proof using All.
  intros Hd Hb Hmagic Hn Hh Hstack. unfold k_loader, loader.
  destruct (k_read_run s d m u b 0 4096 Hd) as (buf & d1 & Hr & Hd1 & Hbuf0); [lia|lia|lia|].
  assert (∀ k, 0 <= k < 4096 → aget buf k = aget img k) as Hbuf by (intros k Hk; now rewrite Hbuf0, Himg).
  unfold ELF_OFFSET_IN_DISK at 1. rewrite (bind_Ok _ _ _ _ _ Hr). rewrite (same_word buf img) by (done || lia).
  rewrite bind_cassert by (rewrite Hmagic; reflexivity). unfold e_phnum, e_phoff, e_entry in *. rewrite !(same_word buf img) by (done || lia).
  rewrite <- Hn, Nat2Z.id. destruct (load_segments_run n s d1 m u b buf Hd1 Hb Hbuf Hh) as (d' & m' & u1 & Hrun & Hd' & Hm').
  unfold e_phoff in Hrun. rewrite (bind_Ok _ _ _ _ _ Hrun).
  destruct (Hstack (loading s d' m' u1 (brk_after n b))) as [u' Hmm]. rewrite (bind_Ok _ _ _ _ _ Hmm), bind_modify, bind_gets.
  exists d', m', u'. split; [reflexivity|]. now split.
Qed.
End Loader.

(** * The parts before the loader *)
Section Parts.
Context `{HRand : !LibcRand, HJunk : !StackJunk}.
Context (wb_at intr_at : Z).

Lemma on_ports_run {B} (m : NEMU B) s a x : m (fst (k_dev s)) = Ok a x → on_ports m s = Ok a (set_k_dev (x, snd (k_dev s)) s).
Proof using. intros H. unfold on_ports, on_dev, zoom. now rewrite (on_machine_Ok _ _ _ _ H). Qed.

(** The buffers are empty. *)
Definition fresh (d : IdeDriver) : Prop := ∀ i, aget (sec_bufs d) i = sector_buf0.

Lemma buf_init_fresh m d : fresh d → ∃ d', buf_init snd drv_set (m, d) = Ok tt (m, d') ∧ fresh d'.
Proof using.
  intros Hd. destruct (for_ok (λ _ s, fst s = m ∧ fresh (snd s)) (Z.to_nat NR_SEC_BUF) 0
    (λ i, mod_buf snd drv_set i (set_used false)) (m, d)) as ([m' d'] & Hrun & Hm & Hd').
  - now split.
  - intros i [m1 d1] _ [Hm Hd1]. eexists. split; [reflexivity|]. split; [exact Hm|]. intros j. cbn. rewrite aget_aset, !Hd1. now destruct (_ =? _).
  - exists d'. cbn in Hm. subst m'. split; [exact Hrun|exact Hd'].
Qed.

Lemma k_init_ide_run s m d : k_dev s = (m, d) → fresh d → k_irqs s = irqs0 →
  ∃ d' q, k_init_ide wb_at intr_at s = Ok tt (set_k_irqs q (set_k_dev (m, d') s)) ∧ fresh d' ∧ registered q [(0, wb_at); (14, intr_at)].
Proof using.
  intros Hdev Hd Hq. destruct (buf_init_fresh m d Hd) as (d' & Hrun & Hd'). unfold k_init_ide, kernel_init_ide.
  assert (on_dev (buf_init snd drv_set) s = Ok tt (set_k_dev (m, d') s)) as E1 by (unfold on_dev, zoom; now rewrite Hdev, Hrun).
  rewrite (bind_Ok _ _ _ _ _ E1).
  destruct (add_registered k_irqs set_k_irqs irqs0 (set_k_dev (m, d') s) 0 wb_at []) as (q1 & Hr1 & Hq1);
    [exact Hq|split; [reflexivity|intros; cbn; now rewrite aget_anew]|unfold NR_HARD_INTR; lia|unfold NR_IRQ_HANDLE; cbn; lia|].
  rewrite (bind_Ok _ _ _ _ _ Hr1).
  destruct (add_registered k_irqs set_k_irqs q1 (set_k_irqs q1 (set_k_dev (m, d') s)) 14 intr_at [(0, wb_at)] eq_refl Hq1) as (q2 & Hr2 & Hq2);
    [unfold NR_HARD_INTR; lia|unfold NR_IRQ_HANDLE; cbn; lia|].
  exists d', q2. split; [exact Hr2|]. now split.
Qed.

Lemma init_page_keeps A fuel v v' : init_page A fuel v = Some v' → ucr3 v' = ucr3 v ∧ cur_brk v' = cur_brk v ∧ max_brk v' = max_brk v.
Proof using.
  unfold init_page. destruct (fill_pdes _ _ _ _). destruct (fill_ptes _ _ _ _); [|discriminate]. cbn. now intros [= <-].
Qed.
End Parts.

(** * From the first instruction to the user program *)
Section Boot.
Context `{HRand : !LibcRand, HJunk : !StackJunk}.
Context (A : KAddrs) (E : Entries) (gdt_at idt_at wb_at intr_at start_gdt_at : Z).
Context (hello : list Z) (mm_malloc : Z → Z → M Kernel Z) (alloc : Z → Z).
Context (nsec sz : Z) (Hnsec : nsec <= 2 ^ 23) (Hsz : SECT * nsec <= sz) (H4096 : 4096 <= SECT * nsec).
Context (f : Z → Z) (out : list Z) (img : arr Z) (Himg : ∀ i, 0 <= i < 4096 → aget img i = f i).

Lemma fresh_flat_disk o m d : fresh d → dev_ready f sz o m →
  flat_disk (nsec := nsec) (drv := snd) (DInv := seen_disk sz o) f (m, d).
Proof using.
  intros Hd [Hm _ Ho]. exists f. split; [split; [exact Hm|exact Ho]|]. split.
  - intros i _. cbn [snd]. rewrite Hd. now split.
  - intros x _. unfold shown. cbn [snd]. now rewrite Hd.
Qed.


Abbreviation seg_image := (image alloc f img).
Abbreviation brk_of := (brk_after img).

(** At power-on the static variables are as the linker leaves them. *)
Record powered_on (s : Kernel) : Prop := {
  po_dev : dev_ready f sz out (fst (k_dev s));
  po_drv : fresh (snd (k_dev s));
  po_irqs : k_irqs s = irqs0;
  po_brk : cur_brk (k_vm s) = 0 ∧ max_brk (k_vm s) = 0
}.

(** The disk starts with an executable of [n] program headers. *)
Record executable (n : nat) : Prop := {
  ex_bytes : is_bytes (aget img);
  ex_magic : le_load 4 (aget img) 0 = elf_magic;
  ex_phnum : Z.of_nat n = e_phnum img;
  ex_headers : headers_ok mm_malloc alloc nsec img (Z.of_nat n);
  ex_stack : grants mm_malloc alloc (KOFFSET - STACK_SIZE) STACK_SIZE
}.

(** What the user program finds. *)
Record user_starts (n : nat) (s s' : Kernel) : Prop := {
  us_mem : ∀ x, aget (k_mem s') x = if in_video x then 0 else seg_image n (aget (k_mem s)) x;
  us_disk : flat_disk (nsec := nsec) (drv := snd) (DInv := seen_disk sz (rev hello ++ 1 :: out)) f (k_dev s');
  us_irqs : registered (k_irqs s') [(0, wb_at); (14, intr_at)];
  us_gdt : k_gdt s' = init_segment (k_gdt s);
  us_idt : k_idt s' = init_idt E (k_idt s);
  us_cpu : k_cpu s' = mkKCpu (23, u32 gdt_at) (2047, u32 idt_at) true (KOFFSET - 16) 0 8 16 16 16;
  us_kernel : kernel_tables A (k_vm s');
  us_cr0 : kcr0 (k_vm s') = set_bitfield (Z.lor (kcr0 (k_vm s)) 1) 31 1 1;
  us_cr3 : kcr3 (k_vm s') = Z.land (va_to_pa (updir_at A)) (Z.lnot 0xfff);
  us_video : aget (updir (k_vm s')) 0 = make_pde (va_to_pa (table_at A)) ∧
    ∀ j, 0 <= j < 1024 → aget (table (k_vm s')) j = if (160 <=? j) && (j <? 176) then 4096 * j + 7 else 0;
  us_brk : cur_brk (k_vm s') = brk_of n 0 ∧ max_brk (k_vm s') = brk_of n 0
}.

Lemma eta_vm v : cur_brk v = 0 → max_brk v = 0 → set_brks 0 0 (set_updir (updir v) (ucr3 v) v) = v.
Proof using. destruct v. cbn. now intros -> ->. Qed.

(** The descriptor tables, the devices and the interrupt handlers: up to [sti]. *)
Lemma devices_up n s : powered_on s → executable n → ∃ d' q',
  (_ ← k_init_segment gdt_at; _ ← k_init_idt E idt_at; _ ← on_ports init_i8259; _ ← on_ports kernel_init_serial;
   _ ← k_init_ide wb_at intr_at; k_sti) s =
    Ok tt (mkKernel d' q' (k_vm s) (k_mem s) (init_segment (k_gdt s)) (init_idt E (k_idt s))
      (set_kc_IF true (set_kc_idtr (2047, u32 idt_at) (set_kc_gdtr (23, u32 gdt_at) (k_cpu s))))) ∧
    dev_ready f sz (1 :: out) (fst d') ∧ fresh (snd d') ∧ registered q' [(0, wb_at); (14, intr_at)].
Proof using All.
  intros [Hdev Hdrv Hq _] _. destruct s as [[m d] q v mem g i c]. cbn [k_dev k_irqs fst snd] in *.
  unfold k_init_segment, k_init_idt, write_gdtr, write_idtr, mod_k_cpu, k_sti. do 2 rewrite !bind_bind, !bind_modify.
  set (s1 := set_k_cpu _ _).
  destruct (init_i8259_run f sz out m Hdev) as (m1 & H1 & D1).
  rewrite (bind_Ok _ _ _ _ _ (on_ports_run init_i8259 s1 tt m1 H1)).
  destruct (init_serial_run f sz out m1 D1) as (m2 & H2 & D2).
  match goal with |- context [(on_ports kernel_init_serial ≫= _) ?s2] => rewrite (bind_Ok _ _ _ _ _ (on_ports_run kernel_init_serial s2 tt m2 H2)) end.
  match goal with |- context [(k_init_ide _ _ ≫= _) ?s2] =>
    destruct (k_init_ide_run wb_at intr_at s2 m2 d eq_refl Hdrv Hq) as (d' & q' & H3 & Hd' & Hq') end.
  rewrite (bind_Ok _ _ _ _ _ H3). exists (m2, d'), q'. split; [reflexivity|]. now split.
Qed.

Lemma as_loading s : cur_brk (k_vm s) = 0 → max_brk (k_vm s) = 0 → s = loading s (k_dev s) (k_mem s) (updir (k_vm s)) 0.
Proof using. intros Hc Hm. destruct s as [d q v m g i c]. unfold loading. cbn [k_vm k_irqs k_gdt k_idt k_cpu k_mem k_dev] in *. now rewrite eta_vm. Qed.

(** [init_cond]'s second half, from the state the devices are up in. *)
Definition after_devices (fuel : nat) : M Kernel Z :=
  _ ← mod_k_vm (init_mm A);
  _ ← on_ports (printk fuel hello);
  _ ← modify (λ s, set_k_mem (video_mapping_write_test (k_mem s)) s);
  eip ← k_loader A mm_malloc;
  m ← gets k_mem;
  _ ← cassert (video_mapping_read_test m);
  _ ← modify (λ s, set_k_mem (video_mapping_clear (k_mem s)) s);
  _ ← mod_k_cpu (λ c, set_kc_stack KOFFSET (kc_ebp c) c);
  _ ← mod_k_cpu (λ c, set_kc_stack (kc_esp c) 0 c);
  _ ← mod_k_cpu (λ c, set_kc_stack (kc_esp c - 16) (kc_ebp c) c);
  mret eip.

Lemma after_devices_run n fuel s : dev_ready f sz (1 :: out) (fst (k_dev s)) → fresh (snd (k_dev s)) →
  cur_brk (k_vm s) = 0 ∧ max_brk (k_vm s) = 0 →
  Forall (λ c, 0 <= c < 256) hello → Z.of_nat (length hello) < PRINTK_BUF → executable n →
  ∃ d' m' u', let v' := loaded_vm A (set_brks (brk_of n 0) (brk_of n 0) (set_updir u' (ucr3 (init_mm A (k_vm s))) (init_mm A (k_vm s)))) in
    after_devices (S fuel) s = Ok (e_entry img) (mkKernel d' (k_irqs s) v' m' (k_gdt s) (k_idt s)
      (set_kc_stack (KOFFSET - 16) 0 (k_cpu s))) ∧
    flat_disk (nsec := nsec) (drv := snd) (DInv := seen_disk sz (rev hello ++ 1 :: out)) f d' ∧
    ∀ x, aget m' x = if in_video x then 0 else seg_image n (aget (k_mem s)) x.
Proof using All.
  intros Hdev Hdrv [Hb0 Hb1] Hhello Hlen [Himgb Hmagic Hnum Hheaders Hstack]. unfold after_devices, mod_k_vm. rewrite bind_modify.
  destruct (printk_ready f sz _ fuel hello (fst (k_dev s)) Hdev Hhello Hlen) as (m1 & H1 & D1).
  rewrite (bind_Ok _ _ _ _ _ (on_ports_run (printk (S fuel) hello) (set_k_vm _ s) tt m1 H1)), bind_modify.
  set (s1 := set_k_mem _ _). rewrite (as_loading s1) by assumption.
  pose proof (fresh_flat_disk _ m1 (snd (k_dev s)) Hdrv D1) as Hflat.
  pose proof (at_file _ _ _ (proj1 (dr_disk _ _ _ _ D1))) as Hf.
  destruct (k_loader_run A mm_malloc alloc nsec sz Hnsec Hsz H4096 f Hf _ img Himg n s1 _
    (k_mem s1) (updir (k_vm s1)) 0 Hflat Himgb Hmagic Hnum Hheaders Hstack) as (d' & m' & u' & Hrun & Hd' & Hm').
  rewrite (bind_Ok _ _ _ _ _ Hrun), bind_gets. cbn [k_mem set_k_vm loading].
  assert (∀ x, in_video x = true → aget m' x = test_byte x) as Htest.
  { intros x Hx. rewrite Hm'; erewrite (image_video A mm_malloc alloc nsec sz) by eassumption. cbn [k_mem s1 set_k_mem].
    rewrite video_write_test_at, Hx. reflexivity. }
  rewrite bind_cassert by (now apply video_read_test_true). rewrite !bind_modify. unfold mod_k_cpu. rewrite !bind_modify.
  exists d', (video_mapping_clear m'), u'. cbv zeta. split; [reflexivity|]. split; [exact Hd'|].
  intros x. rewrite video_clear_at. destruct (in_video x) eqn:Hx; [done|]. rewrite Hm'. apply image_ext. cbn [k_mem s1 set_k_mem].
  now rewrite video_write_test_at, Hx.
Qed.

Lemma init_cond_split fuel s : init_cond A E gdt_at idt_at wb_at intr_at hello mm_malloc fuel s =
  ((_ ← k_init_segment gdt_at; _ ← k_init_idt E idt_at; _ ← on_ports init_i8259; _ ← on_ports kernel_init_serial;
    _ ← k_init_ide wb_at intr_at; k_sti) ≫= λ _, after_devices fuel) s.
Proof using.
  unfold init_cond, after_devices, mbind, M_bind. destruct (k_init_segment gdt_at s) as [[] s1| |]; [|done..].
  destruct (k_init_idt E idt_at s1) as [[] s2| |]; [|done..]. destruct (on_ports init_i8259 s2) as [[] s3| |]; [|done..].
  destruct (on_ports kernel_init_serial s3) as [[] s4| |]; [|done..]. destruct (k_init_ide wb_at intr_at s4) as [[] s5| |]; [|done..].
  destruct (k_sti s5) as [[] s6| |]; reflexivity.
Qed.

(** C3: The kernel starts the user program: from power-on, with the devices attached, the
    static variables zero and an executable at the start of the disk, [start] and [init]
    reach the call of its entry point.  Memory then holds the segments of the program
    headers examined, each the bytes of the file followed by zeros, and zeros in video
    memory, whose test passed; nothing else of memory has changed.  The disk is unchanged
    and readable through the buffers; the host has seen the byte 1 and the message; the two
    handlers of the disk are registered, GDT, IDT and their registers set, interrupts
    enabled, the kernel's page tables built and paging on, video memory mapped in the user's directory,
    which CR3 holds, and the break at the end of the highest segment. *)
Theorem boot_runs_program n fuel s : kaddrs_ok A → 32768 <= Z.of_nat fuel →
  Forall (λ c, 0 <= c < 256) hello → Z.of_nat (length hello) < PRINTK_BUF → powered_on s → executable n →
  ∃ s', boot A E gdt_at idt_at wb_at intr_at hello mm_malloc start_gdt_at fuel s = Ok (e_entry img) s' ∧ user_starts n s s'.
Proof using All.
  intros HA Hfuel Hhello Hlen [Hdev Hdrv Hq [Hb0 Hb1]] Hex. unfold boot.
  rewrite (bind_Ok (start start_gdt_at) _ s tt _ eq_refl). set (s0 := set_k_cpu (set_kc_stack _ _ _) _).
  unfold kernel_init. rewrite bind_getS.
  destruct (init_page_run A fuel (k_vm s0) HA Hfuel) as (v & Hpage & Hkt & _ & Hcr0 & _). destruct (init_page_keeps A fuel _ _ Hpage) as (_ & Hc & Hm).
  rewrite Hpage, bind_modify. unfold mod_k_cpu. rewrite bind_modify, init_cond_split. set (s1 := set_k_cpu _ _).
  assert (powered_on s1) as Hs1 by (split; [exact Hdev|exact Hdrv|exact Hq|split; [exact (eq_trans Hc Hb0)|exact (eq_trans Hm Hb1)]]).
  destruct (devices_up n s1 Hs1 Hex) as (d' & q' & Hup & Hdev' & Hdrv' & Hreg). rewrite (bind_Ok _ _ _ _ _ Hup).
  destruct fuel as [|fuel]; [lia|].
  match goal with |- context [after_devices _ ?s2] =>
    destruct (after_devices_run n fuel s2 Hdev' Hdrv' (po_brk _ Hs1) Hhello Hlen Hex) as (d2 & m2 & u2 & Hrun & Hflat & Hmem) end.
  eexists. split; [exact Hrun|]. cbn [k_vm k_irqs k_gdt k_idt k_cpu k_mem k_dev] in *. split; cbn [k_vm k_irqs k_gdt k_idt k_cpu k_mem k_dev].
  - exact Hmem.
  - exact Hflat.
  - exact Hreg.
  - reflexivity.
  - reflexivity.
  - reflexivity.
  - destruct Hkt as [Hpd Hpt]. split; [exact Hpd|exact Hpt].
  - exact Hcr0.
  - reflexivity.
  - split; [exact (aget_aset_eq _ _ _)|]. intros j Hj. exact (user_table A v j Hj).
  - split; reflexivity.
Qed.
End Boot.

(** The descriptors [init_segment] makes are those [start.S] started with. *)
Lemma start_gdt_same gdt i : 0 <= i < NR_SEGMENTS → aget (init_segment gdt) i = le_load 8 (λ x, nth (Z.to_nat x) start_gdt 0) (8 * i).
Proof.
  unfold NR_SEGMENTS. intros Hi. unfold init_segment. change (Z.to_nat NR_SEGMENTS) with 3%nat.
  unfold SEG_KERNEL_DATA, SEG_KERNEL_CODE. assert (i = 0 ∨ i = 1 ∨ i = 2) as [->|[->| ->]] by lia;
    rewrite !aget_aset, !aget_memset; cbn [Z.eqb]; vm_compute; reflexivity.
Qed.

(** * Witness *)
#[local] Existing Instance IsoRand.
#[local] Existing Instance ZeroJunk.

(** A disk of eight sectors with an executable of two headers: one segment of four bytes
    at 0x800000, eight long in memory. *)
Definition word4 (v : Z) : list Z := map (byte_of v) [0; 1; 2; 3].
Definition exe_bytes : list Z :=
  [0x7f; 0x45; 0x4c; 0x46] ++ replicate 20 0 ++ word4 0x800000 ++ word4 52 ++ replicate 12 0 ++ [2; 0] ++ replicate 6 0 ++
  (* the header at 52 *)
  word4 1 ++ word4 0x100 ++ word4 0x800000 ++ word4 0 ++ word4 4 ++ word4 8 ++ replicate 8 0 ++
  replicate 172 0 ++ [0xde; 0xad; 0xbe; 0xef].
Fixpoint arr_from (i : Z) (l : list Z) : arr Z :=
  match l with [] => anew 0 | b :: l => aset i b (arr_from (i + 1) l) end.
Lemma arr_from_bytes i l : Forall (λ b, 0 <= b < 256) l → is_bytes (aget (arr_from i l)).
Proof.
  intros Hl. revert i; induction Hl as [|b l Hb _ IH]; intros i j; cbn [arr_from]; [rewrite aget_anew; lia|].
  rewrite aget_aset. destruct (_ =? _); [done|apply IH].
Qed.

Definition exe_disk : File := mkFile (arr_from 0 exe_bytes) 4096 0 false.
Definition exe_machine : Machine :=
  match init_device (Some exe_disk) (demo_machine cpu0 dram0) with Ok _ s => s | _ => demo_machine cpu0 dram0 end.

Lemma exe_disk_bytes : is_bytes (aget (f_data exe_disk)).
Proof. apply arr_from_bytes. unfold exe_bytes. repeat (apply Forall_app; split); vm_compute; repeat constructor; congruence. Qed.

Lemma exe_ready : dev_ready (aget (f_data exe_disk)) 4096 [] exe_machine.
Proof.
  assert (disk_idle (aget (f_data exe_disk)) 4096 exe_machine) as Hd.
  { destruct (init_device_idle exe_disk (demo_machine cpu0 dram0)) as (s' & Hrun & Hs');
      [done|done|apply pic0_ok|cbn; lia|exact exe_disk_bytes|]. unfold exe_machine. now rewrite Hrun. }
  split; [exact Hd| |vm_compute; reflexivity]. split; [vm_compute; reflexivity|apply Hd|vm_compute; reflexivity].
Qed.

(** Memory is full of 0x55; the allocator gives every page at its own address. *)
Definition exe_kernel : Kernel :=
  mkKernel (exe_machine, ide_driver0) irqs0 kvm0 (anew 0x55) (anew 0) (anew 0) (mkKCpu (0, 0) (0, 0) false 0 0 0 0 0 0).
Definition exe_malloc (va len : Z) : M Kernel Z := mret va.
Definition exe_entries : Entries := mkEntries (λ n, 0x101000 + n) 0x102000 0x102010 0x102020 0x102030 0x102040.

Lemma exe_grants va len : grants exe_malloc id va len.
Proof. intros s. exists (updir (k_vm s)). unfold exe_malloc. destruct s as [d q [] m g i c]. reflexivity. Qed.

Lemma exe_program : executable exe_malloc id 8 (f_data exe_disk) 2.
Proof.
  split; [exact exe_disk_bytes|vm_compute; reflexivity|vm_compute; reflexivity| |apply exe_grants].
  intros k Hk. assert (k = 0 ∨ k = 1) as [->| ->] by lia.
  - split; [vm_compute; congruence|]. intros _. split; [vm_compute; congruence|vm_compute; congruence|apply exe_grants|right; vm_compute; congruence].
  - split; [vm_compute; congruence|]. intros H. exfalso. revert H. vm_compute. discriminate.
Qed.

Lemma boot_runs_program_witness : ∃ s',
  boot demo_addrs exe_entries 0xc0110000 0xc0111000 0xc0103000 0xc0104000 [72; 105] exe_malloc 0x100100 (Z.to_nat 32768) exe_kernel = Ok 0x800000 s' ∧
  map (aget (k_mem s')) [0x7fffff; 0x800000; 0x800003; 0x800004; 0x800007; 0x800008; 0xa0000] = [0x55; 0xde; 0xef; 0; 0; 0x55; 0].
Proof.
  destruct (boot_runs_program demo_addrs exe_entries 0xc0110000 0xc0111000 0xc0103000 0xc0104000 0x100100 [72; 105] exe_malloc id 8 4096
    ltac:(lia) ltac:(unfold SECT; lia) ltac:(unfold SECT; lia) (aget (f_data exe_disk)) [] (f_data exe_disk) (λ i _, eq_refl)
    2 (Z.to_nat 32768) exe_kernel demo_addrs_ok ltac:(lia)) as (s' & Hrun & Hs').
  - repeat constructor; lia.
  - cbn. unfold PRINTK_BUF. lia.
  - split; [exact exe_ready|intros i; apply aget_anew|reflexivity|split; reflexivity].
  - exact exe_program.
  - exists s'. split; [exact Hrun|]. cbn [map]. rewrite !(us_mem _ _ _ _ _ _ _ _ _ _ _ _ _ _ _ _ Hs'). vm_compute. reflexivity.
Defined.
