(* ===== verification/Float.v ===== *)
(** The fixed-point numbers of the guest programs: [lib-common/FLOAT.h],
    [lib-common/FLOAT/FLOAT.c] and the formatting of [FLOAT_vfprintf.c].

    A [FLOAT] is an [int]; it stands for its value divided by 2^16.  Arithmetic wraps at 32
    bits as the compiled guest code does; a division by zero and a shift by 32 bits or more
    have no result ([None]). *)
From S2P Require Import Prelude.
From stdpp Require Import strings.
#[local] Open Scope Z_scope.

(** * FLOAT.h *)
Definition F2int (a : Z) : Z := Z.shiftr (s32 (Z.land (u32 a) 0xffff0000)) 16.
Definition int2F (a : Z) : Z := s32 (Z.shiftl a 16).
Definition F_mul_int (a b : Z) : Z := s32 (a * b).
Definition F_div_int (a b : Z) : option Z := if b =? 0 then None else Some (s32 (Z.quot a b)).

(** * FLOAT.c *)
Definition F_mul_F (a b : Z) : Z :=
  let c := s64 (a * b) in
  s32 (Z.shiftr c 16).

(** [for (i = 0; i < 16; i ++)]: one binary digit of the quotient per round. *)
Fixpoint div_loop (n : nat) (a res b : Z) : Z :=
  match n with
  | O => res
  | S n =>
    let a := s32 (Z.shiftl a 1) in
    let res := s32 (Z.shiftl res 1) in
    if b <=? a then div_loop n (s32 (a - b)) (s32 (res + 1)) b else div_loop n a res b
  end.

Definition F_div_F (a b : Z) : option Z :=
  let sign := 1 in
  let '(sign, a) := if a <? 0 then (- sign, s32 (- a)) else (sign, a) in
  let '(sign, b) := if b <? 0 then (- sign, s32 (- b)) else (sign, b) in
  if b =? 0 then None else
  let res := s32 (Z.quot a b) in
  let a := Z.rem a b in
  Some (s32 (div_loop 16 a res b * sign)).

(** The bits of the [float] argument. *)
Definition f2F (bits : Z) : option Z :=
  let b := s32 bits in
  let sign := Z.shiftr b 31 in
  let exp := Z.land (Z.shiftr b 23) 0xff in
  let k := Z.land b 0x7fffff in
  let k := if negb (exp =? 0) then k + Z.shiftl 1 23 else k in
  let exp := exp - 150 in
  if exp <? -16 then
    if 32 <=? -16 - exp then None else
    let k := Z.shiftr k (-16 - exp) in
    Some (if sign =? 0 then k else s32 (- k))
  else
    if -16 <? exp then
      if 32 <=? exp + 16 then None else
      let k := s32 (Z.shiftl k (exp + 16)) in
      Some (if sign =? 0 then k else s32 (- k))
    else Some (if sign =? 0 then k else s32 (- k)).

Definition Fabs (a : Z) : Z := if a <? 0 then s32 (- a) else a.

(** [f2F(1e-4)]: the bits of the [float] nearest to 0.0001. *)
Definition f2F_1e_4 : option Z := f2F 0x38d1b717.

(** [do ... while(Fabs(dt) > f2F(1e-4))], with fuel. *)
Fixpoint newton (fuel : nat) (step : Z → option Z) (t : Z) : option Z :=
  match fuel with
  | O => None
  | S fuel =>
    dt ← step t;
    let t := s32 (t + dt) in
    eps ← f2F_1e_4;
    if eps <? Fabs dt then newton fuel step t else Some t
  end.

Definition sqrt_step (x t : Z) : option Z :=
  q ← F_div_F x t;
  F_div_int (s32 (q - t)) 2.
Definition sqrt (fuel : nat) (x : Z) : option Z := newton fuel (sqrt_step x) (int2F 2).

Definition pow_step (x t : Z) : option Z :=
  let t2 := F_mul_F t t in
  q ← F_div_F x t2;
  F_div_int (s32 (q - t)) 3.
Definition pow (fuel : nat) (x y : Z) : option Z := newton fuel (pow_step x) (int2F 2).

(** * format_FLOAT: [sprintf(buf, "%hu.%06llu", ...)] *)
Definition digit (d : Z) : string :=
  String (Ascii.ascii_of_N (Z.to_N (48 + d))) EmptyString.

(** [n] decimal digits of [x], and the digits of [x < 10 ^ n] without leading zeros. *)
Fixpoint digits (n : nat) (x : Z) : string :=
  match n with
  | O => EmptyString
  | S n => (digits n (x / 10) +:+ digit (x mod 10))%string
  end.
Fixpoint dec (n : nat) (x : Z) : string :=
  match n with
  | O => EmptyString
  | S n => if x <? 10 then digit x else (dec n (x / 10) +:+ digit (x mod 10))%string
  end.

Definition format_FLOAT (f : Z) : string :=
  let sign := s32 (Z.land (u32 f) 0x80000000) in
  let f := if sign =? 1 then s32 (Z.lnot f + 1) else f in
  let round := u16 (Z.shiftr f 16) in
  let decimal := Z.land (u32 f) 0x0000ffff in
  let decimal := Z.quot (decimal * 1000000) 65536 in
  if sign =? 0 then (dec 5 round +:+ "." +:+ digits 6 decimal)%string
  else ("-" +:+ dec 5 round +:+ "." +:+ digits 6 decimal)%string.
