(* ===== verification/FloatSpec.v ===== *)
(** The fixed-point functions compute what real arithmetic says, rounded, as far as their
    32-bit intermediate values reach. *)
From S2P Require Import Prelude Float.
From stdpp Require Import strings.
#[local] Open Scope Z_scope.

(** * Division *)
Lemma shiftl_1 x : Z.shiftl x 1 = 2 * x.
Proof. rewrite Z.shiftl_mul_pow2 by lia. lia. Qed.

Lemma div_sub_mult x b m : 0 < b → (x - b * m) / b = x / b - m.
Proof. intros. replace (x - b * m) with (x + - m * b) by lia. rewrite Z.div_add; lia. Qed.

Lemma div_loop_eq n a res b : 0 <= a < b → b <= 2 ^ 30 →
  s32 (div_loop n a res b) = s32 (res * 2 ^ Z.of_nat n + a * 2 ^ Z.of_nat n / b).
Proof.
  intros Ha Hb. revert a res Ha. induction n as [|n IH]; intros a res Ha; cbn [div_loop].
  { rewrite !Z.mul_1_r, Z.div_small by lia. f_equal. lia. }
  rewrite !shiftl_1, (sgn_small 32 (2 * a)) by lia. rewrite Nat2Z.inj_succ, Z.pow_succ_r by lia.
  destruct (Z.leb_spec b (2 * a)).
  - rewrite (sgn_small 32 (2 * a - b)) by lia. rewrite IH by lia.
    destruct (sgn_witness 32 (2 * res)) as (k & Ek); [lia|].
    destruct (sgn_witness 32 (s32 (2 * res) + 1)) as (l & El); [lia|].
    rewrite El, Ek. rewrite <- (sgn_plus_mult 32 (res * _ + _) ((k + l) * 2 ^ Z.of_nat n)). f_equal.
    replace ((2 * a - b) * 2 ^ Z.of_nat n) with (a * (2 * 2 ^ Z.of_nat n) - b * 2 ^ Z.of_nat n) by ring.
    rewrite div_sub_mult by lia. ring.
  - rewrite IH by lia. destruct (sgn_witness 32 (2 * res)) as (k & Ek); [lia|]. rewrite Ek.
    rewrite <- (sgn_plus_mult 32 (res * _ + _) (k * 2 ^ Z.of_nat n)). f_equal.
    replace (2 * a * 2 ^ Z.of_nat n) with (a * (2 * 2 ^ Z.of_nat n)) by ring. ring.
Qed.

(** Long division of the magnitudes. *)
Lemma F_div_pos a b : 0 <= a < 2 ^ 31 → 0 < b <= 2 ^ 30 →
  s32 (div_loop 16 (Z.rem a b) (s32 (Z.quot a b)) b) = s32 (a * 2 ^ 16 / b).
Proof.
  intros Ha Hb. rewrite Z.quot_div_nonneg, Z.rem_mod_nonneg by lia.
  rewrite div_loop_eq by (first [apply Z.mod_pos_bound|idtac]; lia). change (Z.of_nat 16) with 16.
  assert (0 <= a / b <= a) as Hq.
  { split; [apply Z.div_pos; lia|]. apply Z.div_le_upper_bound; nia. }
  rewrite (sgn_small 32 (a / b)) by lia. f_equal.
  assert (a * 2 ^ 16 = a / b * 2 ^ 16 * b + a mod b * 2 ^ 16) as ->.
  { rewrite (Z.div_mod a b) at 1 by lia. ring. }
  rewrite Z.div_add_l; lia.
Qed.

Lemma sgn_mul_cong w x y s : 0 <= w → sgn w x = sgn w y → sgn w (x * s) = sgn w (y * s).
Proof.
  intros Hw E. destruct (sgn_witness w x Hw) as (k & Ek). destruct (sgn_witness w y Hw) as (l & El).
  replace (x * s) with (y * s + ((l - k) * s) * 2 ^ w) by (rewrite E in Ek; nia). apply sgn_plus_mult.
Qed.

Lemma F_div_F_quot a b : - 2 ^ 31 < a < 2 ^ 31 → b ≠ 0 → - 2 ^ 30 <= b <= 2 ^ 30 →
  F_div_F a b = Some (s32 (Z.quot (a * 2 ^ 16) b)).
Proof.
  intros Ha Hb0 Hb. unfold F_div_F.
  destruct (Z.ltb_spec a 0), (Z.ltb_spec b 0); cbv zeta beta;
    rewrite ?(sgn_small 32 (- a)), ?(sgn_small 32 (- b)) by lia;
    match goal with |- context [?c =? 0] => replace (c =? 0) with false by lia end; f_equal;
    match goal with |- context [div_loop 16 (Z.rem ?x ?y) _ _] =>
      rewrite (sgn_mul_cong 32 _ _ _ ltac:(lia) (F_div_pos x y ltac:(lia) ltac:(lia))) end; f_equal.
  - replace (a * 2 ^ 16) with (- (- a * 2 ^ 16)) by ring. replace (Z.quot _ b) with (Z.quot (- (- a * 2 ^ 16)) (- - b)).
    + rewrite Z.quot_opp_opp, Z.quot_div_nonneg by lia. ring.
    + f_equal. lia.
  - replace (a * 2 ^ 16) with (- (- a * 2 ^ 16)) by ring. rewrite Z.quot_opp_l, Z.quot_div_nonneg by lia. ring.
  - replace (Z.quot _ b) with (Z.quot (a * 2 ^ 16) (- - b)) by (f_equal; lia).
    rewrite Z.quot_opp_r, Z.quot_div_nonneg by lia. ring.
  - rewrite Z.quot_div_nonneg by lia. ring.
Qed.

(** C22: [F_div_F] divides fixed-point numbers exactly, truncating towards zero, for every
    dividend but the least [int], -2^31 (its negation overflows, which C leaves undefined),
    and every divisor other than zero of at most 2^14 in magnitude (2^30 as an [int]); the
    quotient is reduced to 32 bits, so that where the true quotient fits an [int] the result
    is that quotient. *)
Theorem F_div_F_exact a b : - 2 ^ 31 < a < 2 ^ 31 → b ≠ 0 → - 2 ^ 30 <= b <= 2 ^ 30 →
  F_div_F a b = Some (s32 (Z.quot (a * 2 ^ 16) b)) ∧
  (- 2 ^ 31 <= Z.quot (a * 2 ^ 16) b < 2 ^ 31 → F_div_F a b = Some (Z.quot (a * 2 ^ 16) b)).
Proof.
  intros Ha Hb0 Hb. rewrite F_div_F_quot by done. split; [done|]. intros Hq. now rewrite sgn_small by lia.
Qed.

(** At the least [int] the wrapped negation leaves the dividend negative, and the sign is
    counted twice: 2^30 divides -2^31 to 2^17 where the quotient is -2^17. *)
Lemma F_div_F_least : F_div_F (- 2 ^ 31) (2 ^ 30) = Some (2 ^ 17) ∧ Z.quot (- 2 ^ 31 * 2 ^ 16) (2 ^ 30) = - 2 ^ 17.
Proof. split; reflexivity. Qed.

(** Beyond a divisor of 2^30 the doubled remainder overflows: this quotient is nearly 1, and is 0. *)
Lemma F_div_F_large : F_div_F (2 ^ 31 - 2) (2 ^ 31 - 1) = Some 0.
Proof. reflexivity. Qed.

(** * Conversion *)

(** The fields of a [float]: sign, biased exponent, and significand with its hidden bit. *)
Definition fl_sign (bits : Z) : Z := if bits <? 2 ^ 31 then 1 else -1.
Definition fl_exp (bits : Z) : Z := bits / 2 ^ 23 mod 2 ^ 8.
Definition fl_sig (bits : Z) : Z := bits mod 2 ^ 23 + if fl_exp bits =? 0 then 0 else 2 ^ 23.

Lemma f2F_fields bits : 0 <= bits < 2 ^ 32 →
  Z.shiftr (s32 bits) 31 = (if bits <? 2 ^ 31 then 0 else -1) ∧
  Z.land (Z.shiftr (s32 bits) 23) 0xff = fl_exp bits ∧ Z.land (s32 bits) 0x7fffff = bits mod 2 ^ 23.
Proof.
  intros Hb. assert (s32 bits = bits - if bits <? 2 ^ 31 then 0 else 2 ^ 32) as E.
  { unfold sgn. rewrite Z.mod_small by lia. change (32 - 1) with 31. case_match; lia. }
  change 0xff with (2 ^ 8 - 1). change 0x7fffff with (2 ^ 23 - 1).
  rewrite !land_ones_mod, !Z.shiftr_div_pow2 by lia. unfold fl_exp. rewrite E.
  destruct (bits <? 2 ^ 31) eqn:Hs; split_and!; lia.
Qed.

Lemma scale_low k e : 0 <= k → 103 <= e <= 134 → k * 2 ^ e / 2 ^ 134 = Z.shiftr k (134 - e).
Proof.
  intros Hk He. rewrite Z.shiftr_div_pow2 by lia.
  replace (2 ^ 134) with (2 ^ (134 - e) * 2 ^ e) by (rewrite <- Z.pow_add_r by lia; f_equal; lia).
  now rewrite Z.div_mul_cancel_r by lia.
Qed.

Lemma scale_high k e : 134 <= e → k * 2 ^ e / 2 ^ 134 = Z.shiftl k (e - 134).
Proof.
  intros He. rewrite Z.shiftl_mul_pow2 by lia.
  replace (2 ^ e) with (2 ^ (e - 134) * 2 ^ 134) by (rewrite <- Z.pow_add_r by lia; f_equal; lia).
  now rewrite Z.mul_assoc, Z.div_mul by lia.
Qed.

(** The magnitude [f2F] computes, for either sign. *)
Lemma f2F_magnitude (neg : bool) k e : 0 <= k < 2 ^ 24 → 103 <= e <= 141 →
  let v := k * 2 ^ e / 2 ^ 134 in let r x := if neg then s32 (- x) else x in
  (if e - 150 <? -16 then
     if 32 <=? -16 - (e - 150) then None else Some (r (Z.shiftr k (-16 - (e - 150))))
   else if -16 <? e - 150 then
     if 32 <=? e - 150 + 16 then None else Some (r (s32 (Z.shiftl k (e - 150 + 16))))
   else Some (r k)) = Some (if neg then - v else v).
Proof.
  intros Hk He v r. unfold v. destruct (Z.ltb_spec (e - 150) (-16)).
  - replace (32 <=? -16 - (e - 150)) with false by lia. rewrite scale_low by lia.
    replace (-16 - (e - 150)) with (134 - e) by lia. unfold r. f_equal. destruct neg; [|done].
    apply sgn_small; [lia|]. rewrite Z.shiftr_div_pow2 by lia. pose proof (Z.pow_pos_nonneg 2 (134 - e)).
    pose proof (Z.div_pos k (2 ^ (134 - e))). pose proof (Z.div_le_upper_bound k (2 ^ (134 - e)) k). nia.
  - rewrite scale_high by lia. replace (e - 150 + 16) with (e - 134) by lia.
    assert (0 <= Z.shiftl k (e - 134) < 2 ^ 31) as Hs.
    { rewrite Z.shiftl_mul_pow2 by lia. pose proof (Z.pow_le_mono_r 2 (e - 134) 7). 
      pose proof (Z.pow_pos_nonneg 2 (e - 134)). change (2 ^ 7) with 128 in *. nia. }
    destruct (Z.ltb_spec (-16) (e - 150)).
    + replace (32 <=? e - 134) with false by lia. unfold r. f_equal.
      rewrite (sgn_small 32 (Z.shiftl k _)) by lia. destruct neg; [apply sgn_small; lia|done].
    + replace (e - 134) with 0 in * by lia. rewrite Z.shiftl_0_r. unfold r. f_equal.
      destruct neg; [apply sgn_small; lia|done].
Qed.

(** C24: [f2F] converts a [float] to the fixed-point number nearest to it towards zero when
    its exponent field is at least 103 and the result fits; smaller ones, 0.0 among them,
    shift by 32 or more, which C leaves undefined. *)
Theorem f2F_truncates bits : 0 <= bits < 2 ^ 32 →
  (103 <= fl_exp bits <= 141 →
   f2F bits = Some (Z.quot (fl_sign bits * fl_sig bits * 2 ^ fl_exp bits) (2 ^ 134))) ∧
  (fl_exp bits < 103 → f2F bits = None).
Proof.
  intros Hb. destruct (f2F_fields bits Hb) as (Es & Ee & Em). unfold f2F. rewrite Es, Ee, Em.
  split; intros He.
  - assert (fl_sig bits = bits mod 2 ^ 23 + Z.shiftl 1 23) as Esig.
    { unfold fl_sig. replace (fl_exp bits =? 0) with false by lia. reflexivity. }
    replace (fl_exp bits =? 0) with false by lia. cbn [negb]. rewrite <- Esig.
    assert (0 <= fl_sig bits < 2 ^ 24) as Hk.
    { rewrite Esig. change (Z.shiftl 1 23) with (2 ^ 23). lia. }
    pose proof (f2F_magnitude (negb (bits <? 2 ^ 31)) (fl_sig bits) (fl_exp bits) Hk He) as H. cbv zeta in H.
    unfold fl_sign. destruct (bits <? 2 ^ 31) eqn:Hs; cbn [negb] in H.
    + cbn [Z.eqb]. rewrite Z.mul_1_l, Z.quot_div_nonneg by lia. exact H.
    + replace (-1 * fl_sig bits * 2 ^ fl_exp bits) with (- (fl_sig bits * 2 ^ fl_exp bits)) by ring.
      rewrite Z.quot_opp_l, Z.quot_div_nonneg by lia. exact H.
  - replace (fl_exp bits - 150 <? -16) with true by lia.
    now replace (32 <=? -16 - (fl_exp bits - 150)) with true by lia.
Qed.

(** * Square root *)
Section Sqrt.
Context (x : Z) (Hx : 0 < x < 2 ^ 31).

Abbreviation X := (x * 2 ^ 16).
Abbreviation next t := (t + Z.quot (X / t - t) 2).

Lemma sqrt_step_eq t : 0 < t <= 2 ^ 30 → X / t < 2 ^ 31 → sqrt_step x t = Some (Z.quot (X / t - t) 2).
Proof using Hx.
  intros Ht Hq. unfold sqrt_step. rewrite F_div_F_quot by lia. cbn [mbind option_bind].
  pose proof (Z.div_pos X t). rewrite Z.quot_div_nonneg, (sgn_small 32 (X / t)) by lia.
  unfold F_div_int. cbn [Z.eqb]. rewrite (sgn_small 32 (X / t - t)) by lia. f_equal. apply sgn_small; lia.
Qed.

Lemma newton_sqrt n t : 0 < t <= 2 ^ 30 → X / t < 2 ^ 31 →
  newton (S n) (sqrt_step x) t =
    if 6 <? Z.abs (Z.quot (X / t - t) 2) then newton n (sqrt_step x) (next t) else Some (next t).
Proof using Hx.
  intros Ht Hq. cbn [newton]. rewrite sqrt_step_eq by done. cbn [mbind option_bind].
  pose proof (Z.div_pos X t). rewrite (sgn_small 32 (next t)) by lia.
  change f2F_1e_4 with (Some 6). cbn [mbind option_bind].
  replace (Fabs (Z.quot (X / t - t) 2)) with (Z.abs (Z.quot (X / t - t) 2)); [done|].
  unfold Fabs. destruct (Z.ltb_spec (Z.quot (X / t - t) 2) 0); [rewrite sgn_small|]; lia.
Qed.

(** From any positive estimate the next one is at least the root, less one unit. *)
Lemma next_above t : 0 < t → X < (next t + 1) ^ 2 ∧ 1 < next t + 1.
Proof using Hx.
  intros Ht. pose proof (Z.mul_succ_div_gt X t Ht) as Hq. pose proof (Z.div_pos X t ltac:(lia) Ht) as Hq0.
  revert Hq Hq0. generalize (X / t) as q. intros q Hq Hq0. unfold Z.succ in Hq.
  assert (q + 1 + t <= 2 * (t + Z.quot (q - t) 2 + 1)) as Hn by lia. revert Hn.
  generalize (t + Z.quot (q - t) 2 + 1) as u. intros u Hn.
  assert (X < u * u) as Hu.
  { pose proof (Z.square_nonneg (q + 1 - t)).
    assert ((q + 1 + t) * (q + 1 + t) <= 2 * u * (2 * u)) by (apply Z.mul_le_mono_nonneg; lia). lia. }
  rewrite Z.pow_2_r. split; [exact Hu|]. nia.
Qed.

Lemma above_256 t : X < (t + 1) ^ 2 → 1 < t + 1 → 256 <= t.
Proof using Hx. rewrite Z.pow_2_r. intros. nia. Qed.

(** An estimate above the root is at most two units below its quotient. *)
Lemma quotient_near t : X < (t + 1) ^ 2 → 256 <= t → X / t <= t + 2.
Proof using. intros Ha Ht. rewrite Z.pow_2_r in Ha. apply Z.div_le_upper_bound; lia. Qed.

(** Where the loop stops the next estimate is at most one unit above the root. *)
Lemma next_accurate t : 0 < t → Z.abs (Z.quot (X / t - t) 2) <= 6 → 256 <= next t →
  (next t - 1) ^ 2 <= X.
Proof using Hx.
  intros Ht Hd Hn. pose proof (Z.mul_div_le X t Ht) as Hq. revert Hq Hd Hn.
  generalize (X / t) as q. intros q Hq Hd Hn.
  assert (2 * (t + Z.quot (q - t) 2 - 1) <= q + t - 1) as Hu by lia.
  assert (-13 <= q - t <= 13) as Hqt by lia.
  assert (511 <= q + t) as Hsum by lia. revert Hu Hn Hsum. clear Hd.
  generalize (t + Z.quot (q - t) 2) as u. intros u Hu Hn Hsum. rewrite Z.pow_2_r.
  assert (2 * (u - 1) * (2 * (u - 1)) <= (q + t - 1) * (q + t - 1)) by (apply Z.mul_le_mono_nonneg; lia).
  assert ((q - t) * (q - t) <= 169) by nia. lia.
Qed.

(** The distance from the estimate to its quotient halves in every round. *)
Lemma newton_halves n t : X < (t + 1) ^ 2 → 256 <= t <= 2 ^ 30 → t - X / t <= 13 * 2 ^ Z.of_nat n →
  ∃ r, (∀ m, (n < m)%nat → newton m (sqrt_step x) t = Some r) ∧ (r - 1) ^ 2 <= X < (r + 1) ^ 2.
Proof using Hx.
  revert t. induction n as [|n IH]; intros t Ha Ht HD.
  all: pose proof (quotient_near t Ha ltac:(lia)) as Hq.
  all: destruct (next_above t ltac:(lia)) as [Hna Hn1]; pose proof (above_256 _ Hna Hn1) as Hn256.
  - exists (next t). change (2 ^ Z.of_nat 0) with 1 in HD. assert (Z.abs (Z.quot (X / t - t) 2) <= 6) as Hd by lia.
    split; [|split; [apply next_accurate; lia|exact Hna]].
    intros [|m] Hm; [lia|]. rewrite newton_sqrt by lia. now replace (6 <? _) with false by lia.
  - rewrite Nat2Z.inj_succ, Z.pow_succ_r in HD by lia.
    destruct (Z.leb_spec (Z.abs (Z.quot (X / t - t) 2)) 6) as [Hd|Hd].
    + exists (next t). split; [|split; [apply next_accurate; lia|exact Hna]].
      intros [|m] Hm; [lia|]. rewrite newton_sqrt by lia. now replace (6 <? _) with false by lia.
    + assert (next t <= t) as Hle by lia.
      pose proof (Z.div_le_compat_l X (next t) t ltac:(lia) ltac:(lia)) as Hqq.
      destruct (IH (next t) Hna ltac:(lia)) as (r & Hr & Hacc); [lia|]. exists r. split; [|exact Hacc].
      intros [|m] Hm; [lia|]. rewrite newton_sqrt by lia. replace (6 <? _) with true by lia.
      apply Hr. lia.
Qed.
End Sqrt.

(** C23: [sqrt] of a positive fixed-point number returns within 29 rounds, whatever larger
    fuel it is given, and its result is within one unit in the last place of the root. *)
Theorem sqrt_correct x : 0 < x < 2 ^ 31 →
  ∃ r, (∀ n, (29 <= n)%nat → sqrt n x = Some r) ∧ (r - 1) ^ 2 <= x * 2 ^ 16 < (r + 1) ^ 2.
Proof.
  intros Hx. set (t := int2F 2). assert (t = 2 ^ 17) as Et by reflexivity.
  assert (x * 2 ^ 16 / t < 2 ^ 31 ∧ x * 2 ^ 16 / t <= 2 ^ 30) as [Hq Hq'].
  { rewrite Et. change (2 ^ 17) with 131072. change (2 ^ 16) with 65536. lia. }
  pose proof (Z.div_pos (x * 2 ^ 16) t) as Hq0.
  destruct (next_above x Hx t ltac:(lia)) as [Hna Hn1]. pose proof (above_256 x Hx _ Hna Hn1) as Hn256.
  unfold sqrt. fold t. destruct (Z.leb_spec (Z.abs (Z.quot (x * 2 ^ 16 / t - t) 2)) 6) as [Hd|Hd].
  - eexists. split; [|split; [apply (next_accurate x Hx t); lia|exact Hna]].
    intros [|n] Hn; [lia|]. rewrite newton_sqrt by lia. now replace (6 <? _) with false by lia.
  - assert (t + Z.quot (x * 2 ^ 16 / t - t) 2 <= 2 ^ 30) as Hn30 by lia.
    destruct (newton_halves x Hx 27 _ Hna (conj Hn256 Hn30)) as (r & Hr & Hacc).
    { pose proof (Z.div_pos (x * 2 ^ 16) (t + Z.quot (x * 2 ^ 16 / t - t) 2)) as Hp.
      change (Z.of_nat 27) with 27. change (13 * 2 ^ 27) with 1744830464. lia. }
    exists r. split; [|exact Hacc].
    intros [|n] Hn; [lia|]. rewrite newton_sqrt by lia. replace (6 <? _) with true by lia. apply Hr. lia.
Qed.

(** [format_FLOAT] compares the sign bit with 1, so the magnitude of a negative number is
    not taken: -1.0 is printed as -65535.000000. *)
Lemma format_FLOAT_negative : format_FLOAT (int2F (-1)) = "-65535.000000"%string.
Proof. vm_compute. reflexivity. Qed.

(** * The theorems at work *)
Lemma F_div_F_exact_witness : F_div_F (int2F (-1)) (int2F 3) = Some (-21845).
Proof.
  assert (-21845 = Z.quot (int2F (-1) * 2 ^ 16) (int2F 3)) as -> by reflexivity.
  apply F_div_F_exact; [vm_compute; split; reflexivity|discriminate|vm_compute; split; discriminate|].
  split; [apply Z.leb_le|apply Z.ltb_lt]; reflexivity.
Defined.

(** -1.5, and 2^-40. *)
Lemma f2F_truncates_witness : f2F 0xbfc00000 = Some (-98304) ∧ f2F 0x2b800000 = None.
Proof.
  split.
  - rewrite (proj1 (f2F_truncates 0xbfc00000 ltac:(lia))); [reflexivity|vm_compute; split; discriminate].
  - apply (proj2 (f2F_truncates 0x2b800000 ltac:(lia))). reflexivity.
Defined.

Lemma sqrt_correct_witness : ∃ r, sqrt 29 (int2F 2) = Some r ∧ (r - 1) ^ 2 <= 2 ^ 33 < (r + 1) ^ 2.
Proof.
  destruct (sqrt_correct (int2F 2) ltac:(vm_compute; split; reflexivity)) as (r & Hr & Hacc).
  exists r. split; [exact (Hr 29%nat (le_n 29))|exact Hacc].
Defined.
