(* ===== verification/ScreenSpec.v ===== *)
(** The guest games' screen: text is drawn inside the buffer, and exactly its font's
    pixels change. *)
From S2P Require Import Prelude GameScreen.

#[local] Abbreviation len l := (Z.of_nat (length l)).

(** The pixels of the character [ch] at row [x], column [y]: [(r, c)] is in its font. *)
Definition in_font (ch r c : Z) : bool :=
  (0 <=? r) && (r <? 8) && (0 <=? c) && (c <? 8) && Z.testbit (font_row ch r) c.

(** The pixel of the buffer's byte [a]. *)
Definition row (a : Z) : Z := a / SCR_WIDTH.
Definition col (a : Z) : Z := a mod SCR_WIDTH.

Lemma pixel_addr x y : Z.shiftl x 8 + Z.shiftl x 6 + y = x * SCR_WIDTH + y.
Proof. rewrite !Z.shiftl_mul_pow2 by done. unfold SCR_WIDTH. lia. Qed.

Lemma pixel_at x y a : 0 <= y < SCR_WIDTH → x * SCR_WIDTH + y = a ↔ x = row a ∧ y = col a.
Proof. unfold row, col, SCR_WIDTH. lia. Qed.

Lemma screen_pixel_ok x y color s : 0 <= x < SCR_HEIGHT → 0 <= y < SCR_WIDTH →
  ∃ b, draw_pixel x y color s = Ok tt (set_vbuf b s) ∧
    ∀ a, aget b a = if (x =? row a) && (y =? col a) then u8 color else aget (vbuf s) a.
Proof.
  intros Hx Hy. unfold draw_pixel. rewrite bind_cassert by lia. eexists. split; [reflexivity|].
  intros a. rewrite aget_aset, pixel_addr. pose proof (pixel_at x y a Hy) as H.
  destruct (Z.eqb_spec (x * SCR_WIDTH + y) a), (Z.eqb_spec x (row a)), (Z.eqb_spec y (col a)); cbn [andb]; try done; tauto.
Qed.

Lemma land_1_testbit v j : 0 <= j → (Z.land (Z.shiftr v j) 1 =? 0) = negb (Z.testbit v j).
Proof.
  intros Hj. change 1 with (Z.ones 1). rewrite Z.land_ones by done. change (2 ^ 1) with 2.
  rewrite Z.shiftr_div_pow2, <- Z.testbit_spec' by done. now destruct (Z.testbit v j).
Qed.

(** One row of a character, the first [n] columns. *)
Lemma draw_row_ok ch x y color i s : 0 <= x + i < SCR_HEIGHT → 0 <= y <= SCR_WIDTH - 8 →
  ∃ b, for_ 8 0 (λ j, if Z.land (Z.shiftr (font_row ch i) j) 1 =? 0 then mret tt else draw_pixel (x + i) (y + j) color) s =
      Ok tt (set_vbuf b s) ∧
    ∀ a, aget b a = if (x + i =? row a) && (0 <=? col a - y) && (col a - y <? 8) && Z.testbit (font_row ch i) (col a - y)
      then u8 color else aget (vbuf s) a.
Proof.
  intros Hx Hy.
  destruct (for_ok (λ j s', vram s' = vram s ∧ ∀ a, aget (vbuf s') a =
      if (x + i =? row a) && (0 <=? col a - y) && (col a - y <? j) && Z.testbit (font_row ch i) (col a - y)
      then u8 color else aget (vbuf s) a) 8 0
    (λ j, if Z.land (Z.shiftr (font_row ch i) j) 1 =? 0 then mret tt else draw_pixel (x + i) (y + j) color) s) as (s' & E & Hv & H).
  - split; [done|]. intros a. now replace ((x + i =? row a) && _ && _) with false by lia.
  - intros j s1 Hj [Hv H]. rewrite land_1_testbit by lia. destruct (Z.testbit (font_row ch i) j) eqn:Eb; cbn [negb].
    + destruct (screen_pixel_ok (x + i) (y + j) color s1 Hx) as (b & E & Hb); [unfold SCR_WIDTH in *; lia|].
      exists (set_vbuf b s1). split; [exact E|]. split; [exact Hv|]. intros a. cbn [vbuf set_vbuf]. rewrite Hb, H.
      destruct (Z.eqb_spec (x + i) (row a)); [|done]. cbn [andb]. destruct (Z.eqb_spec (y + j) (col a)) as [<-|].
      * replace (y + j - y) with j by lia. rewrite Eb. now replace ((0 <=? j) && (j <? j + 1) && true) with true by lia.
      * now replace (col a - y <? j + 1) with (col a - y <? j) by lia.
    + exists s1. split; [reflexivity|]. split; [done|]. intros a. rewrite H. destruct (Z.eqb_spec (col a - y) j) as [->|].
      * now rewrite Eb, !andb_false_r.
      * now replace (col a - y <? j + 1) with (col a - y <? j) by lia.
  - exists (vbuf s'). split; [rewrite E; destruct s'; cbn in *; now subst|]. exact H.
Qed.

Lemma draw_character_ok ch x y color s : 0 <= ch < 128 → 0 <= x <= SCR_HEIGHT - 8 → 0 <= y <= SCR_WIDTH - 8 →
  ∃ b, draw_character ch x y color s = Ok tt (set_vbuf b s) ∧
    ∀ a, aget b a = if in_font ch (row a - x) (col a - y) then u8 color else aget (vbuf s) a.
Proof.
  intros Hch Hx Hy. unfold draw_character.
  assert (Z.land ch 0x80 = 0) as Hbit.
  { change 0x80 with (2 ^ 7). apply Z.bits_inj_iff'. intros k Hk. rewrite Z.land_spec, Z.pow2_bits_eqb, Z.bits_0 by done.
    destruct (Z.eqb_spec 7 k) as [<-|]; [|apply andb_false_r]. now rewrite (testbit_above 7 ch 7). }
  rewrite bind_cassert by lia. match goal with |- context [for_ 8 0 ?f s] => set (body := f) end.
  destruct (for_ok (λ i s', vram s' = vram s ∧ ∀ a, aget (vbuf s') a =
      if (row a - x <? i) && in_font ch (row a - x) (col a - y) then u8 color else aget (vbuf s) a) 8 0 body s) as (s' & E & Hv & H).
  - split; [done|]. intros a. unfold in_font. destruct (Z.ltb_spec (row a - x) 0); [|done].
    now replace (0 <=? row a - x) with false by lia.
  - intros i s1 Hi [Hv H]. destruct (draw_row_ok ch x y color i s1) as (b & E & Hb); [unfold SCR_HEIGHT in *; lia..|].
    exists (set_vbuf b s1). split; [exact E|]. split; [exact Hv|]. intros a. cbn [vbuf set_vbuf]. rewrite Hb, H. unfold in_font.
    destruct (Z.eqb_spec (x + i) (row a)) as [Er|]; cbn [andb].
    + replace (row a - x) with i by lia. replace (i <? i + 1) with true by lia. replace (i <? i) with false by lia.
      replace ((0 <=? i) && (i <? 8)) with true by lia. reflexivity.
    + now replace (row a - x <? i + 1) with (row a - x <? i) by lia.
  - exists (vbuf s'). split; [rewrite E; destruct s'; cbn in *; now subst|]. intros a. rewrite H. unfold in_font.
    destruct (Z.ltb_spec (row a - x) 8); cbn [andb]; [now replace (row a - x <? 0 + Z.of_nat 8) with true by lia|].
    now rewrite !andb_false_r.
Qed.

(** The pixels of a string. *)
Fixpoint in_text (str : list Z) (r c : Z) : bool :=
  match str with [] => false | ch :: str => in_font ch r c || in_text str r (c - 8) end.

(** A string that fits on the line is drawn in place: the bytes of the drawing buffer
    that belong to the font's pixels of its characters get the colour, no other byte
    changes, and nothing is drawn outside the screen. *)
Lemma draw_string_ok str x y color s :
  Forall (λ ch, 0 <= ch < 128) str → 0 <= x <= SCR_HEIGHT - 8 → 0 <= y → y + 8 * len str <= SCR_WIDTH →
  ∃ b, draw_string str x y color s = Ok tt (set_vbuf b s) ∧
    ∀ a, aget b a = if in_text str (row a - x) (col a - y) then u8 color else aget (vbuf s) a.
Proof.
  intros Hc Hx. revert y s. induction Hc as [|ch str Hch _ IH]; intros y s Hy Hl.
  { exists (vbuf s). split; [now destruct s|done]. }
  cbn [length] in Hl. destruct (draw_character_ok ch x y color s Hch Hx) as (b & E & Hb); [lia|].
  cbn [draw_string in_text]. rewrite (bind_Ok _ _ _ _ _ E). destruct (Z.leb_spec SCR_WIDTH (y + 8)).
  - destruct str as [|]; [|cbn [length] in Hl; lia]. exists b. split; [reflexivity|]. intros a. cbn [in_text]. rewrite Hb. now rewrite orb_false_r.
  - destruct (IH (y + 8) (set_vbuf b s)) as (b' & E' & Hb'); [lia..|]. exists b'. split; [rewrite E'; now destruct s|].
    intros a. rewrite Hb'. cbn [vbuf set_vbuf]. rewrite Hb. replace (col a - (y + 8)) with (col a - y - 8) by lia.
    now destruct (in_font _ _ _), (in_text _ _ _).
Qed.
