(* ===== verification/Typing.v ===== *)
(** The typing game: [game/src/typing] and [game/src/common/main.c], with the linked lists
    of [game/include/adt/linklist.h].

    Letters fall down the screen; a pressed key sends the lowest letter of that key back
    up.  Nodes are elements of a static pool, a pointer is an index.  The interrupts that
    arrive while the processor halts are an input of each round of the main loop; those
    that arrive at other times are delivered at the next halt. *)
From S2P Require Import Prelude Float GameScreen.
From stdpp Require Import strings.
#[local] Open Scope Z_scope.

Definition HZ : Z := 100.
Definition POOL_SIZE : Z := 1000.

(** * The list of letters: [LINKLIST_DEF(fly)], [LINKLIST_IMPL(fly, 1000)] *)
Record fly := mkFly { fx : Z; fy : Z; ftext : Z; fv : Z; f_prev : option Z; f_next : option Z }.
Definition fly0 : fly := mkFly 0 0 0 0 None None.
Definition set_fx x f := mkFly x (fy f) (ftext f) (fv f) (f_prev f) (f_next f).
Definition set_fy y f := mkFly (fx f) y (ftext f) (fv f) (f_prev f) (f_next f).
Definition set_ftext t f := mkFly (fx f) (fy f) t (fv f) (f_prev f) (f_next f).
Definition set_fv v f := mkFly (fx f) (fy f) (ftext f) v (f_prev f) (f_next f).
Definition set_f_prev p f := mkFly (fx f) (fy f) (ftext f) (fv f) p (f_next f).
Definition set_f_next n f := mkFly (fx f) (fy f) (ftext f) (fv f) (f_prev f) n.

(** The statics of [effect.c]. *)
Record Letters := mkLetters { fly_pool : arr fly; fly_free_head : option Z; head : option Z; hit : Z; miss : Z }.
Definition letters0 : Letters := mkLetters (anew fly0) None None 0 0.
Definition set_pool p s := mkLetters p (fly_free_head s) (head s) (hit s) (miss s).
Definition set_free_head h s := mkLetters (fly_pool s) h (head s) (hit s) (miss s).
Definition set_head h s := mkLetters (fly_pool s) (fly_free_head s) h (hit s) (miss s).
Definition set_hit h s := mkLetters (fly_pool s) (fly_free_head s) (head s) h (miss s).
Definition set_miss m s := mkLetters (fly_pool s) (fly_free_head s) (head s) (hit s) m.

Definition node (i : Z) : M Letters fly := gets (λ s, aget (fly_pool s) i).
Definition mod_node (i : Z) (f : fly → fly) : M Letters unit :=
  modify (λ s, set_pool (aset i (f (aget (fly_pool s) i)) (fly_pool s)) s).

(** [for (i = 1; i <= SIZE; i ++) pool[i - 1]._next = pool + i;] *)
Definition fly_pool_init : M Letters unit :=
  for_ (Z.to_nat POOL_SIZE) 1 (λ i, mod_node (i - 1) (set_f_next (Some i))).

Definition fly_new : M Letters Z :=
  s ← getS;
  _ ← (match fly_free_head s with None => fly_pool_init | Some _ => mret tt end);
  let free_head := default 0 (fly_free_head s) in
  f ← node free_head;
  _ ← cassert (match f_next f with Some _ => true | None => false end);
  let ret := free_head in
  _ ← modify (set_free_head (f_next f));
  _ ← mod_node ret (λ f, set_f_prev None (set_f_next None f));
  mret ret.

Definition fly_insert (prev next : option Z) (obj : Z) : M Letters unit :=
  _ ← cassert (match prev, next with None, None => false | _, _ => true end);
  _ ← mod_node obj (set_f_prev prev);
  _ ← mod_node obj (set_f_next next);
  _ ← (match prev with Some p => mod_node p (set_f_next (Some obj)) | None => mret tt end);
  match next with Some n => mod_node n (set_f_prev (Some obj)) | None => mret tt end.

Definition fly_remove (n : Z) : M Letters unit :=
  f ← node n;
  _ ← (match f_prev f with Some p => mod_node p (set_f_next (f_next f)) | None => mret tt end);
  match f_next f with Some q => mod_node q (set_f_prev (f_prev f)) | None => mret tt end.

Definition fly_free (n : Z) : M Letters unit :=
  s ← getS;
  _ ← mod_node n (set_f_next (fly_free_head s));
  modify (set_free_head (Some n)).

(** [create_new_letter]'s list: a new node at the front. *)
Definition new_front : M Letters unit :=
  h ← gets head;
  match h with
  | None => n ← fly_new; modify (set_head (Some n))
  | Some h =>
    now ← fly_new;
    _ ← fly_insert None (Some h) now;
    modify (set_head (Some now))
  end.

(** [fly_prev], [fly_next] *)
Definition fly_prev (n : Z) : M Letters (option Z) := f ← node n; mret (f_prev f).
Definition fly_next (n : Z) : M Letters (option Z) := f ← node n; mret (f_next f).

(** * Keys: [keyboard.c] *)
Definition letter_code : list Z := [
  30; 48; 46; 32; 18; 33; 34; 35; 23; 36;
  37; 38; 50; 49; 24; 25; 16; 19; 31; 20;
  22; 47; 17; 45; 21; 44].

Record Keys := mkKeys { letter_pressed : arr bool; key_code : Z }.
Definition keys0 : Keys := mkKeys (anew false) 0.
Definition set_pressed i b k := mkKeys (aset i b (letter_pressed k)) (key_code k).
Definition set_key_code c k := mkKeys (letter_pressed k) c.

Definition press_key (scan_code : Z) : M Keys unit := for_ 26 0 (λ i,
  if nth (Z.to_nat i) letter_code 0 =? scan_code then modify (set_pressed i true) else mret tt).
Definition release_key (index : Z) : M Keys unit :=
  _ ← cassert ((0 <=? index) && (index <? 26));
  modify (set_pressed index false).
Definition query_key (index : Z) : M Keys bool :=
  _ ← cassert ((0 <=? index) && (index <? 26));
  gets (λ k, aget (letter_pressed k) index).

(** [code] is what [in_byte(0x60)] returns. *)
Definition keyboard_event (code : Z) : M Keys unit :=
  _ ← modify (set_key_code code);
  press_key code.

(** * The game *)
Section Game.
Context `{HRand : !LibcRand}.

(** [ints] is the processor's interrupt flag, [port_out] the bytes written to the timer,
    last first. *)
Record Game := mkGame {
  letters : Letters; keys : Keys; tick : Z; real_fps : Z; ints : bool; screen : Screen; g_rand : rand_state;
  port_out : list (Z * Z) }.
Definition set_letters x g := mkGame x (keys g) (tick g) (real_fps g) (ints g) (screen g) (g_rand g) (port_out g).
Definition set_keys x g := mkGame (letters g) x (tick g) (real_fps g) (ints g) (screen g) (g_rand g) (port_out g).
Definition set_tick x g := mkGame (letters g) (keys g) x (real_fps g) (ints g) (screen g) (g_rand g) (port_out g).
Definition set_real_fps x g := mkGame (letters g) (keys g) (tick g) x (ints g) (screen g) (g_rand g) (port_out g).
Definition set_ints x g := mkGame (letters g) (keys g) (tick g) (real_fps g) x (screen g) (g_rand g) (port_out g).
Definition set_screen x g := mkGame (letters g) (keys g) (tick g) (real_fps g) (ints g) x (g_rand g) (port_out g).
Definition set_g_rand x g := mkGame (letters g) (keys g) (tick g) (real_fps g) (ints g) (screen g) x (port_out g).
Definition set_port_out x g := mkGame (letters g) (keys g) (tick g) (real_fps g) (ints g) (screen g) (g_rand g) x.

Definition in_letters {A} (m : M Letters A) : M Game A := zoom letters set_letters m.
Definition in_keys {A} (m : M Keys A) : M Game A := zoom keys set_keys m.
Definition in_screen {A} (m : M Screen A) : M Game A := zoom screen set_screen m.

Definition rand : M Game Z := λ g, let '(r, st) := libc_rand (g_rand g) in Ok r (set_g_rand st g).
Definition cli : M Game unit := modify (set_ints false).
Definition sti : M Game unit := modify (set_ints true).
Definition of_option {S A} (o : option A) : M S A := match o with Some a => mret a | None => fail EUndefined end.

(** The [float] constants of [effect.c]. *)
Definition f2F_0_5 : option Z := f2F 0x3f000000.
Definition f2F_7_9 : option Z := f2F 0x40fccccd.

Definition create_new_letter : M Game unit :=
  _ ← in_letters new_front;
  h ← gets (λ g, head (letters g));
  match h with
  | None => fail EUndefined
  | Some h =>
    _ ← in_letters (mod_node h (set_fx 0));
    r ← rand;
    _ ← in_letters (mod_node h (set_fy (r mod (SCR_WIDTH / 8 - 2) * 8 + 8)));
    r ← rand;
    q ← of_option (F_div_F (int2F (r mod 1000)) (int2F 2000));
    half ← of_option f2F_0_5;
    _ ← in_letters (mod_node h (set_fv (s32 (q + half))));
    r ← rand;
    _ ← in_letters (mod_node h (set_ftext (r mod 26)));
    f ← in_letters (node h);
    in_keys (release_key (ftext f))
  end.

(** [for (it = head; it != NULL; )], at most [fuel] nodes. *)
Fixpoint update_letters (fuel : nat) (it : option Z) : M Letters unit :=
  match it with
  | None => mret tt
  | Some it =>
    match fuel with
    | O => fail EFuel
    | S fuel =>
      f ← node it;
      let next := f_next f in
      _ ← mod_node it (set_fx (s32 (fx f + fv f)));
      f ← node it;
      margin ← of_option f2F_7_9;
      _ ← (if (fx f <? 0) || (int2F SCR_HEIGHT <? s32 (fx f + margin)) then
             _ ← modify (λ s, if fx f <? 0 then set_hit (s32 (hit s + 1)) s else set_miss (s32 (miss s + 1)) s);
             _ ← fly_remove it;
             _ ← fly_free it;
             modify (λ s, if decide (head s = Some it) then set_head next s else s)
           else mret tt);
      update_letters fuel next
    end
  end.

(** The pool has 1001 nodes. *)
Definition list_fuel : nat := 1001.

Definition update_letter_pos : M Game unit := in_letters (
  s ← getS; update_letters list_fuel (head s)).

(** The pressed, falling letter with the greatest [x] above [min]: the first such. *)
Fixpoint find_target (fuel : nat) (it : option Z) (min : Z) (target : option Z) : M Game (option Z) :=
  match it with
  | None => mret target
  | Some it =>
    match fuel with
    | O => fail EFuel
    | S fuel =>
      f ← in_letters (node it);
      _ ← cassert ((0 <=? ftext f) && (ftext f <? 26));
      q ← (if (0 <? fv f) && (min <? fx f) then in_keys (query_key (ftext f)) else mret false);
      if q : bool then find_target fuel (f_next f) (fx f) (Some it)
      else find_target fuel (f_next f) min target
    end
  end.

(** On a hit the interrupts stay off: [return true] comes before [sti]. *)
Definition update_keypress : M Game bool :=
  _ ← cli;
  h ← gets (λ g, head (letters g));
  target ← find_target list_fuel h (s32 (- int2F 100)) None;
  match target with
  | Some t =>
    f ← in_letters (node t);
    _ ← in_keys (release_key (ftext f));
    _ ← in_letters (mod_node t (set_fv (s32 (- int2F 3))));
    mret true
  | None => _ ← sti; mret false
  end.

(** [while (update_keypress());] *)
Fixpoint keypress_loop (fuel : nat) : M Game unit :=
  match fuel with
  | O => fail EFuel
  | S fuel => b ← update_keypress; if b : bool then keypress_loop fuel else mret tt
  end.

(** * draw.c *)
Definition bytes (s : string) : list Z := map (λ a, Z.of_N (Ascii.N_of_ascii a)) (String.list_ascii_of_string s).

(** [snprintf(buf, 30, "%d", a)] *)
Definition itoa (a : Z) : list Z := if a <? 0 then bytes "-" ++ bytes (dec 10 (- a)) else bytes (dec 10 a).

Fixpoint draw_letters (fuel : nat) (it : option Z) : M Game unit :=
  match it with
  | None => mret tt
  | Some it =>
    match fuel with
    | O => fail EFuel
    | S fuel =>
      f ← in_letters (node it);
      let ch := ftext f + nth 0 (bytes "A") 0 in
      _ ← in_screen (draw_string (if ch =? 0 then [] else [ch]) (F2int (fx f)) (fy f) 15);
      draw_letters fuel (f_next f)
    end
  end.

Definition strlen (s : list Z) : Z := Z.of_nat (length s).

Definition redraw_screen : M Game unit :=
  _ ← in_screen prepare_buffer;
  h ← gets (λ g, head (letters g));
  _ ← draw_letters list_fuel h;
  g ← getS;
  _ ← in_screen (draw_string (itoa (key_code (keys g))) (SCR_HEIGHT - 8) 0 48);
  let hit := itoa (hit (letters g)) in
  _ ← in_screen (draw_string hit 0 (SCR_WIDTH - strlen hit * 8) 10);
  let miss := itoa (miss (letters g)) in
  _ ← in_screen (draw_string miss (SCR_HEIGHT - 8) (SCR_WIDTH - strlen miss * 8) 12);
  _ ← in_screen (draw_string (itoa (real_fps g)) 0 0 14);
  _ ← in_screen (draw_string (bytes "FPS") 0 (strlen (itoa (real_fps g)) * 8) 14);
  in_screen display_buffer.

(** * The main loop: [game.c] *)
Definition FPS : Z := 30.
Definition CHARACTER_PER_SECOND : Z := 3.
Definition UPDATE_PER_SECOND : Z := 100.

Inductive irq := IrqTimer | IrqKey (code : Z).

Definition timer_event : M Game unit := modify (λ g, set_tick (s32 (tick g + 1)) g).

(** [hlt] until the interrupts [l] have been handled. *)
Fixpoint wait_intr (l : list irq) : M Game unit :=
  match l with
  | [] => mret tt
  | i :: l =>
    _ ← match i with IrqTimer => timer_event | IrqKey code => in_keys (keyboard_event code) end;
    wait_intr l
  end.

(** The local variables [now], [num_draw], [redraw] of [main_loop]. *)
Record Loop := mkLoop { now : Z; num_draw : Z; redraw : bool }.

(** One missed tick: [while (now < target) { ... now ++; }] *)
Definition simulate_tick (l : Loop) : M Game Loop :=
  let t := now l in
  _ ← (if t mod (HZ / CHARACTER_PER_SECOND) =? 0 then create_new_letter else mret tt);
  _ ← (if t mod (HZ / UPDATE_PER_SECOND) =? 0 then update_letter_pos else mret tt);
  let r := redraw l || (t mod (HZ / FPS) =? 0) in
  nd ← (if t mod (HZ / 2) =? 0 then
          let now_fps := num_draw l * 2 + 1 in
          let now_fps := if FPS <? now_fps then FPS else now_fps in
          _ ← modify (set_real_fps now_fps);
          mret 0
        else mret (num_draw l));
  mret (mkLoop (t + 1) nd r).

Fixpoint simulate (n : nat) (l : Loop) : M Game Loop :=
  match n with
  | O => mret l
  | S n => l ← simulate_tick l; simulate n l
  end.

(** One round of [while (true)]. *)
Definition main_round (events : list irq) (l : Loop) : M Game Loop :=
  _ ← wait_intr events;
  _ ← cli;
  t ← gets tick;
  if now l =? t then _ ← sti; mret l
  else
    _ ← cassert (now l <? t);
    let target := t in
    _ ← sti;
    _ ← keypress_loop (S list_fuel);
    l ← simulate (Z.to_nat (target - now l)) (mkLoop (now l) (num_draw l) false);
    if redraw l then
      _ ← redraw_screen;
      mret (mkLoop (now l) (num_draw l + 1) (redraw l))
    else mret l.

Fixpoint main_rounds (rounds : list (list irq)) (l : Loop) : M Game Loop :=
  match rounds with
  | [] => mret l
  | events :: rounds => l ← main_round events l; main_rounds rounds l
  end.
Definition loop0 : Loop := mkLoop 0 0 false.
Definition main_loop (rounds : list (list irq)) : M Game Loop := main_rounds rounds loop0.

(** * timer.c, main.c *)
Definition TIMER_PORT : Z := 0x40.
Definition FREQ_8253 : Z := 1193182.

Definition out_byte (port data : Z) : M Game unit := modify (λ g, set_port_out ((port, u8 data) :: port_out g) g).

Definition init_timer : M Game unit :=
  let counter := FREQ_8253 / 100 in
  _ ← cassert (counter <? 65536);
  _ ← out_byte (TIMER_PORT + 3) 0x34;
  _ ← out_byte (TIMER_PORT + 0) (counter mod 256);
  out_byte (TIMER_PORT + 0) (counter / 256).

(** The handlers' registration ([add_irq_handle]) is the kernel's; [wait_intr] calls them. *)
Definition game_main (rounds : list (list irq)) : M Game Loop :=
  _ ← init_timer;
  main_loop rounds.

(** The statics as the program is loaded; the generator is seeded with 1 when it is not
    seeded at all. *)
Definition game0 : Game :=
  mkGame letters0 keys0 0 0 true (mkScreen (anew 0) (anew 0)) (libc_srand 1) [].
End Game.
