(* ===== verification/TypingLists.v ===== *)
(** The linked lists of the typing game refine plain lists: nodes are taken from the front
    of the free list, put in front of the letters, removed from anywhere among them and
    freed, and the letters shown are the list's values. *)
From stdpp Require Import strings.
From S2P Require Import Prelude Float FloatSpec GameScreen Typing.
#[local] Open Scope Z_scope.

#[local] Abbreviation len l := (Z.of_nat (length l)).

(** * Linked lists *)
Definition prev_of (ps : list Z) (k : nat) : option Z := match k with O => None | S k => ps !! k end.

Definition linked (pool : arr fly) (ps : list Z) : Prop := ∀ k i, ps !! k = Some i →
  f_next (aget pool i) = ps !! S k ∧ f_prev (aget pool i) = prev_of ps k.
Definition chained (pool : arr fly) (fs : list Z) : Prop := ∀ k i, fs !! k = Some i → f_next (aget pool i) = fs !! S k.

(** The nodes of the pool: those of the letters, and the free ones. *)
Record split (ps fs : list Z) : Prop := {
  sp_nodup : NoDup (ps ++ fs);
  sp_range : ∀ i, i ∈ ps ++ fs → 0 <= i <= POOL_SIZE;
  sp_length : len (ps ++ fs) = POOL_SIZE + 1
}.

Record wf (s : Letters) (ps fs : list Z) : Prop := {
  wf_split : split ps fs;
  wf_head : head s = ps !! 0%nat;
  wf_free : fly_free_head s = fs !! 0%nat;
  wf_linked : linked (fly_pool s) ps;
  wf_chained : chained (fly_pool s) fs;
  wf_nonempty : fs ≠ []
}.

(** Before the first letter. *)
Definition nodes (n : nat) : list Z := Z.of_nat <$> seq 0 n.
Definition all_nodes : list Z := nodes (Z.to_nat (POOL_SIZE + 1)).
Definition unused (s : Letters) : Prop :=
  head s = None ∧ fly_free_head s = None ∧ (∀ i, f_next (aget (fly_pool s) i) = None).

Definition lists (s : Letters) (ps fs : list Z) : Prop := wf s ps fs ∨ (ps = [] ∧ fs = all_nodes ∧ unused s).

(** ** The pool's first use *)
Lemma nodes_lookup n k : nodes n !! k = if (k <? n)%nat then Some (Z.of_nat k) else None.
Proof.
  unfold nodes. rewrite list_lookup_fmap. destruct (Nat.ltb_spec k n) as [H|H].
  - now rewrite lookup_seq_lt.
  - now rewrite lookup_seq_ge.
Qed.

Lemma nodes_split n : Z.of_nat n = POOL_SIZE + 1 → split [] (nodes n).
Proof.
  intros Hn. split; rewrite app_nil_l.
  - unfold nodes. apply NoDup_fmap; [intros x y; lia|apply NoDup_seq].
  - intros i. unfold nodes. intros (k & -> & Hk)%list_elem_of_fmap. apply elem_of_seq in Hk. lia.
  - unfold nodes. now rewrite length_fmap, length_seq.
Qed.

Lemma nodes_cons n : (2 <= n)%nat → ∃ fs, nodes n = 0 :: 1 :: fs.
Proof. intros Hn. destruct n as [|[|n]]; [lia..|]. eexists. reflexivity. Qed.

Lemma mod_node_run i f s : mod_node i f s = Ok tt (set_pool (aset i (f (aget (fly_pool s) i)) (fly_pool s)) s).
Proof. done. Qed.

Lemma pool_init_run s : ∃ p, fly_pool_init s = Ok tt (set_pool p s) ∧
  ∀ i, f_next (aget p i) = if (0 <=? i) && (i <? POOL_SIZE) then Some (i + 1) else f_next (aget (fly_pool s) i).
Proof.
  unfold fly_pool_init.
  assert (∀ n lo p, 1 <= lo → ∃ p', for_ n lo (λ i, mod_node (i - 1) (set_f_next (Some i))) (set_pool p s) = Ok tt (set_pool p' s) ∧
    ∀ i, f_next (aget p' i) = if (lo - 1 <=? i) && (i <? lo - 1 + Z.of_nat n) then Some (i + 1) else f_next (aget p i)) as H.
  { intros n; induction n as [|n IH]; intros lo p Hlo; cbn [for_].
    - exists p. split; [done|]. intros i. now replace ((lo - 1 <=? i) && _) with false by lia.
    - rewrite (bind_Ok _ _ _ _ _ (mod_node_run (lo - 1) (set_f_next (Some lo)) (set_pool p s))).
      destruct (IH (lo + 1) (aset (lo - 1) (set_f_next (Some lo) (aget p (lo - 1))) p) ltac:(lia)) as (p' & E & H).
      exists p'. split; [exact E|]. intros i. rewrite H, aget_aset. destruct (Z.eqb_spec (lo - 1) i) as [<-|Hne].
      + replace ((lo + 1 - 1 <=? lo - 1) && _) with false by lia. replace ((lo - 1 <=? lo - 1) && _) with true by lia.
        cbn. f_equal. lia.
      + replace ((lo - 1 <=? i) && (i <? lo - 1 + Z.of_nat (S n))) with ((lo + 1 - 1 <=? i) && (i <? lo + 1 - 1 + Z.of_nat n)) by lia.
        done. }
  destruct (H (Z.to_nat POOL_SIZE) 1 (fly_pool s) ltac:(lia)) as (p & E & Hp). exists p. split; [now destruct s|].
  intros i. rewrite Hp. unfold POOL_SIZE. done.
Qed.

(** ** A new node *)
Lemma wf_next s ps i j fs : wf s ps (i :: j :: fs) → f_next (aget (fly_pool s) i) = Some j.
Proof. intros H. now rewrite (wf_chained _ _ _ H 0%nat i). Qed.

Definition taken (i : Z) (s : Letters) : Letters :=
  set_pool (aset i (set_f_prev None (set_f_next None (aget (fly_pool s) i))) (fly_pool s)) s.

Lemma fly_new_wf s ps i j fs : wf s ps (i :: j :: fs) → fly_new s = Ok i (taken i (set_free_head (Some j) s)).
Proof.
  intros H. unfold fly_new. rewrite (bind_Ok getS _ _ _ _ eq_refl). rewrite (wf_free _ _ _ H). cbn [lookup list_lookup].
  rewrite (bind_Ok (mret tt) _ _ _ _ eq_refl). cbv zeta. cbn [default]. unfold node. rewrite bind_gets. change (id i) with i.
  rewrite (wf_next _ _ _ _ _ H). rewrite (bind_Ok (cassert true) _ _ _ _ eq_refl). reflexivity.
Qed.

Lemma fly_new_unused s : unused s → ∃ p,
  fly_new s = Ok 0 (taken 0 (set_free_head (Some 1) (set_pool p s))) ∧ chained p all_nodes.
Proof.
  intros (Hh & Hf & Hp). destruct (pool_init_run s) as (p & E & Hn). exists p. split.
  - unfold fly_new. rewrite (bind_Ok getS _ _ _ _ eq_refl), Hf. rewrite (bind_Ok _ _ _ _ _ E). cbv zeta. cbn [default].
    unfold node. rewrite bind_gets. cbn [fly_pool set_pool]. rewrite Hn. change (id 0) with 0.
    replace ((0 <=? 0) && (0 <? POOL_SIZE)) with true by done. rewrite (bind_Ok (cassert true) _ _ _ _ eq_refl).
    rewrite (bind_Ok (modify _) _ _ tt _ eq_refl). reflexivity.
  - intros k i. unfold all_nodes. rewrite !nodes_lookup. destruct (Nat.ltb_spec k (Z.to_nat (POOL_SIZE + 1))) as [Hk|]; [|done].
    intros [= <-]. rewrite Hn, Hp. revert Hk. generalize POOL_SIZE. intros N Hk.
    destruct (Nat.ltb_spec (S k) (Z.to_nat (N + 1))).
    + replace ((0 <=? Z.of_nat k) && (Z.of_nat k <? N)) with true by lia. f_equal. lia.
    + now replace ((0 <=? Z.of_nat k) && (Z.of_nat k <? N)) with false by lia.
Qed.

(** ** Letters *)
Record Letter := mkLetter { l_x : Z; l_y : Z; l_text : Z; l_v : Z }.
Definition letter_of (f : fly) : Letter := mkLetter (fx f) (fy f) (ftext f) (fv f).
Definition letters_of (p : arr fly) (ps : list Z) : list Letter := map (λ i, letter_of (aget p i)) ps.

Lemma letters_of_ext p p' ps : (∀ i, i ∈ ps → letter_of (aget p' i) = letter_of (aget p i)) → letters_of p' ps = letters_of p ps.
Proof. intros H. apply map_ext_in. intros i Hi. apply H. now apply list_elem_of_In. Qed.

Lemma split_cons ps i fs : split ps (i :: fs) → split (i :: ps) fs.
Proof.
  intros [Hn Hr Hl]. assert (Permutation (ps ++ i :: fs) ((i :: ps) ++ fs)) as Hp by (symmetry; apply Permutation_middle).
  split; [now rewrite <- Hp|intros x; rewrite <- Hp; apply Hr|now rewrite <- Hp].
Qed.

Lemma split_move ps1 i ps2 fs : split (ps1 ++ i :: ps2) fs → split (ps1 ++ ps2) (i :: fs).
Proof.
  intros [Hn Hr Hl]. assert (Permutation ((ps1 ++ i :: ps2) ++ fs) ((ps1 ++ ps2) ++ i :: fs)) as Hp.
  { rewrite <- Permutation_middle, <- (Permutation_middle (ps1 ++ ps2)). done. }
  split; [now rewrite <- Hp|intros x; rewrite <- Hp; apply Hr|now rewrite <- Hp].
Qed.

Lemma split_disjoint ps fs x : split ps fs → x ∈ ps → x ∉ fs.
Proof. intros [Hn _ _] Hx. apply list.NoDup_app in Hn as (_ & Hd & _). now apply Hd. Qed.

(** A node in front. *)
Lemma wf_push s s' ps i j fs : split ps (i :: j :: fs) → linked (fly_pool s) ps → chained (fly_pool s) (i :: j :: fs) →
  head s' = Some i → fly_free_head s' = Some j →
  f_next (aget (fly_pool s') i) = ps !! 0%nat → f_prev (aget (fly_pool s') i) = None →
  (∀ x, x ≠ i → f_next (aget (fly_pool s') x) = f_next (aget (fly_pool s) x) ∧
     (x ∈ ps → f_prev (aget (fly_pool s') x) = if decide (ps !! 0%nat = Some x) then Some i else f_prev (aget (fly_pool s) x))) →
  wf s' (i :: ps) (j :: fs).
Proof.
  intros Hs Hl Hc Hh Hf Hni Hpi Ho. pose proof (split_cons _ _ _ Hs) as Hs'.
  assert (∀ x, x ∈ ps → x ≠ i) as Hne.
  { intros x Hx ->. apply (split_disjoint _ _ i Hs Hx). now left. }
  assert (∀ x, x ∈ j :: fs → x ≠ i) as Hne'.
  { intros x Hx ->. apply (split_disjoint _ _ i Hs'); [now left|done]. }
  split; [exact Hs'|exact Hh|exact Hf| | |done].
  - intros [|k] x Hk; cbn in Hk.
    + injection Hk as <-. now split.
    + pose proof (list_elem_of_lookup_2 _ _ _ Hk) as Hx. destruct (Ho x (Hne x Hx)) as [Hn Hp]. destruct (Hl k x Hk) as [Hn' Hp'].
      split; [now rewrite Hn|]. rewrite (Hp Hx), Hp'. destruct k as [|k]; cbn.
      * now rewrite decide_True.
      * rewrite decide_False; [done|]. intros E. pose proof (sp_nodup _ _ Hs) as Hnd. apply list.NoDup_app in Hnd as (Hnd & _).
        pose proof (NoDup_lookup _ _ _ _ Hnd Hk E). lia.
  - intros k x Hk. rewrite (proj1 (Ho x (Hne' x (list_elem_of_lookup_2 _ _ _ Hk)))). exact (Hc (S k) x Hk).
Qed.

Lemma lists_two s ps fs : lists s ps fs → len ps <= POOL_SIZE - 1 → ∃ i j fs', fs = i :: j :: fs'.
Proof.
  intros H Hn. assert (2 <= len fs) as Hf.
  { destruct H as [H|(-> & -> & _)]; [pose proof (sp_length _ _ (wf_split _ _ _ H)) as Hl|
      pose proof (sp_length _ _ (nodes_split (Z.to_nat (POOL_SIZE + 1)) ltac:(done))) as Hl; fold all_nodes in Hl];
      rewrite length_app in Hl; cbn [length] in *; unfold POOL_SIZE in *; lia. }
  destruct fs as [|i [|j fs]]; cbn [length] in Hf; [lia..|]. now eexists _, _, _.
Qed.

Lemma fly_new_ok s ps i j fs : lists s ps (i :: j :: fs) → ∃ p,
  fly_new s = Ok i (taken i (set_free_head (Some j) (set_pool p s))) ∧ split ps (i :: j :: fs) ∧
  linked p ps ∧ chained p (i :: j :: fs) ∧ (∀ x, x ∈ ps → aget p x = aget (fly_pool s) x) ∧ head s = ps !! 0%nat.
Proof.
  intros [H|(-> & Hfs & Hu)].
  - exists (fly_pool s). rewrite (fly_new_wf s ps i j fs H). split; [now destruct s|]. destruct H; auto.
  - destruct (nodes_cons (Z.to_nat (POOL_SIZE + 1)) ltac:(unfold POOL_SIZE; lia)) as (fs' & E). unfold all_nodes in Hfs. rewrite E in Hfs.
    injection Hfs as -> -> ->. destruct (fly_new_unused s Hu) as (p & Ep & Hc). exists p. split; [exact Ep|].
    unfold all_nodes in Hc. rewrite E in Hc. split; [rewrite <- E; now apply nodes_split|].
    split; [intros k x Hk; now rewrite lookup_nil in Hk|]. split; [exact Hc|]. split; [intros x Hx; now apply not_elem_of_nil in Hx|].
    apply Hu.
Qed.

Lemma new_front_ok s ps fs : lists s ps fs → len ps <= POOL_SIZE - 1 → ∃ i fs' s',
  new_front s = Ok tt s' ∧ wf s' (i :: ps) fs' ∧ (i ∉ ps) ∧
  letters_of (fly_pool s') ps = letters_of (fly_pool s) ps ∧ hit s' = hit s ∧ miss s' = miss s.
Proof.
  intros H Hn. destruct (lists_two s ps fs H Hn) as (i & j & fs' & ->).
  destruct (fly_new_ok s ps i j fs' H) as (p & E & Hs & Hl & Hc & Hd & Hh).
  assert (i ∉ ps) as Hi. { intros Hi. apply (split_disjoint _ _ i Hs Hi). now left. }
  unfold new_front. rewrite bind_gets, Hh. change (id (ps !! 0%nat)) with (ps !! 0%nat). destruct ps as [|h ps].
  - cbn [lookup list_lookup]. rewrite (bind_Ok _ _ _ _ _ E). do 3 eexists. split; [reflexivity|].
    split; [|repeat split; done]. eapply (wf_push (set_pool p s)); try done; cbn [taken fly_pool set_pool set_head set_free_head].
    + now rewrite aget_aset, Z.eqb_refl.
    + now rewrite aget_aset, Z.eqb_refl.
    + intros x Hx. rewrite aget_aset. replace (i =? x) with false by lia. split; [done|]. intros []%not_elem_of_nil.
  - cbn [lookup list_lookup]. assert (h ≠ i) as Hne by (intros ->; apply Hi; now left).
    rewrite (bind_Ok _ _ _ _ _ E). do 3 eexists. split; [reflexivity|]. cbn [set_head fly_pool set_pool taken set_free_head hit miss].
    split; [|split; [done|split; [|done]]].
    + eapply (wf_push (set_pool p s)); try done; cbn [taken fly_pool set_pool set_head set_free_head].
      * rewrite !aget_aset, Z.eqb_refl. now replace (h =? i) with false by lia.
      * rewrite !aget_aset, Z.eqb_refl. now replace (h =? i) with false by lia.
      * intros x Hx. rewrite !aget_aset. replace (i =? x) with false by lia. replace (i =? h) with false by lia.
        destruct (Z.eqb_spec h x) as [->|Hhx].
        -- split; [done|]. intros _. now rewrite decide_True.
        -- split; [done|]. intros _. rewrite decide_False; [done|]. cbn. congruence.
    + apply letters_of_ext. intros x Hx. rewrite !aget_aset. assert (x ≠ i) by (intros ->; now apply Hi).
      replace (i =? x) with false by lia. replace (i =? h) with false by lia. rewrite <- (Hd x Hx).
      destruct (Z.eqb_spec h x) as [->|]; done.
Qed.

(** ** Assignments to a letter *)

(** Nothing of the lists depends on a letter's own fields. *)
Definition same_links (f : fly → fly) : Prop := ∀ x, f_next (f x) = f_next x ∧ f_prev (f x) = f_prev x.

Lemma wf_mod_node s ps fs i f : same_links f → wf s ps fs → wf (set_pool (aset i (f (aget (fly_pool s) i)) (fly_pool s)) s) ps fs.
Proof.
  intros Hf [Hs Hh Hfr Hl Hc Hn]. split; try done; cbn [fly_pool set_pool].
  - intros k x Hk. rewrite aget_aset. destruct (Z.eqb_spec i x) as [->|]; [|now apply Hl]. destruct (Hf (aget (fly_pool s) x)) as [-> ->]. now apply Hl.
  - intros k x Hk. rewrite aget_aset. destruct (Z.eqb_spec i x) as [->|]; [|now apply Hc]. destruct (Hf (aget (fly_pool s) x)) as [-> _]. now apply Hc.
Qed.

Lemma same_links_fx x : same_links (set_fx x).
Proof. now split. Qed.
Lemma same_links_fy x : same_links (set_fy x).
Proof. now split. Qed.
Lemma same_links_ftext x : same_links (set_ftext x).
Proof. now split. Qed.
Lemma same_links_fv x : same_links (set_fv x).
Proof. now split. Qed.

Lemma letters_of_mod p ps i f : i ∉ ps → letters_of (aset i f p) ps = letters_of p ps.
Proof.
  intros Hi. apply letters_of_ext. intros x Hx. rewrite aget_aset. destruct (Z.eqb_spec i x) as [->|]; done.
Qed.

(** ** Removing a letter *)
Lemma prev_of_app (ps1 ps2 : list Z) (i : Z) : prev_of (ps1 ++ i :: ps2) (length ps1) = list.last ps1.
Proof.
  destruct ps1 as [|x ps1 _] using rev_ind; [done|]. rewrite last_snoc, length_app. cbn [length]. rewrite Nat.add_1_r. cbn [prev_of].
  rewrite <- app_assoc. now apply list_lookup_middle.
Qed.

Lemma lookup_next (ps1 ps2 : list Z) (i : Z) : (ps1 ++ i :: ps2) !! S (length ps1) = ps2 !! 0%nat.
Proof. rewrite lookup_app_r by lia. now replace (S (length ps1) - length ps1)%nat with 1%nat by lia. Qed.

Lemma wf_at s ps1 i ps2 fs : wf s (ps1 ++ i :: ps2) fs →
  f_next (aget (fly_pool s) i) = ps2 !! 0%nat ∧ f_prev (aget (fly_pool s) i) = list.last ps1.
Proof.
  intros H. destruct (wf_linked _ _ _ H (length ps1) i) as [-> ->]; [now apply list_lookup_middle|].
  split; [apply lookup_next|apply prev_of_app].
Qed.

(** The pool after the node [i] between [prev] and [next] has been unlinked and put on the
    free list. *)
Definition unlink (i : Z) (prev next fr : option Z) (p : arr fly) : arr fly :=
  let p := match prev with Some a => aset a (set_f_next next (aget p a)) p | None => p end in
  let p := match next with Some b => aset b (set_f_prev prev (aget p b)) p | None => p end in
  aset i (set_f_next fr (aget p i)) p.

Lemma fly_remove_free s i :
  (_ ← fly_remove i; fly_free i) s =
  Ok tt (set_free_head (Some i) (set_pool (unlink i (f_prev (aget (fly_pool s) i)) (f_next (aget (fly_pool s) i)) (fly_free_head s) (fly_pool s)) s)).
Proof.
  unfold fly_remove, node. rewrite bind_bind, bind_gets. change (id i) with i. destruct s as [p fr h hi mi]. cbn [fly_pool fly_free_head].
  destruct (f_prev (aget p i)), (f_next (aget p i)); reflexivity.
Qed.

Lemma unlink_get i prev next fr p x : prev ≠ next ∨ prev = None → prev ≠ Some i → next ≠ Some i →
  f_next (aget (unlink i prev next fr p) x) =
    (if x =? i then fr else if decide (prev = Some x) then next else f_next (aget p x)) ∧
  f_prev (aget (unlink i prev next fr p) x) =
    (if decide (next = Some x) then prev else f_prev (aget p x)) ∧
  letter_of (aget (unlink i prev next fr p) x) = letter_of (aget p x).
Proof.
  intros Hpn Hp Hn. unfold unlink. rewrite (Z.eqb_sym x i).
  destruct prev as [a|], next as [b|]; rewrite !aget_aset;
    repeat match goal with |- context [?y =? ?z] => destruct (Z.eqb_spec y z) as [?|?]; try (exfalso; congruence); try subst end;
    repeat case_decide; try (exfalso; congruence); try done.
Qed.

Lemma last_lookup_eq (l : list Z) k x : NoDup l → l !! k = Some x → (list.last l = Some x ↔ S k = length l).
Proof.
  intros Hn Hk. rewrite list.last_lookup. split; [|intros <-; exact Hk]. intros E.
  pose proof (NoDup_lookup _ _ _ _ Hn Hk E). apply lookup_lt_Some in Hk. lia.
Qed.

(** What is left of the lists, from one of the letters' nodes. *)
Section Unlink.
Context (s : Letters) (ps1 ps2 fs : list Z) (i : Z).
Hypothesis Hwf : wf s (ps1 ++ i :: ps2) fs.

#[local] Abbreviation pool' := (unlink i (list.last ps1) (ps2 !! 0%nat) (fly_free_head s) (fly_pool s)).

Lemma unlink_nodup : NoDup (ps1 ++ i :: ps2).
Proof using Hwf. pose proof (sp_nodup _ _ (wf_split _ _ _ Hwf)) as H. now apply list.NoDup_app in H as (H & _). Qed.

Lemma unlink_apart x : x ∈ ps1 → x ≠ i ∧ x ∉ ps2.
Proof using Hwf.
  intros Hx. pose proof unlink_nodup as H. apply list.NoDup_app in H as (_ & H & _). specialize (H x Hx).
  rewrite elem_of_cons in H. tauto.
Qed.

Lemma unlink_not_in : (i ∉ ps1) ∧ (i ∉ ps2).
Proof using Hwf.
  pose proof unlink_nodup as H. apply list.NoDup_app in H as (_ & Hd & H). apply list.NoDup_cons in H as (H & _).
  split; [|exact H]. intros Hi. apply (Hd i Hi). now left.
Qed.

Lemma last_in x : list.last ps1 = Some x → x ∈ ps1.
Proof. intros H. rewrite list.last_lookup in H. exact (list_elem_of_lookup_2 _ _ _ H). Qed.

Lemma unlink_pool x :
  f_next (aget pool' x) =
    (if x =? i then fly_free_head s else if decide (list.last ps1 = Some x) then ps2 !! 0%nat else f_next (aget (fly_pool s) x)) ∧
  f_prev (aget pool' x) =
    (if decide (ps2 !! 0%nat = Some x) then list.last ps1 else f_prev (aget (fly_pool s) x)) ∧
  letter_of (aget pool' x) = letter_of (aget (fly_pool s) x).
Proof using Hwf.
  destruct unlink_not_in as (H1 & H2). apply unlink_get.
  - destruct (list.last ps1) as [a|] eqn:E; [left|now right]. intros E2. symmetry in E2. apply last_in in E.
    apply (proj2 (unlink_apart a E)). exact (list_elem_of_lookup_2 _ _ _ E2).
  - intros E. now apply last_in in E.
  - intros E. apply H2. exact (list_elem_of_lookup_2 _ _ _ E).
Qed.

Lemma unlink_linked : linked pool' (ps1 ++ ps2).
Proof using Hwf.
  pose proof (wf_linked _ _ _ Hwf) as Hl. pose proof unlink_nodup as Hnd. destruct unlink_not_in as [Hi1 Hi2].
  apply list.NoDup_app in Hnd as (Hn1 & _ & (_ & Hn2)%list.NoDup_cons).
  intros k x Hk. destruct (unlink_pool x) as (-> & -> & _).
  apply lookup_app_Some in Hk as [Hk|[Hge Hk]]; pose proof (list_elem_of_lookup_2 _ _ _ Hk) as Hx.
  - pose proof (lookup_lt_Some _ _ _ Hk) as Hlt. destruct (unlink_apart x Hx) as [Hxi Hx2].
    destruct (Hl k x) as [-> ->]; [rewrite lookup_app_l by lia; exact Hk|].
    replace (x =? i) with false by lia. rewrite (decide_False (P := ps2 !! 0%nat = Some x)) by
      (intros E; apply Hx2; exact (list_elem_of_lookup_2 _ _ _ E)). split.
    + pose proof (last_lookup_eq ps1 k x Hn1 Hk) as Hlast. case_decide as E.
      * apply Hlast in E. rewrite lookup_app_r by lia. now rewrite E, Nat.sub_diag.
      * assert (S k < length ps1)%nat by (assert (S k ≠ length ps1) by tauto; lia). now rewrite !lookup_app_l by lia.
    + destruct k as [|k]; [done|]. cbn [prev_of]. now rewrite !lookup_app_l by lia.
  - assert (x ≠ i) as Hxi by congruence. replace (x =? i) with false by lia.
    rewrite decide_False by (intros E; apply last_in in E; now apply (proj2 (unlink_apart x E))).
    destruct (Hl (S k) x) as [-> ->].
    { rewrite lookup_app_r by lia. now replace (S k - length ps1)%nat with (S (k - length ps1)) by lia. }
    split.
    + rewrite !lookup_app_r by lia. now replace (S (S k) - length ps1)%nat with (S (S k - length ps1)) by lia.
    + cbn [prev_of]. case_decide as E.
      * pose proof (NoDup_lookup _ _ _ _ Hn2 Hk E). replace k with (length ps1) by lia.
        rewrite list.last_lookup. destruct ps1 as [|a l]; [done|]. cbn [length prev_of]. rewrite lookup_app_l by (cbn [length]; lia). done.
      * destruct k as [|k]; [exfalso; apply E; rewrite <- Hk; f_equal; lia|]. cbn [prev_of].
        assert (S k ≠ length ps1) by (intros E2; apply E; rewrite <- Hk; f_equal; lia).
        rewrite !lookup_app_r by lia. now replace (S k - length ps1)%nat with (S (k - length ps1)) by lia.
Qed.

Lemma unlink_chained : chained pool' (i :: fs).
Proof using Hwf.
  destruct unlink_not_in as [Hi1 Hi2]. pose proof (wf_split _ _ _ Hwf) as Hs.
  intros [|k] x Hk; destruct (unlink_pool x) as (-> & _ & _); cbn in Hk.
  - injection Hk as ->. rewrite Z.eqb_refl. exact (wf_free _ _ _ Hwf).
  - pose proof (list_elem_of_lookup_2 _ _ _ Hk) as Hx. assert (∀ y, y ∈ ps1 ++ i :: ps2 → y ≠ x) as Hne.
    { intros y Hy ->. exact (split_disjoint _ _ _ Hs Hy Hx). }
    replace (x =? i) with false by (symmetry; apply Z.eqb_neq; intros ->; apply (Hne i); [apply elem_of_app; right; now left|done]).
    rewrite decide_False.
    + exact (wf_chained _ _ _ Hwf k x Hk).
    + intros E. apply (Hne x); [apply elem_of_app; left; now apply last_in|done].
Qed.

Lemma wf_unlink s' : fly_pool s' = pool' → fly_free_head s' = Some i →
  head s' = (if decide (head s = Some i) then ps2 !! 0%nat else head s) → wf s' (ps1 ++ ps2) (i :: fs).
Proof using Hwf.
  intros Hp Hf Hh. split; [exact (split_move _ _ _ _ (wf_split _ _ _ Hwf))| |exact Hf| | |done].
  - rewrite Hh, (wf_head _ _ _ Hwf). destruct unlink_not_in as [Hi1 _]. destruct ps1 as [|a l]; cbn.
    + now rewrite decide_True.
    + rewrite decide_False; [done|]. intros [= ->]. apply Hi1. now left.
  - rewrite Hp. exact unlink_linked.
  - rewrite Hp. exact unlink_chained.
Qed.

Lemma letters_of_unlink ps : letters_of pool' ps = letters_of (fly_pool s) ps.
Proof using Hwf. apply letters_of_ext. intros x _. apply unlink_pool. Qed.
End Unlink.

(** * A step of all letters *)

(** 7.9 in fixed point. *)
Definition margin : Z := 517734.
Lemma f2F_7_9_margin : f2F_7_9 = Some margin.
Proof. vm_compute. reflexivity. Qed.

Definition move (l : Letter) : Letter := mkLetter (s32 (l_x l + l_v l)) (l_y l) (l_text l) (l_v l).
Definition above (l : Letter) : bool := l_x l <? 0.
Definition below (l : Letter) : bool := int2F SCR_HEIGHT <? s32 (l_x l + margin).
Definition gone (l : Letter) : bool := above l || below l.
Definition step_letters (ls : list Letter) : list Letter := List.filter (λ l, negb (gone l)) (map move ls).

(** One more, as [++] of an [int] counts. *)
Definition inc_if (b : bool) (n : Z) : Z := if b then s32 (n + 1) else n.
Definition count_hits (ls : list Letter) (n : Z) : Z := fold_left (λ n l, inc_if (above l) n) (map move ls) n.
Definition count_misses (ls : list Letter) (n : Z) : Z :=
  fold_left (λ n l, inc_if (negb (above l) && below l) n) (map move ls) n.

Lemma letters_of_app p ps1 ps2 : letters_of p (ps1 ++ ps2) = letters_of p ps1 ++ letters_of p ps2.
Proof. apply map_app. Qed.

Lemma wf_nodup s ps fs : wf s ps fs → NoDup ps.
Proof. intros H. pose proof (sp_nodup _ _ (wf_split _ _ _ H)) as Hn. now apply list.NoDup_app in Hn as (Hn & _). Qed.

(** The letter of a node that leaves, and its removal. *)
Definition leave_list (it : Z) (next : option Z) (x : Z) : M Letters unit :=
  _ ← modify (λ s, if x <? 0 then set_hit (s32 (hit s + 1)) s else set_miss (s32 (miss s + 1)) s);
  _ ← fly_remove it;
  _ ← fly_free it;
  modify (λ s, if decide (head s = Some it) then set_head next s else s).

Lemma leave_ok s ps1 i ps2 fs x : wf s (ps1 ++ i :: ps2) fs → ∃ s',
  leave_list i (ps2 !! 0%nat) x s = Ok tt s' ∧ wf s' (ps1 ++ ps2) (i :: fs) ∧
  (∀ ps, letters_of (fly_pool s') ps = letters_of (fly_pool s) ps) ∧
  hit s' = inc_if (x <? 0) (hit s) ∧ miss s' = inc_if (negb (x <? 0)) (miss s).
Proof.
  intros H. unfold leave_list. rewrite bind_modify.
  set (s1 := if x <? 0 then _ else _).
  assert (wf s1 (ps1 ++ i :: ps2) fs) as H1.
  { destruct H. unfold s1. now destruct (x <? 0). }
  assert (fly_pool s1 = fly_pool s) as Hp by (unfold s1; now destruct (x <? 0)).
  pose proof (fly_remove_free s1 i) as E. destruct (wf_at _ _ _ _ _ H1) as [En Ep]. rewrite En, Ep in E.
  rewrite <- bind_bind. rewrite (bind_Ok _ _ _ _ _ E). eexists. split; [reflexivity|].
  change (head (set_free_head _ _)) with (head s1). set (s2 := set_free_head _ _).
  split; [|split; [|case_decide; unfold s2, s1, inc_if, negb; destruct (x <? 0); split; reflexivity]].
  - apply (wf_unlink s1 ps1 ps2 fs i H1); unfold s2; case_decide; done.
  - intros ps. rewrite <- Hp, <- (letters_of_unlink s1 ps1 ps2 fs i H1 ps). unfold s2. now case_decide.
Qed.

Definition moved (i : Z) (s : Letters) : Letters :=
  set_pool (aset i (set_fx (s32 (fx (aget (fly_pool s) i) + fv (aget (fly_pool s) i))) (aget (fly_pool s) i)) (fly_pool s)) s.

Lemma moved_letter s i : letter_of (aget (fly_pool (moved i s)) i) = move (letter_of (aget (fly_pool s) i)).
Proof. unfold moved. cbn [fly_pool set_pool]. now rewrite aget_aset_eq. Qed.

Lemma update_letters_cons fuel s ps1 i ps2 fs : wf s (ps1 ++ i :: ps2) fs →
  update_letters (S fuel) (Some i) s =
  (let l := move (letter_of (aget (fly_pool s) i)) in
   _ ← (if gone l then leave_list i (ps2 !! 0%nat) (l_x l) else mret tt); update_letters fuel (ps2 !! 0%nat)) (moved i s).
Proof.
  intros H. cbn [update_letters]. unfold node. rewrite bind_gets. change (id i) with i. cbv zeta.
  rewrite (bind_Ok _ _ _ _ _ (mod_node_run i _ s)). fold (moved i s). rewrite bind_gets. change (id i) with i.
  rewrite f2F_7_9_margin. change (of_option (S := Letters) (Some margin)) with (mret margin : M Letters Z). rewrite bind_ret.
  destruct (wf_at _ _ _ _ _ H) as [-> _]. unfold gone, above, below. rewrite <- moved_letter. reflexivity.
Qed.

Lemma count_hits_cons l ls n : count_hits (l :: ls) n = count_hits ls (inc_if (above (move l)) n).
Proof. reflexivity. Qed.
Lemma count_misses_cons l ls n : count_misses (l :: ls) n = count_misses ls (inc_if (negb (above (move l)) && below (move l)) n).
Proof. reflexivity. Qed.

Lemma update_letters_list ps2 fuel s ps1 fs : wf s (ps1 ++ ps2) fs → (length ps2 <= fuel)%nat → ∃ ps2' fs' s',
  update_letters fuel (ps2 !! 0%nat) s = Ok tt s' ∧ wf s' (ps1 ++ ps2') fs' ∧
  letters_of (fly_pool s') ps1 = letters_of (fly_pool s) ps1 ∧
  letters_of (fly_pool s') ps2' = step_letters (letters_of (fly_pool s) ps2) ∧
  hit s' = count_hits (letters_of (fly_pool s) ps2) (hit s) ∧ miss s' = count_misses (letters_of (fly_pool s) ps2) (miss s).
Proof.
  revert fuel s ps1 fs. induction ps2 as [|i ps2 IH]; intros fuel s ps1 fs H Hf.
  { exists [], fs, s. destruct fuel; done. }
  destruct fuel as [|fuel]; cbn [length] in Hf; [lia|]. change ((i :: ps2) !! 0%nat) with (Some i).
  rewrite (update_letters_cons _ _ _ _ _ _ H). cbv zeta. set (l := move (letter_of (aget (fly_pool s) i))).
  pose proof (wf_mod_node s _ fs i _ (same_links_fx (s32 (fx (aget (fly_pool s) i) + fv (aget (fly_pool s) i)))) H) as Hm.
  fold (moved i s) in Hm. destruct (unlink_not_in _ _ _ _ _ Hm) as [Hi1 Hi2].
  assert (∀ ps, i ∉ ps → letters_of (fly_pool (moved i s)) ps = letters_of (fly_pool s) ps) as Hps by
    (intros ps Hi; now apply letters_of_mod).
  change (letters_of (fly_pool s) (i :: ps2)) with (letter_of (aget (fly_pool s) i) :: letters_of (fly_pool s) ps2).
  rewrite count_hits_cons, count_misses_cons. fold l. unfold step_letters. cbn [map List.filter]. fold l.
  fold (step_letters (letters_of (fly_pool s) ps2)). destruct (gone l) eqn:Eg; cbn [negb].
  - destruct (leave_ok (moved i s) ps1 i ps2 fs (l_x l) Hm) as (s1 & E1 & H1 & Hl1 & Hh & Hmi).
    rewrite (bind_Ok _ _ _ _ _ E1). destruct (IH fuel s1 ps1 (i :: fs) H1 ltac:(lia)) as (ps2' & fs' & s' & E & Hw & L1 & L2 & Eh & Em).
    exists ps2', fs', s'. split; [exact E|]. split; [exact Hw|]. rewrite L1, L2, Eh, Em, !Hl1, Hh, Hmi, !Hps by done.
    repeat split; try reflexivity. f_equal. change (miss (moved i s)) with (miss s). unfold gone, above in *. unfold above.
    destruct (l_x l <? 0); [done|]. cbn [orb] in Eg. now rewrite Eg.
  - rewrite bind_ret. replace (ps1 ++ i :: ps2) with ((ps1 ++ [i]) ++ ps2) in Hm by now rewrite <- app_assoc.
    destruct (IH fuel (moved i s) (ps1 ++ [i]) fs Hm ltac:(lia)) as (ps2' & fs' & s' & E & Hw & L1 & L2 & Eh & Em).
    exists (i :: ps2'), fs', s'. split; [exact E|]. split; [now rewrite <- app_assoc in Hw|].
    rewrite !letters_of_app in L1. apply app_inj_1 in L1 as [L1 Li]; [|unfold letters_of; now rewrite !length_map].
    rewrite L1, Eh, Em, !Hps by done. apply orb_false_iff in Eg as [-> ->]. repeat split; try reflexivity.
    change (letters_of (fly_pool s') (i :: ps2')) with (letters_of (fly_pool s') [i] ++ letters_of (fly_pool s') ps2').
    rewrite Li, L2, (Hps ps2) by done. cbn [letters_of map app]. now rewrite moved_letter.
Qed.
