(* ===== verification/TypingSpec.v ===== *)
(** What the typing game promises: whatever keys are pressed, for any number of timer
    ticks an [int] counts, the game never fails: every loop ends, nothing is drawn outside
    the screen, and at most 14 letters are shown. *)
From stdpp Require Import strings.
From S2P Require Import Prelude Float FloatSpec GameScreen Typing TypingLists.
#[local] Open Scope Z_scope.

#[local] Abbreviation len l := (Z.of_nat (length l)).

(** * Letters as a list *)
Definition letters_rep (s : Letters) (ls : list Letter) : Prop :=
  ∃ ps fs, lists s ps fs ∧ letters_of (fly_pool s) ps = ls.

Lemma rep_length s ls : letters_rep s ls → len ls <= POOL_SIZE.
Proof.
  intros (ps & fs & [H|(-> & _)] & <-); unfold letters_of; rewrite length_map; [|unfold POOL_SIZE; cbn; lia].
  pose proof (sp_length _ _ (wf_split _ _ _ H)) as Hl. rewrite length_app in Hl. pose proof (wf_nonempty _ _ _ H) as Hn.
  destruct fs as [|f fs]; [done|]. cbn [length] in Hl. lia.
Qed.

Lemma update_letters_rep s ls : letters_rep s ls → ∃ s',
  update_letters list_fuel (head s) s = Ok tt s' ∧ letters_rep s' (step_letters ls) ∧
  hit s' = count_hits ls (hit s) ∧ miss s' = count_misses ls (miss s).
Proof.
  intros H. pose proof (rep_length _ _ H) as Hn. destruct H as (ps & fs & [H|(-> & Hfs & Hu)] & E).
  - rewrite (wf_head _ _ _ H). destruct (update_letters_list ps list_fuel s [] fs H) as (ps' & fs' & s' & Er & Hw & _ & L & Eh & Em).
    { apply Nat2Z.inj_le. rewrite <- E in Hn. unfold letters_of in Hn. rewrite length_map in Hn. unfold list_fuel, POOL_SIZE in *. lia. }
    exists s'. rewrite E in *. split; [exact Er|]. split; [|done]. exists ps', fs'. split; [now left|exact L].
  - subst ls. destruct Hu as (Hh & Hu). rewrite Hh. exists s. split; [reflexivity|]. split; [|done].
    exists [], fs. split; [right; done|done].
Qed.

(** * A new letter *)
Definition fall_speed (r : Z) : Z := r * 65536 / 2000 + 32768.
Definition new_letter (r1 r2 r3 : Z) : Letter := mkLetter 0 (r1 mod 38 * 8 + 8) (r3 mod 26) (fall_speed (r2 mod 1000)).

Lemma f2F_0_5_half : f2F_0_5 = Some 32768.
Proof. vm_compute. reflexivity. Qed.

Lemma speed_quotient r : 0 <= r < 1000 → F_div_F (int2F r) (int2F 2000) = Some (r * 65536 / 2000).
Proof.
  intros Hr. assert (∀ x, 0 <= x < 32768 → int2F x = x * 65536) as Hi.
  { intros x Hx. unfold int2F. rewrite Z.shiftl_mul_pow2 by done. apply sgn_small; [done|lia]. }
  rewrite !Hi by lia. unfold F_div_F. replace (r * 65536 <? 0) with false by lia. replace (2000 * 65536 <? 0) with false by done.
  cbv zeta beta iota. replace (2000 * 65536 =? 0) with false by done. f_equal.
  rewrite Z.mul_1_r, F_div_pos by lia. rewrite Z.div_mul_cancel_r by done. apply sgn_small; [done|]. clear - Hr. lia.
Qed.

Lemma fall_speed_range r : 0 <= r < 1000 → 32768 <= fall_speed r <= 65503.
Proof. unfold fall_speed. lia. Qed.

(** An assignment to the fields of a node. *)
Definition upd (i : Z) (f : fly → fly) (s : Letters) : Letters := set_pool (aset i (f (aget (fly_pool s) i)) (fly_pool s)) s.

Lemma upd_get i f s : aget (fly_pool (upd i f s)) i = f (aget (fly_pool s) i).
Proof. apply aget_aset_eq. Qed.
Lemma upd_others i f s ps : i ∉ ps → letters_of (fly_pool (upd i f s)) ps = letters_of (fly_pool s) ps.
Proof. apply letters_of_mod. Qed.

Section Game.
Context `{HRand : !LibcRand}.

Lemma in_letters_Ok {A} (m : M Letters A) g a s : m (letters g) = Ok a s → in_letters m g = Ok a (set_letters s g).
Proof. unfold in_letters, zoom. now intros ->. Qed.
Lemma in_keys_Ok {A} (m : M Keys A) g a s : m (keys g) = Ok a s → in_keys m g = Ok a (set_keys s g).
Proof. unfold in_keys, zoom. now intros ->. Qed.
Lemma in_screen_Ok {A} (m : M Screen A) g a s : m (screen g) = Ok a s → in_screen m g = Ok a (set_screen s g).
Proof. unfold in_screen, zoom. now intros ->. Qed.

Lemma set_letters_self g : set_letters (letters g) g = g.
Proof. now destruct g. Qed.
Lemma set_keys_self g : set_keys (keys g) g = g.
Proof. now destruct g. Qed.

(** The three random numbers of a letter, and the generator after them. *)
Definition rand3 (st : rand_state) : Z * Z * Z * rand_state :=
  let '(r1, st) := libc_rand st in let '(r2, st) := libc_rand st in let '(r3, st) := libc_rand st in (r1, r2, r3, st).

Lemma release_key_ok i k : 0 <= i < 26 → release_key i k = Ok tt (set_pressed i false k).
Proof. intros H. unfold release_key. replace ((0 <=? i) && (i <? 26)) with true by lia. reflexivity. Qed.

(** The state of the creation of a letter. *)
Definition filling (st : rand_state) (s : Letters) (g : Game) : Game := set_g_rand st (set_letters s g).

Lemma bind_rand {A} (k : Z → M Game A) st s g :
  (rand ≫= k) (filling st s g) = let '(r, st) := libc_rand st in k r (filling st s g).
Proof. unfold rand, mbind, M_bind, filling. cbn [g_rand set_g_rand set_letters]. now destruct (libc_rand st). Qed.

Lemma bind_mod_node {A} i f (k : unit → M Game A) st s g :
  (in_letters (mod_node i f) ≫= k) (filling st s g) = k tt (filling st (upd i f s) g).
Proof. reflexivity. Qed.

Lemma bind_of_option {S A B} (a : A) (k : A → M S B) s : (of_option (Some a) ≫= k) s = k a s.
Proof. reflexivity. Qed.

Lemma create_new_letter_ok g ls : letters_rep (letters g) ls → len ls <= POOL_SIZE - 1 → ∃ s,
  let '(r1, r2, r3, st) := rand3 (g_rand g) in
  create_new_letter g = Ok tt (set_keys (set_pressed (r3 mod 26) false (keys g)) (set_g_rand st (set_letters s g))) ∧
  letters_rep s (new_letter r1 r2 r3 :: ls) ∧ hit s = hit (letters g) ∧ miss s = miss (letters g).
Proof.
  intros (ps & fs & Hl & El) Hn. assert (len ps <= POOL_SIZE - 1) as Hn' by (rewrite <- El in Hn; unfold letters_of in Hn; now rewrite length_map in Hn).
  destruct (new_front_ok _ _ _ Hl Hn') as (i & fs' & s1 & E & Hw & Hi & L & Hh & Hm).
  unfold create_new_letter. rewrite (bind_Ok _ _ _ _ _ (in_letters_Ok _ _ _ _ E)), bind_gets.
  change (letters (set_letters s1 g)) with s1. rewrite (wf_head _ _ _ Hw). change ((i :: ps) !! 0%nat) with (Some i). unfold id.
  replace (set_letters s1 g) with (filling (g_rand g) s1 g) by now destruct g. unfold rand3.
  destruct (libc_rand (g_rand g)) as [r1 st1] eqn:R1, (libc_rand st1) as [r2 st2] eqn:R2, (libc_rand st2) as [r3 st3] eqn:R3.
  rewrite bind_mod_node, bind_rand, R1, bind_mod_node, bind_rand, R2, speed_quotient by (apply Z.mod_pos_bound; done).
  rewrite f2F_0_5_half, !bind_of_option, bind_mod_node, bind_rand, R3, bind_mod_node. set (s5 := upd _ _ (upd _ _ _)).
  rewrite (bind_Ok _ _ _ _ _ (in_letters_Ok (node i) _ _ _ eq_refl)).
  change (aget (fly_pool (letters (filling st3 s5 g))) i) with (aget (fly_pool s5) i).
  assert (letter_of (aget (fly_pool s5) i) = new_letter r1 r2 r3) as E5.
  { unfold s5. rewrite !upd_get. unfold new_letter, fall_speed. cbn [l_x l_y l_text l_v].
    pose proof (fall_speed_range (r2 mod 1000) ltac:(apply Z.mod_pos_bound; done)) as H. unfold fall_speed in H.
    cbn [letter_of set_fx set_fy set_fv set_ftext fx fy ftext fv]. rewrite sgn_small; [reflexivity|done|clear - H; lia]. }
  assert (ftext (aget (fly_pool s5) i) = r3 mod 26) as Ht by exact (f_equal l_text E5).
  exists s5. rewrite Ht. rewrite (in_keys_Ok _ _ _ _ (release_key_ok (r3 mod 26) _ (Z.mod_pos_bound r3 26 eq_refl))).
  split; [unfold filling; now destruct g|]. split; [|now rewrite <- Hh, <- Hm].
  exists (i :: ps), fs'. split; [left; unfold s5; now repeat (apply wf_mod_node; [now split|])|].
  change (letter_of (aget (fly_pool s5) i) :: letters_of (fly_pool s5) ps = new_letter r1 r2 r3 :: ls).
  unfold s5 at 2. rewrite E5, !upd_others, L, El by done. reflexivity.
Qed.

(** * Keys *)

(** A falling letter whose key is pressed. *)
Definition wanted (k : Keys) (l : Letter) : bool := (0 <? l_v l) && aget (letter_pressed k) (l_text l).
Definition struck (l : Letter) : Letter := mkLetter (l_x l) (l_y l) (l_text l) (- 196608).
Definition text_ok (l : Letter) : Prop := 0 <= l_text l < 26.

Section Target.
Context (p : arr fly) (k : Keys).
#[local] Abbreviation at_ i := (letter_of (aget p i)).

Fixpoint lowest (ps : list Z) (min : Z) (target : option Z) : option Z :=
  match ps with
  | [] => target
  | i :: ps => if wanted k (at_ i) && (min <? l_x (at_ i)) then lowest ps (l_x (at_ i)) (Some i) else lowest ps min target
  end.

Lemma lowest_spec ps min target :
  match lowest ps min target with
  | Some t => (target = Some t ∧ (∀ i, i ∈ ps → wanted k (at_ i) = true → l_x (at_ i) <= min)) ∨
      (t ∈ ps ∧ wanted k (at_ t) = true ∧ min < l_x (at_ t) ∧ ∀ i, i ∈ ps → wanted k (at_ i) = true → l_x (at_ i) <= l_x (at_ t))
  | None => target = None ∧ ∀ i, i ∈ ps → wanted k (at_ i) = true → l_x (at_ i) <= min
  end.
Proof.
  revert min target. induction ps as [|i ps IH]; intros min target; cbn [lowest].
  { assert (∀ i, i ∈ [] → wanted k (at_ i) = true → l_x (at_ i) <= min) by (intros i []%not_elem_of_nil). destruct target; auto. }
  destruct (wanted k (at_ i) && (min <? l_x (at_ i))) eqn:E.
  - apply andb_prop in E as [Ew Ex]. specialize (IH (l_x (at_ i)) (Some i)).
    destruct (lowest ps (l_x (at_ i)) (Some i)) as [t|]; [|now destruct IH]. right.
    destruct IH as [([= <-] & H)|(Ht & Hw & Hx & H)].
    + split; [now left|]. split; [done|]. split; [lia|]. intros j [->|Hj]%elem_of_cons Hj'; [lia|auto].
    + split; [now right|]. split; [done|]. split; [lia|]. intros j [->|Hj]%elem_of_cons Hj'; [lia|auto].
  - specialize (IH min target). assert (wanted k (at_ i) = true → l_x (at_ i) <= min) as Hi.
    { intros Hw. rewrite Hw, andb_true_l in E. lia. }
    destruct (lowest ps min target) as [t|].
    + destruct IH as [(-> & H)|(Ht & Hw & Hx & H)]; [left|right].
      * split; [done|]. intros j [->|Hj]%elem_of_cons Hj'; auto.
      * split; [now right|]. split; [done|]. split; [done|]. intros j [->|Hj]%elem_of_cons Hj'; [specialize (Hi Hj'); lia|auto].
    + destruct IH as (-> & H). split; [done|]. intros j [->|Hj]%elem_of_cons Hj'; auto.
Qed.
End Target.

Lemma lists_linked s ps fs : lists s ps fs → head s = ps !! 0%nat ∧ linked (fly_pool s) ps.
Proof.
  intros [H|(-> & _ & Hu)]; [split; [exact (wf_head _ _ _ H)|exact (wf_linked _ _ _ H)]|].
  split; [apply Hu|]. intros k i Hk. now rewrite lookup_nil in Hk.
Qed.

Lemma chained_cons p i ps : chained p (i :: ps) → f_next (aget p i) = ps !! 0%nat ∧ chained p ps.
Proof. intros H. split; [exact (H 0%nat i eq_refl)|]. intros k j Hj. exact (H (S k) j Hj). Qed.

Lemma query_key_ok i k : 0 <= i < 26 → query_key i k = Ok (aget (letter_pressed k) i) k.
Proof. intros H. unfold query_key. now replace ((0 <=? i) && (i <? 26)) with true by lia. Qed.

Lemma find_target_ok ps fuel min target g : chained (fly_pool (letters g)) ps → (length ps <= fuel)%nat →
  (∀ i, i ∈ ps → text_ok (letter_of (aget (fly_pool (letters g)) i))) →
  find_target fuel (ps !! 0%nat) min target g = Ok (lowest (fly_pool (letters g)) (keys g) ps min target) g.
Proof.
  revert fuel min target. induction ps as [|i ps IH]; intros fuel min target Hc Hf Ht; [now destruct fuel|].
  destruct fuel as [|fuel]; cbn [length] in Hf; [lia|]. destruct (chained_cons _ _ _ Hc) as [Hn Hc'].
  change ((i :: ps) !! 0%nat) with (Some i). cbn [find_target lowest].
  rewrite (bind_Ok _ _ _ _ _ (in_letters_Ok (node i) g _ _ eq_refl)), set_letters_self, Hn.
  pose proof (Ht i ltac:(now left)) as Hi. unfold text_ok in Hi. cbn [letter_of l_text] in Hi.
  rewrite bind_cassert by lia. specialize (IH fuel). set (f := aget (fly_pool (letters g)) i) in *.
  assert (((if (0 <? fv f) && (min <? fx f) then in_keys (query_key (ftext f)) else mret false) : M Game bool) g =
    Ok (wanted (keys g) (letter_of f) && (min <? l_x (letter_of f))) g) as Eq.
  { unfold wanted. cbn [letter_of l_v l_text l_x]. destruct (0 <? fv f), (min <? fx f); cbn [andb]; rewrite ?andb_false_r, ?andb_true_r;
      try reflexivity. rewrite (in_keys_Ok _ _ _ _ (query_key_ok (ftext f) (keys g) Hi)). now rewrite set_keys_self. }
  rewrite (bind_Ok _ _ _ _ _ Eq). change (fx f) with (l_x (letter_of f)).
  destruct (wanted (keys g) (letter_of f) && (min <? l_x (letter_of f))); apply IH; try lia; try done; intros j Hj; apply Ht; now right.
Qed.

Lemma rep_split s ps fs t : lists s ps fs → t ∈ ps → ∃ ls1 ls2,
  letters_of (fly_pool s) ps = ls1 ++ letter_of (aget (fly_pool s) t) :: ls2 ∧
  ∀ f, same_links f → letters_rep (upd t f s) (ls1 ++ letter_of (f (aget (fly_pool s) t)) :: ls2).
Proof.
  intros [H|(-> & _)] Ht; [|now apply not_elem_of_nil in Ht].
  apply list_elem_of_split in Ht as (ps1 & ps2 & ->). destruct (unlink_not_in _ _ _ _ _ H) as [H1 H2].
  exists (letters_of (fly_pool s) ps1), (letters_of (fly_pool s) ps2). split; [apply letters_of_app|].
  intros f Hf. exists (ps1 ++ t :: ps2), fs. split; [left; now apply wf_mod_node|].
  rewrite letters_of_app. change (letters_of (fly_pool (upd t f s)) (t :: ps2)) with
    (letter_of (aget (fly_pool (upd t f s)) t) :: letters_of (fly_pool (upd t f s)) ps2).
  now rewrite !upd_others, upd_get by done.
Qed.

Lemma upd_counts i f s : hit (upd i f s) = hit s ∧ miss (upd i f s) = miss s.
Proof. done. Qed.

(** The start of the search, above any letter. *)
Definition min0 : Z := - 6553600.

Lemma update_keypress_ok g ls : letters_rep (letters g) ls → Forall text_ok ls → Forall (λ l, min0 < l_x l) ls →
  (∃ ls1 l ls2 s, ls = ls1 ++ l :: ls2 ∧ wanted (keys g) l = true ∧
     (∀ l', l' ∈ ls → wanted (keys g) l' = true → l_x l' <= l_x l) ∧
     update_keypress g = Ok true (set_letters s (set_keys (set_pressed (l_text l) false (keys g)) (set_ints false g))) ∧
     letters_rep s (ls1 ++ struck l :: ls2) ∧ hit s = hit (letters g) ∧ miss s = miss (letters g)) ∨
  ((∀ l, l ∈ ls → wanted (keys g) l = false) ∧ update_keypress g = Ok false (set_ints true g)).
Proof.
  intros Hr Ht Hx. pose proof (rep_length _ _ Hr) as Hn. destruct Hr as (ps & fs & Hl & E). rewrite <- E in *.
  destruct (lists_linked _ _ _ Hl) as [Hh Hlk]. set (p := fly_pool (letters g)) in *.
  assert (∀ i, i ∈ ps → letter_of (aget p i) ∈ letters_of p ps) as Hin.
  { intros i Hi. apply list_elem_of_In, (in_map (λ i, letter_of (aget p i))), list_elem_of_In, Hi. }
  assert (∀ l, l ∈ letters_of p ps → ∃ i, i ∈ ps ∧ letter_of (aget p i) = l) as Hout.
  { intros l Hl'. apply list_elem_of_In, in_map_iff in Hl' as (i & Ei & Hi). exists i. split; [now apply list_elem_of_In|done]. }
  rewrite list.Forall_forall in Ht, Hx.
  assert (find_target list_fuel (head (letters g)) min0 None (set_ints false g) = Ok (lowest p (keys g) ps min0 None) (set_ints false g)) as Ef.
  { rewrite Hh. apply (find_target_ok ps list_fuel min0 None (set_ints false g)).
    - intros k i Hk. apply (Hlk k i Hk).
    - unfold letters_of in Hn. rewrite length_map in Hn. unfold list_fuel, POOL_SIZE in *. lia.
    - intros i Hi. apply Ht, Hin, Hi. }
  unfold update_keypress, cli. rewrite bind_modify, bind_gets. change (id _) with (head (letters g)).
  change (s32 (- int2F 100)) with min0. rewrite (bind_Ok _ _ _ _ _ Ef).
  pose proof (lowest_spec p (keys g) ps min0 None) as Hlow. destruct (lowest p (keys g) ps min0 None) as [i|].
  - destruct Hlow as [([=] & _)|(Hi & Hw & _ & Hmax)]. left. destruct (rep_split _ _ _ i Hl Hi) as (ls1 & ls2 & Es & Hs).
    fold p in Es, Hs. rewrite (bind_Ok _ _ _ _ _ (in_letters_Ok (node i) (set_ints false g) _ _ eq_refl)).
    change (aget (fly_pool (letters (set_ints false g))) i) with (aget p i).
    rewrite (bind_Ok _ _ _ _ _ (in_keys_Ok _ _ _ _ (release_key_ok (ftext (aget p i)) _ (Ht _ (Hin i Hi))))).
    exists ls1, (letter_of (aget p i)), ls2, (upd i (set_fv (s32 (- int2F 3))) (letters g)).
    split; [exact Es|]. split; [exact Hw|].
    split; [intros l (j & Hj & <-)%Hout; now apply Hmax|]. split; [now destruct g|].
    split; [exact (Hs _ (same_links_fv _))|]. apply upd_counts.
  - destruct Hlow as (_ & Hno). right. split; [|reflexivity]. intros l Hl'. destruct (Hout l Hl') as (i & Hi & <-).
    destruct (wanted (keys g) (letter_of (aget p i))) eqn:Ew; [|done]. specialize (Hno i Hi Ew). specialize (Hx _ Hl'). cbn beta in Hx. lia.
Qed.

(** What the key presses do to one letter. *)
Definition struck_by (k : Keys) (l l' : Letter) : Prop := l' = l ∨ (wanted k l = true ∧ l' = struck l).

Definition falling (ls : list Letter) : nat := length (List.filter (λ l, 0 <? l_v l) ls).

Lemma falling_struck ls1 l ls2 : 0 < l_v l → (falling (ls1 ++ struck l :: ls2) < falling (ls1 ++ l :: ls2))%nat.
Proof.
  intros H. unfold falling. rewrite !List.filter_app, !length_app. cbn [List.filter struck l_v].
  replace (0 <? l_v l) with true by lia. cbn. lia.
Qed.

Lemma wanted_pressed k k' l : (∀ i, aget (letter_pressed k') i = true → aget (letter_pressed k) i = true) →
  wanted k' l = true → wanted k l = true.
Proof. intros H [Hv Hp]%andb_prop. unfold wanted. rewrite Hv. now rewrite (H _ Hp). Qed.

Lemma struck_by_trans k k' ls ls' ls'' : (∀ i, aget (letter_pressed k') i = true → aget (letter_pressed k) i = true) →
  Forall2 (struck_by k) ls ls' → Forall2 (struck_by k') ls' ls'' → Forall2 (struck_by k) ls ls''.
Proof.
  intros Hk H. revert ls''. induction H as [|l l' ls ls' Hl _ IH]; intros ls''.
  { intros H'. now apply Forall2_nil_inv_l in H' as ->. }
  intros (l'' & ls2 & H2 & H' & ->)%Forall2_cons_inv_l. constructor; [|now apply IH].
  destruct Hl as [->|[Hw ->]].
  - destruct H2 as [->|[Hw ->]]; [now left|right; split; [exact (wanted_pressed _ _ _ Hk Hw)|done]].
  - destruct H2 as [->|[[Hv _]%andb_prop ->]]; [now right|]. cbn in Hv. lia.
Qed.

Lemma Forall_replaced {A} (P : A → Prop) ls1 l l' ls2 : (P l → P l') → Forall P (ls1 ++ l :: ls2) → Forall P (ls1 ++ l' :: ls2).
Proof. rewrite !list.Forall_app, !list.Forall_cons. tauto. Qed.

Lemma keypress_loop_ok fuel g ls : letters_rep (letters g) ls → Forall text_ok ls → Forall (λ l, min0 < l_x l) ls →
  (falling ls < fuel)%nat → ∃ s k ls',
  keypress_loop fuel g = Ok tt (set_letters s (set_keys k (set_ints true g))) ∧ letters_rep s ls' ∧
  Forall2 (struck_by (keys g)) ls ls' ∧ (∀ l, l ∈ ls' → wanted k l = false) ∧
  key_code k = key_code (keys g) ∧ hit s = hit (letters g) ∧ miss s = miss (letters g).
Proof.
  revert g ls. induction fuel as [|fuel IH]; intros g ls Hr Ht Hx Hf; [lia|]. cbn [keypress_loop].
  destruct (update_keypress_ok g ls Hr Ht Hx) as [(ls1 & l & ls2 & s & -> & Hw & Hmax & E & Hs & Hh & Hm)|[Hno E]];
    rewrite (bind_Ok _ _ _ _ _ E).
  - set (g1 := set_letters s _). apply andb_prop in Hw as Hw'. destruct Hw' as [Hv Hp].
    destruct (IH g1 (ls1 ++ struck l :: ls2)) as (s' & k' & ls' & E' & Hs' & Hst & Hno & Hk & Hh' & Hm').
    + exact Hs.
    + exact (Forall_replaced text_ok ls1 l (struck l) ls2 (λ H, H) Ht).
    + exact (Forall_replaced (λ l, min0 < l_x l) ls1 l (struck l) ls2 (λ H, H) Hx).
    + pose proof (falling_struck ls1 l ls2 ltac:(lia)). lia.
    + exists s', k', ls'. split; [rewrite E'; now destruct g|]. split; [exact Hs'|]. split.
      * eapply struck_by_trans; [|apply Forall2_app; [|constructor; [right; split; [exact Hw|reflexivity]|]]|exact Hst].
        -- intros i. cbn [keys g1 set_letters set_keys set_pressed letter_pressed]. rewrite aget_aset. now destruct (l_text l =? i).
        -- clear. induction ls1; constructor; [now left|done].
        -- clear. induction ls2; constructor; [now left|done].
      * split; [exact Hno|]. split; [exact Hk|]. split; [now rewrite Hh'|now rewrite Hm'].
  - exists (letters g), (keys g), ls. split; [now destruct g|]. split; [exact Hr|]. split; [|done].
    clear. induction ls; constructor; [now left|done].
Qed.
End Game.
