(* ===== verification/RedrawSpec.v ===== *)
(** The picture of the typing game: [redraw_screen] shows the letters at their places, the
    last key, the counts and the frame rate, and nothing else. *)
From stdpp Require Import strings.
From S2P Require Import Prelude Float GameScreen Typing TypingLists TypingSpec ScreenSpec.
#[local] Open Scope Z_scope.

#[local] Abbreviation len l := (Z.of_nat (length l)).

(** * Numbers as text *)
Definition ascii_text (str : list Z) : Prop := Forall (λ ch, 0 <= ch < 128) str.

Lemma bytes_app s1 s2 : bytes (s1 +:+ s2)%string = bytes s1 ++ bytes s2.
Proof. unfold bytes. induction s1 as [|a s1 IH]; [done|].
  change (String a s1 +:+ s2)%string with (String a (s1 +:+ s2))%string. cbn. f_equal. exact IH.
Qed.

Lemma bytes_digit d : 0 <= d < 10 → bytes (digit d) = [48 + d].
Proof.
  intros Hd. unfold bytes, digit. cbn [String.list_ascii_of_string map]. rewrite Ascii.N_ascii_embedding by lia.
  now rewrite Z2N.id by lia.
Qed.

Lemma dec_text n k x : 0 <= x < 10 ^ Z.of_nat k → (1 <= k)%nat → ascii_text (bytes (dec n x)) ∧ len (bytes (dec n x)) <= Z.of_nat k.
Proof.
  revert k x. induction n as [|n IH]; intros k x Hx Hk; [split; [constructor|cbn; lia]|]. cbn [dec].
  destruct (Z.ltb_spec x 10).
  - rewrite bytes_digit by lia. split; [repeat constructor; lia|cbn; lia].
  - rewrite bytes_app, bytes_digit by (apply Z.mod_pos_bound; done). destruct k as [|[|k]]; [lia|change (10 ^ Z.of_nat 1) with 10 in Hx; lia|].
    rewrite (Nat2Z.inj_succ (S k)), Z.pow_succ_r in Hx by lia.
    destruct (IH (S k) (x / 10)) as [Ht Hl]; [|lia|].
    { split; [apply Z.div_pos; lia|]. apply Z.div_lt_upper_bound; lia. }
    split.
    + apply list.Forall_app. split; [exact Ht|]. repeat constructor; pose proof (Z.mod_pos_bound x 10 eq_refl); lia.
    + rewrite length_app. cbn [length]. lia.
Qed.

Lemma itoa_text k x : 0 <= x < 10 ^ Z.of_nat k → (1 <= k)%nat → ascii_text (itoa x) ∧ len (itoa x) <= Z.of_nat k.
Proof. intros Hx Hk. unfold itoa. replace (x <? 0) with false by lia. now apply dec_text. Qed.

(** * Pictures *)
Record Text := mkText { t_str : list Z; t_row : Z; t_col : Z; t_color : Z }.

Definition text_fits (t : Text) : Prop :=
  ascii_text (t_str t) ∧ 0 <= t_row t <= SCR_HEIGHT - 8 ∧ 0 <= t_col t ∧ t_col t + 8 * len (t_str t) <= SCR_WIDTH.

(** The byte [a] of the picture [f] once [t] is drawn over it. *)
Definition paint (f : Z → Z) (t : Text) (a : Z) : Z :=
  if in_text (t_str t) (row a - t_row t) (col a - t_col t) then u8 (t_color t) else f a.
Definition picture (f : Z → Z) (ts : list Text) : Z → Z := fold_left paint ts f.

Section Game.
Context `{HRand : !LibcRand}.

Lemma picture_snoc ts f t a : picture f (ts ++ [t]) a = paint (picture f ts) t a.
Proof. unfold picture. now rewrite fold_left_app. Qed.

(** The buffer shows [ts]. *)
Definition shows (ts : list Text) (b : Z → Z) : Prop := ∀ a, 0 <= a < SCR_SIZE → b a = picture (λ _, 0) ts a.

(** Drawing [t] on a screen that shows [ts]. *)
Lemma draw_text_ok t ts g : text_fits t → shows ts (aget (vbuf (screen g))) →
  ∃ b, in_screen (draw_string (t_str t) (t_row t) (t_col t) (t_color t)) g = Ok tt (set_screen (set_vbuf b (screen g)) g) ∧
    shows (ts ++ [t]) (aget b).
Proof.
  intros (Hc & Hx & Hy & Hl) H. destruct (draw_string_ok (t_str t) (t_row t) (t_col t) (t_color t) (screen g) Hc Hx Hy Hl) as (b & E & Hb).
  exists b. split; [exact (in_screen_Ok _ _ _ _ E)|]. intros a Ha. rewrite picture_snoc. unfold paint. now rewrite Hb, H.
Qed.

Definition letter_text (l : Letter) : Text := mkText [l_text l + 65] (F2int (l_x l)) (l_y l) 15.
Definition visible (l : Letter) : Prop := text_ok l ∧ 0 <= F2int (l_x l) <= SCR_HEIGHT - 8 ∧ 0 <= l_y l <= SCR_WIDTH - 8.

Lemma visible_fits l : visible l → text_fits (letter_text l).
Proof.
  intros (Ht & Hx & Hy). unfold text_ok in Ht. split; [repeat constructor; cbn; lia|]. cbn [letter_text t_str t_row t_col length].
  unfold SCR_WIDTH, SCR_HEIGHT in *. lia.
Qed.

Lemma draw_letters_ok ps fuel ts g : chained (fly_pool (letters g)) ps → (length ps <= fuel)%nat →
  Forall visible (letters_of (fly_pool (letters g)) ps) → shows ts (aget (vbuf (screen g))) →
  ∃ b, draw_letters fuel (ps !! 0%nat) g = Ok tt (set_screen (set_vbuf b (screen g)) g) ∧
    shows (ts ++ map letter_text (letters_of (fly_pool (letters g)) ps)) (aget b).
Proof.
  revert fuel ts g. induction ps as [|i ps IH]; intros fuel ts g Hc Hf Hv Hs.
  { exists (vbuf (screen g)). split; [destruct fuel, g as [? ? ? ? ? []]; reflexivity|]. cbn. now rewrite app_nil_r. }
  destruct fuel as [|fuel]; cbn [length] in Hf; [lia|]. destruct (chained_cons _ _ _ Hc) as [Hn Hc'].
  change ((i :: ps) !! 0%nat) with (Some i). cbn [draw_letters letters_of map] in *. apply list.Forall_cons in Hv as [Hvi Hv].
  rewrite (bind_Ok _ _ _ _ _ (in_letters_Ok (node i) g _ _ eq_refl)), set_letters_self, Hn.
  set (f := aget (fly_pool (letters g)) i) in *. change (nth 0 (bytes "A") 0) with 65. cbv zeta.
  destruct Hvi as (Ht & Hv2) eqn:EE. replace (ftext f + 65 =? 0) with false by (unfold text_ok in Ht; cbn in Ht; lia).
  destruct (draw_text_ok (letter_text (letter_of f)) ts g (visible_fits _ Hvi) Hs) as (b & E & Hb).
  change (in_screen (draw_string [ftext f + 65] (F2int (fx f)) (fy f) 15) g = Ok tt (set_screen (set_vbuf b (screen g)) g)) in E.
  rewrite (bind_Ok _ _ _ _ _ E). destruct (IH fuel (ts ++ [letter_text (letter_of f)]) (set_screen (set_vbuf b (screen g)) g))
    as (b' & E' & Hb'); [exact Hc'|lia|exact Hv|exact Hb|].
  exists b'. split; [rewrite E'; now destruct g as [? ? ? ? ? []]|]. now rewrite <- app_assoc in Hb'.
Qed.

Definition on_buf (b : arr Z) (g : Game) : Game := set_screen (set_vbuf b (screen g)) g.

Lemma draw_text_on {A} (k : unit → M Game A) t ts b g str x y color : text_fits t → shows ts (aget b) →
  t = mkText str x y color →
  ∃ b', (in_screen (draw_string str x y color) ≫= k) (on_buf b g) = k tt (on_buf b' g) ∧ shows (ts ++ [t]) (aget b').
Proof.
  intros Ht Hs ->. destruct (draw_text_ok _ ts (on_buf b g) Ht Hs) as (b' & E & Hb'). exists b'. split; [|exact Hb'].
  exact (bind_Ok _ _ _ _ _ E).
Qed.

(** The texts around the letters. *)
Definition status_texts (code h m fps : Z) : list Text := [
  mkText (itoa code) (SCR_HEIGHT - 8) 0 48;
  mkText (itoa h) 0 (SCR_WIDTH - strlen (itoa h) * 8) 10;
  mkText (itoa m) (SCR_HEIGHT - 8) (SCR_WIDTH - strlen (itoa m) * 8) 12;
  mkText (itoa fps) 0 0 14;
  mkText (bytes "FPS") 0 (strlen (itoa fps) * 8) 14].

(** Numbers that fit on the screen. *)
Definition number (x : Z) : Prop := 0 <= x < 10 ^ 10.

Lemma number_fits r c x color : number x → 0 <= r <= SCR_HEIGHT - 8 → 0 <= c → c + 8 * len (itoa x) <= SCR_WIDTH →
  text_fits (mkText (itoa x) r c color).
Proof. intros Hx Hr Hc Hl. destruct (itoa_text 10 x Hx ltac:(lia)). split; [done|]. cbn [t_row t_col t_str]. auto. Qed.

Lemma status_fits code h m fps : number code → number h → number m → number fps → Forall text_fits (status_texts code h m fps).
Proof.
  intros Hc Hh Hm Hf. destruct (itoa_text 10 code Hc ltac:(lia)) as [_ Lc], (itoa_text 10 h Hh ltac:(lia)) as [_ Lh],
    (itoa_text 10 m Hm ltac:(lia)) as [_ Lm], (itoa_text 10 fps Hf ltac:(lia)) as [_ Lf].
  unfold strlen, SCR_WIDTH, SCR_HEIGHT, status_texts in *.
  repeat apply list.Forall_cons_2; try (apply number_fits; unfold SCR_WIDTH, SCR_HEIGHT, strlen; try done; lia); [|done].
  split; [repeat constructor; lia|]. cbn [t_row t_col t_str]. change (len (bytes "FPS")) with 3. unfold strlen, SCR_HEIGHT, SCR_WIDTH. lia.
Qed.

Definition game_texts (g : Game) (ls : list Letter) : list Text :=
  map letter_text ls ++ status_texts (key_code (keys g)) (hit (letters g)) (miss (letters g)) (real_fps g).

Lemma redraw_screen_ok g ls : letters_rep (letters g) ls → Forall visible ls → number (key_code (keys g)) →
  number (hit (letters g)) → number (miss (letters g)) → number (real_fps g) →
  ∃ s, redraw_screen g = Ok tt (set_screen s g) ∧ shows (game_texts g ls) (aget (vram s)).
Proof.
  intros Hr Hv Hc Hh Hm Hf. pose proof (rep_length _ _ Hr) as Hn. destruct Hr as (ps & fs & Hl & <-).
  destruct (lists_linked _ _ _ Hl) as [Hhd Hlk]. unfold redraw_screen, prepare_buffer.
  rewrite (bind_Ok _ _ _ _ _ (in_screen_Ok (modify _) g _ _ eq_refl)), bind_gets.
  set (b0 := memset _ _ _ _). change (set_screen (set_vbuf b0 (screen g)) g) with (on_buf b0 g). change (head (letters (on_buf b0 g))) with (head (letters g)). rewrite Hhd.
  assert (shows [] (aget b0)) as S0.
  { intros a Ha. unfold b0. rewrite aget_memset. rewrite Z2Nat.id by (unfold SCR_SIZE, SCR_WIDTH, SCR_HEIGHT; lia). now replace ((0 <=? a) && _) with true by lia. }
  destruct (draw_letters_ok ps list_fuel [] (on_buf b0 g)) as (b1 & E1 & S1); [intros k i Hk; apply (Hlk k i Hk)| |exact Hv|exact S0|].
  { unfold letters_of in Hn. rewrite length_map in Hn. unfold list_fuel, POOL_SIZE in *. lia. }
  rewrite (bind_Ok _ _ _ _ _ E1), bind_getS. change (set_screen _ (on_buf b0 g)) with (on_buf b1 g).
  change (keys (on_buf b1 g)) with (keys g). change (letters (on_buf b1 g)) with (letters g). change (real_fps (on_buf b1 g)) with (real_fps g).
  pose proof (status_fits _ _ _ _ Hc Hh Hm Hf) as Hfit. unfold game_texts, status_texts in *.
  repeat lazymatch type of Hfit with
  | Forall _ (_ :: _) => apply list.Forall_cons in Hfit as [?Ht Hfit]
  end.
  edestruct (draw_text_on (A := unit)) as (b2 & -> & S2); [exact Ht|exact S1|reflexivity|].
  edestruct (draw_text_on (A := unit)) as (b3 & -> & S3); [exact Ht0|exact S2|reflexivity|].
  edestruct (draw_text_on (A := unit)) as (b4 & -> & S4); [exact Ht1|exact S3|reflexivity|].
  edestruct (draw_text_on (A := unit)) as (b5 & -> & S5); [exact Ht2|exact S4|reflexivity|].
  edestruct (draw_text_on (A := unit)) as (b6 & -> & S6); [exact Ht3|exact S5|reflexivity|].
  eexists. split; [unfold display_buffer; rewrite (in_screen_Ok (modify _) _ _ _ eq_refl); unfold on_buf; destruct g; reflexivity|].
  cbn [vram set_vram]. intros a Ha. rewrite aget_memcpy. rewrite Z2Nat.id by done. 
  change (4 * (SCR_SIZE / 4)) with SCR_SIZE. replace ((0 <=? a) && (a <? 0 + SCR_SIZE)) with true by lia.
  rewrite Z.add_0_l, Z.sub_0_r. refine (eq_trans (S6 a Ha) _). now rewrite <- !app_assoc.
Qed.
End Game.
