(* ===== verification/GameSpec.v ===== *)
(** A game of any length: whatever keys are pressed, for any number of timer ticks an [int]
    counts, the typing game never fails, every letter leaves the screen within 453 ticks,
    at most 14 are shown, and every letter ever created is shown, hit or missed. *)
From stdpp Require Import strings.
From S2P Require Import Prelude Float GameScreen Typing TypingLists TypingSpec ScreenSpec RedrawSpec.
#[local] Open Scope Z_scope.

#[local] Abbreviation len l := (Z.of_nat (length l)).

(** * A letter's life *)

(** The greatest [x] of a letter on the screen: [int2F 200 - margin]. *)
Definition X_MAX : Z := 12589466.

(** Ticks left to a letter: those of its fall from [x] at the slowest, and of its rise from
    the bottom; or of its rise from [x]. *)
Definition ticks_left (l : Letter) : Z :=
  if 0 <? l_v l then (X_MAX - l_x l) / 32768 + 70 else l_x l / 196608 + 1.

(** A letter on the screen, [age] ticks after its creation. *)
Record alive (age : Z) (l : Letter) : Prop := {
  al_text : text_ok l;
  al_y : 8 <= l_y l <= 304;
  al_x : 0 <= l_x l <= X_MAX;
  al_v : 32768 <= l_v l <= 65503 ∨ l_v l = - 196608;
  al_age : ticks_left l + age <= 454
}.

Lemma alive_age age l : alive age l → age <= 453.
Proof. intros [_ _ Hx Hv Ha]. unfold ticks_left, X_MAX in *. destruct (Z.ltb_spec 0 (l_v l)); lia. Qed.

Lemma alive_new r1 r2 r3 : alive 0 (new_letter r1 r2 r3).
Proof.
  pose proof (fall_speed_range (r2 mod 1000) ltac:(apply Z.mod_pos_bound; done)) as Hv.
  pose proof (Z.mod_pos_bound r1 38 eq_refl). pose proof (Z.mod_pos_bound r3 26 eq_refl).
  split; unfold ticks_left, text_ok, X_MAX; cbn [new_letter l_x l_y l_text l_v]; [lia|lia|lia|now left|].
  replace (0 <? _) with true by (clear - Hv; lia). clear. lia.
Qed.

Lemma alive_struck age l : alive age l → 0 < l_v l → alive age (struck l).
Proof.
  intros [Ht Hy Hx Hv Ha] Hf. split; try done; [now right|]. unfold ticks_left, X_MAX in *. cbn [struck l_v l_x] in *.
  replace (0 <? l_v l) with true in Ha by lia. change (0 <? - 196608) with false. cbv iota. lia.
Qed.

Lemma alive_move age l : alive age l → gone (move l) = false → alive (age + 1) (move l).
Proof.
  intros [Ht Hy Hx Hv Ha] Hg. unfold gone, above, below in Hg. apply orb_false_iff in Hg as [Hg1 Hg2].
  change (int2F SCR_HEIGHT) with 13107200 in Hg2. unfold X_MAX, margin in *.
  assert (l_x (move l) = l_x l + l_v l) as Ex by (apply sgn_small; lia). rewrite Ex in Hg1, Hg2.
  assert (s32 (l_x l + l_v l + 517734) = l_x l + l_v l + 517734) as Em by (apply sgn_small; lia). rewrite Em in Hg2.
  split; try done; unfold X_MAX; rewrite ?Ex; [lia|]. unfold ticks_left, X_MAX in *. rewrite Ex. change (l_v (move l)) with (l_v l).
  destruct (Z.ltb_spec 0 (l_v l)); lia.
Qed.

Lemma alive_mono age age' l : age' <= age → alive age l → alive age' l.
Proof. intros H []; split; auto; lia. Qed.

(** [F2int] of a number that is not negative. *)
Lemma F2int_div x : 0 <= x < 2 ^ 31 → F2int x = x / 65536.
Proof.
  intros Hx. unfold F2int. change (u32 x) with (wrap 32 x). rewrite wrap_small by lia.
  assert (Z.land x 0xffff0000 = x / 65536 * 65536) as E.
  { change 65536 with (2 ^ 16). rewrite <- Z.shiftr_div_pow2, <- Z.shiftl_mul_pow2 by done. apply Z.bits_inj_iff'. intros k Hk.
    rewrite Z.land_spec, Z.shiftl_spec by done. change 0xffff0000 with (Z.shiftl (Z.ones 16) 16). rewrite Z.shiftl_spec by done.
    destruct (Z.ltb_spec k 16); [rewrite !(Z.testbit_neg_r _ (k - 16)) by lia; apply andb_false_r|].
    rewrite Z.shiftr_spec by lia. replace (k - 16 + 16) with k by lia. rewrite Z.testbit_ones by done.
    destruct (Z.ltb_spec (k - 16) 16); [now replace (0 <=? k - 16) with true by lia; rewrite andb_true_r|].
    rewrite (testbit_above 32 x k) by lia. reflexivity. }
  rewrite E, sgn_small by lia. rewrite Z.shiftr_div_pow2 by done. change (2 ^ 16) with 65536. lia.
Qed.

Lemma alive_visible age l : alive age l → visible l.
Proof.
  intros [Ht Hy Hx _ _]. unfold X_MAX in *. split; [done|]. rewrite F2int_div by lia. unfold SCR_HEIGHT, SCR_WIDTH. lia.
Qed.

(** * The letters of a game

    The newest letter, the first of the list, is [a] ticks old or older; each other is at
    least 33 ticks older than the one before it. *)
Fixpoint aged (a : Z) (ls : list Letter) : Prop :=
  match ls with [] => True | l :: ls => ∃ age, a <= age ∧ alive age l ∧ aged (age + 33) ls end.

Lemma aged_mono a a' ls : a' <= a → aged a ls → aged a' ls.
Proof. intros H. destruct ls as [|l ls]; [done|]. intros (age & Ha & Hl). exists age. split; [lia|done]. Qed.

Lemma aged_few a ls : 1 <= a → aged a ls → len ls <= 14.
Proof.
  assert (aged a ls → ls = [] ∨ a + 33 * (len ls - 1) <= 453) as H.
  { revert a. induction ls as [|l ls IH]; intros a; [now left|]. intros (age & Ha & Hl & Hls). right. pose proof (alive_age _ _ Hl).
    cbn [length]. destruct (IH _ Hls) as [->|Hn]; [cbn; lia|lia]. }
  intros Ha Hls. destruct (H Hls) as [->|]; [cbn; lia|lia].
Qed.

Lemma aged_forall a ls : 0 <= a → aged a ls → Forall (alive 0) ls.
Proof.
  revert a. induction ls as [|l ls IH]; intros a Ha; [constructor|]. intros (age & Hage & Hl & Hls).
  constructor; [apply (alive_mono age); [lia|done]|apply (IH (age + 33)); [lia|done]].
Qed.

Lemma aged_step a ls : aged a ls → aged (a + 1) (step_letters ls).
Proof.
  unfold step_letters. revert a. induction ls as [|l ls IH]; intros a; [done|]. intros (age & Ha & Hl & Hls).
  cbn [map List.filter]. specialize (IH _ Hls). destruct (gone (move l)) eqn:E; cbn [negb].
  - apply (aged_mono _ _ _) with (2 := IH). lia.
  - exists (age + 1). split; [lia|]. split; [now apply alive_move|]. now replace (age + 1 + 33) with (age + 33 + 1) by lia.
Qed.

Lemma aged_struck k a ls ls' : Forall2 (struck_by k) ls ls' → aged a ls → aged a ls'.
Proof.
  intros H. revert a. induction H as [|l l' ls ls' Hl _ IH]; intros a; [done|]. intros (age & Ha & Hal & Hls).
  exists age. split; [done|]. split; [|now apply IH]. destruct Hl as [->|[[Hv _]%andb_prop ->]]; [done|]. apply alive_struck; [done|lia].
Qed.

(** Every letter that leaves the list is counted once. *)
Lemma count_step ls h m : 0 <= h → 0 <= m → h + m + len ls < 2 ^ 31 →
  count_hits ls h + count_misses ls m + len (step_letters ls) = h + m + len ls ∧ 0 <= count_hits ls h ∧ 0 <= count_misses ls m.
Proof.
  unfold step_letters. revert h m. induction ls as [|l ls IH]; intros h m Hh Hm Hs; [cbn; lia|].
  rewrite count_hits_cons, count_misses_cons. cbn [map List.filter length] in *.
  change (gone (move l)) with (above (move l) || below (move l)).
  specialize (IH (inc_if (above (move l)) h) (inc_if (negb (above (move l)) && below (move l)) m)). unfold inc_if in *.
  assert (s32 (h + 1) = h + 1) as E1 by (apply sgn_small; lia). assert (s32 (m + 1) = m + 1) as E2 by (apply sgn_small; lia).
  rewrite E1, E2 in *.
  destruct (above (move l)), (below (move l)); cbn [orb andb negb length] in *; lia.
Qed.

Section Game.
Context `{HRand : !LibcRand}.

(** * The invariant of the main loop: before tick [t] is simulated *)
Definition since_birth (t : Z) : Z := (t - 1) mod 33 + 1.

Record playing (t : Z) (g : Game) (ls : list Letter) : Prop := {
  pl_rep : letters_rep (letters g) ls;
  pl_aged : aged (since_birth t) ls;
  pl_hit : 0 <= hit (letters g);
  pl_miss : 0 <= miss (letters g);
  pl_count : hit (letters g) + miss (letters g) + len ls = (t + 32) / 33;
  pl_fps : 0 <= real_fps g <= FPS;
  pl_code : 0 <= key_code (keys g) < 256
}.

Lemma playing_few t g ls : playing t g ls → len ls <= 14.
Proof.
  intros H. apply (aged_few (since_birth t)); [|exact (pl_aged _ _ _ H)].
  unfold since_birth. pose proof (Z.mod_pos_bound (t - 1) 33 eq_refl). lia.
Qed.

Lemma playing_alive t g ls : playing t g ls → Forall (alive 0) ls.
Proof.
  intros H. apply (aged_forall (since_birth t)); [|exact (pl_aged _ _ _ H)].
  unfold since_birth. pose proof (Z.mod_pos_bound (t - 1) 33 eq_refl). lia.
Qed.

(** Most frames since the frame rate was measured. *)
Definition frames (t : Z) : Z := (t - 1) mod 50 + 1.

Lemma set_letters_keys g : letters (set_keys (keys g) g) = letters g.
Proof. done. Qed.

(** What a tick leaves alone. *)
Definition same_time (g g' : Game) : Prop := tick g' = tick g ∧ ints g' = ints g ∧ port_out g' = port_out g.

Lemma create_playing t g ls : playing t g ls → 0 <= t → ∃ g' ls',
  (if t mod (HZ / CHARACTER_PER_SECOND) =? 0 then create_new_letter else mret tt) g = Ok tt g' ∧ same_time g g' ∧
  letters_rep (letters g') ls' ∧ aged (since_birth (t + 1) - 1) ls' ∧
  hit (letters g') = hit (letters g) ∧ miss (letters g') = miss (letters g) ∧
  hit (letters g') + miss (letters g') + len ls' = (t + 33) / 33 ∧ real_fps g' = real_fps g ∧ key_code (keys g') = key_code (keys g).
Proof.
  intros H Ht. change (HZ / CHARACTER_PER_SECOND) with 33. pose proof (pl_count _ _ _ H) as Hc. pose proof (playing_few _ _ _ H) as Hn.
  unfold since_birth. replace (t + 1 - 1) with t by lia. destruct (Z.eqb_spec (t mod 33) 0) as [E|E].
  - destruct (create_new_letter_ok g ls (pl_rep _ _ _ H)) as (s & Hs); [unfold POOL_SIZE; lia|].
    destruct (rand3 (g_rand g)) as [[[r1 r2] r3] st]. destruct Hs as (Er & Hr & Hh & Hm). do 2 eexists. split; [exact Er|].
    split; [done|]. split; [exact Hr|]. cbn [letters set_keys set_g_rand set_letters real_fps keys set_pressed key_code length].
    rewrite Hh, Hm. split; [|lia]. exists 0. split; [lia|]. split; [apply alive_new|].
    apply (aged_mono (since_birth t)); [unfold since_birth; lia|exact (pl_aged _ _ _ H)].
  - exists g, ls. split; [reflexivity|]. split; [done|]. split; [apply H|]. split; [|lia].
    apply (aged_mono (since_birth t)); [unfold since_birth; lia|exact (pl_aged _ _ _ H)].
Qed.

Lemma simulate_tick_ok t g ls l : playing t g ls → 0 <= t < 2 ^ 31 - 1 → now l = t → 0 <= num_draw l <= frames t → ∃ l' g' ls',
  simulate_tick l g = Ok l' g' ∧ playing (t + 1) g' ls' ∧ same_time g g' ∧ now l' = t + 1 ∧ 0 <= num_draw l' ∧ num_draw l' + 1 <= frames (t + 1).
Proof.
  intros H Ht Hl Hd. unfold simulate_tick. rewrite Hl. cbv zeta.
  destruct (create_playing t g ls H (proj1 Ht)) as (g1 & ls1 & E1 & (T1 & T2 & T3) & Hr1 & Ha1 & Hh1 & Hm1 & Hc1 & Hf1 & Hk1).
  rewrite (bind_Ok _ _ _ _ _ E1). change (HZ / UPDATE_PER_SECOND) with 1. rewrite Z.mod_1_r.
  destruct (update_letters_rep (letters g1) ls1 Hr1) as (s2 & E2 & Hr2 & Hh2 & Hm2).
  destruct (count_step ls1 (hit (letters g1)) (miss (letters g1))) as (Hc2 & Hp2 & Hq2); [rewrite Hh1; apply H|rewrite Hm1; apply H|rewrite Hc1; lia|].
  assert (update_letter_pos g1 = Ok tt (set_letters s2 g1)) as E3 by (unfold update_letter_pos; apply in_letters_Ok; exact E2).
  change (0 =? 0) with true. cbv iota. rewrite (bind_Ok _ _ _ _ _ E3).
  change (HZ / 2) with 50. set (g2 := set_letters s2 g1).
  assert (∀ fps, 0 <= fps <= FPS → playing (t + 1) (set_real_fps fps g2) (step_letters ls1)) as Hplay.
  { intros fps Hfps. split; [exact Hr2|apply (aged_mono (since_birth (t + 1) - 1 + 1)); [lia|now apply aged_step]| | | | exact Hfps|].
    - cbn. now rewrite Hh2.
    - cbn. now rewrite Hm2.
    - cbn. rewrite Hh2, Hm2, Hc2, Hc1. f_equal. lia.
    - change (0 <= key_code (keys g1) < 256). rewrite Hk1. apply H. }
  unfold frames. replace (t + 1 - 1) with t by lia. destruct (Z.eqb_spec (t mod 50) 0) as [E|E].
  - rewrite bind_bind, bind_modify, bind_ret. do 3 eexists. split; [reflexivity|]. split; [apply Hplay|].
    + unfold FPS. destruct (Z.ltb_spec 30 (num_draw l * 2 + 1)); lia.
    + split; [done|]. cbn [now num_draw]. lia.
  - rewrite bind_ret. do 3 eexists. split; [reflexivity|]. split.
    + assert (g2 = set_real_fps (real_fps g2) g2) as -> by now destruct g2. apply Hplay.
      change (real_fps g2) with (real_fps g1). rewrite Hf1. apply H.
    + split; [done|]. cbn [now num_draw]. split; [done|]. unfold frames in Hd. lia.
Qed.

Lemma simulate_ok n t g ls l : playing t g ls → 0 <= t → t + Z.of_nat n < 2 ^ 31 → now l = t → 0 <= num_draw l <= frames t → (n ≠ 0)%nat →
  ∃ l' g' ls', simulate n l g = Ok l' g' ∧ playing (t + Z.of_nat n) g' ls' ∧ same_time g g' ∧ now l' = t + Z.of_nat n ∧
    0 <= num_draw l' ∧ num_draw l' + 1 <= frames (t + Z.of_nat n).
Proof.
  revert t g ls l. induction n as [|n IH]; intros t g ls l H Ht Htn Hl Hd Hn; [done|]. cbn [simulate].
  destruct (simulate_tick_ok t g ls l H ltac:(lia) Hl Hd) as (l1 & g1 & ls1 & E1 & H1 & (T1 & T2 & T3) & Hl1 & Hd1 & Hd1').
  rewrite (bind_Ok _ _ _ _ _ E1). destruct (decide (n = 0%nat)) as [->|Hn0].
  - exists l1, g1, ls1. replace (t + Z.of_nat 1) with (t + 1) by lia. done.
  - destruct (IH (t + 1) g1 ls1 l1 H1 ltac:(lia) ltac:(lia) Hl1 ltac:(lia) Hn0) as (l' & g' & ls' & E & H' & (U1 & U2 & U3) & Hl' & Hd' & Hd'').
    exists l', g', ls'. replace (t + Z.of_nat (S n)) with (t + 1 + Z.of_nat n) by lia. split; [exact E|]. split; [exact H'|].
    split; [|done]. split; [congruence|]. split; congruence.
Qed.

(** * Interrupts *)
Definition irq_ok (i : irq) : Prop := match i with IrqTimer => True | IrqKey code => 0 <= code < 256 end.
Definition is_tick (i : irq) : bool := match i with IrqTimer => true | IrqKey _ => false end.
Definition ticks (l : list irq) : Z := len (List.filter is_tick l).

Lemma keyboard_event_ok code k : ∃ k', keyboard_event code k = Ok tt k' ∧ key_code k' = code.
Proof.
  unfold keyboard_event, press_key. rewrite bind_modify.
  destruct (for_ok (λ _ k', key_code k' = code) 26 0
    (λ i, if nth (Z.to_nat i) letter_code 0 =? code then modify (set_pressed i true) else mret tt) (set_key_code code k)) as (k' & E & H).
  - done.
  - intros i k1 _ H. destruct (nth (Z.to_nat i) letter_code 0 =? code); eexists; split; try reflexivity; exact H.
  - now exists k'.
Qed.

Lemma playing_ext t g g' ls : letters g' = letters g → real_fps g' = real_fps g → 0 <= key_code (keys g') < 256 →
  playing t g ls → playing t g' ls.
Proof. intros El Ef Hk []. split; try rewrite El; try rewrite Ef; assumption. Qed.

Lemma ticks_cons i l : ticks (i :: l) = (if is_tick i then 1 else 0) + ticks l.
Proof. unfold ticks. cbn [List.filter]. destruct (is_tick i); cbn [length]; lia. Qed.

Lemma ticks_nonneg l : 0 <= ticks l.
Proof. unfold ticks. lia. Qed.

Lemma wait_intr_ok events t g ls : Forall irq_ok events → playing t g ls → 0 <= tick g → tick g + ticks events < 2 ^ 31 → ∃ g',
  wait_intr events g = Ok tt g' ∧ playing t g' ls ∧ tick g' = tick g + ticks events ∧ ints g' = ints g ∧ port_out g' = port_out g.
Proof.
  intros He. revert g. induction He as [|i events Hi _ IH]; intros g H Ht Hn.
  { exists g. rewrite Z.add_0_r. done. }
  cbn [wait_intr]. rewrite ticks_cons in *. pose proof (ticks_nonneg events) as Hp. destruct i as [|code]; cbn [is_tick] in *.
  - unfold timer_event. rewrite bind_modify. rewrite sgn_small by lia.
    destruct (IH (set_tick (tick g + 1) g)) as (g' & E & H' & T); [apply (playing_ext t g); try done; apply H|cbn; lia|cbn; lia|].
    exists g'. split; [exact E|]. split; [exact H'|]. cbn in T. split; [lia|apply T].
  - destruct (keyboard_event_ok code (keys g)) as (k & E & Ek). rewrite (bind_Ok _ _ _ _ _ (in_keys_Ok _ _ _ _ E)).
    destruct (IH (set_keys k g)) as (g' & E' & H' & T); [apply (playing_ext t g); try done; cbn; now rewrite Ek|cbn; lia|cbn; lia|].
    exists g'. split; [exact E'|]. split; [exact H'|]. cbn in T. split; [lia|apply T].
Qed.

(** * Rounds of the main loop *)
Record between_rounds (l : Loop) (g : Game) (ls : list Letter) : Prop := {
  br_playing : playing (now l) g ls;
  br_now : now l = tick g;
  br_nonneg : 0 <= now l;
  br_ints : ints g = true;
  br_frames : 0 <= num_draw l <= frames (now l)
}.

Lemma FPS_number x : 0 <= x < 2 ^ 31 → number x.
Proof. unfold number. lia. Qed.

Lemma playing_redraw t g ls : playing t g ls → 0 <= t < 2 ^ 31 → ∃ s, redraw_screen g = Ok tt (set_screen s g) ∧ shows (game_texts g ls) (aget (vram s)).
Proof.
  intros H Ht. pose proof (pl_count _ _ _ H). pose proof (pl_hit _ _ _ H). pose proof (pl_miss _ _ _ H). pose proof (pl_fps _ _ _ H) as Hf.
  pose proof (pl_code _ _ _ H). unfold FPS in Hf. apply redraw_screen_ok; try (apply FPS_number; lia).
  - apply H.
  - apply (list.Forall_impl (alive 0)); [exact (playing_alive _ _ _ H)|]. intros l. apply alive_visible.
Qed.

Lemma alive_text ls : Forall (alive 0) ls → Forall text_ok ls ∧ Forall (λ l, min0 < l_x l) ls.
Proof.
  intros H. split; apply (list.Forall_impl (alive 0)); try done; intros l [Ht _ Hx _ _]; [done|]. unfold min0, X_MAX in *. lia.
Qed.

Lemma main_round_ok events l g ls : Forall irq_ok events → between_rounds l g ls → tick g + ticks events < 2 ^ 31 → ∃ l' g' ls',
  main_round events l g = Ok l' g' ∧ between_rounds l' g' ls' ∧ tick g' = tick g + ticks events ∧ port_out g' = port_out g.
Proof.
  intros He [Hp Hnow H0 Hi Hd] Hn. unfold main_round.
  destruct (wait_intr_ok events (now l) g ls He Hp ltac:(lia) Hn) as (g1 & E1 & H1 & T1 & I1 & P1).
  rewrite (bind_Ok _ _ _ _ _ E1). unfold cli, sti. rewrite bind_modify, bind_gets. change (tick (set_ints false g1)) with (tick g1).
  pose proof (ticks_nonneg events) as Ht. rewrite T1. rewrite <- Hnow in *. destruct (Z.eqb_spec (now l) (now l + ticks events)) as [E|E].
  { rewrite bind_modify. change (set_ints true (set_ints false g1)) with (set_ints true g1). exists l, (set_ints true g1), ls. split; [reflexivity|].
    split; [split; try done; [apply (playing_ext _ g1); try done; apply H1|cbn; lia]|]. split; [cbn; lia|done]. }
  rewrite bind_cassert by lia. cbv zeta. rewrite bind_modify. change (set_ints true (set_ints false g1)) with (set_ints true g1).
  destruct (alive_text ls (playing_alive _ _ _ H1)) as [Htx Hmin].
  destruct (keypress_loop_ok (S list_fuel) (set_ints true g1) ls (pl_rep _ _ _ H1) Htx Hmin) as (s2 & k2 & ls2 & E2 & Hr2 & Hst & _ & Hk2 & Hh2 & Hm2).
  { pose proof (playing_few _ _ _ H1). unfold falling. pose proof (List.filter_length_le (λ l0, 0 <? l_v l0) ls). unfold list_fuel. lia. }
  rewrite (bind_Ok _ _ _ _ _ E2). set (g2 := set_letters s2 _).
  assert (playing (now l) g2 ls2) as H2.
  { split; try exact Hr2.
    - apply (aged_struck _ _ _ _ Hst), H1.
    - change (0 <= hit s2). rewrite Hh2. apply H1.
    - change (0 <= miss s2). rewrite Hm2. apply H1.
    - change (hit s2 + miss s2 + len ls2 = (now l + 32) / 33). rewrite Hh2, Hm2. pose proof (list.Forall2_length _ _ _ Hst) as El.
      rewrite <- El. exact (pl_count _ _ _ H1).
    - exact (pl_fps _ _ _ H1).
    - change (0 <= key_code k2 < 256). rewrite Hk2. exact (pl_code _ _ _ H1). }
  replace (now l + ticks events - now l) with (ticks events) by lia.
  destruct (simulate_ok (Z.to_nat (ticks events)) (now l) g2 ls2 (mkLoop (now l) (num_draw l) false) H2 H0) as
    (l3 & g3 & ls3 & E3 & H3 & (T3 & I3 & P3) & Hl3 & Hd3 & Hd3'); [lia|done|exact Hd|lia|].
  rewrite Z2Nat.id in * by done. rewrite (bind_Ok _ _ _ _ _ E3).
  change (tick g2) with (tick g1) in T3. change (ints g2) with true in I3. change (port_out g2) with (port_out g1) in P3.
  destruct (redraw l3).
  - destruct (playing_redraw _ _ _ H3 ltac:(lia)) as (s4 & E4 & _). rewrite (bind_Ok _ _ _ _ _ E4).
    do 3 eexists. split; [reflexivity|]. split; [|split; [cbn; lia|cbn; congruence]].
    split; cbn [now num_draw tick set_screen ints]; [rewrite Hl3; apply (playing_ext _ g3); try done; apply H3|lia|lia|done|rewrite Hl3; lia].
  - exists l3, g3, ls3. split; [reflexivity|]. split; [split; [now rewrite Hl3|lia|lia|done|rewrite Hl3; lia]|]. split; [lia|congruence].
Qed.

Lemma letters0_rep : letters_rep letters0 [].
Proof. exists [], all_nodes. split; [|done]. right. split; [done|]. split; [done|]. done. Qed.

Lemma game0_playing : playing 0 game0 [].
Proof. split; [exact letters0_rep|done..]. Qed.

Lemma main_rounds_ok rounds l g ls : Forall (Forall irq_ok) rounds → between_rounds l g ls → tick g + ticks (concat rounds) < 2 ^ 31 →
  ∃ l' g' ls', main_rounds rounds l g = Ok l' g' ∧ between_rounds l' g' ls' ∧ tick g' = tick g + ticks (concat rounds) ∧ port_out g' = port_out g.
Proof.
  intros Hr. revert l g ls. induction Hr as [|events rounds He _ IH]; intros l g ls H Hn.
  { exists l, g, ls. cbn [concat]. rewrite Z.add_0_r. done. }
  cbn [concat main_rounds] in *. assert (ticks (events ++ concat rounds) = ticks events + ticks (concat rounds)) as Et
    by (unfold ticks; rewrite List.filter_app, length_app; lia).
  rewrite Et in *. pose proof (ticks_nonneg (concat rounds)).
  destruct (main_round_ok events l g ls He H ltac:(lia)) as (l1 & g1 & ls1 & E1 & H1 & T1 & P1).
  rewrite (bind_Ok _ _ _ _ _ E1). destruct (IH l1 g1 ls1 H1 ltac:(lia)) as (l2 & g2 & ls2 & E2 & H2 & T2 & P2).
  exists l2, g2, ls2. split; [exact E2|]. split; [exact H2|]. split; [lia|congruence].
Qed.

(** The bytes [init_timer] sends: mode 2 of counter 0, then 11931, the low byte first. *)
Definition timer_setup : list (Z * Z) := [(0x40, 46); (0x40, 155); (0x43, 0x34)].

(** C36: The typing game never fails, whatever keys are pressed, for any number of rounds of
    the main loop and as many timer ticks as an [int] counts.  Every tick has been
    simulated at the end of a round, with the interrupts on; there are then at most 14
    letters, all on the screen; every letter created (one each 33 ticks) is still shown,
    hit or missed; at most 50 frames were drawn since the frame rate was last measured, so
    that no counter overflows. *)
Theorem typing_never_fails rounds : Forall (Forall irq_ok) rounds → ticks (concat rounds) < 2 ^ 31 → ∃ l g ls,
  game_main rounds game0 = Ok l g ∧
  now l = ticks (concat rounds) ∧ tick g = ticks (concat rounds) ∧ ints g = true ∧ port_out g = timer_setup ∧
  letters_rep (letters g) ls ∧ len ls <= 14 ∧ Forall visible ls ∧
  0 <= hit (letters g) ∧ 0 <= miss (letters g) ∧ hit (letters g) + miss (letters g) + len ls = (ticks (concat rounds) + 32) / 33 ∧
  0 <= num_draw l <= 50 ∧ 0 <= real_fps g <= FPS.
Proof.
  intros Hr Hn. unfold game_main. rewrite (bind_Ok init_timer _ game0 tt (set_port_out timer_setup game0) eq_refl).
  destruct (main_rounds_ok rounds loop0 (set_port_out timer_setup game0) [] Hr) as (l & g & ls & E & [Hp Hnow H0 Hi Hd] & T & P).
  - split; [apply (playing_ext 0 game0); try done; exact game0_playing|done|done|done|done].
  - exact Hn.
  - change (tick (set_port_out _ game0)) with 0 in T. rewrite Z.add_0_l in T. exists l, g, ls. split; [exact E|].
    pose proof (pl_count _ _ _ Hp) as Hc. rewrite Hnow, T in Hc. split; [congruence|]. split; [exact T|]. split; [exact Hi|]. split; [exact P|].
    split; [apply Hp|]. split; [exact (playing_few _ _ _ Hp)|].
    split; [apply (list.Forall_impl (alive 0)); [exact (playing_alive _ _ _ Hp)|intros x; apply alive_visible]|].
    split; [apply Hp|]. split; [apply Hp|]. split; [exact Hc|]. split; [|apply Hp].
    unfold frames in Hd. pose proof (Z.mod_pos_bound (now l - 1) 50 eq_refl). lia.
Qed.

(** C38: After [redraw_screen] the screen memory is the picture of the game, byte for byte:
    black, then each letter at its place, the code of the last key, the hits, the misses
    and the frame rate, each drawn over what came before it. *)
Theorem redraw_screen_shows t g ls : playing t g ls → 0 <= t < 2 ^ 31 → ∃ s,
  redraw_screen g = Ok tt (set_screen s g) ∧
  ∀ a, 0 <= a < SCR_SIZE → aget (vram s) a = picture (λ _, 0)
    (map letter_text ls ++ status_texts (key_code (keys g)) (hit (letters g)) (miss (letters g)) (real_fps g)) a.
Proof. intros H Ht. exact (playing_redraw t g ls H Ht). Qed.

(** C37: On the letters, the doubly linked lists of the game are plain lists, newest first.
    [create_new_letter] puts a letter in front, at the top of the screen, and releases its
    key; [update_letter_pos] moves all of them, drops those that leave the screen and
    counts each as hit or missed; [update_keypress] strikes the lowest letter that falls
    and whose key is pressed, and finds none only when there is none;
    [while (update_keypress());] ends, with the interrupts on, when there is none left. *)
Theorem letters_refine_list t g ls : playing t g ls →
  (∃ s, let '(r1, r2, r3, st) := rand3 (g_rand g) in
    create_new_letter g = Ok tt (set_keys (set_pressed (r3 mod 26) false (keys g)) (set_g_rand st (set_letters s g))) ∧
    letters_rep s (new_letter r1 r2 r3 :: ls)) ∧
  (∃ s, update_letter_pos g = Ok tt (set_letters s g) ∧ letters_rep s (step_letters ls) ∧
    hit s = count_hits ls (hit (letters g)) ∧ miss s = count_misses ls (miss (letters g))) ∧
  ((∃ ls1 l ls2 s, ls = ls1 ++ l :: ls2 ∧ wanted (keys g) l = true ∧ (∀ l', l' ∈ ls → wanted (keys g) l' = true → l_x l' <= l_x l) ∧
      update_keypress g = Ok true (set_letters s (set_keys (set_pressed (l_text l) false (keys g)) (set_ints false g))) ∧
      letters_rep s (ls1 ++ struck l :: ls2)) ∨
    ((∀ l, l ∈ ls → wanted (keys g) l = false) ∧ update_keypress g = Ok false (set_ints true g))) ∧
  (∃ s k ls', keypress_loop (S list_fuel) g = Ok tt (set_letters s (set_keys k (set_ints true g))) ∧
    letters_rep s ls' ∧ Forall2 (struck_by (keys g)) ls ls' ∧ ∀ l, l ∈ ls' → wanted k l = false).
Proof.
  intros H. pose proof (playing_few _ _ _ H) as Hn. destruct (alive_text ls (playing_alive _ _ _ H)) as [Ht Hx]. split; [|split; [|split]].
  - destruct (create_new_letter_ok g ls (pl_rep _ _ _ H)) as (s & Hs); [unfold POOL_SIZE; lia|]. exists s.
    destruct (rand3 (g_rand g)) as [[[r1 r2] r3] st]. tauto.
  - destruct (update_letters_rep _ _ (pl_rep _ _ _ H)) as (s & E & Hs). exists s. split; [|exact Hs].
    unfold update_letter_pos. apply in_letters_Ok. exact E.
  - destruct (update_keypress_ok g ls (pl_rep _ _ _ H) Ht Hx) as [(ls1 & l & ls2 & s & E & Hw & Hm & Er & Hs & _)|]; [left|now right].
    exists ls1, l, ls2, s. auto.
  - destruct (keypress_loop_ok (S list_fuel) g ls (pl_rep _ _ _ H) Ht Hx) as (s & k & ls' & E & Hs & Hst & Hno & _).
    + unfold falling. pose proof (List.filter_length_le (λ l0, 0 <? l_v l0) ls). unfold list_fuel. lia.
    + exists s, k, ls'. auto.
Qed.
End Game.

(** * The theorems at concrete inputs *)
Section Witness.
#[local] Existing Instance IsoRand.

(** Two rounds: A is pressed in the first. *)
Definition two_rounds : list (list irq) := [[IrqTimer; IrqKey 30; IrqTimer]; []; [IrqTimer; IrqKey 0x9e]].

Lemma typing_never_fails_witness : Forall (Forall irq_ok) two_rounds ∧ ∃ l g ls,
  game_main two_rounds game0 = Ok l g ∧ tick g = 3 ∧ letters_rep (letters g) ls ∧ hit (letters g) + miss (letters g) + len ls = 1.
Proof.
  assert (Forall (Forall irq_ok) two_rounds) as Hr by (repeat constructor; cbn; lia). split; [exact Hr|].
  destruct (typing_never_fails two_rounds Hr ltac:(reflexivity)) as (l & g & ls & E & _ & Ht & _ & _ & Hl & _ & _ & _ & _ & Hc & _).
  exists l, g, ls. split; [exact E|]. split; [exact Ht|]. split; [exact Hl|]. exact Hc.
Defined.

(** After the first tick. *)
Definition first_tick : Prop := ∃ l g ls, simulate_tick loop0 game0 = Ok l g ∧ playing 1 g ls.
Lemma first_tick_ok : first_tick.
Proof.
  destruct (simulate_tick_ok 0 game0 [] loop0 game0_playing) as (l & g & ls & E & H & _); [lia|done|done|]. exists l, g, ls. split; [exact E|exact H].
Qed.

Lemma redraw_screen_shows_witness : ∃ l g ls s, simulate_tick loop0 game0 = Ok l g ∧ playing 1 g ls ∧
  redraw_screen g = Ok tt (set_screen s g) ∧ aget (vram s) 0 = picture (λ _, 0)
    (map letter_text ls ++ status_texts (key_code (keys g)) (hit (letters g)) (miss (letters g)) (real_fps g)) 0.
Proof.
  destruct first_tick_ok as (l & g & ls & E & H). destruct (redraw_screen_shows 1 g ls H ltac:(lia)) as (s & Er & Hs).
  exists l, g, ls, s. split; [exact E|]. split; [exact H|]. split; [exact Er|]. exact (Hs 0 (conj (Z.le_refl 0) eq_refl)).
Defined.

Lemma letters_refine_list_witness : ∃ l g ls, simulate_tick loop0 game0 = Ok l g ∧ playing 1 g ls ∧
  ∃ s, update_letter_pos g = Ok tt (set_letters s g) ∧ letters_rep s (step_letters ls).
Proof.
  destruct first_tick_ok as (l & g & ls & E & H). destruct (letters_refine_list 1 g ls H) as (_ & (s & Es & Hs & _) & _).
  exists l, g, ls. split; [exact E|]. split; [exact H|]. exists s. split; [exact Es|exact Hs].
Defined.
End Witness.
