(* ===== verification/Palette.v ===== *)
(** The guest games' palette driver: [game/src/common/device/palette.c], over the ports of
    [game/include/x86.h]. *)
From S2P Require Import Prelude Machine Devices KernelIO.

(** * palette.c *)
Definition NR_PALETTE_ENTRY : Z := 256.
Definition DAC_READ_INDEX : Z := 0x3C7.
Definition DAC_WRITE_INDEX : Z := 0x3C8.
Definition DAC_DATA : Z := 0x3C9.

Section Palette.
Context {S : Type} `{HP : !Ports S}.

(** [colors] is the array's bytes, four to an entry. *)
Definition write_palette (colors : Z → Z) (nr_color : Z) : M S unit :=
  _ ← out_byte DAC_WRITE_INDEX 0;
  for_ (Z.to_nat nr_color) 0 (λ i,
    _ ← out_byte DAC_DATA (Z.shiftr (colors (4 * i)) 2);
    _ ← out_byte DAC_DATA (Z.shiftr (colors (4 * i + 1)) 2);
    out_byte DAC_DATA (Z.shiftr (colors (4 * i + 2)) 2)).

(** The colours printed, in order. *)
Fixpoint read_entries (n : nat) : M S (list (Z * Z * Z)) :=
  match n with
  | O => mret []
  | Datatypes.S n =>
    r ← in_byte DAC_DATA;
    g ← in_byte DAC_DATA;
    b ← in_byte DAC_DATA;
    l ← read_entries n;
    mret ((r, g, b) :: l)
  end.
Definition read_palette : M S (list (Z * Z * Z)) :=
  _ ← out_byte DAC_READ_INDEX 0;
  read_entries (Z.to_nat NR_PALETTE_ENTRY).
End Palette.
