(* ===== verification/PaletteSpec.v ===== *)
(** The guest games' palette driver on the emulated VGA: [write_palette] loads the
    emulator's palette, the window's palette when it is complete, and [read_palette] reads
    something else. *)
From S2P Require Import Prelude Dram Cache Tlb Cpu I8259 Mmio Vga WpPool Machine Memory Devices.
From S2P Require Import DemoMachine KernelIO IdeSpec Palette.

Section Palette.
Context `{HRand : !LibcRand, HJunk : !StackJunk}.

Lemma out_byte_run p v s : 0 <= p < PORT_IO_SPACE_MAX → PORT_IO_SPACE_MAX <= 65536 →
  out_byte p v s = pio_callback pio pio_callback_fn p 1 true (set_pio (pio_set p v (pio s)) s).
Proof using.
  intros Hp Hmax. unfold out_byte, machine_ports, pio_out, pio_write. rewrite (wrap_small 16) by lia.
  rewrite !bind_cassert by lia. rewrite bind_modify. do 4 f_equal. change (Z.to_nat 1) with 1%nat. unfold pio_set. f_equal.
  cbn [le_store]. f_equal. unfold wrap. change (2 ^ 8) with 256. now rewrite Z.mod_mod.
Qed.

Lemma dac_callback s addr w : pio_maps (pio s) = device_ports → addr = DAC_WRITE_INDEX ∨ addr = DAC_DATA →
  pio_callback pio pio_callback_fn addr 1 w s =
  in_vga (vga_dac_io_handler (pio_get (pio s) DAC_WRITE_INDEX) (pio_get (pio s) DAC_DATA) addr w) s.
Proof using.
  intros Hm Ha. unfold pio_callback. rewrite bind_gets, Hm. unfold device_ports. cbn [pio_callback_in pm_low pm_high pm_callback].
  destruct Ha as [-> | ->]; reflexivity.
Qed.

(** One byte of a colour. *)
Definition dac_next (v : Vga) (p : Z) : Z := if (p + 1 - sdl_colors v) mod 4 =? 3 then p + 2 else p + 1.

Lemma out_data s v p : pio_maps (pio s) = device_ports → color_ptr (vga s) = Some p → p < 1024 → 0 <= v < 64 →
  out_byte DAC_DATA v s = Ok tt (set_vga (vga_set_dac (aset p (4 * v) (palette (vga s))) (Some (dac_next (vga s) p)) (vga s))
    (set_pio (pio_set DAC_DATA v (pio s)) s)).
Proof using.
  intros Hm Hc Hp Hv. rewrite out_byte_run by done. rewrite dac_callback by (done || now right).
  unfold vga_dac_io_handler, in_vga, zoom. change (DAC_DATA =? VGA_DAC_WRITE_INDEX) with false. change (DAC_DATA =? VGA_DAC_DATA) with true.
  cbn [andb]. rewrite bind_getS. change (vga (set_pio _ s)) with (vga s). rewrite Hc. replace (1024 <=? p) with false by lia.
  assert (pio_get (pio (set_pio (pio_set DAC_DATA v (pio s)) s)) DAC_DATA = v) as ->.
  { unfold pio_get, pio_set. cbn [pio set_pio pio_space]. rewrite aget_aset_eq. apply wrap_small. lia. }
  rewrite Z.shiftl_mul_pow2, (wrap_small 8) by lia. change (2 ^ 2) with 4. rewrite (Z.mul_comm v 4).
  change 3 with (Z.ones 2) at 1. rewrite Z.land_ones by done. change (2 ^ 2) with 4. unfold dac_next.
  now replace (p + 1 + 1) with (p + 2) by lia.
Qed.

(** [s] with the given palette, next byte of it and ports. *)
Definition dac_state (pal : arr Z) (p : Z) (b : Pio pio_cb) (s : Machine) : Machine :=
  set_vga (vga_set_dac pal (Some p) (vga s)) (set_pio b s).

Lemma out_data_state v pal p b s : sdl_colors (vga s) mod 4 = 0 → pio_maps b = device_ports → p < 1024 → 0 <= v < 64 →
  out_byte DAC_DATA v (dac_state pal p b s) =
  Ok tt (dac_state (aset p (4 * v) pal) (if p mod 4 =? 2 then p + 2 else p + 1) (pio_set DAC_DATA v b) s).
Proof using.
  intros Hs Hb Hp Hv. rewrite (out_data _ v p) by done. unfold dac_next. cbn [dac_state vga set_vga set_pio sdl_colors vga_set_dac].
  replace ((p + 1 - sdl_colors (vga s)) mod 4 =? 3) with (p mod 4 =? 2) by lia. now destruct s.
Qed.

Lemma shiftr_2 c : 0 <= c < 256 → Z.shiftr c 2 = c / 4 ∧ 0 <= c / 4 < 64.
Proof using. intros Hc. rewrite Z.shiftr_div_pow2 by done. change (2 ^ 2) with 4. split; [done|]. clear - Hc. lia. Qed.

(** The bytes of the first [n] entries, their last two bits cleared. *)
Definition loaded (colors : Z → Z) (n : Z) (old pal : Z → Z) : Prop := ∀ a,
  pal a = if (0 <=? a) && (a <? 4 * n) && negb (a mod 4 =? 3) then colors a / 4 * 4 else old a.

Lemma loaded_entry colors i old pal : 0 <= i → loaded colors i old (aget pal) →
  loaded colors (i + 1) old (aget (aset (4 * i + 2) (4 * (colors (4 * i + 2) / 4))
    (aset (4 * i + 1) (4 * (colors (4 * i + 1) / 4)) (aset (4 * i) (4 * (colors (4 * i) / 4)) pal)))).
Proof using.
  intros Hi H a. rewrite !aget_aset, (H a).
  destruct (Z.eqb_spec (4 * i + 2) a) as [<-|]; [replace (_ && _) with true by lia; lia|].
  destruct (Z.eqb_spec (4 * i + 1) a) as [<-|]; [replace (_ && _) with true by lia; lia|].
  destruct (Z.eqb_spec (4 * i) a) as [<-|]; [replace (_ && _) with true by lia; lia|].
  now replace ((0 <=? a) && (a <? 4 * (i + 1)) && negb (a mod 4 =? 3)) with ((0 <=? a) && (a <? 4 * i) && negb (a mod 4 =? 3)) by lia.
Qed.

Lemma write_palette_run colors n s : is_bytes colors → 0 <= n <= 256 → pio_maps (pio s) = device_ports → sdl_colors (vga s) mod 4 = 0 →
  ∃ pal b, write_palette colors n s = Ok tt (dac_state pal (4 * n) b s) ∧ loaded colors n (aget (palette (vga s))) (aget pal) ∧
    pio_maps b = device_ports ∧ (0 < n → pio_get b DAC_DATA = colors (4 * n - 2) / 4).
Proof using.
  intros Hc Hn Hm Hs. unfold write_palette.
  assert (out_byte DAC_WRITE_INDEX 0 s = Ok tt (dac_state (palette (vga s)) 0 (pio_set DAC_WRITE_INDEX 0 (pio s)) s)) as E.
  { rewrite out_byte_run by done. rewrite dac_callback by (done || now left).
    unfold vga_dac_io_handler, in_vga, zoom. change ((DAC_WRITE_INDEX =? VGA_DAC_WRITE_INDEX) && true) with true. cbv iota.
    assert (pio_get (pio (set_pio (pio_set DAC_WRITE_INDEX 0 (pio s)) s)) DAC_WRITE_INDEX = 0) as ->.
    { unfold pio_get, pio_set. cbn [pio set_pio pio_space]. now rewrite aget_aset_eq. }
    reflexivity. }
  rewrite (bind_Ok _ _ _ _ _ E).
  match goal with |- context [for_ _ 0 ?f] => set (body := f) end.
  destruct (for_ok (λ i s', ∃ pal b, s' = dac_state pal (4 * i) b s ∧ loaded colors i (aget (palette (vga s))) (aget pal) ∧
    pio_maps b = device_ports ∧ (0 < i → pio_get b DAC_DATA = colors (4 * i - 2) / 4)) (Z.to_nat n) 0 body
    (dac_state (palette (vga s)) 0 (pio_set DAC_WRITE_INDEX 0 (pio s)) s)) as (s' & Er & pal & b & -> & H).
  - eexists _, _. split; [reflexivity|]. split; [|split; [exact Hm|lia]]. intros a. now replace (_ && _) with false by lia.
  - intros i s1 Hi (pal & b & -> & Hl & Hb & _). unfold body.
    destruct (shiftr_2 _ (Hc (4 * i))) as [-> H0], (shiftr_2 _ (Hc (4 * i + 1))) as [-> H1], (shiftr_2 _ (Hc (4 * i + 2))) as [-> H2].
    rewrite (bind_Ok _ _ _ _ _ (out_data_state _ pal (4 * i) b s Hs Hb ltac:(lia) H0)). replace (4 * i mod 4 =? 2) with false by lia. cbv iota.
    rewrite (bind_Ok _ _ _ _ _ (out_data_state _ _ (4 * i + 1) (pio_set DAC_DATA (colors (4 * i) / 4) b) s Hs Hb ltac:(lia) H1)). replace ((4 * i + 1) mod 4 =? 2) with false by lia. cbv iota.
    replace (4 * i + 1 + 1) with (4 * i + 2) by lia.
    rewrite (out_data_state _ _ (4 * i + 2) (pio_set DAC_DATA (colors (4 * i + 1) / 4) (pio_set DAC_DATA (colors (4 * i) / 4) b)) s Hs Hb ltac:(lia) H2). replace ((4 * i + 2) mod 4 =? 2) with true by lia. cbv iota.
    replace (4 * i + 2 + 2) with (4 * (i + 1)) by lia. eexists. split; [reflexivity|]. eexists _, _. split; [reflexivity|].
    split; [apply loaded_entry; [lia|done]|]. split; [exact Hb|]. intros _. unfold pio_get, pio_set. cbn [pio_space].
    rewrite aget_aset_eq. replace (4 * (i + 1) - 2) with (4 * i + 2) by lia. apply wrap_small. lia.
  - rewrite Z2Nat.id, Z.add_0_l in H by lia. rewrite Z2Nat.id, Z.add_0_l in Er by lia. exists pal, b. now split.
Qed.

(** * Reading *)
Lemma in_data s : pio_maps (pio s) = device_ports → 0 <= pio_get (pio s) DAC_DATA < 256 → in_byte DAC_DATA s = Ok (pio_get (pio s) DAC_DATA) s.
Proof using.
  intros Hm Hb. unfold in_byte, machine_ports, pio_in, pio_read. change (u16 DAC_DATA) with DAC_DATA. rewrite !bind_cassert by reflexivity.
  assert (pio_callback pio pio_callback_fn DAC_DATA 1 false s = Ok tt s) as E.
  { rewrite dac_callback by (done || now right). unfold vga_dac_io_handler. rewrite !andb_false_r. unfold in_vga, zoom. now destruct s. }
  rewrite (bind_Ok _ _ _ _ _ E), bind_gets. unfold mret, M_ret. f_equal. rewrite land_len_mask by lia. cbn [le_load]. change (256 ^ 1) with 256.
  rewrite (Z.mul_comm 256), Z_mod_plus_full. apply Z.mod_small. exact Hb.
Qed.

Lemma read_entries_run n s v : pio_maps (pio s) = device_ports → pio_get (pio s) DAC_DATA = v → 0 <= v < 256 →
  read_entries n s = Ok (repeat (v, v, v) n) s.
Proof using.
  intros Hm Hv Hr. induction n as [|n IH]; [reflexivity|]. cbn [read_entries repeat].
  assert (in_byte DAC_DATA s = Ok v s) as E by (rewrite <- Hv in Hr |- *; now apply in_data).
  rewrite !(bind_Ok _ _ _ _ _ E). now rewrite (bind_Ok _ _ _ _ _ IH).
Qed.

(** C39: On the emulated VGA, [write_palette] of [n] colours loads entries [0] to [n - 1] of
    the emulator's palette with the colours, to six bits a component, and changes no other
    entry; but what [read_palette] prints then is, for each of its 256 entries, the last
    byte written: the DAC's read index is not emulated. *)
Theorem palette_write_read colors n s : is_bytes colors → 0 < n <= 256 → pio_maps (pio s) = device_ports → sdl_colors (vga s) mod 4 = 0 →
  ∃ s' s'', write_palette colors n s = Ok tt s' ∧
    (∀ a, aget (palette (vga s')) a =
      if (0 <=? a) && (a <? 4 * n) && negb (a mod 4 =? 3) then colors a / 4 * 4 else aget (palette (vga s)) a) ∧
    (let v := colors (4 * n - 2) / 4 in read_palette s' = Ok (repeat (v, v, v) 256) s'') ∧ vga s'' = vga s'.
Proof using.
  intros Hc Hn Hm Hs. destruct (write_palette_run colors n s Hc ltac:(lia) Hm Hs) as (pal & b & E & Hl & Hb & Hv).
  exists (dac_state pal (4 * n) b s), (set_pio (pio_set DAC_READ_INDEX 0 b) (dac_state pal (4 * n) b s)).
  split; [exact E|]. split; [exact Hl|]. split; [|now destruct s]. cbv zeta. unfold read_palette.
  assert (out_byte DAC_READ_INDEX 0 (dac_state pal (4 * n) b s) = Ok tt (set_pio (pio_set DAC_READ_INDEX 0 b) (dac_state pal (4 * n) b s))) as Ei.
  { rewrite out_byte_run by done. unfold pio_callback. rewrite bind_gets. unfold dac_state. cbn [pio set_pio set_vga pio_maps pio_set]. rewrite Hb. reflexivity. }
  rewrite (bind_Ok _ _ _ _ _ Ei). change (Z.to_nat NR_PALETTE_ENTRY) with 256%nat. destruct (shiftr_2 _ (Hc (4 * n - 2))) as [_ Hr].
  apply read_entries_run; [exact Hb| |lia]. rewrite <- (Hv ltac:(lia)).
  unfold pio_get, pio_set. cbn [pio set_pio pio_space]. now rewrite aget_aset_ne.
Qed.
End Palette.

#[local] Existing Instance IsoRand.
#[local] Existing Instance ZeroJunk.

(** One colour, on the machine as it boots. *)
Definition one_color (a : Z) : Z := if a =? 0 then 0xff else if a =? 1 then 0x81 else 0.

Lemma palette_write_read_witness : ∃ s' s'', write_palette one_color 1 boot_machine = Ok tt s' ∧
  aget (palette (vga s')) 0 = 0xfc ∧ aget (palette (vga s')) 1 = 0x80 ∧ read_palette s' = Ok (repeat (0, 0, 0) 256) s''.
Proof.
  destruct (palette_write_read one_color 1 boot_machine) as (s' & s'' & E & Hp & Hr & _).
  - intros a. unfold one_color. destruct (a =? 0), (a =? 1); lia.
  - lia.
  - vm_compute. reflexivity.
  - vm_compute. reflexivity.
  - exists s', s''. split; [exact E|]. rewrite !Hp. split; [reflexivity|]. split; [reflexivity|exact Hr].
Defined.
